(** * Prombench Kubernetes provider: manifests, templates, reconciliation

    A shallow embedding of the Kubernetes provider of prombench
    ([provider/k8s/k8s.go] and its successor [pkg/provider/k8s/k8s.go]):
    manifest collection, template rendering, decoding of the rendered
    documents, the per-kind create-or-update and delete handlers and the
    readiness and deletion polls; and of [simpleargs], the command that
    turns a comment on a pull request into argument files.  The
    properties proved about them follow the definitions.

    Go strings are byte sequences and are modelled by [string] (a list of
    8-bit characters); Go's [int32] status counters are modelled by [Z];
    [map[string]string] by [gmap string string]. *)

From Stdlib Require Import ZArith Lia Bool List Ascii String.
From Stdlib Require Import Sorting.Sorted Sorting.Permutation.
From Stdlib Require OrderedTypeEx DecimalString DecimalNat.
From stdpp Require Import base option list strings gmap.
Import ListNotations.

Local Open Scope Z_scope.
Local Open Scope list_scope.

(** ** Go's [strings] package, on bytes *)

Module GoStrings.

(** [len(s)] *)
Definition len (s : string) : nat := String.length s.

(** [strings.Replace(s, old, new, n)] for a non-empty [old]: the first
    [n] non-overlapping instances of [old], found from the left, are
    replaced by [new]; a negative [n] means no limit.  [skip] counts the
    bytes of an instance that was just matched and remain to be dropped.
    (With an empty [old] Go inserts [new] around every rune; no call of
    this repository does that and the model returns [s] unchanged.) *)
Fixpoint replaceFrom (old new : string) (skip : nat) (n : Z) (s : string)
  : string :=
  match s with
  | EmptyString => EmptyString
  | String c rest =>
      match skip with
      | S k => replaceFrom old new k n rest
      | O =>
          if negb (n =? 0) && String.prefix old s
          then new +:+ replaceFrom old new (len old - 1)
                         (if n <? 0 then n else n - 1) rest
          else String c (replaceFrom old new O n rest)
      end
  end.

Definition Replace (s old new : string) (n : Z) : string :=
  match old with
  | EmptyString => s
  | _ => replaceFrom old new O n s
  end.

(** [strings.Split(s, sep)] for a non-empty [sep]: the pieces between
    the non-overlapping instances of [sep], found from the left; always
    at least one piece. *)
Fixpoint splitFrom (sep : string) (skip : nat) (s : string) : list string :=
  match s with
  | EmptyString => [EmptyString]
  | String c rest =>
      match skip with
      | S k => splitFrom sep k rest
      | O =>
          if String.prefix sep s
          then EmptyString :: splitFrom sep (len sep - 1) rest
          else match splitFrom sep O rest with
               | piece :: pieces => String c piece :: pieces
               | [] => [String c EmptyString]
               end
      end
  end.

Definition Split (s sep : string) : list string := splitFrom sep O s.

(** White space as [strings.TrimSpace] sees it in ASCII text: tab, line
    feed, vertical tab, form feed, carriage return and space. *)
Definition isSpace (c : ascii) : bool :=
  let n := nat_of_ascii c in
  ((9 <=? n) && (n <=? 13))%nat || (n =? 32)%nat.

Fixpoint trimLeft (s : string) : string :=
  match s with
  | EmptyString => EmptyString
  | String c rest => if isSpace c then trimLeft rest else s
  end.

Fixpoint trimRight (s : string) : string :=
  match s with
  | EmptyString => EmptyString
  | String c rest =>
      match trimRight rest with
      | EmptyString => if isSpace c then EmptyString else String c EmptyString
      | kept => String c kept
      end
  end.

(** [strings.TrimSpace(s)] *)
Definition TrimSpace (s : string) : string := trimRight (trimLeft s).

(** [strings.ToLower(s)] on ASCII text. *)
Definition toLowerByte (c : ascii) : ascii :=
  let n := nat_of_ascii c in
  if ((65 <=? n) && (n <=? 90))%nat then ascii_of_nat (n + 32) else c.

Fixpoint ToLower (s : string) : string :=
  match s with
  | EmptyString => EmptyString
  | String c rest => String (toLowerByte c) (ToLower rest)
  end.

(** The slice expression [s[:n]]: it panics when [n] exceeds [len(s)],
    which is [None] here. *)
Definition sliceTo (s : string) (n : nat) : option string :=
  if (n <=? len s)%nat then Some (String.substring 0 n s) else None.

End GoStrings.

(** ** The template helper registered under the name [normalise] *)

(** [func(t string) string { return strings.Replace(t, ".", "-", -1) }] *)
Definition normalise (t : string) : string :=
  GoStrings.Replace t "." "-" (-1).

(** Dot-to-dash on one byte. *)
Definition dash (c : ascii) : ascii := if Ascii.eqb c "." then "-"%char else c.

(** ** Errors, log lines and the outcome of a Go call *)

(** The reason carried by the API server's status errors; the code tests
    two of them, through [apiErrors.IsNotFound] and (inside
    [retry.RetryOnConflict]) [apiErrors.IsConflict]. *)
Inductive StatusReason :=
| NotFound
| Conflict
| AlreadyExists
| OtherReason (reason : string).

(** Go's [error] values, as far as this code builds or inspects them. *)
Inductive error :=
| StatusError (reason : StatusReason) (message : string)
| PlainError (message : string)
| Errorf (message : string)                  (* fmt.Errorf *)
| Wrapf (cause : error) (message : string)   (* errors.Wrapf *)
| TimeoutError (description : string) (maxAttempts : nat).

(** [err.Error()] *)
Fixpoint Error (e : error) : string :=
  match e with
  | StatusError _ m => m
  | PlainError m => m
  | Errorf m => m
  | Wrapf cause m => m +:+ ": " +:+ Error cause
  | TimeoutError d _ => "timed out: " +:+ d
  end.

(** [apiErrors.IsNotFound] and [apiErrors.IsConflict] look at the error
    value itself, not through a wrapper. *)
Definition IsNotFound (e : error) : bool :=
  match e with StatusError NotFound _ => true | _ => false end.

Definition IsConflict (e : error) : bool :=
  match e with StatusError Conflict _ => true | _ => false end.

(** The lines written with [log.Printf], one constructor per format
    string of the code. *)
Inductive LogLine :=
| LogResourceUpdated (kind name : string)   (* "resource updated - kind: %v, name: %v" *)
| LogResourceCreated (kind name : string)   (* "resource created - kind: %v, name: %v" *)
| LogResourceDeleted (kind name : string)   (* "resource deleted - kind: %v , name: %v" *)
| LogResourceDeleting (kind name : string)  (* "resource deleting - kind: %v , name: %v" *)
| LogServiceDetails (name : string)         (* "\tService %s Details" *)
| LogServiceAddress (ip : string) (port : Z) (* "\t\thttp://%s:%d" *)
| LogErrorApplying (file : string) (err : error) (* "error applying '%v' err:%v \n" *)
| LogErrorDeleting (file : string) (err : error). (* "error deleting '%v' err:%v \n" *)

(** A call either returns or ends the run: a run-time panic (a failed
    type assertion, an index or slice out of range, [template.Must]) or
    [log.Fatal]/[log.Fatalf], which exits the process. *)
Inductive Abort :=
| Panic (message : string)
| Fatal (message : string).

Inductive Result (S A : Type) :=
| Done (a : A) (s : S)
| Aborted (why : Abort) (s : S).
Arguments Done {S A} a s.
Arguments Aborted {S A} why s.

Definition Go (S A : Type) : Type := S -> Result S A.

Definition ret {S A} (a : A) : Go S A := fun s => Done a s.

Definition bind {S A B} (m : Go S A) (k : A -> Go S B) : Go S B :=
  fun s => match m s with
           | Done a s' => k a s'
           | Aborted why s' => Aborted why s'
           end.

Definition abort {S A} (why : Abort) : Go S A := fun s => Aborted why s.

Notation "'let*' x := m 'in' k" := (bind m (fun x => k))
  (at level 10, x name, m at level 100, k at level 200).
Notation "m ;; k" := (bind m (fun _ => k))
  (at level 100, k at level 200, right associativity).

(** [for _, x := range xs { body(x) }] where the body may return from the
    enclosing function: [Some r] is that return, [None] falls through to
    the next element. *)
Fixpoint forEach {S A R} (xs : list A) (body : A -> Go S (option R))
  : Go S (option R) :=
  match xs with
  | [] => ret None
  | x :: rest =>
      let* r := body x in
      match r with
      | Some v => ret (Some v)
      | None => forEach rest body
      end
  end.

(** ** Files and [path/filepath] *)

Module FS.

(** A file tree.  Directory entries are kept in the order the directory
    happens to store them. *)
Inductive Node :=
| File (content : string)
| Dir (entries : list (string * Node)).

Fixpoint lookupEntry (name : string) (es : list (string * Node))
  : option Node :=
  match es with
  | [] => None
  | (n, node) :: rest =>
      if String.eqb n name then Some node else lookupEntry name rest
  end.

(** The node below [node] along a list of entry names. *)
Fixpoint descend (node : Node) (names : list string) : option Node :=
  match names with
  | [] => Some node
  | n :: rest =>
      match node with
      | Dir es =>
          match lookupEntry n es with
          | Some child => descend child rest
          | None => None
          end
      | File _ => None
      end
  end.

(** What a process sees of the files: the tree below the root directory
    and the working directory, as the names that lead to it from the
    root.  The tree holds plain files and directories that the process
    may read; links and permissions are not modelled. *)
Record System := mkSystem {
  root : Node;
  cwd : list string
}.

(** The errors of the name resolution and of a read, with the texts
    Linux gives them. *)
Inductive Errno := ENOENT | ENOTDIR | EISDIR.

Definition strerror (e : Errno) : string :=
  match e with
  | ENOENT => "no such file or directory"
  | ENOTDIR => "not a directory"
  | EISDIR => "is a directory"
  end.

(** [&os.PathError{Op, Path, Err}] *)
Definition PathError (op path : string) (e : Errno) : error :=
  PlainError (op +:+ " " +:+ path +:+ ": " +:+ strerror e).

(** One element of a path, looked up in the directory reached so far
    ([here], its names from the root): an empty element and [.] stay, [..]
    goes to the parent (the root is its own parent), a name goes to the
    entry of that name.  Each of them needs [here] to be a directory. *)
Definition step (tree : Node) (here : list string) (elem : string)
  : Errno + list string :=
  match descend tree here with
  | Some (Dir es) =>
      if String.eqb elem "" || String.eqb elem "." then inr here
      else if String.eqb elem ".." then inr (removelast here)
      else match lookupEntry elem es with
           | Some _ => inr (here ++ [elem])
           | None => inl ENOENT
           end
  | Some (File _) => inl ENOTDIR
  | None => inl ENOENT
  end.

Fixpoint walkTo (tree : Node) (here : list string) (elems : list string)
  : Errno + list string :=
  match elems with
  | [] => inr here
  | e :: rest =>
      match step tree here e with
      | inr there => walkTo tree there rest
      | inl errno => inl errno
      end
  end.

(** The resolution of a path name: from the root for a rooted path, from
    the working directory otherwise; the empty path names nothing. *)
Definition resolve (fs : System) (path : string) : Errno + Node :=
  match path with
  | EmptyString => inl ENOENT
  | _ =>
      match walkTo (root fs)
                   (if String.prefix "/" path then [] else cwd fs)
                   (GoStrings.Split path "/") with
      | inr here =>
          match descend (root fs) here with
          | Some node => inr node
          | None => inl ENOENT
          end
      | inl errno => inl errno
      end
  end.

(** [os.Stat(name)]: [None] is the error result. *)
Definition Stat (fs : System) (name : string) : option Node :=
  match resolve fs name with
  | inr node => Some node
  | inl _ => None
  end.

Definition IsDir (node : Node) : bool :=
  match node with Dir _ => true | File _ => false end.

(** [ioutil.ReadFile(name)]: a name that does not resolve fails in
    [open], a directory opens and fails in [read]. *)
Definition ReadFile (fs : System) (name : string) : error + string :=
  match resolve fs name with
  | inr (File content) => inr content
  | inr (Dir _) => inl (PathError "read" name EISDIR)
  | inl errno => inl (PathError "open" name errno)
  end.

End FS.

Module Filepath.

(** [filepath.Ext(path)]: the suffix beginning at the final dot of the
    final element of the path, empty when there is none.  The scan of the
    source runs from the end of the path towards its start and stops at a
    separator; here the path is folded from its end. *)
Fixpoint Ext (path : string) : string :=
  match path with
  | EmptyString => EmptyString
  | String c rest =>
      if Ascii.eqb c "/" then Ext rest
      else
        match Ext rest with
        | EmptyString =>
            if (Ascii.eqb c ".") && negb (existsb (Ascii.eqb "/") (list_ascii_of_string rest))
            then path else EmptyString
        | ext => ext
        end
  end.

(** One element of a path in [filepath.Clean]; [kept] holds the elements
    kept so far, the last one first.  An empty element and [.] are
    dropped; [..] removes the element before it, unless there is none or
    it is itself [..]: then it is dropped at the root of a rooted path
    and kept otherwise. *)
Definition cleanStep (rooted : bool) (kept : list string) (elem : string)
  : list string :=
  if String.eqb elem "" || String.eqb elem "." then kept
  else if String.eqb elem ".." then
    match kept with
    | top :: below => if String.eqb top ".." then elem :: kept else below
    | [] => if rooted then [] else [elem]
    end
  else elem :: kept.

(** [filepath.Clean(path)] on Unix: the shortest path name equivalent to
    [path] by purely lexical processing; [.] for an empty result. *)
Definition Clean (path : string) : string :=
  let rooted := String.prefix "/" path in
  let kept := fold_left (cleanStep rooted) (GoStrings.Split path "/") [] in
  let body := String.concat "/" (rev kept) in
  if rooted then "/" +:+ body
  else match body with
       | EmptyString => "."
       | _ => body
       end.

(** [filepath.Join(dir, name)]: the elements from the first non-empty
    one on, joined by a separator and cleaned; empty when both are. *)
Definition Join (dir name : string) : string :=
  match dir, name with
  | EmptyString, EmptyString => EmptyString
  | EmptyString, _ => Clean name
  | _, _ => Clean (dir +:+ "/" +:+ name)
  end.

(** A string without a separator, and the name of a directory entry:
    not empty, neither [.] nor [..], and without a separator. *)
Definition slashFree (s : string) : bool :=
  negb (existsb (Ascii.eqb "/") (list_ascii_of_string s)).

Definition isElement (name : string) : bool :=
  negb (String.eqb name "") && negb (String.eqb name ".")
  && negb (String.eqb name "..") && slashFree name.

(** [readDirNames] sorts the names of a directory ([sort.Strings]):
    insertion into a list ordered by byte-wise comparison. *)
Fixpoint insertEntry (e : string * FS.Node) (es : list (string * FS.Node))
  : list (string * FS.Node) :=
  match es with
  | [] => [e]
  | e' :: rest =>
      if String.leb (fst e) (fst e') then e :: es
      else e' :: insertEntry e rest
  end.

(** Entries in the order of their names. *)
Definition byName (e1 e2 : string * FS.Node) : Prop :=
  String.leb (fst e1) (fst e2) = true.

Definition sortEntries (es : list (string * FS.Node))
  : list (string * FS.Node) :=
  fold_right insertEntry [] es.

(** The tree with every directory listed in sorted order. *)
Fixpoint sorted (node : FS.Node) : FS.Node :=
  match node with
  | FS.File c => FS.File c
  | FS.Dir es =>
      FS.Dir (sortEntries (List.map (fun e => (fst e, sorted (snd e))) es))
  end.

(** The paths handed to the walk function, in order: the node itself,
    then (for a directory) each entry's subtree in turn, under the path
    joined from the directory's path and the entry's name. *)
Fixpoint visit (path : string) (node : FS.Node) : list string :=
  path ::
  match node with
  | FS.File _ => []
  | FS.Dir es =>
      (fix visitEntries (es : list (string * FS.Node)) : list string :=
         match es with
         | [] => []
         | (name, child) :: rest =>
             visit (Join path name) child ++ visitEntries rest
         end) es
  end.

(** [filepath.Walk(root, fn)] visits the tree below [root] in lexical
    order; [root] itself is handed to the walk function as it was
    given. *)
Definition Walk (root : string) (node : FS.Node) : list string :=
  visit root (sorted node).

End Filepath.

(** ** [text/template] *)

Module Template.

(** A parsed template.  Four forms of the template language are modelled:
    literal text, a field of the data ([{{ .KEY }}]), a call of a
    registered function on a field ([{{ normalise .KEY }}]) and a
    conditional on a field ([{{ if .KEY }} ... {{ else }} ... {{ end }}]).
    A template that uses anything else of the language (pipelines,
    ranges, variables, literals, comments, trim markers, ...) is kept as
    its source, [Foreign], and left to the library. *)
Inductive Node :=
| Text (text : string)
| Field (key : string)
| Call (fn key : string)
| If (key : string) (thenList elseList : list Node)
| Foreign (source : string).

(** [template.FuncMap] *)
Definition FuncMap : Type := list (string * (string -> string)).

Fixpoint lookupFunc (funcs : FuncMap) (name : string)
  : option (string -> string) :=
  match funcs with
  | [] => None
  | (n, f) :: rest => if String.eqb n name then Some f else lookupFunc rest name
  end.

(** The library, for what is not modelled: whether [Parse] accepts a
    template that uses more of the language than the four forms, what
    [Execute] returns for such a template, the error that [Execute]
    reports when the data has no entry for a key (its text names the
    template, the position of the action and the key), and the error
    that [Parse] reports for a text it does not accept.  Nothing is
    assumed about them. *)
Class Library := {
  parses : FuncMap -> string -> bool;
  executes : FuncMap -> string -> gmap string string -> error + string;
  noEntry : list Node -> gmap string string -> error;
  parseError : FuncMap -> string -> error
}.

Inductive Token :=
| TokText (text : string)
| TokAction (body : string).

(** The lexer: text up to the next left delimiter, then the action up to
    the next right delimiter.  [skip] drops the second byte of a
    delimiter that was just recognised.  [None]: the text ends inside an
    action. *)
Fixpoint lexFrom (skip : nat) (inAction : bool) (cur : string) (s : string)
  : option (list Token) :=
  match s with
  | EmptyString => if inAction then None else Some [TokText cur]
  | String c rest =>
      match skip with
      | S k => lexFrom k inAction cur rest
      | O =>
          if inAction then
            if String.prefix "}}" s
            then option_map (cons (TokAction cur)) (lexFrom 1 false "" rest)
            else lexFrom O true (cur +:+ String c "") rest
          else
            if String.prefix "{{" s
            then option_map (cons (TokText cur)) (lexFrom 1 true "" rest)
            else lexFrom O false (cur +:+ String c "") rest
      end
  end.

(** ASCII letters (the underscore counts as one) and digits. *)
Definition isLetter (c : ascii) : bool :=
  let n := nat_of_ascii c in
  ((65 <=? n) && (n <=? 90))%nat || ((97 <=? n) && (n <=? 122))%nat
  || (n =? 95)%nat.

Definition isAlphaNumeric (c : ascii) : bool :=
  let n := nat_of_ascii c in
  isLetter c || ((48 <=? n) && (n <=? 57))%nat.

Definition isIdentifier (s : string) : bool :=
  match s with
  | EmptyString => false
  | String c rest =>
      isLetter c && forallb isAlphaNumeric (list_ascii_of_string rest)
  end.

(** The name after the dot of a field reference such as [.PR_NUMBER]. *)
Definition fieldKey (word : string) : option string :=
  match word with
  | String "." key => if isIdentifier key then Some key else None
  | _ => None
  end.

(** The words that the lexer of the library does not read as the name
    of a function. *)
Definition reserved : list string :=
  [ "block"; "break"; "continue"; "define"; "else"; "end"; "if"; "nil";
    "range"; "template"; "with"; "true"; "false" ].

Definition words (body : string) : list string :=
  List.filter (fun w => negb (String.eqb w ""))
              (GoStrings.Split (GoStrings.TrimSpace body) " ").

(** An action whose body holds nothing but letters, digits, dots and
    spaces. *)
Definition plainBody (body : string) : bool :=
  forallb (fun c => isAlphaNumeric c || Ascii.eqb c "." || Ascii.eqb c " ")
          (list_ascii_of_string body).

Inductive Action :=
| ActField (key : string)
| ActCall (fn key : string)
| ActIf (key : string)
| ActElse
| ActEnd.

(** The actions of the four forms; [None] for every other action. *)
Definition parseAction (funcs : FuncMap) (body : string) : option Action :=
  if plainBody body then
    match words body with
    | [w] =>
        if String.eqb w "else" then Some ActElse
        else if String.eqb w "end" then Some ActEnd
        else option_map ActField (fieldKey w)
    | [fn; w] =>
        if String.eqb fn "if" then option_map ActIf (fieldKey w)
        else if isIdentifier fn
                && negb (existsb (String.eqb fn) reserved)
                && match lookupFunc funcs fn with
                   | Some _ => true
                   | None => false
                   end
        then option_map (ActCall fn) (fieldKey w)
        else None
    | _ => None
    end
  else None.

(** Where the parse of a list of nodes stops: at the end of the text, at
    [{{ else }}] or at [{{ end }}]. *)
Inductive Stop := AtEOF | AtElse | AtEnd.

(** The nodes up to the next stop, the stop, and the tokens after it. *)
Fixpoint parseList (fuel : nat) (funcs : FuncMap) (toks : list Token)
  : option (list Node * Stop * list Token) :=
  match fuel with
  | O => None
  | S fuel =>
      let andThen (n : Node) (rest : list Token) :=
        match parseList fuel funcs rest with
        | Some (nodes, stop, rest') => Some (n :: nodes, stop, rest')
        | None => None
        end in
      match toks with
      | [] => Some ([], AtEOF, [])
      | TokText t :: rest => andThen (Text t) rest
      | TokAction body :: rest =>
          match parseAction funcs body with
          | Some (ActField key) => andThen (Field key) rest
          | Some (ActCall fn key) => andThen (Call fn key) rest
          | Some ActElse => Some ([], AtElse, rest)
          | Some ActEnd => Some ([], AtEnd, rest)
          | Some (ActIf key) =>
              match parseList fuel funcs rest with
              | Some (thenList, AtEnd, rest1) =>
                  andThen (If key thenList []) rest1
              | Some (thenList, AtElse, rest1) =>
                  match parseList fuel funcs rest1 with
                  | Some (elseList, AtEnd, rest2) =>
                      andThen (If key thenList elseList) rest2
                  | _ => None
                  end
              | _ => None
              end
          | None => None
          end
      end
  end.

(** [t.Parse(text)]: [None] is the error result.  A text that ends
    inside an action is an error; a text of the four forms parses into
    its nodes; every other text is the library's to accept or refuse. *)
Definition Parse `{Library} (funcs : FuncMap) (text : string)
  : option (list Node) :=
  match lexFrom O false "" text with
  | None => None
  | Some toks =>
      match parseList (S (length toks)) funcs toks with
      | Some (nodes, AtEOF, _) => Some nodes
      | _ => if parses funcs text then Some [Foreign text] else None
      end
  end.

(** Evaluation of one node against [map[string]string] data under
    [Option("missingkey=error")]: a key that the map does not hold is an
    error ([oops]), also in the condition of a conditional.  A condition
    is true when the string bound to its key is not empty; the list that
    is not chosen is not evaluated. *)
Fixpoint evalNode `{Library} (funcs : FuncMap) (data : gmap string string)
         (oops : error) (n : Node) : error + string :=
  let walk :=
    fix walk (ns : list Node) : error + string :=
      match ns with
      | [] => inr ""
      | n :: rest =>
          match evalNode funcs data oops n with
          | inl e => inl e
          | inr out =>
              match walk rest with
              | inl e => inl e
              | inr outs => inr (out +:+ outs)
              end
          end
      end in
  match n with
  | Text t => inr t
  | Field key =>
      match data !! key with
      | Some v => inr v
      | None => inl oops
      end
  | Call fn key =>
      match data !! key with
      | Some v =>
          match lookupFunc funcs fn with
          | Some f => inr (f v)
          | None => inl (PlainError ("function not defined: " +:+ fn))
          end
      | None => inl oops
      end
  | If key thenList elseList =>
      match data !! key with
      | Some v =>
          if (0 <? GoStrings.len v)%nat then walk thenList else walk elseList
      | None => inl oops
      end
  | Foreign source => executes funcs source data
  end.

(** The nodes of a list in turn: the rendered text, or the first
    error. *)
Fixpoint execList `{Library} (funcs : FuncMap) (data : gmap string string)
         (oops : error) (t : list Node) : error + string :=
  match t with
  | [] => inr ""
  | n :: rest =>
      match evalNode funcs data oops n with
      | inl e => inl e
      | inr out =>
          match execList funcs data oops rest with
          | inl e => inl e
          | inr outs => inr (out +:+ outs)
          end
      end
  end.

(** [t.Execute(buf, data)]: the rendered text, or the first error. *)
Definition Execute `{Library} (funcs : FuncMap) (t : list Node)
           (data : gmap string string) : error + string :=
  execList funcs data (noEntry t data) t.









End Template.

(** ** Kubernetes objects and the client *)

(** The Go struct type behind a [runtime.Object], named after the import
    aliases of the source.  The handlers assert one of the first fourteen;
    [OtherType] stands for every other type the scheme can decode into
    (a [Pod], a [Deployment] of [apps/v1beta1], ...). *)
Inductive GoType :=
| rbac_ClusterRole
| rbac_ClusterRoleBinding
| apiCoreV1_ConfigMap
| appsV1_DaemonSet
| appsV1_Deployment
| apiExtensionsV1beta1_Ingress
| apiCoreV1_Namespace
| rbac_Role
| rbac_RoleBinding
| apiCoreV1_Service
| apiCoreV1_ServiceAccount
| apiCoreV1_Secret
| apiCoreV1_PersistentVolumeClaim
| apiServerExtensionsV1beta1_CustomResourceDefinition
| OtherType (name : string).

Global Instance GoType_eq_dec : EqDecision GoType.
Proof. solve_decision. Defined.

(** A decoded resource: its dynamic type, the kind and version of its
    [GroupVersionKind], the namespace and name of its [ObjectMeta], and
    the fields of [Spec] and [Status] that the code reads. *)
Record Object := mkObject {
  goType : GoType;
  Kind : string;
  Version : string;
  Namespace : string;
  Name : string;
  Replicas : option Z;            (* Deployment: Spec.Replicas, may be nil *)
  ServiceType : string;           (* Service: Spec.Type *)
  Ports : list Z;                 (* Service: Spec.Ports[i].Port *)
  AvailableReplicas : Z;          (* Deployment: Status.AvailableReplicas *)
  NumberUnavailable : Z;          (* DaemonSet: Status.NumberUnavailable *)
  LoadBalancerIngress : list string (* Service: Status.LoadBalancer.Ingress[i].IP *)
}.

(** [req.Namespace = ns] *)
Definition setNamespace (ns : string) (o : Object) : Object :=
  mkObject (goType o) (Kind o) (Version o) ns (Name o) (Replicas o)
           (ServiceType o) (Ports o) (AvailableReplicas o)
           (NumberUnavailable o) (LoadBalancerIngress o).

(** [apiCoreV1.ServiceTypeLoadBalancer] *)
Definition ServiceTypeLoadBalancer : string := "LoadBalancer".

(** The typed resource clients of the clientset, e.g.
    [c.clt.CoreV1().ConfigMaps(ns)]; cluster-scoped ones take no
    namespace, which is the empty string below. *)
Inductive Collection :=
| ClusterRoles
| ClusterRoleBindings
| ConfigMaps
| DaemonSets
| Deployments
| Ingresses
| Namespaces
| Roles
| RoleBindings
| Services
| ServiceAccounts
| Secrets
| PersistentVolumeClaims
| CustomResourceDefinitions.

Global Instance Collection_eq_dec : EqDecision Collection.
Proof. solve_decision. Defined.

(** [apiMetaV1.DeletionPropagation] *)
Inductive DeletionPropagation :=
| DeletePropagationOrphan
| DeletePropagationBackground
| DeletePropagationForeground.

(** A request sent to the cluster-management API. *)
Inductive Call :=
| CallList (coll : Collection) (ns : string)
| CallGet (coll : Collection) (ns name : string)
| CallCreate (coll : Collection) (ns : string) (req : Object)
| CallUpdate (coll : Collection) (ns : string) (req : Object)
| CallDelete (coll : Collection) (ns name : string)
             (policy : DeletionPropagation).

(** The cluster behind the clientset: any state [C] with an answer to each
    request.  Nothing is assumed about the answers. *)
Class Clientset (C : Type) := {
  apiList : Collection -> string -> C -> (error + list Object) * C;
  apiGet : Collection -> string -> string -> C -> (error + Object) * C;
  apiCreate : Collection -> string -> Object -> C -> option error * C;
  apiUpdate : Collection -> string -> Object -> C -> option error * C;
  apiDelete : Collection -> string -> string -> DeletionPropagation -> C
              -> option error * C
}.

(** What a run can touch: the cluster, the requests sent so far (oldest
    first) and the log. *)
Record World (C : Type) := mkWorld {
  cluster : C;
  calls : list Call;
  logged : list LogLine
}.
Arguments mkWorld {C} cluster calls logged.
Arguments cluster {C} w.
Arguments calls {C} w.
Arguments logged {C} w.

(** [runtime.Decoder]: the universal deserializer of the client's scheme.
    It yields an error, no object, or an object. *)
Class Decoder := { decode : string -> error + option Object }.

(** Modelled from the spec: the constants of the [provider] package, which
    is not part of the sources at hand.  [GlobalRetryCount] is the standard
    attempt budget of the readiness polls; [Separator] is the document
    separator, a literal [---]. *)
Class ProviderConstants := mkProviderConstants { GlobalRetryCount : nat }.

Definition Separator : string := "---".

(** A manifest file after rendering: [provider.ResourceFile{Name, Content}]
    ([FileName] in the later version). *)
Record ResourceFile := mkResourceFile { FileName : string; Content : string }.

(** [Resource{FileName, Objects}] of the later version. *)
Record Resource := mkResource { ResourceFileName : string; Objects : list Object }.

Section Primitives.

Context {C : Type} `{Clientset C}.

Definition logPrintf (l : LogLine) : Go (World C) unit :=
  fun w => Done tt (mkWorld (cluster w) (calls w) (logged w ++ [l])).

Definition send {A} (c : Call) (f : C -> A * C) : Go (World C) A :=
  fun w => let (a, cl) := f (cluster w) in
           Done a (mkWorld cl (calls w ++ [c]) (logged w)).

Definition clientList (coll : Collection) (ns : string)
  : Go (World C) (error + list Object) :=
  send (CallList coll ns) (apiList coll ns).

Definition clientGet (coll : Collection) (ns name : string)
  : Go (World C) (error + Object) :=
  send (CallGet coll ns name) (apiGet coll ns name).

Definition clientCreate (coll : Collection) (ns : string) (req : Object)
  : Go (World C) (option error) :=
  send (CallCreate coll ns req) (apiCreate coll ns req).

Definition clientUpdate (coll : Collection) (ns : string) (req : Object)
  : Go (World C) (option error) :=
  send (CallUpdate coll ns req) (apiUpdate coll ns req).

Definition clientDelete (coll : Collection) (ns name : string)
           (policy : DeletionPropagation) : Go (World C) (option error) :=
  send (CallDelete coll ns name policy) (apiDelete coll ns name policy).

(** The type assertion of [resource] to a pointer to [T]: it panics on
    any other type. *)
Definition assertType (T : GoType) (resource : Object)
  : Go (World C) Object :=
  if decide (goType resource = T) then ret resource
  else abort (Panic "interface conversion").

End Primitives.

(** ** [k8s.io/client-go/util/retry] *)

Module Retry.

(** [wait.Backoff]; only the number of steps matters here, the
    durations between the steps are not modelled. *)
Record Backoff := mkBackoff { Steps : nat }.

(** [retry.DefaultRetry]: five steps. *)
Definition DefaultRetry : Backoff := mkBackoff 5.

Fixpoint attempts {S} (steps : nat) (lastConflictErr : option error)
         (fn : Go S (option error)) : Go S (option error) :=
  match steps with
  | O => ret lastConflictErr
  | Datatypes.S k =>
      let* err := fn in
      match err with
      | None => ret None
      | Some e =>
          if IsConflict e then attempts k (Some e) fn
          else ret (Some e)
      end
  end.

(** [retry.RetryOnConflict(backoff, fn)]: [fn] is run until it succeeds
    or fails with something other than a conflict, at most
    [backoff.Steps] times; after that the last conflict is returned. *)
Definition RetryOnConflict {S} (backoff : Backoff)
           (fn : Go S (option error)) : Go S (option error) :=
  attempts (Steps backoff) None fn.

End Retry.

(** ** The poller of the [provider] package *)

Module Provider.

Fixpoint poll {S} (description : string) (maxAttempts left : nat)
         (predicate : Go S (bool * option error)) : Go S (option error) :=
  match left with
  | O => ret (Some (TimeoutError description maxAttempts))
  | Datatypes.S k =>
      let* r := predicate in
      match r with
      | (_, Some err) => ret (Some err)
      | (true, None) => ret None
      | (false, None) => poll description maxAttempts k predicate
      end
  end.

(** Modelled from the spec: [provider.RetryUntilTrue], which is not part
    of the sources at hand.  It calls the predicate repeatedly until the
    predicate returns true, returns an error (propagated at once), or
    [maxAttempts] calls have been made, which is a timeout error that
    carries the description.  The fixed delay between two attempts is
    not modelled. *)
Definition RetryUntilTrue {S} (description : string) (maxAttempts : nat)
           (predicate : Go S (bool * option error)) : Go S (option error) :=
  poll description maxAttempts maxAttempts predicate.

End Provider.

(** [for _, x := range xs { body(x) }] with no return in the body. *)
Fixpoint range {S A} (xs : list A) (body : A -> Go S unit) : Go S unit :=
  match xs with
  | [] => ret tt
  | x :: rest => body x ;; range rest body
  end.

(** ** The handlers, which both versions of the provider share *)

(** Where the create-or-update block of a handler leaves the function:
    through one of its [return] statements, or past the [switch]. *)
Inductive Flow :=
| Return (err : option error)
| Next.

Section Handlers.

Context {C : Type} `{Clientset C} `{ProviderConstants}.

Notation K8s := (Go (World C)).

(** [if len(req.Namespace) == 0 { req.Namespace = "default" }] *)
Definition defaultNamespace (req : Object) : Object :=
  if (GoStrings.len (Namespace req) =? 0)%nat
  then setNamespace "default" req else req.

(** The existence test: some listed item has the name of the request. *)
Definition existsIn (items : list Object) (req : Object) : bool :=
  existsb (fun l => String.eqb (Name l) (Name req)) items.

Definition listFailed (kind name : string) : string :=
  "error listing resource : " +:+ kind +:+ ", name: " +:+ name.

Definition updateFailed (kind name : string) : string :=
  "resource update failed - kind: " +:+ kind +:+ ", name: " +:+ name.

Definition creationFailed (kind name : string) : string :=
  "resource creation failed - kind: " +:+ kind +:+ ", name: " +:+ name.

Definition deleteFailed (kind name : string) : string :=
  "resource delete failed - kind: " +:+ kind +:+ ", name: " +:+ name.

Definition unknownVersion (v kind name : string) : string :=
  "unknown object version: " +:+ v +:+ " kind:'" +:+ kind
    +:+ "', name:'" +:+ name +:+ "'".

(** The block every apply handler repeats inside its version case:
    list, test for the name, then update under [RetryOnConflict] (and
    return) or create (and go on). *)
Definition createOrUpdate (coll : Collection) (ns : string)
           (listMessage : string) (req : Object) : K8s Flow :=
  let kind := Kind req in
  let* list := clientList coll ns in
  match list with
  | inl err => ret (Return (Some (Wrapf err listMessage)))
  | inr items =>
      if existsIn items req then
        let* err := Retry.RetryOnConflict Retry.DefaultRetry
                      (clientUpdate coll ns req) in
        match err with
        | Some e => ret (Return (Some (Wrapf e (updateFailed kind (Name req)))))
        | None =>
            logPrintf (LogResourceUpdated kind (Name req)) ;;
            ret (Return None)
        end
      else
        let* err := clientCreate coll ns req in
        match err with
        | Some e => ret (Return (Some (Wrapf e (creationFailed kind (Name req)))))
        | None =>
            logPrintf (LogResourceCreated kind (Name req)) ;;
            ret Next
        end
  end.

(** The frame of an apply handler: the type assertion, the namespace
    default ([defaulted]), the version switch around [createOrUpdate] on
    the client of [coll] (taken in the request's namespace when
    [namespaced]), and what follows the switch ([after]). *)
Definition applyWith (T : GoType) (version : string)
           (defaulted namespaced : bool) (coll : Collection)
           (listMessage : string -> string -> string)
           (after : Object -> K8s (option error))
           (resource : Object) : K8s (option error) :=
  let* req := assertType T resource in
  let req := if defaulted then defaultNamespace req else req in
  let kind := Kind req in
  if String.eqb (Version req) version then
    let* flow := createOrUpdate coll
                   (if namespaced then Namespace req else "")
                   (listMessage kind (Name req)) req in
    match flow with
    | Return err => ret err
    | Next => after req
    end
  else ret (Some (Errorf (unknownVersion (Version req) kind (Name req)))).

Definition returnNil (_ : Object) : K8s (option error) := ret None.

(** *** Readiness and deletion predicates *)

Definition serviceExists (resource : Object) : K8s (bool * option error) :=
  let* req := assertType apiCoreV1_Service resource in
  let req := defaultNamespace req in
  let kind := Kind req in
  if String.eqb (Version req) "v1" then
    let* got := clientGet Services (Namespace req) (Name req) in
    match got with
    | inl err =>
        ret (false, Some (Wrapf err "Checking Service resource status failed"))
    | inr res =>
        if String.eqb (ServiceType res) ServiceTypeLoadBalancer then
          if (0 <? length (LoadBalancerIngress res))%nat then
            logPrintf (LogServiceDetails (Name req)) ;;
            range (LoadBalancerIngress res)
                  (fun ip =>
                     match Ports res with
                     | port :: _ => logPrintf (LogServiceAddress ip port)
                     | [] => abort (Panic "index out of range")
                     end) ;;
            ret (true, None)
          else ret (false, None)
        else ret (true, None)
    end
  else ret (false, Some (Errorf (unknownVersion (Version req) kind (Name req)))).

Definition deploymentReady (resource : Object) : K8s (bool * option error) :=
  let* req := assertType appsV1_Deployment resource in
  let req := defaultNamespace req in
  let kind := Kind req in
  if String.eqb (Version req) "v1" then
    let* got := clientGet Deployments (Namespace req) (Name req) in
    match got with
    | inl err =>
        ret (false,
             Some (Wrapf err ("Checking Deployment resource:'" +:+ Name req
                                +:+ "' status failed err:" +:+ Error err)))
    | inr res =>
        let replicas := match Replicas req with
                        | Some n => n
                        | None => 1
                        end in
        if AvailableReplicas res =? replicas then ret (true, None)
        else ret (false, None)
    end
  else ret (false, Some (Errorf (unknownVersion (Version req) kind (Name req)))).

Definition daemonsetReady (resource : Object) : K8s (bool * option error) :=
  let* req := assertType appsV1_DaemonSet resource in
  let req := defaultNamespace req in
  let kind := Kind req in
  if String.eqb (Version req) "v1" then
    let* got := clientGet DaemonSets (Namespace req) (Name req) in
    match got with
    | inl err =>
        ret (false,
             Some (Wrapf err ("Checking DaemonSet resource:'" +:+ Name req
                                +:+ "' status failed err:" +:+ Error err)))
    | inr res =>
        if NumberUnavailable res =? 0 then ret (true, None)
        else ret (false, None)
    end
  else ret (false, Some (Errorf (unknownVersion (Version req) kind (Name req)))).

Definition namespaceDeleted (resource : Object) : K8s (bool * option error) :=
  let* req := assertType apiCoreV1_Namespace resource in
  let kind := Kind req in
  if String.eqb (Version req) "v1" then
    let* got := clientGet Namespaces "" (Name req) in
    match got with
    | inl err =>
        if IsNotFound err then ret (true, None)
        else ret (false,
                  Some (Wrapf err ("Couldn't get namespace '" +:+ Name req
                                     +:+ "' err:" +:+ Error err)))
    | inr _ => ret (false, None)
    end
  else ret (false, Some (Errorf (unknownVersion (Version req) kind (Name req)))).

(** *** Functions to create the different objects *)

Definition clusterRoleApply : Object -> K8s (option error) :=
  applyWith rbac_ClusterRole "v1" false false ClusterRoles
            (fun kind _ => "listing resource : " +:+ kind) returnNil.

Definition clusterRoleBindingApply : Object -> K8s (option error) :=
  applyWith rbac_ClusterRoleBinding "v1" false false ClusterRoleBindings
            listFailed returnNil.

Definition configMapApply : Object -> K8s (option error) :=
  applyWith apiCoreV1_ConfigMap "v1" true true ConfigMaps
            listFailed returnNil.

(** After a create the handler calls [c.daemonsetReady(resource)] once
    and drops both results. *)
Definition daemonSetApply : Object -> K8s (option error) :=
  applyWith appsV1_DaemonSet "v1" true true DaemonSets listFailed
            (fun req => daemonsetReady req ;; ret None).

Definition deploymentApply : Object -> K8s (option error) :=
  applyWith appsV1_Deployment "v1" true true Deployments listFailed
            (fun req =>
               Provider.RetryUntilTrue
                 ("applying deployment:" +:+ Name req)
                 GlobalRetryCount
                 (deploymentReady req)).

(** The request gets the default namespace, the client is cluster-wide. *)
Definition customResourceApply : Object -> K8s (option error) :=
  applyWith apiServerExtensionsV1beta1_CustomResourceDefinition "v1beta1"
            true false CustomResourceDefinitions listFailed returnNil.

Definition ingressApply : Object -> K8s (option error) :=
  applyWith apiExtensionsV1beta1_Ingress "v1beta1" true true Ingresses
            listFailed returnNil.

Definition nameSpaceApply : Object -> K8s (option error) :=
  applyWith apiCoreV1_Namespace "v1" false false Namespaces
            listFailed returnNil.

Definition roleApply : Object -> K8s (option error) :=
  applyWith rbac_Role "v1" true true Roles listFailed returnNil.

Definition roleBindingApply : Object -> K8s (option error) :=
  applyWith rbac_RoleBinding "v1" true true RoleBindings
            listFailed returnNil.

Definition serviceAccountApply : Object -> K8s (option error) :=
  applyWith apiCoreV1_ServiceAccount "v1" true true ServiceAccounts
            listFailed returnNil.

Definition serviceApply : Object -> K8s (option error) :=
  applyWith apiCoreV1_Service "v1" true true Services listFailed
            (fun req =>
               Provider.RetryUntilTrue
                 ("applying service:" +:+ Name req)
                 GlobalRetryCount
                 (serviceExists req)).

Definition secretApply : Object -> K8s (option error) :=
  applyWith apiCoreV1_Secret "v1" true true Secrets listFailed returnNil.

Definition persistentVolumeClaimApply : Object -> K8s (option error) :=
  applyWith apiCoreV1_PersistentVolumeClaim "v1" true true
            PersistentVolumeClaims listFailed returnNil.

(** *** Functions to delete the different objects *)

(** The frame of a delete handler: a delete by name with the foreground
    propagation policy inside the version switch; [after] is what the
    handler does once the delete was accepted. *)
Definition deleteWith (T : GoType) (version : string)
           (defaulted namespaced : bool) (coll : Collection)
           (after : Object -> K8s (option error))
           (resource : Object) : K8s (option error) :=
  let* req := assertType T resource in
  let req := if defaulted then defaultNamespace req else req in
  let kind := Kind req in
  if String.eqb (Version req) version then
    let delPolicy := DeletePropagationForeground in
    let* err := clientDelete coll
                  (if namespaced then Namespace req else "")
                  (Name req) delPolicy in
    match err with
    | Some e => ret (Some (Wrapf e (deleteFailed kind (Name req))))
    | None => after req
    end
  else ret (Some (Errorf (unknownVersion (Version req) kind (Name req)))).

Definition logDeleted (req : Object) : K8s (option error) :=
  logPrintf (LogResourceDeleted (Kind req) (Name req)) ;; ret None.

Definition clusterRoleDelete : Object -> K8s (option error) :=
  deleteWith rbac_ClusterRole "v1" false false ClusterRoles logDeleted.

Definition clusterRoleBindingDelete : Object -> K8s (option error) :=
  deleteWith rbac_ClusterRoleBinding "v1" false false ClusterRoleBindings
             logDeleted.

Definition configMapDelete : Object -> K8s (option error) :=
  deleteWith apiCoreV1_ConfigMap "v1" true true ConfigMaps logDeleted.

Definition daemonsetDelete : Object -> K8s (option error) :=
  deleteWith appsV1_DaemonSet "v1" true true DaemonSets logDeleted.

Definition deploymentDelete : Object -> K8s (option error) :=
  deleteWith appsV1_Deployment "v1" true true Deployments logDeleted.

Definition customResourceDelete : Object -> K8s (option error) :=
  deleteWith apiServerExtensionsV1beta1_CustomResourceDefinition "v1beta1"
             true false CustomResourceDefinitions logDeleted.

Definition ingressDelete : Object -> K8s (option error) :=
  deleteWith apiExtensionsV1beta1_Ingress "v1beta1" true true Ingresses
             logDeleted.

Definition namespaceDelete : Object -> K8s (option error) :=
  deleteWith apiCoreV1_Namespace "v1" false false Namespaces
             (fun req =>
                logPrintf (LogResourceDeleting (Kind req) (Name req)) ;;
                Provider.RetryUntilTrue
                  ("deleting namespace:" +:+ Name req)
                  (2 * GlobalRetryCount)
                  (namespaceDeleted req)).

Definition roleDelete : Object -> K8s (option error) :=
  deleteWith rbac_Role "v1" true true Roles logDeleted.

Definition roleBindingDelete : Object -> K8s (option error) :=
  deleteWith rbac_RoleBinding "v1" true true RoleBindings logDeleted.

Definition serviceDelete : Object -> K8s (option error) :=
  deleteWith apiCoreV1_Service "v1" true true Services logDeleted.

Definition serviceAccountDelete : Object -> K8s (option error) :=
  deleteWith apiCoreV1_ServiceAccount "v1" true true ServiceAccounts
             logDeleted.

Definition secretDelete : Object -> K8s (option error) :=
  deleteWith apiCoreV1_Secret "v1" true true Secrets logDeleted.

Definition persistentVolumeClaimDelete : Object -> K8s (option error) :=
  deleteWith apiCoreV1_PersistentVolumeClaim "v1" true true
             PersistentVolumeClaims logDeleted.

(** *** Dispatch on the lower-cased kind *)

(** A [switch] over string constants, as the table of its cases. *)
Definition Cases : Type := list (string * (Object -> K8s (option error))).

Fixpoint lookupCase (cases : Cases) (kind : string)
  : option (Object -> K8s (option error)) :=
  match cases with
  | [] => None
  | (k, handler) :: rest =>
      if String.eqb k kind then Some handler else lookupCase rest kind
  end.

(** The cases the two versions of [ResourceApply] have in common. *)
Definition applyCases : Cases :=
  [ ("clusterrole", clusterRoleApply);
    ("clusterrolebinding", clusterRoleBindingApply);
    ("configmap", configMapApply);
    ("daemonset", daemonSetApply);
    ("deployment", deploymentApply);
    ("ingress", ingressApply);
    ("namespace", nameSpaceApply);
    ("role", roleApply);
    ("rolebinding", roleBindingApply);
    ("service", serviceApply);
    ("serviceaccount", serviceAccountApply);
    ("secret", secretApply);
    ("persistentvolumeclaim", persistentVolumeClaimApply) ].

Definition deleteCases : Cases :=
  [ ("clusterrole", clusterRoleDelete);
    ("clusterrolebinding", clusterRoleBindingDelete);
    ("configmap", configMapDelete);
    ("daemonset", daemonsetDelete);
    ("deployment", deploymentDelete);
    ("ingress", ingressDelete);
    ("namespace", namespaceDelete);
    ("role", roleDelete);
    ("rolebinding", roleBindingDelete);
    ("service", serviceDelete);
    ("serviceaccount", serviceAccountDelete);
    ("secret", secretDelete);
    ("persistentvolumeclaim", persistentVolumeClaimDelete) ].

(** The [switch] of [ResourceApply] with its [default] case, followed by
    the logging of a non-nil error. *)
Definition applyResource (cases : Cases) (file : string)
           (resource : Object) : K8s unit :=
  let kind := GoStrings.ToLower (Kind resource) in
  let* err :=
    match lookupCase cases kind with
    | Some handler => handler resource
    | None =>
        ret (Some (Errorf ("creating request for unimplimented resource type:"
                             +:+ kind)))
    end in
  match err with
  | Some e => logPrintf (LogErrorApplying file e)
  | None => ret tt
  end.

Definition deleteResource (cases : Cases) (file : string)
           (resource : Object) : K8s unit :=
  let kind := GoStrings.ToLower (Kind resource) in
  let* err :=
    match lookupCase cases kind with
    | Some handler => handler resource
    | None =>
        ret (Some (Errorf ("deleting request for unimplimented resource type:"
                             +:+ kind)))
    end in
  match err with
  | Some e => logPrintf (LogErrorDeleting file e)
  | None => ret tt
  end.

End Handlers.

(** ** [provider/k8s/k8s.go]: parse, then decode and apply in one pass *)

Module Legacy.

(** The fields of [K8sClient] that the parse and apply actions use. *)
Record K8sClient := mkK8sClient {
  DeploymentFiles : list string;
  DeploymentVars : gmap string string;
  deploymentsContent : list ResourceFile
}.

Definition isManifest (path : string) : bool :=
  String.eqb (Filepath.Ext path) ".yaml"
  || String.eqb (Filepath.Ext path) ".yml".

(** The first loop of [DeploymentsParse]: a name that [os.Stat] reports
    as a directory is replaced by the walked paths with a manifest
    extension, every other name is appended as it is.  (The walk function
    always returns nil, so the walk has no error to report.) *)
Definition fileList (fs : FS.System) (names : list string) : list string :=
  flat_map (fun name =>
              match FS.Stat fs name with
              | Some file =>
                  if FS.IsDir file
                  then List.filter isManifest (Filepath.Walk name file)
                  else [name]
              | None => [name]
              end) names.

(** The functions registered with [t.Funcs]. *)
Definition funcs : Template.FuncMap := [("normalise", normalise)].

(** The case labels of the [switch] in [ResourceApply] and
    [ResourceDelete]. *)
Definition supportedKinds : list string :=
  [ "clusterrole"; "clusterrolebinding"; "configmap"; "daemonset";
    "deployment"; "ingress"; "namespace"; "role"; "rolebinding"; "service";
    "serviceaccount"; "secret"; "persistentvolumeclaim" ].

Section Actions.

Context {C : Type} `{Clientset C} `{ProviderConstants} `{Decoder}
        `{Template.Library}.

Notation K8s := (Go (World C)).

(** [applyTemplateVars]: a file that cannot be read and a template
    that fails to execute end the process through [log.Fatalf]; a
    template that fails to parse makes [template.Must] panic with the
    error of the parse. *)
Definition applyTemplateVars (fs : FS.System) (vars : gmap string string)
           (file : string) : K8s (string * option error) :=
  match FS.ReadFile fs file with
  | inl err =>
      abort (Fatal ("Error reading file " +:+ file +:+ ":" +:+ Error err))
  | inr content =>
      match Template.Parse funcs content with
      | None => abort (Panic (Error (Template.parseError funcs content)))
      | Some t =>
          match Template.Execute funcs t vars with
          | inl err =>
              abort (Fatal ("Failed to execute parse file:" +:+ file
                              +:+ " err:" +:+ Error err))
          | inr rendered => ret (rendered, None)
          end
      end
  end.

(** The second loop of [DeploymentsParse], over the collected files. *)
Fixpoint renderAll (fs : FS.System) (vars : gmap string string)
         (names : list string) (acc : list ResourceFile)
  : K8s (list ResourceFile * option error) :=
  match names with
  | [] => ret (acc, None)
  | name :: rest =>
      let* r := applyTemplateVars fs vars name in
      match r with
      | (_, Some err) =>
          ret (acc, Some (Errorf ("couldn't apply template to file "
                                    +:+ name +:+ ": " +:+ Error err)))
      | (content, None) =>
          renderAll fs vars rest (acc ++ [mkResourceFile name content])
      end
  end.

Definition DeploymentsParse (fs : FS.System) (c : K8sClient)
  : K8s (K8sClient * option error) :=
  let* r := renderAll fs (DeploymentVars c)
                      (fileList fs (DeploymentFiles c))
                      (deploymentsContent c) in
  ret (mkK8sClient (DeploymentFiles c) (DeploymentVars c) (fst r), snd r).

(** The body of the inner loop of [ResourceApply] for one section of
    a file.  [Some err] is the [return err] of the function. *)
Definition applySection (name : string) (text : string)
  : K8s (option error) :=
  let text := GoStrings.TrimSpace text in
  if (GoStrings.len text =? 0)%nat then ret None
  else
    match decode text with
    | inl err =>
        match GoStrings.sliceTo text 100 with
        | Some section =>
            ret (Some (Wrapf err ("decoding the resource file:" +:+ name
                                    +:+ ", section:" +:+ section +:+ "...")))
        | None => abort (Panic "slice bounds out of range")
        end
    | inr None => ret None
    | inr (Some resource) =>
        applyResource applyCases name resource ;; ret None
    end.

Definition applyFile (deployment : ResourceFile) : K8s (option error) :=
  let separator := "---" in
  forEach (GoStrings.Split (Content deployment) separator)
          (applySection (FileName deployment)).

Definition ResourceApply (deployments : list ResourceFile)
  : K8s (option error) :=
  forEach deployments applyFile.

Definition deleteSection (name : string) (text : string)
  : K8s (option error) :=
  let text := GoStrings.TrimSpace text in
  if (GoStrings.len text =? 0)%nat then ret None
  else
    match decode text with
    | inl err =>
        match GoStrings.sliceTo text 100 with
        | Some section =>
            ret (Some (Wrapf err ("decoding the resource file:" +:+ name
                                    +:+ ", section:" +:+ section +:+ "...")))
        | None => abort (Panic "slice bounds out of range")
        end
    | inr None => ret None
    | inr (Some resource) =>
        deleteResource deleteCases name resource ;; ret None
    end.

Definition deleteFile (deployment : ResourceFile) : K8s (option error) :=
  let separator := "---" in
  forEach (GoStrings.Split (Content deployment) separator)
          (deleteSection (FileName deployment)).

Definition ResourceDelete (deployments : list ResourceFile)
  : K8s (option error) :=
  forEach deployments deleteFile.



End Actions.

End Legacy.

(** ** [pkg/provider/k8s/k8s.go]: decode while parsing, apply objects *)

Module Pkg.

(** The case labels of the [switch] in [ResourceApply] and
    [ResourceDelete]: those of the earlier version and one more. *)
Definition supportedKinds : list string :=
  Legacy.supportedKinds ++ ["customresourcedefinition"].

Section Actions.

Context {C : Type} `{Clientset C} `{ProviderConstants} `{Decoder}.

Notation K8s := (Go (World C)).

(** The inner loop of [DeploymentsParse] for one section: the objects
    decoded so far, or [inl err] for the [return err]. *)
Definition decodeSection (name : string) (k8sObjects : list Object)
           (text : string) : K8s (error + list Object) :=
  let text := GoStrings.TrimSpace text in
  if (GoStrings.len text =? 0)%nat then ret (inr k8sObjects)
  else
    match decode text with
    | inl err =>
        match GoStrings.sliceTo text 100 with
        | Some section =>
            ret (inl (Wrapf err ("decoding the resource file:" +:+ name
                                   +:+ ", section:" +:+ section +:+ "...")))
        | None => abort (Panic "slice bounds out of range")
        end
    | inr None => ret (inr k8sObjects)
    | inr (Some resource) => ret (inr (k8sObjects ++ [resource]))
    end.

Fixpoint decodeSections (name : string) (k8sObjects : list Object)
         (texts : list string) : K8s (error + list Object) :=
  match texts with
  | [] => ret (inr k8sObjects)
  | text :: rest =>
      let* r := decodeSection name k8sObjects text in
      match r with
      | inl err => ret (inl err)
      | inr objs => decodeSections name objs rest
      end
  end.

(** The outer loop: [resources] is the field [c.resources], to which a
    file with at least one object is appended. *)
Fixpoint decodeFiles (deploymentResource : list ResourceFile)
         (resources : list Resource)
  : K8s (list Resource * option error) :=
  match deploymentResource with
  | [] => ret (resources, None)
  | deployment :: rest =>
      let* r := decodeSections (FileName deployment) []
                  (GoStrings.Split (Content deployment) Separator) in
      match r with
      | inl err => ret (resources, Some err)
      | inr k8sObjects =>
          decodeFiles rest
            (if (0 <? length k8sObjects)%nat
             then resources ++ [mkResource (FileName deployment) k8sObjects]
             else resources)
      end
  end.

(** [DeploymentsParse], given what [provider.DeploymentsParse] returned
    for the files and variables of the client (that function is not
    part of the sources at hand): its error ends the process. *)
Definition DeploymentsParse (parsed : error + list ResourceFile)
           (resources : list Resource)
  : K8s (list Resource * option error) :=
  match parsed with
  | inl err =>
      abort (Fatal ("Couldn't parse deployment files: " +:+ Error err))
  | inr deploymentResource => decodeFiles deploymentResource resources
  end.

Definition applyCases : Cases :=
  (@applyCases C _ _) ++ [("customresourcedefinition", customResourceApply)].

Definition deleteCases : Cases :=
  (@deleteCases C _ _) ++ [("customresourcedefinition", customResourceDelete)].

Definition ResourceApply (deployments : list Resource)
  : K8s (option error) :=
  range deployments
        (fun deployment =>
           range (Objects deployment)
                 (applyResource applyCases (ResourceFileName deployment))) ;;
  ret None.

Definition ResourceDelete (deployments : list Resource)
  : K8s (option error) :=
  range deployments
        (fun deployment =>
           range (Objects deployment)
                 (deleteResource deleteCases (ResourceFileName deployment))) ;;
  ret None.

End Actions.

End Pkg.

(** ** A reference cluster *)

(** A cluster that stores what it is given, used to run the handlers: an
    object lives under its collection, the namespace of the client that
    created it and its name; a create of a stored name and an update or
    delete of an absent one are refused; nothing else ever fails and no
    other client interferes.  What the cluster reports as the status of an
    object is left open: [observe] may answer anything, and differently at
    each request ([clock] counts the requests). *)
Module Store.

Record Status := mkStatus {
  available : Z;
  unavailable : Z;
  ingress : list string
}.

Record Entry := mkEntry {
  inCollection : Collection;
  inNamespace : string;
  stored : Object
}.

Record Cluster := mkCluster {
  entries : list Entry;
  clock : nat
}.

Definition empty : Cluster := mkCluster [] 0.

Definition isAt (coll : Collection) (ns name : string) (e : Entry) : bool :=
  bool_decide (inCollection e = coll)
  && String.eqb (inNamespace e) ns
  && String.eqb (Name (stored e)) name.

Definition isIn (coll : Collection) (ns : string) (e : Entry) : bool :=
  bool_decide (inCollection e = coll) && String.eqb (inNamespace e) ns.

Definition holds (coll : Collection) (ns name : string) (cl : Cluster)
  : bool :=
  existsb (isAt coll ns name) (entries cl).

Definition withStatus (st : Status) (o : Object) : Object :=
  mkObject (goType o) (Kind o) (Version o) (Namespace o) (Name o)
           (Replicas o) (ServiceType o) (Ports o)
           (available st) (unavailable st) (ingress st).

Definition keyOfEntry (e : Entry) : Collection * string * string :=
  (inCollection e, inNamespace e, Name (stored e)).

Definition keys (cl : Cluster) : list (Collection * string * string) :=
  List.map keyOfEntry (entries cl).

(** Every stored service has a port. *)
Definition portsOK (cl : Cluster) : Prop :=
  List.Forall (fun e => inCollection e = Services -> Ports (stored e) <> [])
              (entries cl).

Definition tick (cl : Cluster) : Cluster :=
  mkCluster (entries cl) (Datatypes.S (clock cl)).

Section Client.

Variable observe : nat -> Collection -> Object -> Status.

Definition list (coll : Collection) (ns : string) (cl : Cluster)
  : (error + list Object) * Cluster :=
  (inr (List.map stored (List.filter (isIn coll ns) (entries cl))),
   tick cl).

Definition get (coll : Collection) (ns name : string) (cl : Cluster)
  : (error + Object) * Cluster :=
  (match List.find (isAt coll ns name) (entries cl) with
   | Some e => inr (withStatus (observe (clock cl) coll (stored e))
                               (stored e))
   | None => inl (StatusError NotFound "not found")
   end,
   tick cl).

Definition create (coll : Collection) (ns : string) (req : Object)
           (cl : Cluster) : option error * Cluster :=
  if holds coll ns (Name req) cl
  then (Some (StatusError AlreadyExists "already exists"), tick cl)
  else (None,
        mkCluster (entries cl ++ [mkEntry coll ns req])
                  (Datatypes.S (clock cl))).

Definition update (coll : Collection) (ns : string) (req : Object)
           (cl : Cluster) : option error * Cluster :=
  if holds coll ns (Name req) cl
  then (None,
        mkCluster
          (List.map (fun e => if isAt coll ns (Name req) e
                              then mkEntry coll ns req else e)
                    (entries cl))
          (Datatypes.S (clock cl)))
  else (Some (StatusError NotFound "not found"), tick cl).

Definition delete (coll : Collection) (ns name : string)
           (policy : DeletionPropagation) (cl : Cluster)
  : option error * Cluster :=
  if holds coll ns name cl
  then (None,
        mkCluster
          (List.filter (fun e => negb (isAt coll ns name e)) (entries cl))
          (Datatypes.S (clock cl)))
  else (Some (StatusError NotFound "not found"), tick cl).

Definition client : Clientset Cluster :=
  Build_Clientset Cluster list get create update delete.

End Client.

(** The world a run starts in: an empty cluster, nothing sent, nothing
    logged. *)
Definition start : World Cluster := mkWorld empty [] [].

End Store.

(** ** A stand-in decoder for the examples *)

(** The deserializer of the Kubernetes scheme is a library of its own; the
    examples below use this small decoder in its place.  A document is a
    kind and a name separated by a space, optionally followed by a
    namespace, and decodes into the type and version that the scheme
    registers for the kind; every other text is an error. *)
Module Demo.

Definition registered : list (string * (GoType * string)) :=
  [ ("ClusterRole", (rbac_ClusterRole, "v1"));
    ("ClusterRoleBinding", (rbac_ClusterRoleBinding, "v1"));
    ("ConfigMap", (apiCoreV1_ConfigMap, "v1"));
    ("DaemonSet", (appsV1_DaemonSet, "v1"));
    ("Deployment", (appsV1_Deployment, "v1"));
    ("Ingress", (apiExtensionsV1beta1_Ingress, "v1beta1"));
    ("Namespace", (apiCoreV1_Namespace, "v1"));
    ("Role", (rbac_Role, "v1"));
    ("RoleBinding", (rbac_RoleBinding, "v1"));
    ("Service", (apiCoreV1_Service, "v1"));
    ("ServiceAccount", (apiCoreV1_ServiceAccount, "v1"));
    ("Secret", (apiCoreV1_Secret, "v1"));
    ("PersistentVolumeClaim", (apiCoreV1_PersistentVolumeClaim, "v1"));
    ("CustomResourceDefinition",
     (apiServerExtensionsV1beta1_CustomResourceDefinition, "v1beta1"));
    ("Pod", (OtherType "apiCoreV1.Pod", "v1")) ].

Fixpoint typeOf (table : list (string * (GoType * string))) (kind : string)
  : option (GoType * string) :=
  match table with
  | [] => None
  | (k, tv) :: rest => if String.eqb k kind then Some tv else typeOf rest kind
  end.

Definition object (kind name ns : string) (tv : GoType * string) : Object :=
  mkObject (fst tv) kind (snd tv) ns name None "ClusterIP" [80] 0 0 [].

Definition decodeText (text : string) : error + option Object :=
  match Template.words text with
  | [kind; name] =>
      match typeOf registered kind with
      | Some tv => inr (Some (object kind name "" tv))
      | None => inl (PlainError ("no kind " +:+ kind +:+ " is registered"))
      end
  | [kind; name; ns] =>
      match typeOf registered kind with
      | Some tv => inr (Some (object kind name ns tv))
      | None => inl (PlainError ("no kind " +:+ kind +:+ " is registered"))
      end
  | _ => inl (PlainError "couldn't get version/kind")
  end.

Definition decoder : Decoder := Build_Decoder decodeText.

(** A cluster on which nothing ever becomes ready: no replica is
    available, two nodes are unavailable, no address is assigned. *)
Definition neverReady (_ : nat) (_ : Collection) (_ : Object)
  : Store.Status :=
  Store.mkStatus 0 2 [].

(** A cluster on which everything is ready at once. *)
Definition alwaysReady (_ : nat) (_ : Collection) (o : Object)
  : Store.Status :=
  Store.mkStatus (match Replicas o with Some n => n | None => 1 end) 0
                 ["10.0.0.1"].

Definition constants : ProviderConstants := mkProviderConstants 3.



Definition settings : Object :=
  object "ConfigMap" "settings" "" (apiCoreV1_ConfigMap, "v1").

(** A deployment with three desired replicas and a world in which the
    cluster holds it. *)
Definition loadgen : Object :=
  mkObject appsV1_Deployment "Deployment" "v1" "bench-42" "loadgen"
           (Some 3) "" [] 0 0 [].

Definition withLoadgen : World Store.Cluster :=
  mkWorld (Store.mkCluster [Store.mkEntry Deployments "bench-42" loadgen] 1)
          [] [].

(** A stand-in for the rest of [text/template]: it accepts no template
    beyond the modelled forms. *)
Definition library : Template.Library :=
  Template.Build_Library
    (fun _ _ => false)
    (fun _ _ _ => inl (PlainError "not a template of the examples"))
    (fun _ _ => PlainError "map has no entry for key")
    (fun _ _ => PlainError "template: resource: not a template").

(** The files of the examples: the working directory [/work] holds a
    directory of manifests, two of which refer to a variable, with a
    subdirectory, and one more file. *)
Definition tree : FS.Node :=
  FS.Dir
    [("work",
      FS.Dir
        [("manifests",
          FS.Dir [("2_deployment.yaml",
                   FS.File "Deployment loadgen bench-{{ .PR_NUMBER }}");
                  ("1_namespace.yml",
                   FS.File "Namespace bench-{{ normalise .PR_NUMBER }}");
                  ("README.md", FS.File "not a manifest");
                  ("monitoring",
                   FS.Dir [("notes.txt", FS.File "not a manifest either");
                           ("3_service.yaml",
                            FS.File "Service grafana bench-{{ .PR_NUMBER }}")])]);
         ("extra.txt", FS.File "ConfigMap settings")]);
     ("etc", FS.Dir [])].

Definition manifests : FS.System := FS.mkSystem tree ["work"].


Definition nodeExporter : Object :=
  mkObject appsV1_DaemonSet "DaemonSet" "v1" "bench-42" "node-exporter"
           None "" [] 0 0 [].

(** A namespace and a world in which the cluster holds it; a pod, for
    which there is no handler. *)
Definition bench : Object :=
  object "Namespace" "bench-42" "" (apiCoreV1_Namespace, "v1").

Definition withBench : World Store.Cluster :=
  mkWorld (Store.mkCluster [Store.mkEntry Namespaces "" bench] 1) [] [].

Definition pod : Object :=
  object "Pod" "debug" "bench-42" (OtherType "apiCoreV1.Pod", "v1").

(** A batch of two files for the examples. *)
Definition batch : list Resource :=
  [ mkResource "1_base.yaml"
      [ bench;
        object "ConfigMap" "settings" "bench-42" (apiCoreV1_ConfigMap, "v1");
        object "Service" "loadgen" "bench-42" (apiCoreV1_Service, "v1") ];
    mkResource "2_workload.yaml"
      [ loadgen;
        nodeExporter ] ].

End Demo.

(** ** [simpleargs]: the arguments of a comment, written to files *)

Module SimpleArgs.

(** What [writeArgs] can touch: the files it writes, by path, and the
    lines handed to [log.Printf].  [refuses] is the file system's
    answer to a write: the error it gives for a path, if any. *)
Record Disk := mkDisk {
  files : gmap string string;
  refuses : string -> option error;
  printed : list string
}.

(** [ioutil.WriteFile(path, data, 0644)]: the file is created or
    replaced. *)
Definition WriteFile (path data : string) : Go Disk (option error) :=
  fun d => match refuses d path with
           | Some e => Done (Some e) d
           | None =>
               Done None (mkDisk (<[path := data]> (files d)) (refuses d)
                                 (printed d))
           end.

(** A format without the byte [%] holds no verb. *)
Fixpoint verbFree (format : string) : bool :=
  match format with
  | EmptyString => true
  | String c rest => negb (Ascii.eqb c "%") && verbFree rest
  end.

(** [fmt.Sprintf(format)] with no operand, for a format that holds a
    [%]: what the library makes of the verbs.  Nothing is assumed about
    it. *)
Class Fmt := { Sprintf : string -> string }.

(** The line of [log.Printf(format)] with no further argument: a format
    without a verb is the line, any other goes through the library. *)
Definition formatted `{Fmt} (format : string) : string :=
  if verbFree format then format else Sprintf format.

Definition logPrintf `{Fmt} (format : string) : Go Disk unit :=
  fun d => Done tt (mkDisk (files d) (refuses d)
                           (printed d ++ [formatted format])).

(** The decimal digits of a number, as [%d] prints an index. *)
Definition itoa (i : nat) : string :=
  DecimalString.NilEmpty.string_of_uint (Nat.to_uint i).

(** The loop of [writeArgs] from index [i] on. *)
Fixpoint writeFrom `{Fmt} (output : string) (i : nat) (args : list string)
  : Go Disk unit :=
  match args with
  | [] => ret tt
  | arg :: rest =>
      let data := arg in
      let filename := "ARG_" +:+ itoa i in
      let* err := WriteFile (Filepath.Join output filename) data in
      logPrintf (Filepath.Join output filename) ;;
      match err with
      | Some e => abort (Fatal (Error e))
      | None => writeFrom output (Datatypes.S i) rest
      end
  end.

(** [writeArgs(arglist)]: the loop runs over [arglist[1:]], a slice
    expression that panics on an empty list. *)
Definition writeArgs `{Fmt} (output : string) (arglist : list string)
  : Go Disk unit :=
  match arglist with
  | [] => abort (Panic "slice bounds out of range")
  | _ :: args => writeFrom output 0 args
  end.

(** The path of the file for the argument of index [i]. *)
Definition argPath (output : string) (i : nat) : string :=
  Filepath.Join output ("ARG_" +:+ itoa i).

(** *** [main]: from the comment of an issue to the arguments *)

(** The fields of the event that [main] reads.  Each of them is a
    pointer in the [go-github] structs; a nil pointer is [None]. *)
Record IssueComment := mkIssueComment {
  AuthorAssociation : option string;
  Body : option string
}.

Record User := mkUser { Login : option string }.

Record Repository := mkRepository {
  Owner : option User;
  RepoName : option string
}.

Record Issue := mkIssue { Number : option Z }.

Record IssueCommentEvent := mkIssueCommentEvent {
  Comment : option IssueComment;
  Repo : option Repository;
  EventIssue : option Issue
}.

(** What [github.ParseWebHook] can return: an issue comment event or an
    event of another type. *)
Inductive Event :=
| IssueCommentEv (e : IssueCommentEvent)
| OtherEvent.

(** A request to create a comment on an issue. *)
Record Request := mkRequest {
  toOwner : string;
  toRepo : string;
  toIssue : Z;
  commentBody : string
}.

(** The libraries and the service behind [main]: the parser of the
    webhook payloads, the regular expressions of [regexp] ([Compile] is
    [None] for a pattern that [regexp.MustCompile] panics on) and the
    answer of the GitHub API to a comment.  Nothing is assumed about
    them. *)
Class Externals := {
  ParseWebHook : string -> string -> error + Event;
  Regexp : Type;
  Compile : string -> option Regexp;
  MatchString : Regexp -> string -> bool;
  FindStringSubmatch : Regexp -> string -> list string;
  CreateComment : Request -> option error
}.

(** What [main] can touch: the disk and the log, the standard output
    and the requests sent to the GitHub API (oldest first). *)
Record Machine := mkMachine {
  disk : Disk;
  stdout : list string;
  requests : list Request
}.

Definition onDisk {A} (m : Go Disk A) : Go Machine A :=
  fun s => match m (disk s) with
           | Done a d => Done a (mkMachine d (stdout s) (requests s))
           | Aborted why d => Aborted why (mkMachine d (stdout s) (requests s))
           end.

Definition print (line : string) : Go Machine unit :=
  fun s => Done tt (mkMachine (disk s) (stdout s ++ [line]) (requests s)).

(** The dereference of a pointer. *)
Definition deref {A} (p : option A) : Go Machine A :=
  match p with
  | Some a => ret a
  | None => abort (Panic "invalid memory address or nil pointer dereference")
  end.

(** [ioutil.ReadFile(name)] *)
Definition ReadFile (name : string) : Go Machine (error + string) :=
  fun s => Done (match files (disk s) !! name with
                 | Some data => inr data
                 | None => inl (PlainError ("open " +:+ name
                                              +:+ ": no such file or directory"))
                 end) s.

Definition nl : string := String (ascii_of_nat 10) "".
Definition quote : string := String (ascii_of_nat 34) "".

(** [strconv.Itoa], and [%d] of an [int]. *)
Definition Itoa (n : Z) : string :=
  DecimalString.NilEmpty.string_of_int (Z.to_int n).

Definition prombenchURL : string := "http://prombench.prometheus.io".

(** The comment that announces the benchmark: the format of the source
    with its thirteen operands in place. *)
Definition welcome (prnumber : Z) (releaseVersion : string) : string :=
  "Welcome to Prometheus Benchmarking Tool." +:+ nl +:+ nl
  +:+ "The two prometheus versions that will be compared are _**pr-"
  +:+ Itoa prnumber +:+ "**_ and _**" +:+ releaseVersion +:+ "**_"
  +:+ nl +:+ nl
  +:+ "The logs can be viewed at the links provided in the GitHub check blocks at the end of this conversation"
  +:+ nl +:+ nl
  +:+ "After successfull deployment, the benchmarking metrics can be viewed at :"
  +:+ nl
  +:+ "- [prometheus-meta](" +:+ prombenchURL
  +:+ "/prometheus-meta) - label **{namespace=" +:+ quote +:+ "prombench-"
  +:+ Itoa prnumber +:+ quote +:+ "}**" +:+ nl
  +:+ "- [grafana](" +:+ prombenchURL
  +:+ "/grafana) - template-variable **" +:+ quote +:+ "pr-number" +:+ quote
  +:+ " : " +:+ Itoa prnumber +:+ "**" +:+ nl +:+ nl
  +:+ "The Prometheus servers being benchmarked can be viewed at :" +:+ nl
  +:+ "- PR - [prombench.prometheus.io/" +:+ Itoa prnumber
  +:+ "/prometheus-pr](" +:+ prombenchURL +:+ "/" +:+ Itoa prnumber
  +:+ "/prometheus-pr)" +:+ nl
  +:+ "- " +:+ releaseVersion +:+ " - [prombench.prometheus.io/"
  +:+ Itoa prnumber +:+ "/prometheus-release](" +:+ prombenchURL +:+ "/"
  +:+ Itoa prnumber +:+ "/prometheus-release)" +:+ nl +:+ nl
  +:+ "To stop the benchmark process comment **/benchmark cancel** .".

Section Main.

Context `{Externals} `{Fmt}.

(** The command line as [kingpin] has parsed it. *)
Variable input output regex : string.

(** [client.Issues.CreateComment]: the request is sent and answered. *)
Definition post (request : Request) : Go Machine (option error) :=
  fun s => Done (CreateComment request)
                (mkMachine (disk s) (stdout s) (requests s ++ [request])).

(** The branch of [main] for a comment whose author may start a
    benchmark. *)
Definition startBenchmark (e : IssueCommentEvent)
  : Go Machine (option Z) :=
  onDisk (logPrintf "Author is member or collaborator") ;;
  let* repo := deref (Repo e) in
  let* user := deref (Owner repo) in
  let* owner := deref (Login user) in
  let* repo' := deref (Repo e) in
  let* repo := deref (RepoName repo') in
  let* issue := deref (EventIssue e) in
  let* prnumber := deref (Number issue) in
  match Compile regex with
  | None => abort (Panic "regexp: Compile: error parsing regexp")
  | Some argRe =>
      let* comment := deref (Comment e) in
      let* body := deref (Body comment) in
      if MatchString argRe body then
        let* comment := deref (Comment e) in
        let* body := deref (Body comment) in
        let groups := FindStringSubmatch argRe body in
        let groups := groups ++ [Itoa prnumber] in
        onDisk (writeArgs output groups) ;;
        match nth_error groups 1 with
        | None => abort (Panic "index out of range")
        | Some releaseVersion =>
            print releaseVersion ;;
            let comment := welcome prnumber releaseVersion in
            let* err := post (mkRequest owner repo prnumber comment) in
            match err with
            | Some err => print (Error err +:+ "+") ;; ret None
            | None => ret None
            end
        end
      else
        onDisk (logPrintf "matching command not found") ;;
        ret (Some 78)
  end.

(** [main], after the command line has been parsed and the client
    built.  The result is the status that [os.Exit] is called with, if
    it is called: both calls are the last statement of their branch and
    nothing follows the [switch].  (The result of [os.MkdirAll] is
    dropped by the source; directories are not part of the disk.) *)
Definition main : Go Machine (option Z) :=
  let* data := ReadFile input in
  match data with
  | inl err => abort (Fatal (Error err))
  | inr data =>
      match ParseWebHook "issue_comment" data with
      | inl err =>
          abort (Fatal ("could not parse = %v" +:+ nl +:+ " " +:+ Error err))
      | inr (IssueCommentEv e) =>
          let* comment := deref (Comment e) in
          let* association := deref (AuthorAssociation comment) in
          if negb (String.eqb association "COLLABORATOR")
             && negb (String.eqb association "MEMBER")
          then
            onDisk (logPrintf "Author is not a member or collaborator") ;;
            ret (Some 78)
          else startBenchmark e
      | inr OtherEvent =>
          abort (Fatal "simpleargs only supports issue_comment event")
      end
  end.

End Main.

End SimpleArgs.

(** ** Further example data *)

Module Samples.

(** A deployment of [apps/v1beta1]: its kind has a case, its Go type is
    not the one the handler of that case asserts. *)
Definition betaDeployment : Object :=
  Demo.object "Deployment" "loadgen" "bench-42"
              (OtherType "appsV1beta1.Deployment", "v1beta1").

(** An object of the asserted type under a version without a case. *)
Definition strayVersion : Object :=
  mkObject appsV1_Deployment "Deployment" "v2" "bench-42" "loadgen"
           (Some 3) "" [] 0 0 [].

(** A load balancer with one port. *)
Definition balancer : Object :=
  mkObject apiCoreV1_Service "Service" "v1" "bench-42" "grafana"
           None "LoadBalancer" [3000] 0 0 [].

Definition withBalancer : World Store.Cluster :=
  mkWorld (Store.mkCluster [Store.mkEntry Services "bench-42" balancer] 1)
          [] [].

(** A cluster that refuses every request. *)
Definition forbidden : error :=
  StatusError (OtherReason "Forbidden") "forbidden".

Definition denying : Clientset unit :=
  Build_Clientset unit
    (fun _ _ c => (inl forbidden, c))
    (fun _ _ _ c => (inl forbidden, c))
    (fun _ _ _ c => (Some forbidden, c))
    (fun _ _ _ c => (Some forbidden, c))
    (fun _ _ _ _ c => (Some forbidden, c)).

(** A cluster that lists the deployment of the examples and answers
    every update with a conflict. *)
Definition conflict : error := StatusError Conflict "the object has been modified".

Definition contended : Clientset unit :=
  Build_Clientset unit
    (fun _ _ c => (inr [Demo.loadgen], c))
    (fun _ _ _ c => (inr Demo.loadgen, c))
    (fun _ _ _ c => (None, c))
    (fun _ _ _ c => (Some conflict, c))
    (fun _ _ _ _ c => (None, c)).

Definition nowhere : World unit := mkWorld tt [] [].

(** The client of the earlier version for the directory of manifests,
    with the one variable the manifests refer to. *)
Definition client : Legacy.K8sClient :=
  Legacy.mkK8sClient ["./manifests"] (<["PR_NUMBER" := "42"]> ∅) [].

(** Two rendered files: one with two objects around a blank section,
    one with blank sections only. *)
Definition twoObjects : ResourceFile :=
  mkResourceFile "1_base.yaml"
    "Namespace bench-42---   ---ConfigMap settings bench-42".

Definition blank : ResourceFile := mkResourceFile "0_empty.yaml" " --- ".

(** A rendered file whose first section is a config map and whose second
    section, 104 bytes long, does not decode. *)
Definition widget : string :=
  "Widget 0123456789012345678901234567890123456789"
    +:+ "01234567890123456789012345678901234567890123456789-end".

Definition halfBad : ResourceFile :=
  mkResourceFile "2_half.yaml" ("ConfigMap settings bench-42---" +:+ widget).

Definition unregistered : error :=
  PlainError "no kind Widget is registered".

(** A stand-in for [fmt] on formats with a verb; the examples have
    none. *)
Definition fmt : SimpleArgs.Fmt :=
  SimpleArgs.Build_Fmt (fun _ => "%!v(MISSING)").

(** A disk that accepts every write, and the groups of a comment. *)
Definition disk : SimpleArgs.Disk := SimpleArgs.mkDisk ∅ (fun _ => None) [].

Definition groups : list string := ["/benchmark v2.12.0"; "v2.12.0"; "1234"].

(** Two comments on pull request 1234 of [prometheus/prometheus], one by
    a member and one by a passer-by, and stand-ins for the libraries: the
    payload of an event is its name, and the one pattern is a command
    word followed by one group. *)
Definition pull : option SimpleArgs.Repository :=
  Some (SimpleArgs.mkRepository (Some (SimpleArgs.mkUser (Some "prometheus")))
                                (Some "prometheus")).

Definition byMember : SimpleArgs.IssueCommentEvent :=
  SimpleArgs.mkIssueCommentEvent
    (Some (SimpleArgs.mkIssueComment (Some "MEMBER")
                                     (Some "/benchmark v2.12.0")))
    pull (Some (SimpleArgs.mkIssue (Some 1234))).

Definition byPasserBy : SimpleArgs.IssueCommentEvent :=
  SimpleArgs.mkIssueCommentEvent
    (Some (SimpleArgs.mkIssueComment (Some "NONE")
                                     (Some "/benchmark v2.12.0")))
    pull (Some (SimpleArgs.mkIssue (Some 1234))).

Definition externals : SimpleArgs.Externals :=
  SimpleArgs.Build_Externals
    (fun _ data =>
       if String.eqb data "member" then inr (SimpleArgs.IssueCommentEv byMember)
       else if String.eqb data "passer-by"
            then inr (SimpleArgs.IssueCommentEv byPasserBy)
            else inl (PlainError "unexpected end of JSON input"))
    unit
    (fun _ => Some tt)
    (fun _ body => String.prefix "/benchmark " body)
    (fun _ body => [body; String.substring 11 (String.length body - 11) body])
    (fun _ => None).

Definition machine : SimpleArgs.Machine :=
  SimpleArgs.mkMachine
    (SimpleArgs.mkDisk (<["member.json" := "member"]>
                          (<["passer-by.json" := "passer-by"]> ∅))
                       (fun _ => None) [])
    [] [].

End Samples.

(** ** Vocabulary of the statements below *)

(** What a call returned, if it returned. *)
Definition returned {S A} (r : Result S A) : option A :=
  match r with
  | Done a _ => Some a
  | Aborted _ _ => None
  end.

(** The state a call ends in, however it ends. *)
Definition worldOf {S A} (r : Result S A) : S :=
  match r with
  | Done _ s => s
  | Aborted _ s => s
  end.

Definition isGet (c : Call) : bool :=
  match c with CallGet _ _ _ => true | _ => false end.

(** A call that sends nothing but [Get]s, however it ends. *)
Definition sendsOnlyGets {C A} (m : Go (World C) A) : Prop :=
  forall w, exists gets,
    calls (worldOf (m w)) = calls w ++ gets /\ forallb isGet gets = true.

(** The two outcome lines of an apply. *)
Definition isOutcome (l : LogLine) : bool :=
  match l with
  | LogResourceCreated _ _ | LogResourceUpdated _ _ => true
  | _ => false
  end.

Definition outcomes (lines : list LogLine) : list LogLine :=
  List.filter isOutcome lines.

(** What an apply handler asserting the type [T] does once the create
    succeeded: nothing, or one of the three readiness checks. *)
Definition afterCreate {C : Type} `{Clientset C} `{ProviderConstants}
           (T : GoType) (after : Object -> Go (World C) (option error))
  : Prop :=
  after = returnNil
  \/ (T = appsV1_DaemonSet
      /\ after = (fun req => daemonsetReady req ;; ret None))
  \/ (T = appsV1_Deployment
      /\ after = (fun req =>
                    Provider.RetryUntilTrue
                      ("applying deployment:" +:+ Name req)
                      GlobalRetryCount (deploymentReady req)))
  \/ (T = apiCoreV1_Service
      /\ after = (fun req =>
                    Provider.RetryUntilTrue
                      ("applying service:" +:+ Name req)
                      GlobalRetryCount (serviceExists req))).

(** The error lines of the [default] case of the two dispatch switches. *)
Definition isUnimplemented (l : LogLine) : bool :=
  match l with
  | LogErrorApplying _ (Errorf m) =>
      String.prefix "creating request for unimplimented resource type:" m
  | LogErrorDeleting _ (Errorf m) =>
      String.prefix "deleting request for unimplimented resource type:" m
  | _ => false
  end.

Definition unimplemented (lines : list LogLine) : list LogLine :=
  List.filter isUnimplemented lines.

(** Outcome lines and error lines. *)
Definition notable (l : LogLine) : bool :=
  match l with
  | LogResourceCreated _ _ | LogResourceUpdated _ _
  | LogErrorApplying _ _ | LogErrorDeleting _ _ => true
  | _ => false
  end.

(** A call whose results all satisfy [P]. *)
Definition yields {S A} (P : A -> Prop) (m : Go S A) : Prop :=
  forall s a s', m s = Done a s' -> P a.

(** An error that, once logged, is not mistaken for the error of a
    [default] case. *)
Definition benign (err : option error) : Prop :=
  match err with
  | Some e => forall file, isUnimplemented (LogErrorApplying file e) = false
  | None => True
  end.

(** A call on the reference cluster that returns, stores nothing new and
    logs neither an outcome nor an error, provided every stored service
    has a port. *)
Definition quiet {A} (m : Go (World Store.Cluster) A) : Prop :=
  forall w,
    Store.portsOK (cluster w) ->
    exists r w',
      m w = Done r w'
      /\ Store.entries (cluster w') = Store.entries (cluster w)
      /\ List.filter notable (logged w') = List.filter notable (logged w).

(** What the handler behind each case label of the later version asserts
    and addresses: the Go type, the version of its one version case,
    whether it defaults the namespace of the request, whether its client
    is taken in that namespace, and the collection of the client. *)
Record Shape := mkShape {
  asserted : GoType;
  versionCase : string;
  defaults : bool;
  namespaced : bool;
  collection : Collection
}.

Definition shapes : list (string * Shape) :=
  [ ("clusterrole", mkShape rbac_ClusterRole "v1" false false ClusterRoles);
    ("clusterrolebinding",
     mkShape rbac_ClusterRoleBinding "v1" false false ClusterRoleBindings);
    ("configmap", mkShape apiCoreV1_ConfigMap "v1" true true ConfigMaps);
    ("daemonset", mkShape appsV1_DaemonSet "v1" true true DaemonSets);
    ("deployment", mkShape appsV1_Deployment "v1" true true Deployments);
    ("ingress", mkShape apiExtensionsV1beta1_Ingress "v1beta1" true true Ingresses);
    ("namespace", mkShape apiCoreV1_Namespace "v1" false false Namespaces);
    ("role", mkShape rbac_Role "v1" true true Roles);
    ("rolebinding", mkShape rbac_RoleBinding "v1" true true RoleBindings);
    ("service", mkShape apiCoreV1_Service "v1" true true Services);
    ("serviceaccount",
     mkShape apiCoreV1_ServiceAccount "v1" true true ServiceAccounts);
    ("secret", mkShape apiCoreV1_Secret "v1" true true Secrets);
    ("persistentvolumeclaim",
     mkShape apiCoreV1_PersistentVolumeClaim "v1" true true
             PersistentVolumeClaims);
    ("customresourcedefinition",
     mkShape apiServerExtensionsV1beta1_CustomResourceDefinition "v1beta1"
             true false CustomResourceDefinitions) ].

Fixpoint shapeOf (table : list (string * Shape)) (label : string)
  : option Shape :=
  match table with
  | [] => None
  | (l, sh) :: rest => if String.eqb l label then Some sh else shapeOf rest label
  end.

(** The request a handler of shape [sh] sends for [o], and the namespace
    of the client it sends it through. *)
Definition requestOf (sh : Shape) (o : Object) : Object :=
  if defaults sh then defaultNamespace o else o.

Definition clientNamespace (sh : Shape) (o : Object) : string :=
  if namespaced sh then Namespace (requestOf sh o) else "".

(** An object that its handler accepts: its kind has a case, it has the
    type and the version the handler expects, and a service has a port
    (the API server refuses one without). *)
Definition accepted (sh : Shape) (o : Object) : Prop :=
  shapeOf shapes (GoStrings.ToLower (Kind o)) = Some sh
  /\ goType o = asserted sh
  /\ Version o = versionCase sh
  /\ (collection sh = Services -> Ports o <> []).

Definition applicable (o : Object) : Prop := exists sh, accepted sh o.

(** Where the cluster keeps an object: collection, namespace and name. *)
Definition Key : Type := Collection * string * string.

(** The keys of the creates among the requests sent. *)
Definition createdKeys (sent : list Call) : list Key :=
  flat_map (fun c => match c with
                     | CallCreate coll ns req => [(coll, ns, Name req)]
                     | _ => []
                     end) sent.

Definition keyOf (o : Object) : option Key :=
  match shapeOf shapes (GoStrings.ToLower (Kind o)) with
  | Some sh => Some (collection sh, clientNamespace sh o, Name o)
  | None => None
  end.

(** All objects of a batch, in order. *)
Definition allObjects (deployments : list Resource) : list Object :=
  flat_map Objects deployments.

Definition created (o : Object) : LogLine := LogResourceCreated (Kind o) (Name o).
Definition updated (o : Object) : LogLine := LogResourceUpdated (Kind o) (Name o).

(** A call that, when it returns, returns a result in [P], and that
    never ends the process: it returns or panics. *)
Definition endsIn {S A} (P : A -> Prop) (m : Go S A) : Prop :=
  forall s, match m s with
            | Done a _ => P a
            | Aborted (Panic _) _ => True
            | Aborted (Fatal _) _ => False
            end.

(** The two lines that [ResourceApply] and [ResourceDelete] write for an
    error. *)
Definition isErrorLine (l : LogLine) : bool :=
  match l with
  | LogErrorApplying _ _ | LogErrorDeleting _ _ => true
  | _ => false
  end.

(** A call that leaves the log as it was but for lines it appends, all
    of them in [P], however it ends. *)
Definition appends {C A} (P : LogLine -> Prop) (m : Go (World C) A) : Prop :=
  forall w, exists lines,
    logged (worldOf (m w)) = logged w ++ lines /\ List.Forall P lines.

(** The world after a line was logged. *)
Definition withLine {C} (w : World C) (l : LogLine) : World C :=
  mkWorld (cluster w) (calls w) (logged w ++ [l]).

(** The error of a section that does not decode. *)
Definition isDecodeError (e : error) : Prop :=
  exists cause message,
    e = Wrapf cause message
    /\ String.prefix "decoding the resource file:" message = true.

Definition nilOrDecodeError (err : option error) : Prop :=
  match err with
  | Some e => isDecodeError e
  | None => True
  end.

(** The entries below a node, each with the names that lead to it. *)
Inductive inside : FS.Node -> list string -> FS.Node -> Prop :=
| inside_here (node : FS.Node) : inside node [] node
| inside_entry (es : list (string * FS.Node)) (name : string)
               (child : FS.Node) (names : list string) (node : FS.Node) :
    In (name, child) es -> inside child names node ->
    inside (FS.Dir es) (name :: names) node.

(** The path joined from a path and the names below it, one
    [filepath.Join] per name, as the walk builds it. *)
Definition joined (root : string) (names : list string) : string :=
  fold_left Filepath.Join names root.

(** A string that ends in [suffix]. *)
Definition hasSuffix (suffix s : string) : Prop :=
  exists stem, s = stem +:+ suffix.

(** The text of a file once rendered, when the file can be read and its
    template parses and executes against the variables. *)
Definition rendered `{Template.Library} (fs : FS.System)
           (vars : gmap string string) (file : string) : option string :=
  match FS.ReadFile fs file with
  | inr content =>
      match Template.Parse Legacy.funcs content with
      | Some t =>
          match Template.Execute Legacy.funcs t vars with
          | inr text => Some text
          | inl _ => None
          end
      | None => None
      end
  | inl _ => None
  end.

(** The rendered files of a list of paths, when every one renders. *)
Fixpoint renderedFiles `{Template.Library} (fs : FS.System)
         (vars : gmap string string) (names : list string)
  : option (list ResourceFile) :=
  match names with
  | [] => Some []
  | name :: rest =>
      match rendered fs vars name, renderedFiles fs vars rest with
      | Some content, Some files => Some (mkResourceFile name content :: files)
      | _, _ => None
      end
  end.

(** The sections of a rendered file that the decoding loops look at: the
    pieces between the separators, trimmed, the empty ones left out. *)
Definition kept (texts : list string) : list string :=
  List.filter (fun text => negb (GoStrings.len text =? 0)%nat)
              (List.map GoStrings.TrimSpace texts).

Definition sectionsOf (content : string) : list string :=
  kept (GoStrings.Split content Separator).

(** A file all of whose sections decode, and the objects it then holds,
    in the order of its sections. *)
Definition decodes `{Decoder} (content : string) : Prop :=
  List.Forall (fun text => exists r, decode text = inr r) (sectionsOf content).

Definition decoded `{Decoder} (texts : list string) : list Object :=
  flat_map (fun text => match decode text with
                        | inr (Some o) => [o]
                        | _ => []
                        end) texts.

Definition objectsOf `{Decoder} (content : string) : list Object :=
  decoded (sectionsOf content).

(** The resources of a list of rendered files: one per file that holds
    an object. *)
Definition resourcesOf `{Decoder} (files : list ResourceFile)
  : list Resource :=
  flat_map (fun f => match objectsOf (Content f) with
                     | [] => []
                     | objs => [mkResource (FileName f) objs]
                     end) files.

(** The line a delete handler logs for an object whose delete was
    accepted; the handler of the namespaces has a line of its own. *)
Definition deleted (o : Object) : LogLine :=
  if String.eqb (GoStrings.ToLower (Kind o)) "namespace"
  then LogResourceDeleting (Kind o) (Name o)
  else LogResourceDeleted (Kind o) (Name o).

(** The objects of a batch, each with the name of its file, in order. *)
Definition filed (deployments : list Resource) : list (string * Object) :=
  flat_map (fun d => List.map (pair (ResourceFileName d)) (Objects d))
           deployments.

(** The line [ResourceDelete] logs for an object of a file that the
    reference cluster does not hold. *)
Definition notFoundOnDelete (p : string * Object) : LogLine :=
  LogErrorDeleting (fst p)
    (Wrapf (StatusError NotFound "not found")
           (deleteFailed (Kind (snd p)) (Name (snd p)))).

(* ================================================================= *)
(** * Properties *)

Example normalise_abc : normalise "a.b.c" = "a-b-c".
Proof. reflexivity. Qed.

Example split_docs :
  GoStrings.Split "a---b----c" "---" = ["a"; "b"; "-c"].
Proof. reflexivity. Qed.

Example trim_space_ex : GoStrings.TrimSpace "  x y
" = "x y".
Proof. reflexivity. Qed.

Example to_lower_ex : GoStrings.ToLower "ConfigMap" = "configmap".
Proof. reflexivity. Qed.

Example ext_yaml : Filepath.Ext "manifests/1a_namespace.yaml" = ".yaml".
Proof. reflexivity. Qed.

Example ext_dir_dot : Filepath.Ext "v1.2/README" = "".
Proof. reflexivity. Qed.

Example ext_two_dots : Filepath.Ext "a.b/c.d.yml" = ".yml".
Proof. reflexivity. Qed.

Example walk_order :
  Filepath.Walk "./m"
    (FS.Dir [("b.yaml", FS.File "2"); ("a", FS.Dir [("z.yml", FS.File "0")]);
             ("a.yaml", FS.File "1")])
  = ["./m"; "m/a"; "m/a/z.yml"; "m/a.yaml"; "m/b.yaml"].
Proof. reflexivity. Qed.

Example clean_ex :
  List.map Filepath.Clean
           [""; "/"; "a//b/"; "./out"; "a/../.."; "/../a"; "a/./b/../c"]
  = ["."; "/"; "a/b"; "out"; ".."; "/a"; "a/c"].
Proof. reflexivity. Qed.

Example join_ex :
  Filepath.Join "./out" "ARG_0" = "out/ARG_0"
  /\ Filepath.Join "/github/home/" "ARG_1" = "/github/home/ARG_1"
  /\ Filepath.Join "" "ARG_0" = "ARG_0"
  /\ Filepath.Join "." "ARG_0" = "ARG_0".
Proof. repeat split; reflexivity. Qed.

Example stat_ex :
  List.map (FS.Stat Demo.manifests)
           [""; "extra.txt"; "./extra.txt"; "/work/extra.txt";
            "manifests/../extra.txt"; "extra.txt/"; "extra.txt/.."; "absent";
            "../etc"; "/.."]
  = [None; Some (FS.File "ConfigMap settings");
     Some (FS.File "ConfigMap settings"); Some (FS.File "ConfigMap settings");
     Some (FS.File "ConfigMap settings"); None; None; None;
     Some (FS.Dir []); Some Demo.tree].
Proof. reflexivity. Qed.

Section TemplateExamples.

Context `{Template.Library}.

Example parse_ex :
  Template.Parse [("normalise", normalise)]
                 "name: bench-{{ .PR_NUMBER }}-{{normalise .RELEASE}}"
  = Some [Template.Text "name: bench-"; Template.Field "PR_NUMBER";
          Template.Text "-"; Template.Call "normalise" "RELEASE";
          Template.Text ""].
Proof. reflexivity. Qed.

Example parse_if_ex :
  Template.Parse [("normalise", normalise)]
                 "a{{ if .DEBUG }}b{{ .LEVEL }}{{ else }}c{{ end }}d"
  = Some [Template.Text "a";
          Template.If "DEBUG"
                      [Template.Text "b"; Template.Field "LEVEL";
                       Template.Text ""]
                      [Template.Text "c"];
          Template.Text "d"].
Proof. reflexivity. Qed.

Example parse_unclosed_ex :
  Template.Parse [("normalise", normalise)] "name: {{ .PR_NUMBER" = None.
Proof. reflexivity. Qed.

(** Beyond the four forms the answer is the library's. *)
Example parse_foreign_ex :
  List.map (Template.Parse [("normalise", normalise)])
           ["{{ .V | normalise }}"; "{{ .PR-NUMBER }}"; "{{ print .V }}";
            "{{ end }}"; "{{- .V }}"]
  = List.map (fun text =>
                if Template.parses [("normalise", normalise)] text
                then Some [Template.Foreign text] else None)
             ["{{ .V | normalise }}"; "{{ .PR-NUMBER }}"; "{{ print .V }}";
              "{{ end }}"; "{{- .V }}"].
Proof. reflexivity. Qed.

Example execute_ex :
  Template.Execute [("normalise", normalise)]
    [Template.Text "name: bench-"; Template.Field "PR_NUMBER";
     Template.Text "-"; Template.Call "normalise" "RELEASE"]
    (<["PR_NUMBER" := "42"]> (<["RELEASE" := "v2.9.1"]> ∅))
  = inr "name: bench-42-v2-9-1".
Proof. vm_compute. reflexivity. Qed.

End TemplateExamples.

(** ** The template helper *)

Lemma prefix_empty (s : string) : String.prefix "" s = true.
Proof. destruct s; reflexivity. Qed.

Lemma prefix_dot (c : ascii) (rest : string) :
  String.prefix "." (String c rest) = Ascii.eqb c ".".
Proof.
  change (String.prefix "." (String c rest))
    with (if ascii_dec "." c then String.prefix "" rest else false).
  destruct (ascii_dec "." c) as [<- | Hne].
  - now rewrite prefix_empty.
  - symmetry. apply Ascii.eqb_neq. congruence.
Qed.

Lemma replaceFrom_cons (old new : string) (n : Z) (c : ascii) (rest : string) :
  GoStrings.replaceFrom old new 0 n (String c rest)
  = if negb (n =? 0) && String.prefix old (String c rest)
    then new +:+ GoStrings.replaceFrom old new (GoStrings.len old - 1)
                   (if n <? 0 then n else n - 1) rest
    else String c (GoStrings.replaceFrom old new 0 n rest).
Proof. reflexivity. Qed.

Lemma replace_dot_unfold (c : ascii) (rest : string) :
  GoStrings.replaceFrom "." "-" 0 (-1) (String c rest)
  = String (dash c) (GoStrings.replaceFrom "." "-" 0 (-1) rest).
Proof.
  rewrite replaceFrom_cons, prefix_dot. unfold dash.
  destruct (Ascii.eqb c "."); reflexivity.
Qed.

Lemma normalise_cons (c : ascii) (rest : string) :
  normalise (String c rest) = String (dash c) (normalise rest).
Proof. unfold normalise, GoStrings.Replace. apply replace_dot_unfold. Qed.

Lemma normalise_length (x : string) :
  String.length (normalise x) = String.length x.
Proof.
  induction x as [| c rest IH]; [reflexivity |].
  rewrite normalise_cons.
  change (S (String.length (normalise rest)) = S (String.length rest)).
  now rewrite IH.
Qed.

Lemma normalise_get (x : string) (i : nat) :
  String.get i (normalise x) = option_map dash (String.get i x).
Proof.
  revert i. induction x as [| c rest IH]; intros i; [reflexivity |].
  rewrite normalise_cons. destruct i as [| i]; [reflexivity | apply IH].
Qed.

Lemma normalise_dot_free (x : string) :
  (forall i, String.get i x <> Some "."%char) -> normalise x = x.
Proof.
  induction x as [| c rest IH]; intros Hfree; [reflexivity |].
  rewrite normalise_cons. f_equal.
  - unfold dash. destruct (Ascii.eqb_spec c ".") as [-> | _]; [| reflexivity].
    exfalso. apply (Hfree 0%nat). reflexivity.
  - apply IH. intros i. apply (Hfree (S i)).
Qed.

Section Helper.

Context `{Template.Library}.

(** The template action [{{ normalise .KEY }}] renders the value bound to
    [KEY] through [normalise]. *)
Lemma normalise_in_template (data : gmap string string) (key v : string) :
  data !! key = Some v ->
  Template.Execute Legacy.funcs [Template.Call "normalise" key] data
  = inr (normalise v).
Proof.
  intros Hkey. unfold Template.Execute.
  cbn [Template.execList Template.evalNode]. rewrite Hkey.
  change (Template.lookupFunc Legacy.funcs "normalise") with (Some normalise).
  cbv beta iota. f_equal.
  generalize (normalise v). intros s. induction s as [| c s IH]; [reflexivity |].
  change (String c s +:+ "") with (String c (s +:+ "")). now rewrite IH.
Qed.

(** C9. [normalise] keeps the length of its argument and turns the byte at
    every position into a dash when it is a dot and leaves it as it is
    otherwise; on a string without a dot it is the identity; and
    [normalise "a.b.c"] is ["a-b-c"].  It is the function that the
    templates call: it is registered under the name [normalise], and the
    action [{{ normalise .KEY }}] renders the value bound to [KEY] through
    it. *)
Theorem normalise_replaces_every_dot :
  (forall x, String.length (normalise x) = String.length x)
  /\ (forall x i,
         String.get i (normalise x)
         = option_map (fun c => if Ascii.eqb c "." then "-"%char else c)
                      (String.get i x))
  /\ (forall x, (forall i, String.get i x <> Some "."%char) -> normalise x = x)
  /\ normalise "a.b.c" = "a-b-c"
  /\ Template.lookupFunc Legacy.funcs "normalise" = Some normalise
  /\ Template.Parse Legacy.funcs "name: {{ normalise .DOMAIN_NAME }}"
     = Some [Template.Text "name: "; Template.Call "normalise" "DOMAIN_NAME";
             Template.Text ""]
  /\ (forall (data : gmap string string) key v,
         data !! key = Some v ->
         Template.Execute Legacy.funcs [Template.Call "normalise" key] data
         = inr (normalise v)).
Proof.
  split; [exact normalise_length |].
  split; [exact normalise_get |].
  split; [exact normalise_dot_free |].
  split; [reflexivity |]. split; [reflexivity |].
  split; [vm_compute; reflexivity | exact normalise_in_template].
Qed.

End Helper.

(** ** Loops and sequencing *)

Lemma forEach_app {S A R} (xs ys : list A) (body : A -> Go S (option R))
      (s : S) :
  forEach (xs ++ ys) body s
  = match forEach xs body s with
    | Done None s' => forEach ys body s'
    | other => other
    end.
Proof.
  revert s. induction xs as [| x xs IH]; intros s; [reflexivity |].
  cbn [app forEach]. unfold bind.
  destruct (body x s) as [[v |] s' | why s']; [reflexivity | apply IH | reflexivity].
Qed.

(** A loop whose body cannot fall through at [x] never reaches what
    follows [x]. *)
Lemma forEach_stops {S A R} (xs ys : list A) (x : A)
      (body : A -> Go S (option R)) (s : S) :
  (forall s1 s2, body x s1 <> Done None s2) ->
  forEach (xs ++ x :: ys) body s = forEach (xs ++ [x]) body s
  /\ forall s', forEach (xs ++ x :: ys) body s <> Done None s'.
Proof.
  intros Hstop. rewrite !forEach_app.
  destruct (forEach xs body s) as [[v |] s1 | why s1];
    [split; [reflexivity | discriminate] | | split; [reflexivity | discriminate]].
  cbn [forEach]. unfold bind.
  pose proof (Hstop s1) as Hx.
  destruct (body x s1) as [[v |] s2 | why s2].
  - split; [reflexivity | discriminate].
  - exfalso. apply (Hx s2). reflexivity.
  - split; [reflexivity | discriminate].
Qed.

Lemma range_app {S A} (xs ys : list A) (body : A -> Go S unit) (s : S) :
  range (xs ++ ys) body s = (range xs body ;; range ys body) s.
Proof.
  revert s. induction xs as [| x xs IH]; intros s; [reflexivity |].
  cbn [app range]. unfold bind.
  destruct (body x s) as [[] s' | why s']; [| reflexivity].
  rewrite IH. reflexivity.
Qed.

(** ** Sections that fail to decode *)

Section DecodeFailure.

Context {C : Type} `{Clientset C} `{ProviderConstants} `{Decoder}.

Lemma sliceTo_short (text : string) (n : nat) :
  (GoStrings.len text < n)%nat -> GoStrings.sliceTo text n = None.
Proof.
  intros Hlt. unfold GoStrings.sliceTo.
  destruct (Nat.leb_spec n (GoStrings.len text)); [lia | reflexivity].
Qed.

Lemma sliceTo_long (text : string) (n : nat) :
  (n <= GoStrings.len text)%nat ->
  GoStrings.sliceTo text n = Some (String.substring 0 n text).
Proof.
  intros Hle. unfold GoStrings.sliceTo.
  destruct (Nat.leb_spec n (GoStrings.len text)); [reflexivity | lia].
Qed.

Lemma len_nonzero (text : string) :
  GoStrings.len text <> 0%nat -> (GoStrings.len text =? 0)%nat = false.
Proof. intros Hne. now apply Nat.eqb_neq. Qed.

(** An undecodable section never lets the loop of [ResourceApply] go on:
    the body returns the wrapped error or panics. *)
Lemma applySection_stops (name text : string) (err : error) :
  GoStrings.len (GoStrings.TrimSpace text) <> 0%nat ->
  decode (GoStrings.TrimSpace text) = inl err ->
  forall (w w' : World C), Legacy.applySection name text w <> Done None w'.
Proof.
  intros Hne Hdec w w'. unfold Legacy.applySection.
  rewrite (len_nonzero _ Hne), Hdec.
  destruct (GoStrings.sliceTo (GoStrings.TrimSpace text) 100); discriminate.
Qed.

Lemma deleteSection_stops (name text : string) (err : error) :
  GoStrings.len (GoStrings.TrimSpace text) <> 0%nat ->
  decode (GoStrings.TrimSpace text) = inl err ->
  forall (w w' : World C), Legacy.deleteSection name text w <> Done None w'.
Proof.
  intros Hne Hdec w w'. unfold Legacy.deleteSection.
  rewrite (len_nonzero _ Hne), Hdec.
  destruct (GoStrings.sliceTo (GoStrings.TrimSpace text) 100); discriminate.
Qed.

Lemma decodeSection_stops (name text : string) (err : error)
      (objs : list Object) :
  GoStrings.len (GoStrings.TrimSpace text) <> 0%nat ->
  decode (GoStrings.TrimSpace text) = inl err ->
  forall (w w' : World C) (objs' : list Object),
    Pkg.decodeSection name objs text w <> Done (inr objs') w'.
Proof.
  intros Hne Hdec w w' objs'. unfold Pkg.decodeSection.
  rewrite (len_nonzero _ Hne), Hdec.
  destruct (GoStrings.sliceTo (GoStrings.TrimSpace text) 100); discriminate.
Qed.

Lemma decodeSections_app (name : string) (xs ys : list string)
      (objs : list Object) (w : World C) :
  Pkg.decodeSections name objs (xs ++ ys) w
  = match Pkg.decodeSections name objs xs w with
    | Done (inr objs') w' => Pkg.decodeSections name objs' ys w'
    | other => other
    end.
Proof.
  revert objs w. induction xs as [| x xs IH]; intros objs w; [reflexivity |].
  cbn [app Pkg.decodeSections]. unfold bind.
  destruct (Pkg.decodeSection name objs x w) as [[e | objs'] w' | why w'];
    [reflexivity | apply IH | reflexivity].
Qed.

Lemma decodeSections_stops (name : string) (before after : list string)
      (bad : string) (err : error) (objs : list Object) (w : World C) :
  GoStrings.len (GoStrings.TrimSpace bad) <> 0%nat ->
  decode (GoStrings.TrimSpace bad) = inl err ->
  forall objs' w',
    Pkg.decodeSections name objs (before ++ bad :: after) w
    <> Done (inr objs') w'.
Proof.
  intros Hne Hdec objs' w'. rewrite decodeSections_app.
  destruct (Pkg.decodeSections name objs before w)
    as [[e | objs1] w1 | why w1]; try discriminate.
  cbn [Pkg.decodeSections]. unfold bind.
  pose proof (decodeSection_stops name bad err objs1 Hne Hdec w1) as Hstop.
  destruct (Pkg.decodeSection name objs1 bad w1)
    as [[e | objs2] w2 | why w2]; try discriminate.
  exfalso. apply (Hstop w2 objs2). reflexivity.
Qed.

Lemma decodeFiles_app (xs ys : list ResourceFile) (resources : list Resource)
      (w : World C) :
  Pkg.decodeFiles (xs ++ ys) resources w
  = match Pkg.decodeFiles xs resources w with
    | Done (resources', None) w' => Pkg.decodeFiles ys resources' w'
    | other => other
    end.
Proof.
  revert resources w.
  induction xs as [| x xs IH]; intros resources w; [reflexivity |].
  cbn [app Pkg.decodeFiles]. unfold bind.
  destruct (Pkg.decodeSections (FileName x) []
              (GoStrings.Split (Content x) Separator) w)
    as [[e | objs] w' | why w']; [reflexivity | apply IH | reflexivity].
Qed.

(** C10. A section that is not blank, is shorter than 100 bytes once
    trimmed and fails to decode makes each of the three decoding loops
    panic on the slice [text[:100]] of the error message, in place of
    returning the wrapped decode error; hence a file that starts with
    such a section makes [ResourceApply] panic. *)
Theorem short_undecodable_section_panics
        (name text : string) (err : error) (objs : list Object)
        (w : World C) :
  GoStrings.len (GoStrings.TrimSpace text) <> 0%nat ->
  (GoStrings.len (GoStrings.TrimSpace text) < 100)%nat ->
  decode (GoStrings.TrimSpace text) = inl err ->
  Legacy.applySection name text w
    = Aborted (Panic "slice bounds out of range") w
  /\ Legacy.deleteSection name text w
     = Aborted (Panic "slice bounds out of range") w
  /\ Pkg.decodeSection name objs text w
     = Aborted (Panic "slice bounds out of range") w
  /\ (forall (f : ResourceFile) (sections : list string)
             (files : list ResourceFile),
         FileName f = name ->
         GoStrings.Split (Content f) "---" = text :: sections ->
         Legacy.ResourceApply (f :: files) w
         = Aborted (Panic "slice bounds out of range") w).
Proof.
  intros Hne Hshort Hdec.
  assert (Happly : Legacy.applySection name text w
                   = Aborted (Panic "slice bounds out of range") w).
  { unfold Legacy.applySection.
    now rewrite (len_nonzero _ Hne), Hdec, (sliceTo_short _ _ Hshort). }
  split; [exact Happly |]. split; [| split].
  - unfold Legacy.deleteSection.
    now rewrite (len_nonzero _ Hne), Hdec, (sliceTo_short _ _ Hshort).
  - unfold Pkg.decodeSection.
    now rewrite (len_nonzero _ Hne), Hdec, (sliceTo_short _ _ Hshort).
  - intros f sections files <- Hsplit.
    unfold Legacy.ResourceApply. cbn [forEach]. unfold bind.
    unfold Legacy.applyFile. rewrite Hsplit. cbn [forEach]. unfold bind.
    now rewrite Happly.
Qed.

(** With at least 100 bytes the error is returned. *)
Lemma long_undecodable_section_returns (name text : string) (err : error)
      (w : World C) :
  (100 <= GoStrings.len (GoStrings.TrimSpace text))%nat ->
  decode (GoStrings.TrimSpace text) = inl err ->
  Legacy.applySection name text w
  = Done (Some (Wrapf err
                  ("decoding the resource file:" +:+ name +:+ ", section:"
                     +:+ String.substring 0 100 (GoStrings.TrimSpace text)
                     +:+ "...")))
         w.
Proof.
  intros Hlong Hdec. unfold Legacy.applySection.
  rewrite len_nonzero by lia. now rewrite Hdec, (sliceTo_long _ _ Hlong).
Qed.



End DecodeFailure.

Lemma short_undecodable_section_panics_witness :
  @Legacy.applySection Store.Cluster (Store.client Demo.neverReady)
     Demo.constants Demo.decoder "short.yaml" "Widget w" Store.start
  = Aborted (Panic "slice bounds out of range") Store.start
  /\ @Legacy.deleteSection Store.Cluster (Store.client Demo.neverReady)
       Demo.constants Demo.decoder "short.yaml" "Widget w" Store.start
     = Aborted (Panic "slice bounds out of range") Store.start
  /\ @Pkg.decodeSection Store.Cluster Demo.decoder "short.yaml" []
       "Widget w" Store.start
     = Aborted (Panic "slice bounds out of range") Store.start
  /\ (forall (f : ResourceFile) (sections : list string)
             (files : list ResourceFile),
         FileName f = "short.yaml" ->
         GoStrings.Split (Content f) "---" = "Widget w" :: sections ->
         @Legacy.ResourceApply Store.Cluster (Store.client Demo.neverReady)
           Demo.constants Demo.decoder (f :: files) Store.start
         = Aborted (Panic "slice bounds out of range") Store.start).
Proof.
  apply (@short_undecodable_section_panics Store.Cluster
           (Store.client Demo.neverReady) Demo.constants Demo.decoder
           "short.yaml" "Widget w" (PlainError "no kind Widget is registered")
           [] Store.start).
  - vm_compute. discriminate.
  - vm_compute. lia.
  - reflexivity.
Defined.



(** ** The deployment readiness predicate *)

Section Readiness.

Context {C : Type} `{Clientset C}.

Lemma assertType_ok (T : GoType) (resource : Object) (w : World C) :
  goType resource = T -> assertType T resource w = Done resource w.
Proof.
  intros Ht. unfold assertType. destruct (decide (goType resource = T));
    [reflexivity | contradiction].
Qed.

Lemma assertType_panics (T : GoType) (resource : Object) (w : World C) :
  goType resource <> T ->
  assertType T resource w = Aborted (Panic "interface conversion") w.
Proof.
  intros Ht. unfold assertType. destruct (decide (goType resource = T));
    [contradiction | reflexivity].
Qed.

(** What [deploymentReady] returns for a deployment of version [v1], read
    off the answer of the one [Get] it sends. *)
Lemma deploymentReady_run (req : Object) (w : World C) :
  goType req = appsV1_Deployment ->
  Version req = "v1" ->
  let ns := Namespace (defaultNamespace req) in
  let answer := apiGet Deployments ns (Name req) (cluster w) in
  deploymentReady req w
  = Done (match fst answer with
          | inl err =>
              (false,
               Some (Wrapf err ("Checking Deployment resource:'" +:+ Name req
                                  +:+ "' status failed err:" +:+ Error err)))
          | inr res =>
              (AvailableReplicas res =? default 1 (Replicas req), None)
          end)
         (mkWorld (snd answer)
                  (calls w ++ [CallGet Deployments ns (Name req)])
                  (logged w)).
Proof.
  intros Ht Hv ns answer. unfold deploymentReady, bind.
  rewrite (assertType_ok _ _ _ Ht).
  assert (Hname : Name (defaultNamespace req) = Name req)
    by (unfold defaultNamespace; destruct (_ =? _)%nat; reflexivity).
  assert (Hver : Version (defaultNamespace req) = "v1")
    by (unfold defaultNamespace; destruct (_ =? _)%nat; exact Hv).
  assert (Hrep : Replicas (defaultNamespace req) = Replicas req)
    by (unfold defaultNamespace; destruct (_ =? _)%nat; reflexivity).
  rewrite Hver, Hname, Hrep. cbn [String.eqb Ascii.eqb Bool.eqb].
  unfold clientGet, send. fold ns. subst answer.
  destruct (apiGet Deployments ns (Name req) (cluster w)) as [[err | res] cl];
    cbn [fst snd]; [reflexivity |].
  destruct (Replicas req) as [n |];
    [change (default 1 (Some n)) with n | change (default 1 None) with 1];
    destruct (AvailableReplicas res =? _); reflexivity.
Qed.

(** C6. For a deployment of version [v1], [deploymentReady] returns (it
    neither panics nor exits), and it returns true exactly when its [Get]
    succeeded and the available-replica count it observed equals the
    desired count, which is [Spec.Replicas] and 1 when that is left
    unset.  In particular, with 3 desired replicas it returns false
    whenever fewer than 3 are available and true exactly when 3 are. *)
Theorem deploymentReady_true_iff_available_is_desired
        (req : Object) (w : World C) :
  goType req = appsV1_Deployment ->
  Version req = "v1" ->
  let answer :=
    fst (apiGet Deployments (Namespace (defaultNamespace req)) (Name req)
                (cluster w)) in
  exists (ready : bool) (err : option error) (w' : World C),
    deploymentReady req w = Done (ready, err) w'
    /\ (ready = true
        <-> exists res,
              answer = inr res
              /\ AvailableReplicas res = default 1 (Replicas req))
    /\ (Replicas req = Some 3 ->
        forall res,
          answer = inr res ->
          (AvailableReplicas res < 3 -> ready = false)
          /\ (ready = true <-> AvailableReplicas res = 3)).
Proof.
  intros Ht Hv answer. pose proof (deploymentReady_run req w Ht Hv) as Hrun.
  cbv zeta in Hrun. fold answer in Hrun.
  destruct answer as [e | res] eqn:Hans.
  - eexists _, _, _. split; [exact Hrun |]. split.
    + split; [discriminate | intros (res & Hres & _); discriminate].
    + intros _ res Hres. discriminate.
  - eexists _, _, _. split; [exact Hrun |]. split.
    + rewrite Z.eqb_eq. split.
      * intros Heq. exists res. split; [reflexivity | exact Heq].
      * intros (res' & Hres & Heq). injection Hres as <-. exact Heq.
    + intros Hthree res' Hres. injection Hres as <-.
      rewrite Hthree. change (default 1 (Some 3)) with 3. split.
      * intros Hlt. apply Z.eqb_neq. lia.
      * apply Z.eqb_eq.
Qed.

End Readiness.

Lemma deploymentReady_true_iff_available_is_desired_witness :
  let answer :=
    fst (@apiGet _ (Store.client Demo.alwaysReady) Deployments
           (Namespace (defaultNamespace Demo.loadgen)) (Name Demo.loadgen)
           (cluster Demo.withLoadgen)) in
  exists (ready : bool) (err : option error) (w' : World Store.Cluster),
    @deploymentReady _ (Store.client Demo.alwaysReady) Demo.loadgen
      Demo.withLoadgen
    = Done (ready, err) w'
    /\ (ready = true
        <-> exists res,
              answer = inr res
              /\ AvailableReplicas res = default 1 (Replicas Demo.loadgen))
    /\ (Replicas Demo.loadgen = Some 3 ->
        forall res,
          answer = inr res ->
          (AvailableReplicas res < 3 -> ready = false)
          /\ (ready = true <-> AvailableReplicas res = 3)).
Proof.
  apply (@deploymentReady_true_iff_available_is_desired _
           (Store.client Demo.alwaysReady) Demo.loadgen Demo.withLoadgen);
    reflexivity.
Defined.

(** ** Rendering a template with an unbound placeholder *)

Section Executing.

Context `{Template.Library}.









End Executing.

Section Rendering.

Context {C : Type} `{Template.Library}.




End Rendering.



(** ** The manifest collector *)

Lemma fileList_app (fs : FS.System) (names1 names2 : list string) :
  Legacy.fileList fs (names1 ++ names2)
  = Legacy.fileList fs names1 ++ Legacy.fileList fs names2.
Proof. unfold Legacy.fileList. apply flat_map_app. Qed.

Lemma fileList_plain (fs : FS.System) (name : string) :
  (forall es, FS.Stat fs name <> Some (FS.Dir es)) ->
  Legacy.fileList fs [name] = [name].
Proof.
  intros Hplain. unfold Legacy.fileList. cbn [flat_map].
  destruct (FS.Stat fs name) as [[content | es] |] eqn:Hstat;
    cbn [FS.IsDir]; [reflexivity | | reflexivity].
  exfalso. apply (Hplain es). reflexivity.
Qed.

Lemma fileList_directory (fs : FS.System) (name : string)
      (es : list (string * FS.Node)) :
  FS.Stat fs name = Some (FS.Dir es) ->
  Legacy.fileList fs [name]
  = List.filter Legacy.isManifest (Filepath.Walk name (FS.Dir es)).
Proof.
  intros Hstat. unfold Legacy.fileList. cbn [flat_map]. rewrite Hstat.
  cbn [FS.IsDir]. apply app_nil_r.
Qed.

Lemma isManifest_iff (path : string) :
  Legacy.isManifest path = true
  <-> Filepath.Ext path = ".yaml" \/ Filepath.Ext path = ".yml".
Proof.
  unfold Legacy.isManifest. rewrite orb_true_iff, !String.eqb_eq. reflexivity.
Qed.

(** *** The order of a walk does not depend on how a directory is stored *)

Lemma leb_iff (a b : string) :
  String.leb a b = true <-> a = b \/ OrderedTypeEx.String_as_OT.lt a b.
Proof.
  unfold String.leb.
  destruct (String.compare a b) eqn:Hcmp.
  - apply OrderedTypeEx.String_as_OT.cmp_eq in Hcmp. tauto.
  - apply OrderedTypeEx.String_as_OT.cmp_lt in Hcmp. tauto.
  - split; [discriminate |]. intros [-> | Hlt].
    + assert (Heq : String.compare b b = Eq)
        by now apply OrderedTypeEx.String_as_OT.cmp_eq.
      congruence.
    + apply OrderedTypeEx.String_as_OT.cmp_lt in Hlt.
      unfold OrderedTypeEx.String_as_OT.cmp in Hlt. congruence.
Qed.

Lemma leb_trans (a b c : string) :
  String.leb a b = true -> String.leb b c = true -> String.leb a c = true.
Proof.
  rewrite !leb_iff. intros [-> | Hab] [-> | Hbc]; auto.
  right. eapply OrderedTypeEx.String_as_OT.lt_trans; eassumption.
Qed.

Lemma insertEntry_perm (e : string * FS.Node) (es : list (string * FS.Node)) :
  Permutation (Filepath.insertEntry e es) (e :: es).
Proof.
  induction es as [| e' es IH]; cbn [Filepath.insertEntry]; [reflexivity |].
  destruct (String.leb (fst e) (fst e')); [reflexivity |].
  rewrite IH. apply perm_swap.
Qed.

Lemma sortEntries_perm (es : list (string * FS.Node)) :
  Permutation (Filepath.sortEntries es) es.
Proof.
  induction es as [| e es IH]; [reflexivity |].
  unfold Filepath.sortEntries. cbn [fold_right].
  fold (Filepath.sortEntries es). rewrite insertEntry_perm.
  now apply perm_skip.
Qed.

Lemma insertEntry_sorted (e : string * FS.Node)
      (es : list (string * FS.Node)) :
  StronglySorted Filepath.byName es -> StronglySorted Filepath.byName (Filepath.insertEntry e es).
Proof.
  induction 1 as [| e' es Hsorted IH Hall]; cbn [Filepath.insertEntry].
  - repeat constructor.
  - destruct (String.leb (fst e) (fst e')) eqn:Hle.
    + constructor; [now constructor |]. constructor; [exact Hle |].
      eapply List.Forall_impl; [| exact Hall]. intros x Hx.
      unfold Filepath.byName in *. eapply leb_trans; eassumption.
    + constructor; [exact IH |].
      assert (He' : Filepath.byName e' e).
      { unfold Filepath.byName. destruct (String.leb_total (fst e) (fst e')); congruence. }
      eapply Permutation_Forall; [symmetry; apply insertEntry_perm |].
      now constructor.
Qed.

Lemma sortEntries_sorted (es : list (string * FS.Node)) :
  StronglySorted Filepath.byName (Filepath.sortEntries es).
Proof.
  induction es as [| e es IH]; [constructor |].
  unfold Filepath.sortEntries. cbn [fold_right].
  now apply insertEntry_sorted.
Qed.

(** Two listings in name order with the same entries, no name twice, are
    the same listing. *)
Lemma sorted_listing_unique (l1 l2 : list (string * FS.Node)) :
  StronglySorted Filepath.byName l1 -> StronglySorted Filepath.byName l2 ->
  Permutation l1 l2 -> List.NoDup (List.map fst l1) -> l1 = l2.
Proof.
  intros Hs1. revert l2.
  induction Hs1 as [| x l1 Hs1 IH Hall1]; intros l2 Hs2 Hperm Hnodup.
  - now apply Permutation_nil in Hperm.
  - destruct l2 as [| y l2];
      [apply Permutation_sym, Permutation_nil in Hperm; discriminate |].
    apply StronglySorted_inv in Hs2. destruct Hs2 as [Hs2 Hall2].
    assert (Hxy : x = y).
    { assert (Hx : List.In x (y :: l2))
        by (eapply Permutation_in; [exact Hperm | now left]).
      assert (Hy : List.In y (x :: l1))
        by (eapply Permutation_in; [symmetry; exact Hperm | now left]).
      destruct Hx as [Hx | Hx]; [now subst |].
      destruct Hy as [Hy | Hy]; [now subst |].
      rewrite List.Forall_forall in Hall1, Hall2.
      assert (Hkey : fst x = fst y)
        by (apply String.leb_antisym; [apply Hall1 | apply Hall2]; assumption).
      exfalso. cbn [List.map] in Hnodup.
      apply List.NoDup_cons_iff in Hnodup. destruct Hnodup as [Hfresh _].
      apply Hfresh. rewrite Hkey. now apply List.in_map. }
    subst y. f_equal. apply IH.
    + exact Hs2.
    + eapply Permutation_cons_inv; exact Hperm.
    + cbn [List.map] in Hnodup. now apply List.NoDup_cons_iff in Hnodup.
Qed.

Lemma sortEntries_of_permutation (es es' : list (string * FS.Node)) :
  Permutation es es' -> List.NoDup (List.map fst es) ->
  Filepath.sortEntries es = Filepath.sortEntries es'.
Proof.
  intros Hperm Hnodup. apply sorted_listing_unique.
  - apply sortEntries_sorted.
  - apply sortEntries_sorted.
  - rewrite !sortEntries_perm. exact Hperm.
  - eapply Permutation_NoDup; [| exact Hnodup].
    apply Permutation_map. symmetry. apply sortEntries_perm.
Qed.

Lemma Walk_of_permutation (root : string) (es es' : list (string * FS.Node)) :
  Permutation es es' -> List.NoDup (List.map fst es) ->
  Filepath.Walk root (FS.Dir es) = Filepath.Walk root (FS.Dir es').
Proof.
  intros Hperm Hnodup. unfold Filepath.Walk. cbn [Filepath.sorted].
  f_equal. f_equal. apply sortEntries_of_permutation.
  - now apply Permutation_map.
  - rewrite List.map_map. cbn [fst]. exact Hnodup.
Qed.


(** *** The walk goes down into every directory *)

Lemma Dir_nested_ind (P : FS.Node -> Prop) :
  (forall content, P (FS.File content)) ->
  (forall es, List.Forall (fun e => P (snd e)) es -> P (FS.Dir es)) ->
  forall node, P node.
Proof.
  intros HFile HDir. fix IH 1. intros [content | es]; [apply HFile |].
  apply HDir.
  induction es as [| [n child] es IHes]; constructor; [apply IH | exact IHes].
Qed.

Lemma visit_dir (path : string) (es : list (string * FS.Node)) :
  Filepath.visit path (FS.Dir es)
  = path :: flat_map (fun e => Filepath.visit (Filepath.Join path (fst e))
                                              (snd e)) es.
Proof.
  cbn [Filepath.visit]. f_equal.
  induction es as [| [n child] es IH]; [reflexivity |].
  cbn [flat_map fst snd]. now rewrite <- IH.
Qed.

Lemma insertEntry_map (f : FS.Node -> FS.Node) (e : string * FS.Node)
      (es : list (string * FS.Node)) :
  Filepath.insertEntry (fst e, f (snd e))
                       (List.map (fun e => (fst e, f (snd e))) es)
  = List.map (fun e => (fst e, f (snd e))) (Filepath.insertEntry e es).
Proof.
  induction es as [| e' es IH]; [reflexivity |].
  cbn [List.map Filepath.insertEntry fst].
  destruct (String.leb (fst e) (fst e')); [reflexivity |].
  cbn [List.map]. now rewrite IH.
Qed.

Lemma sortEntries_map (f : FS.Node -> FS.Node)
      (es : list (string * FS.Node)) :
  Filepath.sortEntries (List.map (fun e => (fst e, f (snd e))) es)
  = List.map (fun e => (fst e, f (snd e))) (Filepath.sortEntries es).
Proof.
  induction es as [| e es IH]; [reflexivity |].
  unfold Filepath.sortEntries in *. cbn [List.map fold_right].
  now rewrite IH, insertEntry_map.
Qed.

(** The walk of a directory: its own path, then the walk of each entry
    in the order of the names, each entry with everything below it
    before the next. *)
Lemma Walk_dir (root : string) (es : list (string * FS.Node)) :
  Filepath.Walk root (FS.Dir es)
  = root :: flat_map (fun e => Filepath.Walk (Filepath.Join root (fst e))
                                             (snd e))
                     (Filepath.sortEntries es).
Proof.
  unfold Filepath.Walk. cbn [Filepath.sorted].
  rewrite visit_dir, sortEntries_map. f_equal.
  induction (Filepath.sortEntries es) as [| e l IH]; [reflexivity |].
  cbn [List.map flat_map fst snd]. now rewrite IH.
Qed.

(** The walk hands over every entry at every depth, under the path
    joined from the names that lead to it, and nothing else. *)
Lemma Walk_inside (node : FS.Node) (root path : string) :
  In path (Filepath.Walk root node)
  <-> exists names node', inside node names node' /\ path = joined root names.
Proof.
  revert root path.
  induction node as [content | es IH] using Dir_nested_ind; intros root path.
  - change (Filepath.Walk root (FS.File content)) with [root]. split.
    + intros [<- | []]. exists [], (FS.File content).
      split; [constructor | reflexivity].
    + intros (names & node' & Hin & ->). inversion Hin; subst. now left.
  - rewrite Walk_dir. cbn [In]. rewrite in_flat_map. split.
    + intros [<- | (e & He & Hpath)].
      * exists [], (FS.Dir es). split; [constructor | reflexivity].
      * assert (He' : In e es)
          by (eapply Permutation_in; [apply sortEntries_perm | exact He]).
        rewrite List.Forall_forall in IH.
        apply (IH e He') in Hpath. destruct Hpath as (names & node' & Hin & ->).
        exists (fst e :: names), node'. split; [| reflexivity].
        apply (inside_entry es (fst e) (snd e)); [| exact Hin].
        now destruct e.
    + intros (names & node' & Hin & ->). inversion Hin; subst.
      * now left.
      * right. exists (name, child). split.
        -- eapply Permutation_in; [symmetry; apply sortEntries_perm |].
           assumption.
        -- rewrite List.Forall_forall in IH.
           apply (IH (name, child)); [assumption |].
           exists names0, node'. split; [assumption | reflexivity].
Qed.

(** *** The extension of a path is how it ends *)

Lemma Ext_suffix (path : string) :
  Filepath.Ext path <> "" -> exists stem, path = stem +:+ Filepath.Ext path.
Proof.
  induction path as [| c rest IH]; [intros Hne; now elim Hne |].
  cbn [Filepath.Ext]. destruct (Ascii.eqb c "/").
  - intros Hne. destruct (IH Hne) as [stem Hstem].
    exists (String c stem).
    change (String c rest = String c (stem +:+ Filepath.Ext rest)).
    now f_equal.
  - destruct (Filepath.Ext rest) as [| c' ext] eqn:Hext.
    + destruct (Ascii.eqb c "." && _); [| intros Hne; now elim Hne].
      intros _. now exists "".
    + intros _. destruct IH as [stem Hstem]; [discriminate |].
      exists (String c stem).
      change (String c rest = String c (stem +:+ String c' ext)).
      now f_equal.
Qed.

Lemma Ext_of_suffix (stem ext : string) :
  Filepath.Ext ext = ext -> ext <> "" -> Filepath.Ext (stem +:+ ext) = ext.
Proof.
  intros Hext Hne. induction stem as [| c stem IH]; [exact Hext |].
  change (String c stem +:+ ext) with (String c (stem +:+ ext)).
  cbn [Filepath.Ext]. rewrite IH.
  destruct (Ascii.eqb c "/"); [reflexivity |].
  destruct ext; [now elim Hne | reflexivity].
Qed.

Lemma isManifest_suffix (path : string) :
  Legacy.isManifest path = true
  <-> hasSuffix ".yaml" path \/ hasSuffix ".yml" path.
Proof.
  rewrite isManifest_iff. unfold hasSuffix. split.
  - intros [Hext | Hext].
    + left. destruct (Ext_suffix path) as [stem Hstem];
        [rewrite Hext; discriminate |].
      exists stem. now rewrite Hext in Hstem.
    + right. destruct (Ext_suffix path) as [stem Hstem];
        [rewrite Hext; discriminate |].
      exists stem. now rewrite Hext in Hstem.
  - intros [[stem ->] | [stem ->]]; [left | right];
      apply Ext_of_suffix; first [reflexivity | discriminate].
Qed.

(** C8. The collector respects the order of its arguments; a name that is
    not a directory (a plain file, or nothing at all) is kept as it is,
    whatever its extension; a directory is replaced by the paths of its
    walk that end in [.yaml] or [.yml], in the order of the walk.  The
    walk is recursive: it hands over the directory itself, under the
    name it was given, and every entry at every depth below it, under
    the path joined from the names that lead to the entry, and nothing
    else.  Its order is fixed by the names: a directory comes before its
    entries, the entries of a directory come in the byte order of their
    names, each with everything below it before the next, so that the
    order does not depend on the order in which a directory stores its
    entries. *)
Theorem fileList_expands_directories_in_walk_order (fs : FS.System) :
  (forall names1 names2,
      Legacy.fileList fs (names1 ++ names2)
      = Legacy.fileList fs names1 ++ Legacy.fileList fs names2)
  /\ (forall name,
         (forall es, FS.Stat fs name <> Some (FS.Dir es)) ->
         Legacy.fileList fs [name] = [name])
  /\ (forall name es,
         FS.Stat fs name = Some (FS.Dir es) ->
         Legacy.fileList fs [name]
         = List.filter Legacy.isManifest (Filepath.Walk name (FS.Dir es))
         /\ forall path,
              List.In path (Legacy.fileList fs [name])
              <-> (exists names node,
                      inside (FS.Dir es) names node
                      /\ path = joined name names)
                  /\ (hasSuffix ".yaml" path \/ hasSuffix ".yml" path))
  /\ (forall root node path,
         List.In path (Filepath.Walk root node)
         <-> exists names node',
               inside node names node' /\ path = joined root names)
  /\ (forall path,
         Legacy.isManifest path = true
         <-> hasSuffix ".yaml" path \/ hasSuffix ".yml" path)
  /\ (forall root content, Filepath.Walk root (FS.File content) = [root])
  /\ (forall root es,
         Filepath.Walk root (FS.Dir es)
         = root :: flat_map (fun e => Filepath.Walk
                                        (Filepath.Join root (fst e)) (snd e))
                            (Filepath.sortEntries es)
         /\ StronglySorted Filepath.byName (Filepath.sortEntries es)
         /\ Permutation (Filepath.sortEntries es) es)
  /\ (forall root es es',
         Permutation es es' -> List.NoDup (List.map fst es) ->
         Filepath.Walk root (FS.Dir es) = Filepath.Walk root (FS.Dir es')).
Proof.
  split; [apply fileList_app |]. split; [apply fileList_plain |].
  split; [| split; [intros root node path; apply Walk_inside |]].
  - intros name es Hstat. split; [now apply fileList_directory |].
    intros path. rewrite (fileList_directory fs name es Hstat).
    rewrite List.filter_In, isManifest_suffix, Walk_inside. reflexivity.
  - split; [apply isManifest_suffix |]. split; [reflexivity |].
    split; [| apply Walk_of_permutation].
    intros root es. split; [apply Walk_dir |].
    split; [apply sortEntries_sorted | apply sortEntries_perm].
Qed.

Example fileList_ex :
  Legacy.fileList Demo.manifests
                  ["extra.txt"; "./manifests/"; "absent"; "../work/manifests"]
  = ["extra.txt";
     "manifests/1_namespace.yml"; "manifests/2_deployment.yaml";
     "manifests/monitoring/3_service.yaml";
     "absent";
     "../work/manifests/1_namespace.yml"; "../work/manifests/2_deployment.yaml";
     "../work/manifests/monitoring/3_service.yaml"].
Proof. reflexivity. Qed.


(** ** Resources of a kind that has no handler *)

Section Dispatch.

Context {C : Type} `{Clientset C} `{ProviderConstants} `{Decoder}.

Lemma lookupCase_none (cases : @Cases C) (kind : string) :
  ~ List.In kind (List.map fst cases) -> lookupCase cases kind = None.
Proof.
  induction cases as [| [k h] rest IH]; intros Hnot; [reflexivity |].
  cbn [lookupCase]. destruct (String.eqb_spec k kind) as [-> | Hne].
  - exfalso. apply Hnot. now left.
  - apply IH. intros Hin. apply Hnot. now right.
Qed.

Lemma legacy_apply_labels :
  List.map fst (@applyCases C _ _) = Legacy.supportedKinds.
Proof. reflexivity. Qed.

Lemma legacy_delete_labels :
  List.map fst (@deleteCases C _ _) = Legacy.supportedKinds.
Proof. reflexivity. Qed.

Lemma pkg_apply_labels :
  List.map fst (@Pkg.applyCases C _ _) = Pkg.supportedKinds.
Proof. reflexivity. Qed.

Lemma pkg_delete_labels :
  List.map fst (@Pkg.deleteCases C _ _) = Pkg.supportedKinds.
Proof. reflexivity. Qed.

(** The error of the [default] case. *)
Lemma applyResource_unsupported (cases : Cases) (file : string) (u : Object)
      (w : World C) :
  ~ List.In (GoStrings.ToLower (Kind u)) (List.map fst cases) ->
  applyResource cases file u w
  = logPrintf
      (LogErrorApplying file
         (Errorf ("creating request for unimplimented resource type:"
                    +:+ GoStrings.ToLower (Kind u)))) w.
Proof.
  intros Hnot. unfold applyResource. now rewrite (lookupCase_none _ _ Hnot).
Qed.

Lemma deleteResource_unsupported (cases : Cases) (file : string) (u : Object)
      (w : World C) :
  ~ List.In (GoStrings.ToLower (Kind u)) (List.map fst cases) ->
  deleteResource cases file u w
  = logPrintf
      (LogErrorDeleting file
         (Errorf ("deleting request for unimplimented resource type:"
                    +:+ GoStrings.ToLower (Kind u)))) w.
Proof.
  intros Hnot. unfold deleteResource. now rewrite (lookupCase_none _ _ Hnot).
Qed.

(** A run over a batch in which one object is handled by [one], in terms
    of the runs over what precedes and what follows the object. *)
Lemma range_objects_split (handle : string -> Object -> Go (World C) unit)
      (before after : list Resource) (file : string)
      (pre post : list Object) (u : Object) (one : Go (World C) unit)
      (w : World C) :
  (forall w1, handle file u w1 = one w1) ->
  (range (before ++ mkResource file (pre ++ u :: post) :: after)
         (fun d => range (Objects d) (handle (ResourceFileName d))) ;;
   ret (@None error)) w
  = ((range (before ++ [mkResource file pre])
            (fun d => range (Objects d) (handle (ResourceFileName d))) ;;
      ret (@None error)) ;;
     one ;;
     (range (mkResource file post :: after)
            (fun d => range (Objects d) (handle (ResourceFileName d))) ;;
      ret (@None error))) w.
Proof.
  intros Hone. unfold bind.
  rewrite !range_app. unfold bind.
  destruct (range before _ w) as [[] w1 | why w1]; [| reflexivity].
  cbn [range Objects ResourceFileName]. unfold bind.
  rewrite range_app. unfold bind.
  destruct (range pre (handle file) w1) as [[] w2 | why w2]; [| reflexivity].
  cbn [range ret]. unfold bind. rewrite Hone.
  destruct (one w2) as [[] w3 | why w3]; reflexivity.
Qed.

(** An object whose lower-cased kind is none of the case labels: the run
    over the batch is the run over what precedes it, then one log line,
    then the run over what follows it; in the earlier version its section
    logs the one error and returns no error. *)
Lemma unsupported_kind_splits_the_run
        (before after : list Resource) (file : string)
        (pre post : list Object) (u : Object) (w : World C) :
  ~ List.In (GoStrings.ToLower (Kind u)) Pkg.supportedKinds ->
  let kind := GoStrings.ToLower (Kind u) in
  let applyError :=
    LogErrorApplying file
      (Errorf ("creating request for unimplimented resource type:" +:+ kind)) in
  let deleteError :=
    LogErrorDeleting file
      (Errorf ("deleting request for unimplimented resource type:" +:+ kind)) in
  Pkg.ResourceApply (before ++ mkResource file (pre ++ u :: post) :: after) w
  = (Pkg.ResourceApply (before ++ [mkResource file pre]) ;;
     logPrintf applyError ;;
     Pkg.ResourceApply (mkResource file post :: after)) w
  /\ Pkg.ResourceDelete
       (before ++ mkResource file (pre ++ u :: post) :: after) w
     = (Pkg.ResourceDelete (before ++ [mkResource file pre]) ;;
        logPrintf deleteError ;;
        Pkg.ResourceDelete (mkResource file post :: after)) w
  /\ (forall text,
         GoStrings.len (GoStrings.TrimSpace text) <> 0%nat ->
         decode (GoStrings.TrimSpace text) = inr (Some u) ->
         Legacy.applySection file text w
         = Done None (mkWorld (cluster w) (calls w)
                              (logged w ++ [applyError]))
         /\ Legacy.deleteSection file text w
            = Done None (mkWorld (cluster w) (calls w)
                                 (logged w ++ [deleteError]))).
Proof.
  intros Hnot kind applyError deleteError.
  assert (Hlegacy : ~ List.In kind Legacy.supportedKinds).
  { intros Hin. apply Hnot. unfold Pkg.supportedKinds.
    apply List.in_or_app. now left. }
  split; [| split].
  - unfold Pkg.ResourceApply. apply range_objects_split.
    intros w1. apply applyResource_unsupported.
    now rewrite pkg_apply_labels.
  - unfold Pkg.ResourceDelete. apply range_objects_split.
    intros w1. apply deleteResource_unsupported.
    now rewrite pkg_delete_labels.
  - intros text Hne Hdec. split.
    + unfold Legacy.applySection.
      rewrite (len_nonzero _ Hne), Hdec. unfold bind.
      rewrite applyResource_unsupported by now rewrite legacy_apply_labels.
      reflexivity.
    + unfold Legacy.deleteSection.
      rewrite (len_nonzero _ Hne), Hdec. unfold bind.
      rewrite deleteResource_unsupported by now rewrite legacy_delete_labels.
      reflexivity.
Qed.

End Dispatch.

(** ** Polling *)

Section Polling.

Context {S : Type}.

Variable description : string.
Variable maxAttempts : nat.
Variable predicate : Go S (bool * option error).

(** [states] is any sequence of states; the attempts of a poll walk
    along it as long as the predicate answers (false, nil). *)
Variable states : nat -> S.

Lemma poll_exhausted (left i : nat) :
  (forall j, (j < left)%nat ->
             predicate (states (i + j))
             = Done (false, None) (states (Datatypes.S (i + j)))) ->
  Provider.poll description maxAttempts left predicate (states i)
  = Done (Some (TimeoutError description maxAttempts)) (states (i + left)).
Proof.
  revert i. induction left as [| left IH]; intros i Hnot.
  - cbn. unfold ret. now rewrite Nat.add_0_r.
  - cbn [Provider.poll]. unfold bind.
    pose proof (Hnot 0%nat ltac:(lia)) as H0.
    rewrite Nat.add_0_r in H0. rewrite H0.
    rewrite (IH (Datatypes.S i)).
    + f_equal. f_equal. lia.
    + intros j Hj.
      replace (Datatypes.S i + j)%nat with (i + Datatypes.S j)%nat by lia.
      apply Hnot. lia.
Qed.

Lemma poll_settled (left i k : nat) (ready : bool) (err : option error)
      (s' : S) :
  (k < left)%nat ->
  (forall j, (j < k)%nat ->
             predicate (states (i + j))
             = Done (false, None) (states (Datatypes.S (i + j)))) ->
  predicate (states (i + k)) = Done (ready, err) s' ->
  (ready, err) <> (false, None) ->
  Provider.poll description maxAttempts left predicate (states i)
  = Done err s'.
Proof.
  revert i k. induction left as [| left IH]; intros i k Hk Hnot Hp Hne; [lia |].
  cbn [Provider.poll]. unfold bind. destruct k as [| k].
  - rewrite Nat.add_0_r in Hp. rewrite Hp.
    destruct ready, err as [e |]; try reflexivity. congruence.
  - pose proof (Hnot 0%nat ltac:(lia)) as H0.
    rewrite Nat.add_0_r in H0. rewrite H0.
    apply (IH (Datatypes.S i) k); [lia | | | exact Hne].
    + intros j Hj.
      replace (Datatypes.S i + j)%nat with (i + Datatypes.S j)%nat by lia.
      apply Hnot. lia.
    + replace (Datatypes.S i + k)%nat with (i + Datatypes.S k)%nat by lia.
      exact Hp.
Qed.

End Polling.

(** ** Deleting a namespace *)

Section NamespaceDelete.

Context {C : Type} `{Clientset C} `{ProviderConstants}.

Variable req : Object.
Hypothesis Htype : goType req = apiCoreV1_Namespace.
Hypothesis Hversion : Version req = "v1".

(** The cluster before the [k]-th [Get] of the poll (counted from 0)
    when the poll starts on the cluster [c], and its answer. *)
Local Notation clusterAt c k :=
  (Nat.iter k (fun cl => snd (apiGet Namespaces "" (Name req) cl)) c).
Local Notation answerAt c k :=
  (fst (apiGet Namespaces "" (Name req) (clusterAt c k))).

(** The world of the poll before its [k]-th [Get]. *)
Local Notation pollWorld c sent lines k :=
  (mkWorld (clusterAt c k)
           (sent ++ repeat (CallGet Namespaces "" (Name req)) k)
           lines).

Lemma namespaceDeleted_run (w : World C) :
  let answer := apiGet Namespaces "" (Name req) (cluster w) in
  namespaceDeleted req w
  = Done (match fst answer with
          | inl err =>
              if IsNotFound err then (true, None)
              else (false,
                    Some (Wrapf err ("Couldn't get namespace '" +:+ Name req
                                       +:+ "' err:" +:+ Error err)))
          | inr _ => (false, None)
          end)
         (mkWorld (snd answer)
                  (calls w ++ [CallGet Namespaces "" (Name req)])
                  (logged w)).
Proof.
  intros answer. unfold namespaceDeleted, bind.
  rewrite (assertType_ok _ _ _ Htype), Hversion.
  cbn [String.eqb Ascii.eqb Bool.eqb]. unfold clientGet, send.
  subst answer.
  destruct (apiGet Namespaces "" (Name req) (cluster w)) as [[err | res] cl];
    cbn [fst snd]; [| reflexivity].
  destruct (IsNotFound err); reflexivity.
Qed.

Lemma namespaceDeleted_step (c : C) (sent : list Call) (lines : list LogLine)
      (k : nat) :
  namespaceDeleted req (pollWorld c sent lines k)
  = Done (match answerAt c k with
          | inl err =>
              if IsNotFound err then (true, None)
              else (false,
                    Some (Wrapf err ("Couldn't get namespace '" +:+ Name req
                                       +:+ "' err:" +:+ Error err)))
          | inr _ => (false, None)
          end)
         (pollWorld c sent lines (Datatypes.S k)).
Proof.
  rewrite namespaceDeleted_run. cbn [cluster calls logged].
  f_equal. f_equal.
  rewrite <- app_assoc. f_equal. symmetry. apply repeat_cons.
Qed.

(** C5. [namespaceDelete] on a namespace of version [v1] first sends one
    delete with the foreground policy; when that is refused it returns
    the wrapped error and polls nothing.  Otherwise it logs and polls
    [namespaceDeleted] with the budget [2 * GlobalRetryCount]: a [Get]
    that finds the namespace means not yet, the first [Get] that answers
    not-found ends the poll with success, the first [Get] that fails in
    another way ends it with that error, and when each of the
    [2 * GlobalRetryCount] [Get]s finds the namespace the result is the
    timeout error, after exactly that many [Get]s. *)
Theorem namespaceDelete_polls_until_not_found (w : World C) :
  let name := Name req in
  let budget := (2 * GlobalRetryCount)%nat in
  let delete := CallDelete Namespaces "" name DeletePropagationForeground in
  let deleted :=
    apiDelete Namespaces "" name DeletePropagationForeground (cluster w) in
  let c0 := snd deleted in
  let found k := exists o, answerAt c0 k = inr o in
  let after k :=
    pollWorld c0 (calls w ++ [delete])
              (logged w ++ [LogResourceDeleting (Kind req) name]) k in
  (forall e,
      fst deleted = Some e ->
      namespaceDelete req w
      = Done (Some (Wrapf e (deleteFailed (Kind req) name)))
             (mkWorld c0 (calls w ++ [delete]) (logged w)))
  /\ (fst deleted = None ->
      (forall k e,
          (k < budget)%nat -> (forall j, (j < k)%nat -> found j) ->
          answerAt c0 k = inl e -> IsNotFound e = true ->
          namespaceDelete req w = Done None (after (Datatypes.S k)))
      /\ (forall k e,
             (k < budget)%nat -> (forall j, (j < k)%nat -> found j) ->
             answerAt c0 k = inl e -> IsNotFound e = false ->
             namespaceDelete req w
             = Done (Some (Wrapf e ("Couldn't get namespace '" +:+ name
                                      +:+ "' err:" +:+ Error e)))
                    (after (Datatypes.S k)))
      /\ ((forall j, (j < budget)%nat -> found j) ->
          namespaceDelete req w
          = Done (Some (TimeoutError ("deleting namespace:" +:+ name) budget))
                 (after budget))).
Proof.
  intros name budget delete deleted c0 found after.
  assert (Hrun :
            namespaceDelete req w
            = match fst deleted with
              | Some e =>
                  Done (Some (Wrapf e (deleteFailed (Kind req) name)))
                       (mkWorld c0 (calls w ++ [delete]) (logged w))
              | None =>
                  Provider.poll ("deleting namespace:" +:+ name) budget budget
                                (namespaceDeleted req) (after 0%nat)
              end).
  { unfold namespaceDelete, deleteWith, bind.
    rewrite (assertType_ok _ _ _ Htype), Hversion.
    cbn [String.eqb Ascii.eqb Bool.eqb]. unfold clientDelete, send.
    subst c0 deleted after delete name.
    destruct (apiDelete Namespaces "" (Name req) DeletePropagationForeground
                        (cluster w)) as [[e |] cl]; cbn [fst snd];
      [reflexivity |].
    unfold logPrintf, Provider.RetryUntilTrue. cbn [cluster calls logged].
    cbn [repeat Nat.iter]. now rewrite app_nil_r. }
  assert (Hstill : forall k, found k ->
            namespaceDeleted req (after k)
            = Done (false, None) (after (Datatypes.S k))).
  { intros k [o Ho]. subst after. cbn beta.
    rewrite namespaceDeleted_step. now rewrite Ho. }
  split.
  - intros e He. now rewrite Hrun, He.
  - intros Hnone. rewrite Hrun, Hnone. split; [| split].
    + intros k e Hk Hfound Hans Hnf.
      apply (poll_settled _ _ _ after budget 0 k true None);
        [exact Hk | intros j Hj; apply Hstill; now apply Hfound | |
         discriminate].
      subst after. cbn beta. cbn [Nat.add].
      rewrite namespaceDeleted_step, Hans, Hnf. reflexivity.
    + intros k e Hk Hfound Hans Hnf.
      apply (poll_settled _ _ _ after budget 0 k false
               (Some (Wrapf e ("Couldn't get namespace '" +:+ name
                                 +:+ "' err:" +:+ Error e))));
        [exact Hk | intros j Hj; apply Hstill; now apply Hfound | |
         discriminate].
      subst after. cbn beta. cbn [Nat.add].
      rewrite namespaceDeleted_step, Hans, Hnf. reflexivity.
    + intros Hfound.
      apply (poll_exhausted _ _ _ after budget 0).
      intros j Hj. apply Hstill. now apply Hfound.
Qed.

End NamespaceDelete.

(** ** The create-or-update protocol, against any cluster *)

Section Protocol.

Context {C : Type} `{Clientset C} `{ProviderConstants}.

Lemma send_run {A} (c : Call) (f : C -> A * C) (w : World C) :
  send c f w
  = Done (fst (f (cluster w)))
         (mkWorld (snd (f (cluster w))) (calls w ++ [c]) (logged w)).
Proof. unfold send. destruct (f (cluster w)); reflexivity. Qed.

Lemma clientUpdate_run (coll : Collection) (ns : string) (req : Object)
      (w : World C) :
  clientUpdate coll ns req w
  = Done (fst (apiUpdate coll ns req (cluster w)))
         (mkWorld (snd (apiUpdate coll ns req (cluster w)))
                  (calls w ++ [CallUpdate coll ns req]) (logged w)).
Proof. apply send_run. Qed.

Lemma clientCreate_run (coll : Collection) (ns : string) (req : Object)
      (w : World C) :
  clientCreate coll ns req w
  = Done (fst (apiCreate coll ns req (cluster w)))
         (mkWorld (snd (apiCreate coll ns req (cluster w)))
                  (calls w ++ [CallCreate coll ns req]) (logged w)).
Proof. apply send_run. Qed.

Lemma clientList_run (coll : Collection) (ns : string) (w : World C) :
  clientList coll ns w
  = Done (fst (apiList coll ns (cluster w)))
         (mkWorld (snd (apiList coll ns (cluster w)))
                  (calls w ++ [CallList coll ns]) (logged w)).
Proof. apply send_run. Qed.

Lemma clientGet_run (coll : Collection) (ns name : string) (w : World C) :
  clientGet coll ns name w
  = Done (fst (apiGet coll ns name (cluster w)))
         (mkWorld (snd (apiGet coll ns name (cluster w)))
                  (calls w ++ [CallGet coll ns name]) (logged w)).
Proof. apply send_run. Qed.

Lemma updates_sent (coll : Collection) (ns : string) (req : Object)
      (steps : nat) (last : option error) (w : World C) :
  exists n r w',
    Retry.attempts steps last (clientUpdate coll ns req) w = Done r w'
    /\ (n <= steps)%nat /\ ((0 < steps)%nat -> (0 < n)%nat)
    /\ calls w' = calls w ++ repeat (CallUpdate coll ns req) n
    /\ logged w' = logged w.
Proof.
  revert last w. induction steps as [| steps IH]; intros last w.
  - exists 0%nat, last, w. cbn. rewrite app_nil_r.
    repeat split; [lia | lia].
  - cbn [Retry.attempts]. unfold bind. rewrite clientUpdate_run.
    destruct (apiUpdate coll ns req (cluster w)) as [[e |] cl];
      cbn [fst snd].
    + destruct (IsConflict e).
      * destruct (IH (Some e)
                    (mkWorld cl (calls w ++ [CallUpdate coll ns req])
                             (logged w)))
          as (n & r & w' & Hrun & Hle & _ & Hcalls & Hlog).
        exists (Datatypes.S n), r, w'. rewrite Hrun.
        cbn [calls logged] in Hcalls, Hlog.
        repeat split; [lia | lia | | exact Hlog].
        rewrite Hcalls, <- app_assoc. reflexivity.
      * exists 1%nat. eexists _, _. repeat split; [lia | lia].
    + exists 1%nat. eexists _, _. repeat split; [lia | lia].
Qed.

(** What [createOrUpdate] sends: the list, then either updates, between
    one and five of them, or one create. *)
Lemma createOrUpdate_sends (coll : Collection) (ns message : string)
      (req : Object) (w : World C) :
  exists flow w' tail,
    createOrUpdate coll ns message req w = Done flow w'
    /\ calls w' = calls w ++ CallList coll ns :: tail
    /\ match fst (apiList coll ns (cluster w)) with
       | inl _ => tail = [] /\ flow <> Next
       | inr items =>
           if existsIn items req
           then (exists n, (1 <= n <= 5)%nat
                           /\ tail = repeat (CallUpdate coll ns req) n)
                /\ flow <> Next
           else tail = [CallCreate coll ns req]
       end.
Proof.
  unfold createOrUpdate, bind. rewrite clientList_run.
  destruct (apiList coll ns (cluster w)) as [[e | items] cl]; cbn [fst snd].
  - eexists _, _, []. repeat split. discriminate.
  - destruct (existsIn items req).
    + unfold Retry.RetryOnConflict.
      destruct (updates_sent coll ns req (Retry.Steps Retry.DefaultRetry) None
                  (mkWorld cl (calls w ++ [CallList coll ns]) (logged w)))
        as (n & r & w' & Hrun & Hle & Hpos & Hcalls & Hlog).
      rewrite Hrun. cbn [calls] in Hcalls.
      cbn in Hle. specialize (Hpos ltac:(cbn; lia)).
      destruct r as [e |].
      * eexists _, _, _. split; [reflexivity |].
        split; [rewrite Hcalls, <- app_assoc; reflexivity |].
        split; [exists n; split; [lia | reflexivity] | discriminate].
      * unfold logPrintf. eexists _, _, _. split; [reflexivity |].
        cbn [calls].
        split; [rewrite Hcalls, <- app_assoc; reflexivity |].
        split; [exists n; split; [lia | reflexivity] | discriminate].
    + rewrite clientCreate_run. cbn [cluster calls logged].
      destruct (apiCreate coll ns req cl) as [[e |] cl']; cbn [fst snd].
      * eexists _, _, _. split; [reflexivity |]. cbn [calls].
        split; [rewrite <- app_assoc; reflexivity | reflexivity].
      * unfold logPrintf. eexists _, _, _. split; [reflexivity |].
        cbn [calls].
        split; [rewrite <- app_assoc; reflexivity | reflexivity].
Qed.

End Protocol.

(** ** What follows the create: nothing but [Get]s *)

Section OnlyGets.

Context {C : Type} `{Clientset C} `{ProviderConstants}.

Lemma onlyGets_ret {A} (a : A) : sendsOnlyGets (C := C) (ret a).
Proof. intros w. exists []. cbn. now rewrite app_nil_r. Qed.

Lemma onlyGets_abort {A} (why : Abort) :
  sendsOnlyGets (C := C) (A := A) (abort why).
Proof. intros w. exists []. cbn. now rewrite app_nil_r. Qed.

Lemma onlyGets_log (l : LogLine) : sendsOnlyGets (C := C) (logPrintf l).
Proof. intros w. exists []. cbn. now rewrite app_nil_r. Qed.

Lemma onlyGets_get (coll : Collection) (ns name : string) :
  sendsOnlyGets (clientGet coll ns name).
Proof.
  intros w. exists [CallGet coll ns name]. rewrite clientGet_run.
  split; reflexivity.
Qed.

Lemma onlyGets_bind {A B} (m : Go (World C) A) (k : A -> Go (World C) B) :
  sendsOnlyGets m -> (forall a, sendsOnlyGets (k a)) ->
  sendsOnlyGets (bind m k).
Proof.
  intros Hm Hk w. unfold bind. destruct (Hm w) as (g1 & Hc1 & Hg1).
  destruct (m w) as [a w1 | why w1]; cbn [worldOf] in Hc1.
  - destruct (Hk a w1) as (g2 & Hc2 & Hg2). exists (g1 ++ g2).
    rewrite Hc2, Hc1, <- app_assoc. split; [reflexivity |].
    rewrite forallb_app, Hg1, Hg2. reflexivity.
  - exists g1. split; assumption.
Qed.

Lemma onlyGets_range {A} (xs : list A) (body : A -> Go (World C) unit) :
  (forall x, sendsOnlyGets (body x)) -> sendsOnlyGets (range xs body).
Proof.
  intros Hbody. induction xs as [| x xs IH]; cbn [range].
  - apply onlyGets_ret.
  - apply onlyGets_bind; [apply Hbody | intros _; exact IH].
Qed.

Lemma onlyGets_poll (description : string) (maxAttempts left : nat)
      (predicate : Go (World C) (bool * option error)) :
  sendsOnlyGets predicate ->
  sendsOnlyGets (Provider.poll description maxAttempts left predicate).
Proof.
  intros Hp. induction left as [| left IH]; cbn [Provider.poll].
  - apply onlyGets_ret.
  - apply onlyGets_bind; [exact Hp |].
    intros [[] [e |]]; try apply onlyGets_ret. exact IH.
Qed.

Lemma onlyGets_assertType (T : GoType) (o : Object) :
  sendsOnlyGets (C := C) (assertType T o).
Proof.
  unfold assertType. destruct (decide (goType o = T));
    [apply onlyGets_ret | apply onlyGets_abort].
Qed.

Lemma onlyGets_deploymentReady (o : Object) :
  sendsOnlyGets (deploymentReady o).
Proof.
  unfold deploymentReady. apply onlyGets_bind; [apply onlyGets_assertType |].
  intros req. destruct (String.eqb _ _); [| apply onlyGets_ret].
  apply onlyGets_bind; [apply onlyGets_get |].
  intros [e | res]; [apply onlyGets_ret |].
  destruct (_ =? _); apply onlyGets_ret.
Qed.

Lemma onlyGets_daemonsetReady (o : Object) :
  sendsOnlyGets (daemonsetReady o).
Proof.
  unfold daemonsetReady. apply onlyGets_bind; [apply onlyGets_assertType |].
  intros req. destruct (String.eqb _ _); [| apply onlyGets_ret].
  apply onlyGets_bind; [apply onlyGets_get |].
  intros [e | res]; [apply onlyGets_ret |].
  destruct (_ =? _); apply onlyGets_ret.
Qed.

Lemma onlyGets_serviceExists (o : Object) :
  sendsOnlyGets (serviceExists o).
Proof.
  unfold serviceExists. apply onlyGets_bind; [apply onlyGets_assertType |].
  intros req. destruct (String.eqb _ _); [| apply onlyGets_ret].
  apply onlyGets_bind; [apply onlyGets_get |].
  intros [e | res]; [apply onlyGets_ret |].
  destruct (String.eqb _ _); [| apply onlyGets_ret].
  destruct (_ <? _)%nat; [| apply onlyGets_ret].
  apply onlyGets_bind; [apply onlyGets_log | intros _].
  apply onlyGets_bind; [| intros _; apply onlyGets_ret].
  apply onlyGets_range. intros ip.
  destruct (Ports res); [apply onlyGets_abort | apply onlyGets_log].
Qed.

(** The four things an apply handler does after a create. *)
Lemma after_create_onlyGets (T : GoType)
      (after : Object -> Go (World C) (option error)) :
  afterCreate T after -> forall req, sendsOnlyGets (after req).
Proof.
  intros [-> | [[_ ->] | [[_ ->] | [_ ->]]]] req.
  - apply onlyGets_ret.
  - apply onlyGets_bind; [apply onlyGets_daemonsetReady |].
    intros _. apply onlyGets_ret.
  - apply onlyGets_poll, onlyGets_deploymentReady.
  - apply onlyGets_poll, onlyGets_serviceExists.
Qed.

Lemma shapeOf_in (table : list (string * Shape)) (label : string)
      (sh : Shape) :
  shapeOf table label = Some sh -> List.In (label, sh) table.
Proof.
  induction table as [| [l s] rest IH]; [discriminate |].
  cbn [shapeOf]. destruct (String.eqb_spec l label) as [-> | _].
  - intros [= ->]. now left.
  - intros Hrest. right. now apply IH.
Qed.

(** Each case of [ResourceApply] is the common frame at its shape. *)
Lemma apply_case_shape (label : string) (sh : Shape) :
  shapeOf shapes label = Some sh ->
  exists message after,
    lookupCase Pkg.applyCases label
    = Some (applyWith (asserted sh) (versionCase sh) (defaults sh)
                      (namespaced sh) (collection sh) message after)
    /\ afterCreate (asserted sh) after.
Proof.
  intros Hsh. apply shapeOf_in in Hsh. cbn in Hsh.
  repeat (destruct Hsh as [[= <- <-] | Hsh];
          [eexists _, _; split; [reflexivity |];
           solve [ left; reflexivity
                 | right; left; split; reflexivity
                 | right; right; left; split; reflexivity
                 | right; right; right; split; reflexivity ] |]).
  contradiction.
Qed.

End OnlyGets.

Section ApplyProtocol.

Context {C : Type} `{Clientset C} `{ProviderConstants}.

Lemma defaultNamespace_fields (o : Object) :
  goType (defaultNamespace o) = goType o
  /\ Kind (defaultNamespace o) = Kind o
  /\ Version (defaultNamespace o) = Version o
  /\ Name (defaultNamespace o) = Name o
  /\ Ports (defaultNamespace o) = Ports o.
Proof.
  unfold defaultNamespace. destruct (_ =? _)%nat; repeat split.
Qed.

Lemma requestOf_fields (sh : Shape) (o : Object) :
  goType (requestOf sh o) = goType o
  /\ Kind (requestOf sh o) = Kind o
  /\ Version (requestOf sh o) = Version o
  /\ Name (requestOf sh o) = Name o
  /\ Ports (requestOf sh o) = Ports o.
Proof.
  unfold requestOf. destruct (defaults sh);
    [apply defaultNamespace_fields | repeat split].
Qed.

(** The run of the common frame on an object of the right type and
    version: [createOrUpdate], then [after] when that fell through. *)
Lemma applyWith_run (sh : Shape) (message : string -> string -> string)
      (after : Object -> Go (World C) (option error)) (o : Object)
      (w : World C) :
  goType o = asserted sh ->
  Version o = versionCase sh ->
  applyWith (asserted sh) (versionCase sh) (defaults sh) (namespaced sh)
            (collection sh) message after o w
  = (let* flow := createOrUpdate (collection sh) (clientNamespace sh o)
                    (message (Kind o) (Name o)) (requestOf sh o) in
     match flow with
     | Return err => ret err
     | Next => after (requestOf sh o)
     end) w.
Proof.
  intros Ht Hv. unfold applyWith. unfold bind at 1.
  rewrite (assertType_ok _ _ _ Ht).
  fold (requestOf sh o). unfold clientNamespace.
  destruct (requestOf_fields sh o) as (_ & Hk & Hver & Hn & _).
  rewrite Hver, Hk, Hn, Hv, String.eqb_refl. reflexivity.
Qed.

Lemma applyWith_sends (sh : Shape) (message : string -> string -> string)
      (after : Object -> Go (World C) (option error)) (o : Object)
      (w : World C) :
  goType o = asserted sh ->
  Version o = versionCase sh ->
  (forall req, sendsOnlyGets (after req)) ->
  let req := requestOf sh o in
  let ns := clientNamespace sh o in
  let coll := collection sh in
  exists tail,
    calls (worldOf (applyWith (asserted sh) (versionCase sh) (defaults sh)
                              (namespaced sh) coll message after o w))
    = calls w ++ CallList coll ns :: tail
    /\ match fst (apiList coll ns (cluster w)) with
       | inl _ => tail = []
       | inr items =>
           if existsIn items req
           then exists n, (1 <= n <= 5)%nat
                          /\ tail = repeat (CallUpdate coll ns req) n
           else exists gets, tail = CallCreate coll ns req :: gets
                             /\ forallb isGet gets = true
       end.
Proof.
  intros Ht Hv Hafter. cbv zeta.
  rewrite (applyWith_run sh message after o w Ht Hv). unfold bind.
  set (req := requestOf sh o). set (ns := clientNamespace sh o).
  set (coll := collection sh).
  destruct (createOrUpdate_sends coll ns (message (Kind o) (Name o)) req w)
    as (flow & w' & tail & Hrun & Hcalls & Hcase).
  rewrite Hrun.
  destruct (fst (apiList coll ns (cluster w))) as [e | items].
  - destruct Hcase as [-> Hflow]. destruct flow; [| contradiction].
    exists []. split; [exact Hcalls | reflexivity].
  - destruct (existsIn items req).
    + destruct Hcase as [Hn Hflow]. destruct flow; [| contradiction].
      exists tail. split; [exact Hcalls | exact Hn].
    + subst tail. destruct flow as [err |].
      * exists [CallCreate coll ns req]. split; [exact Hcalls |].
        exists []. split; reflexivity.
      * destruct (Hafter req w') as (gets & Hgets & Hall).
        exists (CallCreate coll ns req :: gets). split.
        -- rewrite Hgets, Hcalls, <- app_assoc. reflexivity.
        -- exists gets. split; [reflexivity | exact Hall].
Qed.

End ApplyProtocol.

(** ** The errors a readiness check can return *)

Section Benign.

Context {C : Type} `{Clientset C} `{ProviderConstants}.

Lemma yields_ret {A} (P : A -> Prop) (a : A) :
  P a -> yields (S := World C) P (ret a).
Proof. intros Ha s a' s' [= <- _]. exact Ha. Qed.

Lemma yields_abort {A} (P : A -> Prop) (why : Abort) :
  yields (S := World C) P (abort why).
Proof. intros s a s' Hrun. discriminate. Qed.

Lemma yields_bind {A B} (P : B -> Prop) (m : Go (World C) A)
      (k : A -> Go (World C) B) :
  (forall a, yields P (k a)) -> yields P (bind m k).
Proof.
  intros Hk s b s' Hrun. unfold bind in Hrun.
  destruct (m s) as [a s1 | why s1]; [| discriminate].
  now apply (Hk a s1 b s').
Qed.

Lemma yields_poll (description : string) (maxAttempts left : nat)
      (predicate : Go (World C) (bool * option error)) :
  yields (fun r => benign (snd r)) predicate ->
  yields benign (Provider.poll description maxAttempts left predicate).
Proof.
  intros Hp. induction left as [| left IH]; cbn [Provider.poll].
  - apply yields_ret. intros file. reflexivity.
  - intros s e s' Hrun. unfold bind in Hrun.
    destruct (predicate s) as [[ready err] s1 | why s1] eqn:Hpred;
      [| discriminate].
    pose proof (Hp s _ _ Hpred) as Hb. cbn [snd] in Hb.
    destruct ready, err as [e' |].
    + injection Hrun as <- _. exact Hb.
    + injection Hrun as <- _. exact I.
    + injection Hrun as <- _. exact Hb.
    + now apply (IH s1 e s').
Qed.

Lemma unknownVersion_benign (v kind name : string) :
  benign (Some (Errorf (unknownVersion v kind name))).
Proof. intros file. reflexivity. Qed.

Lemma benign_deploymentReady (o : Object) :
  yields (fun r => benign (snd r)) (deploymentReady o).
Proof.
  unfold deploymentReady. apply yields_bind. intros req.
  destruct (String.eqb _ _);
    [| apply yields_ret; apply unknownVersion_benign].
  apply yields_bind. intros [e | res].
  - apply yields_ret. intros file. reflexivity.
  - destruct (_ =? _); apply yields_ret; exact I.
Qed.

Lemma benign_serviceExists (o : Object) :
  yields (fun r => benign (snd r)) (serviceExists o).
Proof.
  unfold serviceExists. apply yields_bind. intros req.
  destruct (String.eqb _ _);
    [| apply yields_ret; apply unknownVersion_benign].
  apply yields_bind. intros [e | res].
  - apply yields_ret. intros file. reflexivity.
  - destruct (String.eqb _ _); [| apply yields_ret; exact I].
    destruct (_ <? _)%nat; [| apply yields_ret; exact I].
    apply yields_bind. intros _. apply yields_bind. intros _.
    apply yields_ret. exact I.
Qed.

Lemma after_create_benign (T : GoType)
      (after : Object -> Go (World C) (option error)) :
  afterCreate T after -> forall req, yields benign (after req).
Proof.
  intros [-> | [[_ ->] | [[_ ->] | [_ ->]]]] req.
  - apply yields_ret. exact I.
  - apply yields_bind. intros _. apply yields_ret. exact I.
  - apply yields_poll, benign_deploymentReady.
  - apply yields_poll, benign_serviceExists.
Qed.

End Benign.

(** ** The reference cluster *)

Section StoreFacts.

Lemma isAt_key (coll : Collection) (ns name : string) (e : Store.Entry) :
  Store.isAt coll ns name e = true <-> Store.keyOfEntry e = (coll, ns, name).
Proof.
  unfold Store.isAt, Store.keyOfEntry.
  rewrite !andb_true_iff, bool_decide_eq_true, !String.eqb_eq.
  split; [intros [[-> ->] ->]; reflexivity | intros [= -> -> ->]; auto].
Qed.

Lemma holds_iff (coll : Collection) (ns name : string) (cl : Store.Cluster) :
  Store.holds coll ns name cl = true
  <-> List.In (coll, ns, name) (Store.keys cl).
Proof.
  unfold Store.holds, Store.keys. rewrite existsb_exists, List.in_map_iff.
  split; intros (e & H1 & H2).
  - exists e. split; [now apply isAt_key | exact H1].
  - exists e. split; [exact H2 | now apply isAt_key].
Qed.

(** The existence test of the handlers, on what the cluster lists. *)
Lemma existsIn_listed (coll : Collection) (ns : string) (req : Object)
      (es : list Store.Entry) :
  existsIn (List.map Store.stored (List.filter (Store.isIn coll ns) es)) req
  = existsb (Store.isAt coll ns (Name req)) es.
Proof.
  unfold existsIn. induction es as [| e es IH]; [reflexivity |].
  cbn [List.filter existsb]. unfold Store.isAt at 1. fold (Store.isIn coll ns e).
  destruct (Store.isIn coll ns e); cbn [List.map existsb andb]; now rewrite IH.
Qed.

Lemma update_keeps_keys (coll : Collection) (ns : string) (req : Object)
      (es : list Store.Entry) :
  List.map Store.keyOfEntry
    (List.map (fun e => if Store.isAt coll ns (Name req) e
                        then Store.mkEntry coll ns req else e) es)
  = List.map Store.keyOfEntry es.
Proof.
  rewrite List.map_map. apply List.map_ext. intros e.
  destruct (Store.isAt coll ns (Name req) e) eqn:Hat; [| reflexivity].
  apply isAt_key in Hat. now rewrite Hat.
Qed.

Lemma update_keeps_ports (coll : Collection) (ns : string) (req : Object)
      (es : list Store.Entry) :
  (coll = Services -> Ports req <> []) ->
  List.Forall (fun e => Store.inCollection e = Services
                        -> Ports (Store.stored e) <> []) es ->
  List.Forall (fun e => Store.inCollection e = Services
                        -> Ports (Store.stored e) <> [])
    (List.map (fun e => if Store.isAt coll ns (Name req) e
                        then Store.mkEntry coll ns req else e) es).
Proof.
  intros Hreq Hall. apply List.Forall_map.
  eapply List.Forall_impl; [| exact Hall]. intros e He.
  destruct (Store.isAt coll ns (Name req) e); [exact Hreq | exact He].
Qed.

End StoreFacts.

(** ** Polls against the reference cluster *)

Section QuietPolls.

Variable observe : nat -> Collection -> Object -> Store.Status.
Variable constants : ProviderConstants.

Local Notation clt := (Store.client observe).

Lemma quiet_ret {A} (a : A) : quiet (ret a).
Proof. intros w _. exists a, w. repeat split. Qed.

Lemma quiet_log (l : LogLine) :
  notable l = false -> quiet (@logPrintf Store.Cluster l).
Proof.
  intros Hl w _. eexists _, _. split; [reflexivity |]. cbn [cluster logged].
  split; [reflexivity |]. rewrite List.filter_app.
  cbn [List.filter]. rewrite Hl. apply app_nil_r.
Qed.

Lemma quiet_bind {A B} (m : Go (World Store.Cluster) A)
      (k : A -> Go (World Store.Cluster) B) :
  quiet m -> (forall a, quiet (k a)) -> quiet (bind m k).
Proof.
  intros Hm Hk w Hports. unfold bind.
  destruct (Hm w Hports) as (a & w1 & -> & Hent1 & Hout1).
  assert (Hports1 : Store.portsOK (cluster w1))
    by (unfold Store.portsOK; now rewrite Hent1).
  destruct (Hk a w1 Hports1) as (b & w2 & -> & Hent2 & Hout2).
  exists b, w2. split; [reflexivity |]. split; congruence.
Qed.

Lemma quiet_range {A} (xs : list A) (body : A -> Go (World Store.Cluster) unit) :
  (forall x, quiet (body x)) -> quiet (range xs body).
Proof.
  intros Hbody. induction xs as [| x xs IH]; cbn [range].
  - apply quiet_ret.
  - apply quiet_bind; [apply Hbody | intros _; exact IH].
Qed.

Lemma quiet_poll (description : string) (maxAttempts left : nat)
      (predicate : Go (World Store.Cluster) (bool * option error)) :
  quiet predicate ->
  quiet (Provider.poll description maxAttempts left predicate).
Proof.
  intros Hp. induction left as [| left IH]; cbn [Provider.poll].
  - apply quiet_ret.
  - apply quiet_bind; [exact Hp |].
    intros [[] [e |]]; try apply quiet_ret. exact IH.
Qed.

(** A [Get] on the reference cluster: the stored object under the status
    the cluster reports, or not-found. *)
Lemma store_get (coll : Collection) (ns name : string)
      (w : World Store.Cluster) :
  @clientGet _ clt coll ns name w
  = Done (match List.find (Store.isAt coll ns name)
                          (Store.entries (cluster w)) with
          | Some e =>
              inr (Store.withStatus
                     (observe (Store.clock (cluster w)) coll (Store.stored e))
                     (Store.stored e))
          | None => inl (StatusError NotFound "not found")
          end)
         (mkWorld (Store.tick (cluster w))
                  (calls w ++ [CallGet coll ns name]) (logged w)).
Proof. reflexivity. Qed.

Lemma quiet_get {B} (coll : Collection) (ns name : string)
      (k : error + Object -> Go (World Store.Cluster) B) :
  (forall e, quiet (k (inl e))) ->
  (forall res, (coll = Services -> Ports res <> []) -> quiet (k (inr res))) ->
  quiet (bind (@clientGet _ clt coll ns name) k).
Proof.
  intros Herr Hres w Hports. unfold bind. rewrite store_get.
  set (w1 := mkWorld _ _ _).
  assert (Hports1 : Store.portsOK (cluster w1)) by exact Hports.
  destruct (List.find _ _) as [e |] eqn:Hfind.
  - apply List.find_some in Hfind. destruct Hfind as [Hin Hat].
    unfold Store.portsOK in Hports. rewrite List.Forall_forall in Hports.
    specialize (Hports e Hin).
    assert (Hcoll : Store.inCollection e = coll).
    { apply isAt_key in Hat. now injection Hat. }
    destruct (Hres (Store.withStatus
                      (observe (Store.clock (cluster w)) coll (Store.stored e))
                      (Store.stored e))
                   ltac:(intros ->; cbn; now apply Hports) w1 Hports1)
      as (b & w2 & Hrun & Hent & Hout).
    exists b, w2. split; [exact Hrun |]. split; [exact Hent | exact Hout].
  - destruct (Herr (StatusError NotFound "not found") w1 Hports1)
      as (b & w2 & Hrun & Hent & Hout).
    exists b, w2. split; [exact Hrun |]. split; [exact Hent | exact Hout].
Qed.

Lemma quiet_assert {B} (T : GoType) (o : Object)
      (k : Object -> Go (World Store.Cluster) B) :
  goType o = T -> quiet (k o) -> quiet (bind (assertType T o) k).
Proof.
  intros Ht Hk w Hports. unfold bind. rewrite (assertType_ok _ _ _ Ht).
  now apply Hk.
Qed.

Lemma quiet_deploymentReady (req : Object) :
  goType req = appsV1_Deployment ->
  quiet (@deploymentReady _ clt req).
Proof.
  intros Ht. unfold deploymentReady. apply quiet_assert; [exact Ht |].
  cbv beta zeta. destruct (String.eqb _ _); [| apply quiet_ret].
  apply quiet_get.
  - intros e. apply quiet_ret.
  - intros res _. destruct (_ =? _); apply quiet_ret.
Qed.

Lemma quiet_daemonsetReady (req : Object) :
  goType req = appsV1_DaemonSet ->
  quiet (@daemonsetReady _ clt req).
Proof.
  intros Ht. unfold daemonsetReady. apply quiet_assert; [exact Ht |].
  cbv beta zeta. destruct (String.eqb _ _); [| apply quiet_ret].
  apply quiet_get.
  - intros e. apply quiet_ret.
  - intros res _. destruct (_ =? _); apply quiet_ret.
Qed.

Lemma quiet_serviceExists (req : Object) :
  goType req = apiCoreV1_Service ->
  quiet (@serviceExists _ clt req).
Proof.
  intros Ht. unfold serviceExists. apply quiet_assert; [exact Ht |].
  cbv beta zeta. destruct (String.eqb _ _); [| apply quiet_ret].
  apply quiet_get.
  - intros e. apply quiet_ret.
  - intros res Hres. specialize (Hres eq_refl).
    destruct (String.eqb _ _); [| apply quiet_ret].
    destruct (_ <? _)%nat; [| apply quiet_ret].
    apply quiet_bind; [now apply quiet_log | intros _].
    apply quiet_bind; [| intros _; apply quiet_ret].
    apply quiet_range. intros ip.
    destruct (Ports res) as [| port ports]; [contradiction |].
    now apply quiet_log.
Qed.

End QuietPolls.

(** ** Applying a batch twice *)

Section Idempotence.

Variable observe : nat -> Collection -> Object -> Store.Status.
Variable constants : ProviderConstants.

Local Notation clt := (Store.client observe).
Local Notation applyOne :=
  (@applyResource Store.Cluster (@Pkg.applyCases Store.Cluster clt constants)).

Lemma after_create_quiet (T : GoType)
      (after : Object -> Go (World Store.Cluster) (option error))
      (req : Object) :
  @afterCreate Store.Cluster clt constants T after ->
  goType req = T -> quiet (after req).
Proof.
  intros [-> | [[-> ->] | [[-> ->] | [-> ->]]]] Ht.
  - apply quiet_ret.
  - apply quiet_bind; [now apply quiet_daemonsetReady |].
    intros _. apply quiet_ret.
  - apply quiet_poll. now apply quiet_deploymentReady.
  - apply quiet_poll. now apply quiet_serviceExists.
Qed.

Lemma filter_of_notable (P : LogLine -> bool) (lines : list LogLine) :
  (forall l, P l = true -> notable l = true) ->
  List.filter P lines = List.filter P (List.filter notable lines).
Proof.
  intros Hsub. induction lines as [| l lines IH]; [reflexivity |].
  cbn [List.filter]. destruct (notable l) eqn:Hn; cbn [List.filter].
  - now rewrite IH.
  - destruct (P l) eqn:Hp; [| exact IH].
    apply Hsub in Hp. congruence.
Qed.

Lemma outcomes_of_notable (lines : list LogLine) :
  outcomes lines = outcomes (List.filter notable lines).
Proof. apply filter_of_notable. now intros []. Qed.

Lemma unimplemented_of_notable (lines : list LogLine) :
  unimplemented lines = unimplemented (List.filter notable lines).
Proof. apply filter_of_notable. now intros []. Qed.

Lemma unimplemented_snoc (lines : list LogLine) (l : LogLine) :
  unimplemented (lines ++ [l])
  = unimplemented lines ++ (if isUnimplemented l then [l] else []).
Proof. unfold unimplemented. rewrite List.filter_app. reflexivity. Qed.

Lemma outcomes_snoc (lines : list LogLine) (l : LogLine) :
  outcomes (lines ++ [l])
  = outcomes lines ++ (if isOutcome l then [l] else []).
Proof. unfold outcomes. rewrite List.filter_app. reflexivity. Qed.

Lemma createdKeys_gets (gets : list Call) :
  forallb isGet gets = true -> createdKeys gets = [].
Proof.
  induction gets as [| c gets IH]; [reflexivity |].
  cbn [forallb]. rewrite andb_true_iff. intros [Hc Hall].
  destruct c; try discriminate. cbn. now apply IH.
Qed.

(** One object against the reference cluster: an update when the cluster
    holds its key, a create (and then only [Get]s) when it does not. *)
Lemma store_apply_step (file : string) (sh : Shape) (o : Object)
      (w : World Store.Cluster) :
  accepted sh o ->
  Store.portsOK (cluster w) ->
  exists w',
    applyOne file o w = Done tt w'
    /\ Store.portsOK (cluster w')
    /\ unimplemented (logged w') = unimplemented (logged w)
    /\ if Store.holds (collection sh) (clientNamespace sh o) (Name o)
                      (cluster w)
       then Store.keys (cluster w') = Store.keys (cluster w)
            /\ createdKeys (calls w') = createdKeys (calls w)
            /\ outcomes (logged w') = outcomes (logged w) ++ [updated o]
       else Store.keys (cluster w')
            = Store.keys (cluster w)
                ++ [(collection sh, clientNamespace sh o, Name o)]
            /\ createdKeys (calls w')
               = createdKeys (calls w)
                   ++ [(collection sh, clientNamespace sh o, Name o)]
            /\ outcomes (logged w') = outcomes (logged w) ++ [created o].
Proof.
  intros (Hsh & Ht & Hv & Hp) Hports.
  destruct (@apply_case_shape Store.Cluster clt constants _ sh Hsh)
    as (msg & after & Hcase & Hafter).
  destruct (requestOf_fields sh o) as (Hrt & Hrk & Hrv & Hrn & Hrp).
  unfold applyResource. rewrite Hcase. unfold bind at 1.
  rewrite (applyWith_run sh msg after o w Ht Hv). unfold bind at 1.
  unfold createOrUpdate. unfold bind at 1. rewrite clientList_run.
  cbn [fst snd apiList clt Store.client Store.list].
  rewrite existsIn_listed, Hrn, Hrk.
  fold (Store.holds (collection sh) (clientNamespace sh o) (Name o) (cluster w)).
  destruct (Store.holds (collection sh) (clientNamespace sh o) (Name o)
                        (cluster w)) eqn:Hheld.
  - unfold Retry.RetryOnConflict.
    cbn [Retry.Steps Retry.DefaultRetry Retry.attempts]. unfold bind.
    rewrite clientUpdate_run.
    cbn [fst snd apiUpdate clt Store.client cluster calls logged].
    unfold Store.update. rewrite Hrn.
    change (Store.holds (collection sh) (clientNamespace sh o) (Name o)
                        (Store.tick (cluster w)))
      with (Store.holds (collection sh) (clientNamespace sh o) (Name o)
                        (cluster w)).
    rewrite Hheld. cbn [fst snd]. unfold logPrintf, ret.
    cbn [cluster calls logged].
    eexists. split; [reflexivity |]. cbn [cluster logged calls].
    split; [| split; [| split; [| split]]].
    + unfold Store.portsOK. cbn [Store.entries Store.tick].
      rewrite <- Hrn. apply update_keeps_ports; [| exact Hports].
      rewrite Hrp. exact Hp.
    + rewrite unimplemented_snoc. cbn [isUnimplemented]. apply app_nil_r.
    + unfold Store.keys. cbn [Store.entries Store.tick].
      rewrite <- Hrn. apply update_keeps_keys.
    + unfold createdKeys. rewrite !flat_map_app. cbn [flat_map app].
      now rewrite !app_nil_r.
    + rewrite outcomes_snoc. reflexivity.
  - unfold bind. rewrite clientCreate_run.
    cbn [fst snd apiCreate clt Store.client cluster calls logged].
    unfold Store.create. rewrite Hrn.
    change (Store.holds (collection sh) (clientNamespace sh o) (Name o)
                        (Store.tick (cluster w)))
      with (Store.holds (collection sh) (clientNamespace sh o) (Name o)
                        (cluster w)).
    rewrite Hheld. cbn [fst snd]. unfold logPrintf at 1.
    cbn [cluster calls logged]. unfold ret at 1.
    set (w1 := mkWorld _ _ _).
    assert (Hports1 : Store.portsOK (cluster w1)).
    { unfold Store.portsOK. subst w1. cbn [cluster Store.entries Store.tick].
      apply List.Forall_app. split; [exact Hports |].
      constructor; [| constructor]. cbn. rewrite Hrp. exact Hp. }
    destruct (after_create_quiet (asserted sh) after (requestOf sh o) Hafter
                ltac:(congruence) w1 Hports1)
      as (r & w2 & Hrun & Hent & Hout).
    rewrite Hrun.
    assert (Hkeys : Store.keys (cluster w2)
                    = Store.keys (cluster w)
                        ++ [(collection sh, clientNamespace sh o, Name o)]).
    { unfold Store.keys. rewrite Hent. subst w1.
      cbn [cluster Store.entries Store.tick]. rewrite List.map_app.
      cbn [List.map]. unfold Store.keyOfEntry at 2. cbn. now rewrite Hrn. }
    assert (Hports2 : Store.portsOK (cluster w2))
      by (unfold Store.portsOK; now rewrite Hent).
    assert (Hlog : outcomes (logged w2) = outcomes (logged w) ++ [created o]).
    { rewrite outcomes_of_notable, Hout, <- outcomes_of_notable. subst w1.
      cbn [logged]. now rewrite outcomes_snoc. }
    assert (Hun : unimplemented (logged w2) = unimplemented (logged w)).
    { rewrite unimplemented_of_notable, Hout, <- unimplemented_of_notable.
      subst w1. cbn [logged]. rewrite unimplemented_snoc.
      cbn [isUnimplemented]. apply app_nil_r. }
    pose proof (after_create_benign (asserted sh) after Hafter
                  (requestOf sh o) w1 r w2 Hrun) as Hbenign.
    assert (Hsent : createdKeys (calls w2)
                    = createdKeys (calls w)
                        ++ [(collection sh, clientNamespace sh o, Name o)]).
    { destruct (after_create_onlyGets (asserted sh) after Hafter
                  (requestOf sh o) w1) as (gets & Hgets & Hall).
      rewrite Hrun in Hgets. cbn [worldOf] in Hgets. rewrite Hgets.
      subst w1. cbn [calls]. unfold createdKeys. rewrite !flat_map_app.
      cbn [flat_map app]. rewrite Hrn, app_nil_r, <- app_assoc.
      f_equal. fold (createdKeys gets). rewrite (createdKeys_gets gets Hall).
      reflexivity. }
    destruct r as [e |].
    + unfold logPrintf. eexists. split; [reflexivity |].
      cbn [cluster logged calls]. split; [exact Hports2 |]. split.
      { rewrite unimplemented_snoc, (Hbenign file), Hun. apply app_nil_r. }
      split; [exact Hkeys |]. split; [exact Hsent |].
      rewrite outcomes_snoc. cbn [isOutcome]. now rewrite app_nil_r.
    + exists w2. split; [reflexivity |]. auto.
Qed.


Lemma keyOf_accepted (sh : Shape) (o : Object) :
  accepted sh o ->
  keyOf o = Some (collection sh, clientNamespace sh o, Name o).
Proof. intros (Hsh & _). unfold keyOf. now rewrite Hsh. Qed.

(** A loop over the objects of the files of a batch is a loop over the
    objects, each with its file. *)
Lemma range_files {S} (handle : string -> Object -> Go S unit)
      (deployments : list Resource) (s : S) :
  range deployments (fun d => range (Objects d) (handle (ResourceFileName d))) s
  = range (flat_map (fun d => List.map (pair (ResourceFileName d)) (Objects d))
                    deployments)
          (fun p => handle (fst p) (snd p)) s.
Proof.
  revert s. induction deployments as [| d ds IH]; intros s; [reflexivity |].
  cbn [range flat_map]. rewrite range_app. unfold bind.
  assert (Hd : forall s0,
             range (Objects d) (handle (ResourceFileName d)) s0
             = range (List.map (pair (ResourceFileName d)) (Objects d))
                     (fun p => handle (fst p) (snd p)) s0).
  { induction (Objects d) as [| o os IHo]; intros s0; [reflexivity |].
    cbn [range List.map]. unfold bind. cbn [fst snd].
    destruct (handle (ResourceFileName d) o s0) as [[] s1 | why s1];
      [apply IHo | reflexivity]. }
  rewrite Hd. destruct (range _ _ s) as [[] s1 | why s1];
    [apply IH | reflexivity].
Qed.

Lemma objects_of_files (deployments : list Resource) :
  List.map snd
    (flat_map (fun d => List.map (pair (ResourceFileName d)) (Objects d))
              deployments)
  = allObjects deployments.
Proof.
  unfold allObjects. induction deployments as [| d ds IH]; [reflexivity |].
  cbn [flat_map]. rewrite List.map_app, IH. f_equal.
  rewrite List.map_map. cbn [snd]. apply List.map_id.
Qed.

(** The first pass: nothing of the batch is in the cluster yet, and every
    object is created. *)
Lemma first_pass (ps : list (string * Object)) (w : World Store.Cluster) :
  List.Forall applicable (List.map snd ps) ->
  Store.portsOK (cluster w) ->
  List.NoDup (List.map keyOf (List.map snd ps)) ->
  (forall o k, List.In o (List.map snd ps) -> keyOf o = Some k ->
               ~ List.In k (Store.keys (cluster w))) ->
  exists w',
    range ps (fun p => applyOne (fst p) (snd p)) w = Done tt w'
    /\ Store.portsOK (cluster w')
    /\ List.map Some (Store.keys (cluster w'))
       = List.map Some (Store.keys (cluster w))
           ++ List.map keyOf (List.map snd ps)
    /\ outcomes (logged w')
       = outcomes (logged w) ++ List.map created (List.map snd ps)
    /\ unimplemented (logged w') = unimplemented (logged w).
Proof.
  revert w. induction ps as [| [file o] ps IH]; intros w Happ Hports Hnodup Hfresh.
  - exists w. cbn. rewrite !app_nil_r. auto 6.
  - cbn [List.map snd] in *. apply List.Forall_cons_iff in Happ.
    destruct Happ as [[sh Hacc] Happ].
    apply List.NoDup_cons_iff in Hnodup. destruct Hnodup as [Hnew Hnodup].
    pose proof (keyOf_accepted sh o Hacc) as Hkey.
    destruct (store_apply_step file sh o w Hacc Hports)
      as (w1 & Hrun & Hports1 & Hun1 & Hcase).
    destruct (Store.holds (collection sh) (clientNamespace sh o) (Name o)
                          (cluster w)) eqn:Hheld.
    { exfalso. apply holds_iff in Hheld.
      apply (Hfresh o _ ltac:(now left) Hkey). exact Hheld. }
    destruct Hcase as (Hkeys1 & _ & Hout1).
    destruct (IH w1 Happ Hports1 Hnodup)
      as (w2 & Hrest & Hports2 & Hkeys2 & Hout2 & Hun2).
    { intros o' k' Hin Hk'. rewrite Hkeys1. intros Hink.
      apply List.in_app_or in Hink. destruct Hink as [Hink | [<- | []]].
      - apply (Hfresh o' k' ltac:(now right) Hk'). exact Hink.
      - apply Hnew.
        assert (Heq : keyOf o = keyOf o') by (rewrite Hkey; symmetry; exact Hk').
        rewrite Heq. now apply List.in_map. }
    exists w2. cbn [range fst snd]. unfold bind. rewrite Hrun.
    split; [exact Hrest |]. split; [exact Hports2 |]. split.
    + rewrite Hkeys2, Hkeys1, List.map_app, <- app_assoc. cbn [List.map app].
      now rewrite Hkey.
    + split; [| congruence].
      rewrite Hout2, Hout1, <- app_assoc. reflexivity.
Qed.

(** The second pass: everything of the batch is in the cluster, and every
    object is updated. *)
Lemma second_pass (ps : list (string * Object)) (w : World Store.Cluster) :
  List.Forall applicable (List.map snd ps) ->
  Store.portsOK (cluster w) ->
  (forall o k, List.In o (List.map snd ps) -> keyOf o = Some k ->
               List.In k (Store.keys (cluster w))) ->
  exists w',
    range ps (fun p => applyOne (fst p) (snd p)) w = Done tt w'
    /\ Store.portsOK (cluster w')
    /\ Store.keys (cluster w') = Store.keys (cluster w)
    /\ outcomes (logged w')
       = outcomes (logged w) ++ List.map updated (List.map snd ps).
Proof.
  revert w. induction ps as [| [file o] ps IH]; intros w Happ Hports Hheld.
  - exists w. cbn. rewrite app_nil_r. auto.
  - cbn [List.map snd] in *. apply List.Forall_cons_iff in Happ.
    destruct Happ as [[sh Hacc] Happ].
    pose proof (keyOf_accepted sh o Hacc) as Hkey.
    destruct (store_apply_step file sh o w Hacc Hports)
      as (w1 & Hrun & Hports1 & Hun1 & Hcase).
    assert (Hin : Store.holds (collection sh) (clientNamespace sh o) (Name o)
                              (cluster w) = true).
    { apply holds_iff. apply (Hheld o _ ltac:(now left) Hkey). }
    rewrite Hin in Hcase. destruct Hcase as (Hkeys1 & _ & Hout1).
    destruct (IH w1 Happ Hports1) as (w2 & Hrest & Hports2 & Hkeys2 & Hout2).
    { intros o' k' Ho' Hk'. rewrite Hkeys1.
      apply (Hheld o' k' ltac:(now right) Hk'). }
    exists w2. cbn [range fst snd]. unfold bind. rewrite Hrun.
    split; [exact Hrest |]. split; [exact Hports2 |]. split.
    + congruence.
    + rewrite Hout2, Hout1, <- app_assoc. reflexivity.
Qed.

(** Applying a batch of accepted objects with distinct keys to the empty
    cluster and then once more: the first run creates every object, the
    second updates every object, in the order of the batch. *)
Lemma apply_twice (deployments : list Resource) :
  List.Forall applicable (allObjects deployments) ->
  List.NoDup (List.map keyOf (allObjects deployments)) ->
  exists w1 w2,
    @Pkg.ResourceApply Store.Cluster clt constants deployments Store.start
    = Done None w1
    /\ @Pkg.ResourceApply Store.Cluster clt constants deployments w1
       = Done None w2
    /\ outcomes (logged w1) = List.map created (allObjects deployments)
    /\ outcomes (logged w2)
       = List.map created (allObjects deployments)
           ++ List.map updated (allObjects deployments).
Proof.
  intros Happ Hnodup. rewrite <- objects_of_files in Happ, Hnodup.
  destruct (first_pass _ Store.start Happ ltac:(constructor) Hnodup
              ltac:(intros o k _ _ []))
    as (w1 & Hrun1 & Hports1 & Hkeys1 & Hout1 & _).
  destruct (second_pass _ w1 Happ Hports1) as (w2 & Hrun2 & _ & _ & Hout2).
  { intros o k Hin Hk. apply (List.in_map keyOf) in Hin. rewrite Hk in Hin.
    cbn [Store.start cluster Store.keys Store.empty Store.entries List.map app]
      in Hkeys1.
    rewrite <- Hkeys1 in Hin. apply List.in_map_iff in Hin.
    destruct Hin as (k' & [= ->] & Hin). exact Hin. }
  exists w1, w2. unfold Pkg.ResourceApply, bind.
  rewrite !range_files, Hrun1, Hrun2.
  rewrite objects_of_files in Hout1, Hout2.
  split; [reflexivity |]. split; [reflexivity |]. split.
  - exact Hout1.
  - rewrite Hout2, Hout1. reflexivity.
Qed.

(** Whatever the batch, a create is sent for a key only when the cluster
    does not hold it, so no key is ever created twice. *)
Lemma any_pass (ps : list (string * Object)) (w : World Store.Cluster) :
  List.Forall applicable (List.map snd ps) ->
  Store.portsOK (cluster w) ->
  List.NoDup (Store.keys (cluster w)) ->
  createdKeys (calls w) = Store.keys (cluster w) ->
  exists w',
    range ps (fun p => applyOne (fst p) (snd p)) w = Done tt w'
    /\ Store.portsOK (cluster w')
    /\ List.NoDup (Store.keys (cluster w'))
    /\ createdKeys (calls w') = Store.keys (cluster w').
Proof.
  revert w. induction ps as [| [file o] ps IH]; intros w Happ Hports Hnodup Hsent.
  - exists w. cbn. auto.
  - cbn [List.map snd] in *. apply List.Forall_cons_iff in Happ.
    destruct Happ as [[sh Hacc] Happ].
    destruct (store_apply_step file sh o w Hacc Hports)
      as (w1 & Hrun & Hports1 & Hun1 & Hcase).
    assert (Hinv : List.NoDup (Store.keys (cluster w1))
                   /\ createdKeys (calls w1) = Store.keys (cluster w1)).
    { destruct (Store.holds (collection sh) (clientNamespace sh o) (Name o)
                            (cluster w)) eqn:Hheld;
        destruct Hcase as (Hkeys1 & Hsent1 & _); rewrite Hkeys1, Hsent1, Hsent.
      - auto.
      - split; [| reflexivity].
        apply List.NoDup_app. repeat split.
        + exact Hnodup.
        + repeat constructor. intros [].
        + intros k Hk [<- | []].
          apply holds_iff in Hk. congruence. }
    destruct Hinv as [Hnodup1 Hsent1].
    destruct (IH w1 Happ Hports1 Hnodup1 Hsent1) as (w2 & Hrest & Hinv2).
    exists w2. cbn [range fst snd]. unfold bind. rewrite Hrun.
    split; [exact Hrest | exact Hinv2].
Qed.

Lemma never_created_twice (deployments : list Resource) :
  List.Forall applicable (allObjects deployments) ->
  exists w1 w2,
    @Pkg.ResourceApply Store.Cluster clt constants deployments Store.start
    = Done None w1
    /\ @Pkg.ResourceApply Store.Cluster clt constants deployments w1
       = Done None w2
    /\ List.NoDup (createdKeys (calls w2)).
Proof.
  intros Happ. rewrite <- objects_of_files in Happ.
  destruct (any_pass _ Store.start Happ ltac:(constructor) ltac:(constructor)
              eq_refl) as (w1 & Hrun1 & Hports1 & Hnodup1 & Hsent1).
  destruct (any_pass _ w1 Happ Hports1 Hnodup1 Hsent1)
    as (w2 & Hrun2 & _ & Hnodup2 & Hsent2).
  exists w1, w2. unfold Pkg.ResourceApply, bind.
  rewrite !range_files, Hrun1, Hrun2.
  split; [reflexivity |]. split; [reflexivity |]. now rewrite Hsent2.
Qed.

Lemma NoDup_app_disjoint {A : Type} (l k : list A) (x : A) :
  List.NoDup (l ++ k) -> List.In x l -> ~ List.In x k.
Proof.
  induction l as [| a l IH]; intros Hnodup Hin; [destruct Hin |].
  cbn [app] in Hnodup. apply List.NoDup_cons_iff in Hnodup.
  destruct Hnodup as [Hnew Hnodup]. destruct Hin as [-> | Hin].
  - intros Hk. apply Hnew. apply List.in_or_app. now right.
  - now apply IH.
Qed.

(** One object without a handler among accepted objects with distinct
    keys, applied to the empty cluster: every accepted object is created
    and the log holds exactly one error of the [default] case. *)
Lemma one_unsupported_among_accepted (before after : list Resource)
      (file : string) (pre post : list Object) (u : Object) :
  ~ List.In (GoStrings.ToLower (Kind u)) Pkg.supportedKinds ->
  List.Forall applicable
    (allObjects before ++ pre ++ post ++ allObjects after) ->
  List.NoDup (List.map keyOf
                (allObjects before ++ pre ++ post ++ allObjects after)) ->
  exists w',
    @Pkg.ResourceApply Store.Cluster clt constants
      (before ++ mkResource file (pre ++ u :: post) :: after) Store.start
    = Done None w'
    /\ outcomes (logged w')
       = List.map created
           (allObjects before ++ pre ++ post ++ allObjects after)
    /\ unimplemented (logged w')
       = [LogErrorApplying file
            (Errorf ("creating request for unimplimented resource type:"
                       +:+ GoStrings.ToLower (Kind u)))].
Proof.
  intros Hnot Happ Hnodup.
  set (pairs := flat_map (fun d => List.map (pair (ResourceFileName d))
                                            (Objects d))).
  set (P1 := pairs before ++ List.map (pair file) pre).
  set (P2 := List.map (pair file) post ++ pairs after).
  assert (Hpairs : pairs (before ++ mkResource file (pre ++ u :: post) :: after)
                   = P1 ++ (file, u) :: P2).
  { subst pairs P1 P2. rewrite flat_map_app. cbn [flat_map Objects ResourceFileName].
    rewrite List.map_app. cbn [List.map]. now rewrite <- !app_assoc. }
  assert (Hsnd : forall os : list Object,
             List.map snd (List.map (pair file) os) = os).
  { intros os. rewrite List.map_map. cbn [snd]. apply List.map_id. }
  assert (H1 : List.map snd P1 = allObjects before ++ pre).
  { subst P1 pairs. now rewrite List.map_app, objects_of_files, Hsnd. }
  assert (H2 : List.map snd P2 = post ++ allObjects after).
  { subst P2 pairs. now rewrite List.map_app, objects_of_files, Hsnd. }
  rewrite !app_assoc in Happ, Hnodup. rewrite <- H1 in Happ, Hnodup.
  rewrite <- app_assoc in Happ, Hnodup. rewrite <- H2 in Happ, Hnodup.
  apply List.Forall_app in Happ. destruct Happ as [Happ1 Happ2].
  rewrite List.map_app in Hnodup.
  pose proof (List.NoDup_app_remove_r _ _ Hnodup) as Hnodup1.
  pose proof (List.NoDup_app_remove_l _ _ Hnodup) as Hnodup2.
  destruct (first_pass P1 Store.start Happ1 ltac:(constructor) Hnodup1
              ltac:(intros o k _ _ []))
    as (w1 & Hrun1 & Hports1 & Hkeys1 & Hout1 & Hun1).
  set (line := LogErrorApplying file
                 (Errorf ("creating request for unimplimented resource type:"
                            +:+ GoStrings.ToLower (Kind u)))).
  set (w1' := mkWorld (cluster w1) (calls w1) (logged w1 ++ [line])).
  destruct (first_pass P2 w1' Happ2 Hports1 Hnodup2)
    as (w2 & Hrun2 & _ & _ & Hout2 & Hun2).
  { intros o k Hin Hk Hheld. subst w1'. cbn [cluster] in Hheld.
    apply (List.in_map Some) in Hheld. unfold Key in Hheld.
    rewrite Hkeys1 in Hheld.
    cbn [Store.start cluster Store.keys Store.empty Store.entries List.map app]
      in Hheld.
    apply (NoDup_app_disjoint _ _ (Some k) Hnodup Hheld).
    rewrite <- Hk. now apply List.in_map. }
  exists w2. unfold Pkg.ResourceApply, bind. rewrite range_files.
  fold pairs. rewrite Hpairs, range_app. unfold bind. rewrite Hrun1.
  cbn [range fst snd]. unfold bind.
  rewrite applyResource_unsupported by now rewrite pkg_apply_labels.
  unfold logPrintf. fold line. fold w1'. rewrite Hrun2.
  split; [reflexivity |]. split.
  - rewrite Hout2. subst w1'. cbn [logged]. rewrite outcomes_snoc.
    cbn [isOutcome line]. rewrite app_nil_r, Hout1.
    cbn [Store.start logged outcomes List.filter app].
    rewrite H1, H2, <- List.map_app, <- !app_assoc. reflexivity.
  - rewrite Hun2. subst w1'. cbn [logged]. rewrite unimplemented_snoc, Hun1.
    cbn [Store.start logged unimplemented List.filter app].
    subst line. cbn [isUnimplemented].
    assert (Hprefix : forall rest,
               String.prefix "creating request for unimplimented resource type:"
                 ("creating request for unimplimented resource type:" +:+ rest)
               = true).
    { intros rest. cbn. apply prefix_empty. }
    now rewrite Hprefix.
Qed.

End Idempotence.

(** ** The attempts of [RetryOnConflict] *)

Section Attempts.

Context {S : Type}.

Variable fn : Go S (option error).

(** [states] is any sequence of states and [errAt] any sequence of
    errors; the attempts walk along them as long as [fn] answers with a
    conflict. *)
Variable states : nat -> S.
Variable errAt : nat -> error.

Lemma attempts_exhausted (steps i : nat) (last : option error) :
  (forall j, (j < steps)%nat ->
             fn (states (i + j))
             = Done (Some (errAt (i + j))) (states (Datatypes.S (i + j)))
             /\ IsConflict (errAt (i + j)) = true) ->
  Retry.attempts steps last fn (states i)
  = Done (match steps with
          | O => last
          | Datatypes.S k => Some (errAt (i + k))
          end)
         (states (i + steps)).
Proof.
  revert i last. induction steps as [| steps IH]; intros i last Hconf.
  - cbn. unfold ret. now rewrite Nat.add_0_r.
  - cbn [Retry.attempts]. unfold bind.
    destruct (Hconf 0%nat ltac:(lia)) as [H0 Hc0].
    rewrite Nat.add_0_r in H0, Hc0. rewrite H0, Hc0.
    rewrite (IH (Datatypes.S i)).
    + replace (Datatypes.S i + steps)%nat with (i + Datatypes.S steps)%nat
        by lia.
      destruct steps as [| k]; [now rewrite Nat.add_0_r |].
      do 3 f_equal. lia.
    + intros j Hj.
      replace (Datatypes.S i + j)%nat with (i + Datatypes.S j)%nat by lia.
      apply Hconf. lia.
Qed.

Lemma attempts_settled (steps i k : nat) (last r : option error) (s' : S) :
  (k < steps)%nat ->
  (forall j, (j < k)%nat ->
             fn (states (i + j))
             = Done (Some (errAt (i + j))) (states (Datatypes.S (i + j)))
             /\ IsConflict (errAt (i + j)) = true) ->
  fn (states (i + k)) = Done r s' ->
  match r with Some e => IsConflict e = false | None => True end ->
  Retry.attempts steps last fn (states i) = Done r s'.
Proof.
  revert i k last. induction steps as [| steps IH];
    intros i k last Hk Hconf Hrun Hr; [lia |].
  cbn [Retry.attempts]. unfold bind. destruct k as [| k].
  - rewrite Nat.add_0_r in Hrun. rewrite Hrun.
    destruct r as [e |]; [now rewrite Hr | reflexivity].
  - destruct (Hconf 0%nat ltac:(lia)) as [H0 Hc0].
    rewrite Nat.add_0_r in H0, Hc0. rewrite H0, Hc0.
    apply (IH (Datatypes.S i) k); [lia | | | exact Hr].
    + intros j Hj.
      replace (Datatypes.S i + j)%nat with (i + Datatypes.S j)%nat by lia.
      apply Hconf. lia.
    + replace (Datatypes.S i + k)%nat with (i + Datatypes.S k)%nat by lia.
      exact Hrun.
Qed.

End Attempts.

(** ** The update under [RetryOnConflict], against any cluster *)

Section UpdatesUnderRetry.

Context {C : Type} `{Clientset C} `{ProviderConstants}.

Variable sh : Shape.
Variable o : Object.

Local Notation coll := (collection sh).
Local Notation ns := (clientNamespace sh o).
Local Notation req := (requestOf sh o).

(** When the list shows the name of the request, the handler sends
    updates of the one request and nothing else: as many as it takes to
    get an answer that is not a conflict, five at most. *)
Lemma updates_under_retry (w : World C) (items : list Object) :
  accepted sh o ->
  let clusterAt k :=
    Nat.iter k (fun cl => snd (apiUpdate coll ns req cl))
             (snd (apiList coll ns (cluster w))) in
  let answerAt k := fst (apiUpdate coll ns req (clusterAt k)) in
  let conflict k := exists e, answerAt k = Some e /\ IsConflict e = true in
  let after k lines :=
    mkWorld (clusterAt k)
            (calls w ++ CallList coll ns :: repeat (CallUpdate coll ns req) k)
            (logged w ++ lines) in
  fst (apiList coll ns (cluster w)) = inr items ->
  existsIn items req = true ->
  exists handler,
    lookupCase Pkg.applyCases (GoStrings.ToLower (Kind o)) = Some handler
    /\ (forall k,
           (k < 5)%nat -> (forall j, (j < k)%nat -> conflict j) ->
           answerAt k = None ->
           handler o w
           = Done None (after (Datatypes.S k)
                              [LogResourceUpdated (Kind o) (Name o)]))
    /\ (forall k e,
           (k < 5)%nat -> (forall j, (j < k)%nat -> conflict j) ->
           answerAt k = Some e -> IsConflict e = false ->
           handler o w
           = Done (Some (Wrapf e (updateFailed (Kind o) (Name o))))
                  (after (Datatypes.S k) []))
    /\ ((forall j, (j < 5)%nat -> conflict j) ->
        exists e,
          answerAt 4%nat = Some e
          /\ handler o w
             = Done (Some (Wrapf e (updateFailed (Kind o) (Name o))))
                    (after 5%nat [])).
Proof.
  intros (Hshape & Htype & Hversion & _) clusterAt answerAt conflict after
         Hitems Hexists.
  destruct (apply_case_shape _ sh Hshape) as (message & afterC & Hcase & _).
  eexists. split; [exact Hcase |].
  destruct (requestOf_fields sh o) as (_ & Hk & _ & Hn & _).
  set (errAt := fun k => match answerAt k with
                         | Some e => e
                         | None => PlainError ""
                         end).
  set (states := fun k =>
                   mkWorld (clusterAt k)
                           (calls w ++ CallList coll ns
                              :: repeat (CallUpdate coll ns req) k)
                           (logged w)).
  assert (Hstep : forall k,
             clientUpdate coll ns req (states k)
             = Done (answerAt k) (states (Datatypes.S k))).
  { intros k. rewrite clientUpdate_run. subst states clusterAt answerAt.
    cbn beta. cbn [cluster calls logged Nat.iter]. do 2 f_equal.
    rewrite <- app_assoc. cbn [app]. do 2 f_equal.
    change (CallUpdate coll ns req :: repeat (CallUpdate coll ns req) k)
      with (repeat (CallUpdate coll ns req) (Datatypes.S k)).
    symmetry. apply repeat_cons. }
  assert (Hconf : forall k, conflict k ->
             clientUpdate coll ns req (states (0 + k)%nat)
             = Done (Some (errAt (0 + k)%nat))
                    (states (Datatypes.S (0 + k)))
             /\ IsConflict (errAt (0 + k)%nat) = true).
  { intros k (e & He & Hc). cbn [Nat.add]. rewrite Hstep. subst errAt.
    cbn beta. rewrite He. split; [reflexivity | exact Hc]. }
  assert (Hhandler :
            forall r k,
              Retry.RetryOnConflict Retry.DefaultRetry
                (clientUpdate coll ns req) (states 0%nat)
              = Done r (states k) ->
              applyWith (asserted sh) (versionCase sh) (defaults sh)
                        (namespaced sh) coll message afterC o w
              = match r with
                | Some e =>
                    Done (Some (Wrapf e (updateFailed (Kind o) (Name o))))
                         (after k [])
                | None =>
                    Done None (after k [LogResourceUpdated (Kind o) (Name o)])
                end).
  { intros r k Hretry.
    rewrite (applyWith_run sh message afterC o w Htype Hversion).
    unfold bind at 1. unfold createOrUpdate. unfold bind at 1.
    rewrite clientList_run. rewrite Hitems, Hexists.
    unfold bind at 1.
    change (mkWorld (snd (apiList coll ns (cluster w)))
                    (calls w ++ [CallList coll ns]) (logged w))
      with (states 0%nat).
    rewrite Hretry. rewrite Hk, Hn. subst after states. cbn beta.
    destruct r as [e |].
    - unfold ret. now rewrite app_nil_r.
    - unfold bind, logPrintf, ret. cbn [cluster calls logged]. reflexivity. }
  split; [| split].
  - intros k Hlt Hbefore Hans.
    apply (Hhandler None (Datatypes.S k)).
    apply (attempts_settled _ states errAt 5 0 k);
      [exact Hlt | intros j Hj; apply Hconf; now apply Hbefore | | exact I].
    cbn [Nat.add]. now rewrite Hstep, Hans.
  - intros k e Hlt Hbefore Hans Hnot.
    apply (Hhandler (Some e) (Datatypes.S k)).
    apply (attempts_settled _ states errAt 5 0 k);
      [exact Hlt | intros j Hj; apply Hconf; now apply Hbefore | | exact Hnot].
    cbn [Nat.add]. now rewrite Hstep, Hans.
  - intros Hall. destruct (Hall 4%nat ltac:(lia)) as (e & He & Hc).
    exists e. split; [exact He |].
    apply (Hhandler (Some e) 5%nat). unfold Retry.RetryOnConflict.
    cbn [Retry.Steps Retry.DefaultRetry].
    rewrite (attempts_exhausted _ states errAt 5 0 None);
      [| intros j Hj; apply Hconf; now apply Hall].
    cbn [Nat.add]. subst errAt. cbn beta. now rewrite He.
Qed.

End UpdatesUnderRetry.

Lemma legacy_cases_agree {C : Type} `{Clientset C} `{ProviderConstants}
      (label : string) :
  List.In label Legacy.supportedKinds ->
  lookupCase applyCases label = lookupCase Pkg.applyCases label.
Proof.
  intros Hin. cbn in Hin.
  repeat (destruct Hin as [<- | Hin]; [reflexivity |]). contradiction.
Qed.

(** C1. Every apply handler follows the same protocol against any
    cluster: for an object that its handler accepts, the first request is
    the list of the handler's collection, in the namespace of the request
    for a namespaced kind; if the list fails nothing else is sent; if some
    listed item has the name of the request, only updates of the request
    follow, between one and five of them, and no create; otherwise one
    create of the request follows, and after it only [Get]s.  The updates
    run under [retry.RetryOnConflict]: an update that is answered with a
    conflict is followed by the next update of the same request, the first
    answer that is not a conflict ends them (success is logged as
    "updated" and nil is returned, any other refusal is returned wrapped),
    and the fifth conflict in a row is returned wrapped.  (The cases of
    the earlier version are cases of the later.)  Hence, on the reference
    cluster, applying a batch of accepted objects to the empty cluster and
    then applying it again returns both times and never sends two creates
    for the same collection, namespace and name; and when the objects of
    the batch have distinct keys, the outcome lines of the first run are
    one "created" per object and those of the two runs together are one
    "created" per object followed by one "updated" per object, in the
    order of the batch. *)
Theorem apply_creates_once_then_updates :
  (forall (C : Type) (clt : Clientset C) (constants : ProviderConstants)
          (sh : Shape) (o : Object) (w : World C),
      accepted sh o ->
      exists handler tail,
        lookupCase Pkg.applyCases (GoStrings.ToLower (Kind o)) = Some handler
        /\ calls (worldOf (handler o w))
           = calls w ++ CallList (collection sh) (clientNamespace sh o) :: tail
        /\ match fst (apiList (collection sh) (clientNamespace sh o)
                              (cluster w)) with
           | inl _ => tail = []
           | inr items =>
               if existsIn items (requestOf sh o)
               then exists n, (1 <= n <= 5)%nat
                              /\ tail = repeat (CallUpdate (collection sh)
                                                  (clientNamespace sh o)
                                                  (requestOf sh o)) n
               else exists gets,
                      tail = CallCreate (collection sh) (clientNamespace sh o)
                                        (requestOf sh o) :: gets
                      /\ forallb isGet gets = true
           end)
  /\ (forall (C : Type) (clt : Clientset C) (constants : ProviderConstants)
             (sh : Shape) (o : Object) (w : World C) (items : list Object),
         accepted sh o ->
         let coll := collection sh in
         let ns := clientNamespace sh o in
         let req := requestOf sh o in
         let clusterAt k :=
           Nat.iter k (fun cl => snd (apiUpdate coll ns req cl))
                    (snd (apiList coll ns (cluster w))) in
         let answerAt k := fst (apiUpdate coll ns req (clusterAt k)) in
         let conflict k :=
           exists e, answerAt k = Some e /\ IsConflict e = true in
         let after k lines :=
           mkWorld (clusterAt k)
                   (calls w ++ CallList coll ns
                      :: repeat (CallUpdate coll ns req) k)
                   (logged w ++ lines) in
         fst (apiList coll ns (cluster w)) = inr items ->
         existsIn items req = true ->
         exists handler,
           lookupCase Pkg.applyCases (GoStrings.ToLower (Kind o))
           = Some handler
           /\ (forall k,
                  (k < 5)%nat -> (forall j, (j < k)%nat -> conflict j) ->
                  answerAt k = None ->
                  handler o w
                  = Done None (after (Datatypes.S k)
                                     [LogResourceUpdated (Kind o) (Name o)]))
           /\ (forall k e,
                  (k < 5)%nat -> (forall j, (j < k)%nat -> conflict j) ->
                  answerAt k = Some e -> IsConflict e = false ->
                  handler o w
                  = Done (Some (Wrapf e (updateFailed (Kind o) (Name o))))
                         (after (Datatypes.S k) []))
           /\ ((forall j, (j < 5)%nat -> conflict j) ->
               exists e,
                 answerAt 4%nat = Some e
                 /\ handler o w
                    = Done (Some (Wrapf e (updateFailed (Kind o) (Name o))))
                           (after 5%nat [])))
  /\ (forall (C : Type) (clt : Clientset C) (constants : ProviderConstants)
             (label : string),
         List.In label Legacy.supportedKinds ->
         lookupCase applyCases label = lookupCase Pkg.applyCases label)
  /\ (forall (observe : nat -> Collection -> Object -> Store.Status)
             (constants : ProviderConstants) (deployments : list Resource),
         List.Forall applicable (allObjects deployments) ->
         exists w1 w2,
           @Pkg.ResourceApply _ (Store.client observe) constants deployments
             Store.start
           = Done None w1
           /\ @Pkg.ResourceApply _ (Store.client observe) constants deployments
                w1
              = Done None w2
           /\ List.NoDup (createdKeys (calls w2))
           /\ (List.NoDup (List.map keyOf (allObjects deployments)) ->
               outcomes (logged w1)
               = List.map created (allObjects deployments)
               /\ outcomes (logged w2)
                  = List.map created (allObjects deployments)
                      ++ List.map updated (allObjects deployments))).
Proof.
  split; [| split; [| split]].
  - intros C clt constants sh o w Hacc.
    pose proof Hacc as (Hsh & Ht & Hv & _).
    destruct (apply_case_shape _ sh Hsh) as (msg & after & Hcase & Hafter).
    destruct (applyWith_sends sh msg after o w Ht Hv
                (after_create_onlyGets _ after Hafter)) as (tail & Hcalls & Htail).
    eexists _, tail. split; [exact Hcase |]. split; [exact Hcalls | exact Htail].
  - intros C clt constants sh o w items Hacc coll ns req clusterAt answerAt
           conflict after Hitems Hexists.
    exact (updates_under_retry sh o w items Hacc Hitems Hexists).
  - intros C clt constants label. apply legacy_cases_agree.
  - intros observe constants deployments Happ.
    destruct (never_created_twice observe constants deployments Happ)
      as (w1 & w2 & Hrun1 & Hrun2 & Hnodup).
    exists w1, w2. split; [exact Hrun1 |]. split; [exact Hrun2 |].
    split; [exact Hnodup |]. intros Hkeys.
    destruct (apply_twice observe constants deployments Happ Hkeys)
      as (w1' & w2' & Hrun1' & Hrun2' & Hout1 & Hout2).
    rewrite Hrun1 in Hrun1'. injection Hrun1' as <-.
    rewrite Hrun2 in Hrun2'. injection Hrun2' as <-.
    split; assumption.
Qed.

Example apply_twice_ex :
  match @Pkg.ResourceApply _ (Store.client Demo.neverReady) Demo.constants
          Demo.batch Store.start with
  | Done None w1 =>
      match @Pkg.ResourceApply _ (Store.client Demo.neverReady) Demo.constants
              Demo.batch w1 with
      | Done None w2 => outcomes (logged w2)
      | _ => []
      end
  | _ => []
  end
  = [ LogResourceCreated "Namespace" "bench-42";
      LogResourceCreated "ConfigMap" "settings";
      LogResourceCreated "Service" "loadgen";
      LogResourceCreated "Deployment" "loadgen";
      LogResourceCreated "DaemonSet" "node-exporter";
      LogResourceUpdated "Namespace" "bench-42";
      LogResourceUpdated "ConfigMap" "settings";
      LogResourceUpdated "Service" "loadgen";
      LogResourceUpdated "Deployment" "loadgen";
      LogResourceUpdated "DaemonSet" "node-exporter" ].
Proof. vm_compute. reflexivity. Qed.

(** ** A kind without a handler *)

(** C4. An object whose lower-cased kind is none of the case labels
    costs one logged error and nothing else.  Against any cluster no
    request is sent for it, and the run over the batch is the run over
    what precedes it, then that one log line, then the run over what
    follows it, so every other object is handled as it would be without
    it; this holds for [ResourceApply] and [ResourceDelete] of the later
    version, and in the earlier version, where the loop runs over the
    sections of a file, the section of such an object logs the one error
    and lets the loop go on.  Hence, on the reference cluster, a batch of
    one such object among accepted objects with distinct keys creates
    every accepted object and logs exactly one error of that kind. *)
Theorem unsupported_kind_costs_one_logged_error :
  (forall (C : Type) (clt : Clientset C) (constants : ProviderConstants)
          (decoder : Decoder)
          (before after : list Resource) (file : string)
          (pre post : list Object) (u : Object) (w : World C),
      ~ List.In (GoStrings.ToLower (Kind u)) Pkg.supportedKinds ->
      let kind := GoStrings.ToLower (Kind u) in
      let applyError :=
        LogErrorApplying file
          (Errorf ("creating request for unimplimented resource type:"
                     +:+ kind)) in
      let deleteError :=
        LogErrorDeleting file
          (Errorf ("deleting request for unimplimented resource type:"
                     +:+ kind)) in
      Pkg.ResourceApply
        (before ++ mkResource file (pre ++ u :: post) :: after) w
      = (Pkg.ResourceApply (before ++ [mkResource file pre]) ;;
         logPrintf applyError ;;
         Pkg.ResourceApply (mkResource file post :: after)) w
      /\ Pkg.ResourceDelete
           (before ++ mkResource file (pre ++ u :: post) :: after) w
         = (Pkg.ResourceDelete (before ++ [mkResource file pre]) ;;
            logPrintf deleteError ;;
            Pkg.ResourceDelete (mkResource file post :: after)) w
      /\ (forall text,
             GoStrings.len (GoStrings.TrimSpace text) <> 0%nat ->
             decode (GoStrings.TrimSpace text) = inr (Some u) ->
             Legacy.applySection file text w
             = Done None (mkWorld (cluster w) (calls w)
                                  (logged w ++ [applyError]))
             /\ Legacy.deleteSection file text w
                = Done None (mkWorld (cluster w) (calls w)
                                     (logged w ++ [deleteError]))))
  /\ (forall (observe : nat -> Collection -> Object -> Store.Status)
             (constants : ProviderConstants)
             (before after : list Resource) (file : string)
             (pre post : list Object) (u : Object),
         ~ List.In (GoStrings.ToLower (Kind u)) Pkg.supportedKinds ->
         List.Forall applicable
           (allObjects before ++ pre ++ post ++ allObjects after) ->
         List.NoDup (List.map keyOf
                       (allObjects before ++ pre ++ post ++ allObjects after)) ->
         exists w',
           @Pkg.ResourceApply _ (Store.client observe) constants
             (before ++ mkResource file (pre ++ u :: post) :: after)
             Store.start
           = Done None w'
           /\ outcomes (logged w')
              = List.map created
                  (allObjects before ++ pre ++ post ++ allObjects after)
           /\ unimplemented (logged w')
              = [LogErrorApplying file
                   (Errorf ("creating request for unimplimented resource type:"
                              +:+ GoStrings.ToLower (Kind u)))]).
Proof.
  split.
  - intros C clt constants decoder. apply unsupported_kind_splits_the_run.
  - apply one_unsupported_among_accepted.
Qed.

(** ** The daemon set handler does not wait *)

(** Against any cluster: when the list does not show the daemon set and
    the create succeeds, [daemonSetApply] sends one [Get] and returns nil,
    whatever that [Get] answers. *)
Lemma daemonSetApply_after_create {C : Type} `{Clientset C} (req : Object)
      (items : list Object) (w : World C) :
  goType req = appsV1_DaemonSet ->
  Version req = "v1" ->
  let r := defaultNamespace req in
  let ns := Namespace r in
  let listed := apiList DaemonSets ns (cluster w) in
  let made := apiCreate DaemonSets ns r (snd listed) in
  fst listed = inr items ->
  existsIn items r = false ->
  fst made = None ->
  daemonSetApply req w
  = Done None
         (mkWorld (snd (apiGet DaemonSets ns (Name r) (snd made)))
                  (calls w ++ [CallList DaemonSets ns; CallCreate DaemonSets ns r;
                               CallGet DaemonSets ns (Name r)])
                  (logged w ++ [LogResourceCreated (Kind r) (Name r)])).
Proof.
  intros Ht Hv r ns listed made Hlist Hnew Hmade.
  destruct (defaultNamespace_fields req) as (Hrt & Hrk & Hrv & Hrn & _).
  fold r in Hrt, Hrk, Hrv, Hrn.
  assert (Hv1 : Version r = "v1") by congruence.
  assert (Hrr : defaultNamespace r = r).
  { subst r. unfold defaultNamespace.
    destruct (GoStrings.len (Namespace req) =? 0)%nat eqn:Hlen; [reflexivity |].
    now rewrite Hlen. }
  unfold daemonSetApply, applyWith. unfold bind at 1.
  rewrite (assertType_ok _ _ _ Ht). fold r. fold ns.
  rewrite Hv1. cbn [String.eqb Ascii.eqb Bool.eqb].
  unfold createOrUpdate. unfold bind at 1 2. rewrite clientList_run.
  fold listed. rewrite Hlist, Hnew. unfold bind at 1.
  rewrite clientCreate_run. cbn [cluster calls logged]. fold made.
  rewrite Hmade. unfold bind at 1. unfold logPrintf at 1.
  cbn [cluster calls logged]. unfold ret at 1. unfold bind at 1.
  unfold daemonsetReady. unfold bind at 1.
  rewrite assertType_ok by congruence.
  rewrite Hrr, Hv1.
  cbn [String.eqb Ascii.eqb Bool.eqb]. unfold bind at 1.
  rewrite clientGet_run. cbn [cluster calls logged].
  rewrite <- !app_assoc. cbn [app]. fold ns.
  destruct (fst (apiGet DaemonSets ns (Name r) (snd made)))
    as [e | res]; [reflexivity |].
  destruct (NumberUnavailable res =? 0); reflexivity.
Qed.

(** C3, on the code.  Against any cluster, when the list does not show
    the daemon set and the create succeeds, [daemonSetApply] sends one
    single [Get] and returns nil whatever that [Get] answers: the result
    of [daemonsetReady] is dropped and no poll takes place.  On the
    reference cluster that reports two unavailable nodes for ever,
    applying a new daemon set so returns nil after one [Get], and the
    daemon set is still not ready when asked again; applying it when it
    exists sends the list and the update and no [Get] at all.  The
    deployment handler, on the same cluster, polls: it sends
    [GlobalRetryCount] (here three) [Get]s and returns the timeout error. *)
Theorem daemonSetApply_returns_before_ready :
  (forall (C : Type) (clt : Clientset C) (req : Object)
          (items : list Object) (w : World C),
      goType req = appsV1_DaemonSet ->
      Version req = "v1" ->
      let r := defaultNamespace req in
      let ns := Namespace r in
      let listed := apiList DaemonSets ns (cluster w) in
      let made := apiCreate DaemonSets ns r (snd listed) in
      fst listed = inr items ->
      existsIn items r = false ->
      fst made = None ->
      daemonSetApply req w
      = Done None
             (mkWorld (snd (apiGet DaemonSets ns (Name r) (snd made)))
                      (calls w ++ [CallList DaemonSets ns;
                                   CallCreate DaemonSets ns r;
                                   CallGet DaemonSets ns (Name r)])
                      (logged w ++ [LogResourceCreated (Kind r) (Name r)])))
  /\ (let clt := Store.client Demo.neverReady in
      let first := @daemonSetApply _ clt Demo.nodeExporter Store.start in
      let again := @daemonSetApply _ clt Demo.nodeExporter (worldOf first) in
      let sibling :=
        @deploymentApply _ clt Demo.constants Demo.loadgen Store.start in
      returned first = Some None
      /\ calls (worldOf first)
         = [CallList DaemonSets "bench-42";
            CallCreate DaemonSets "bench-42" Demo.nodeExporter;
            CallGet DaemonSets "bench-42" "node-exporter"]
      /\ returned (@daemonsetReady _ clt Demo.nodeExporter (worldOf first))
         = Some (false, None)
      /\ returned again = Some None
      /\ calls (worldOf again)
         = calls (worldOf first)
             ++ [CallList DaemonSets "bench-42";
                 CallUpdate DaemonSets "bench-42" Demo.nodeExporter]
      /\ returned sibling
         = Some (Some (TimeoutError "applying deployment:loadgen" 3))
      /\ calls (worldOf sibling)
         = [CallList Deployments "bench-42";
            CallCreate Deployments "bench-42" Demo.loadgen;
            CallGet Deployments "bench-42" "loadgen";
            CallGet Deployments "bench-42" "loadgen";
            CallGet Deployments "bench-42" "loadgen"]).
Proof.
  split.
  - intros C clt req items w Ht Hv r ns listed made Hlist Hnew Hmade.
    now apply daemonSetApply_after_create with (items := items).
  - cbv zeta. repeat split; vm_compute; reflexivity.
Qed.

(** ** The theorems at concrete inputs *)

Lemma apply_creates_once_then_updates_witness :
  (exists w1 w2,
      @Pkg.ResourceApply _ (Store.client Demo.neverReady) Demo.constants
        Demo.batch Store.start
      = Done None w1
      /\ @Pkg.ResourceApply _ (Store.client Demo.neverReady) Demo.constants
           Demo.batch w1
         = Done None w2
      /\ List.NoDup (createdKeys (calls w2))
      /\ (List.NoDup (List.map keyOf (allObjects Demo.batch)) ->
          outcomes (logged w1) = List.map created (allObjects Demo.batch)
          /\ outcomes (logged w2)
             = List.map created (allObjects Demo.batch)
                 ++ List.map updated (allObjects Demo.batch)))
  /\ (exists handler,
         lookupCase (@Pkg.applyCases _ Samples.contended Demo.constants)
                    "deployment"
         = Some handler
         /\ handler Demo.loadgen Samples.nowhere
            = Done (Some (Wrapf Samples.conflict
                                (updateFailed "Deployment" "loadgen")))
                   (mkWorld tt
                            (CallList Deployments "bench-42"
                               :: repeat (CallUpdate Deployments "bench-42"
                                                     Demo.loadgen) 5)
                            [])).
Proof.
  split.
  - apply (proj2 (proj2 (proj2 apply_creates_once_then_updates))
                 Demo.neverReady Demo.constants Demo.batch).
    repeat constructor;
      (eexists; split; [vm_compute; reflexivity |];
       split; [reflexivity |]; split; [reflexivity |];
       cbn; intros ?; first [discriminate | congruence]).
  - destruct (proj1 (proj2 apply_creates_once_then_updates)
                    unit Samples.contended Demo.constants
                    (mkShape appsV1_Deployment "v1" true true Deployments)
                    Demo.loadgen Samples.nowhere [Demo.loadgen])
      as (handler & Hcase & _ & _ & Hall).
    + split; [reflexivity |]. split; [reflexivity |].
      split; [reflexivity | discriminate].
    + reflexivity.
    + reflexivity.
    + destruct Hall as (e & He & Hrun).
      { intros j Hj. exists Samples.conflict. split; reflexivity. }
      exists handler. split; [exact Hcase |].
      injection He as <-. exact Hrun.
Defined.

Lemma unsupported_kind_costs_one_logged_error_witness :
  exists w',
    @Pkg.ResourceApply _ (Store.client Demo.neverReady) Demo.constants
      ([] ++ mkResource "mixed.yaml" ([Demo.settings] ++ Demo.pod :: [Demo.loadgen])
          :: [])
      Store.start
    = Done None w'
    /\ outcomes (logged w')
       = List.map created
           (allObjects [] ++ [Demo.settings] ++ [Demo.loadgen] ++ allObjects [])
    /\ unimplemented (logged w')
       = [LogErrorApplying "mixed.yaml"
            (Errorf ("creating request for unimplimented resource type:"
                       +:+ GoStrings.ToLower (Kind Demo.pod)))].
Proof.
  apply (proj2 unsupported_kind_costs_one_logged_error
               Demo.neverReady Demo.constants [] [] "mixed.yaml"
               [Demo.settings] [Demo.loadgen] Demo.pod).
  - cbn. intuition discriminate.
  - repeat constructor;
      (eexists; split; [vm_compute; reflexivity |];
       split; [reflexivity |]; split; [reflexivity |];
       cbn; intros ?; first [discriminate | congruence]).
  - vm_compute. repeat constructor; cbn; intuition discriminate.
Defined.

Lemma namespaceDelete_polls_until_not_found_witness :
  @namespaceDelete _ (Store.client Demo.neverReady) Demo.constants Demo.bench
    Demo.withBench
  = Done None
         (mkWorld (Store.mkCluster [] 3)
                  [CallDelete Namespaces "" "bench-42" DeletePropagationForeground;
                   CallGet Namespaces "" "bench-42"]
                  [LogResourceDeleting "Namespace" "bench-42"]).
Proof.
  refine (proj1 (proj2 (@namespaceDelete_polls_until_not_found _
                          (Store.client Demo.neverReady) Demo.constants
                          Demo.bench eq_refl eq_refl Demo.withBench) eq_refl)
                0%nat (StatusError NotFound "not found") _ _ eq_refl eq_refl).
  - vm_compute. lia.
  - intros j Hj. lia.
Defined.

(* ================================================================= *)
(** * Further properties of the handlers *)

(** ** An object that its handler does not fit *)

Section HandlerInputs.

Context {C : Type} `{Clientset C} `{ProviderConstants}.

(** Each case of [ResourceDelete] is the common frame at its shape; only
    the namespace handler does more than log once the delete was
    accepted. *)
Lemma delete_case_shape (label : string) (sh : Shape) :
  shapeOf shapes label = Some sh ->
  exists after,
    lookupCase Pkg.deleteCases label
    = Some (deleteWith (asserted sh) (versionCase sh) (defaults sh)
                       (namespaced sh) (collection sh) after)
    /\ (collection sh <> Namespaces -> after = logDeleted).
Proof.
  intros Hsh. apply shapeOf_in in Hsh. cbn in Hsh.
  repeat (destruct Hsh as [[= <- <-] | Hsh];
          [eexists; split; [reflexivity |];
           cbn [collection]; first [ intros _; reflexivity
                                   | intros Hne; contradiction ] |]).
  contradiction.
Qed.

Lemma applyWith_panics (T : GoType) (version : string)
      (defaulted namespaced : bool) (coll : Collection)
      (message : string -> string -> string)
      (after : Object -> Go (World C) (option error)) (o : Object)
      (w : World C) :
  goType o <> T ->
  applyWith T version defaulted namespaced coll message after o w
  = Aborted (Panic "interface conversion") w.
Proof.
  intros Ht. unfold applyWith, bind. now rewrite assertType_panics.
Qed.

Lemma deleteWith_panics (T : GoType) (version : string)
      (defaulted namespaced : bool) (coll : Collection)
      (after : Object -> Go (World C) (option error)) (o : Object)
      (w : World C) :
  goType o <> T ->
  deleteWith T version defaulted namespaced coll after o w
  = Aborted (Panic "interface conversion") w.
Proof.
  intros Ht. unfold deleteWith, bind. now rewrite assertType_panics.
Qed.

(** A run over a batch that is cut short at one object. *)
Lemma range_objects_cut (handle : string -> Object -> Go (World C) unit)
      (before after : list Resource) (file : string)
      (pre post : list Object) (u : Object) (why : Abort) (w : World C) :
  (forall w1, handle file u w1 = Aborted why w1) ->
  (range (before ++ mkResource file (pre ++ u :: post) :: after)
         (fun d => range (Objects d) (handle (ResourceFileName d))) ;;
   ret (@None error)) w
  = ((range (before ++ [mkResource file pre])
            (fun d => range (Objects d) (handle (ResourceFileName d))) ;;
      ret (@None error)) ;;
     abort why) w.
Proof.
  intros Hcut.
  rewrite (range_objects_split handle before after file pre post u
             (abort why) w Hcut).
  unfold bind.
  destruct (range (before ++ [mkResource file pre]) _ w) as [[] w1 | ? w1];
    reflexivity.
Qed.

(** The type assertion that opens every handler.  An object whose kind
    has a case but whose Go type is not the one the handler of that case
    asserts (a [Deployment] of [apps/v1beta1], say) makes the handler
    panic before it sends or logs anything, in [ResourceApply] as in
    [ResourceDelete]; the run over a batch so ends at that object: what
    precedes it has been handled, nothing is logged for it, and nothing
    that follows it is looked at. *)
Theorem handler_panics_on_another_type (sh : Shape) (o : Object) :
  shapeOf shapes (GoStrings.ToLower (Kind o)) = Some sh ->
  goType o <> asserted sh ->
  let label := GoStrings.ToLower (Kind o) in
  let panic := Panic "interface conversion" in
  (forall w, exists handler,
        lookupCase Pkg.applyCases label = Some handler
        /\ handler o w = Aborted panic w)
  /\ (forall w, exists handler,
         lookupCase Pkg.deleteCases label = Some handler
         /\ handler o w = Aborted panic w)
  /\ (forall before after file pre post w,
         Pkg.ResourceApply
           (before ++ mkResource file (pre ++ o :: post) :: after) w
         = (Pkg.ResourceApply (before ++ [mkResource file pre]) ;;
            abort panic) w
         /\ Pkg.ResourceDelete
              (before ++ mkResource file (pre ++ o :: post) :: after) w
            = (Pkg.ResourceDelete (before ++ [mkResource file pre]) ;;
               abort panic) w).
Proof.
  intros Hsh Ht label panic.
  destruct (apply_case_shape _ sh Hsh) as (message & afterA & HcaseA & _).
  destruct (delete_case_shape _ sh Hsh) as (afterD & HcaseD & _).
  fold label in HcaseA, HcaseD.
  split; [| split].
  - intros w. eexists. split; [exact HcaseA |]. now apply applyWith_panics.
  - intros w. eexists. split; [exact HcaseD |]. now apply deleteWith_panics.
  - intros before after file pre post w. split.
    + unfold Pkg.ResourceApply at 1 2. apply range_objects_cut.
      intros w1. unfold applyResource, bind. fold label. rewrite HcaseA.
      now rewrite applyWith_panics.
    + unfold Pkg.ResourceDelete at 1 2. apply range_objects_cut.
      intros w1. unfold deleteResource, bind. fold label. rewrite HcaseD.
      now rewrite deleteWith_panics.
Qed.

(** The [default] case of the version switch of every handler.  An
    object of the asserted type whose version is not the one version the
    handler knows is answered with the unknown-version error, and the
    handler has sent and logged nothing; [ResourceApply] and
    [ResourceDelete] log that error under the file's name and go on. *)
Theorem handler_refuses_another_version (sh : Shape) (o : Object) :
  shapeOf shapes (GoStrings.ToLower (Kind o)) = Some sh ->
  goType o = asserted sh ->
  Version o <> versionCase sh ->
  let label := GoStrings.ToLower (Kind o) in
  let err := Errorf (unknownVersion (Version o) (Kind o) (Name o)) in
  (forall w, exists handler,
        lookupCase Pkg.applyCases label = Some handler
        /\ handler o w = Done (Some err) w)
  /\ (forall w, exists handler,
         lookupCase Pkg.deleteCases label = Some handler
         /\ handler o w = Done (Some err) w)
  /\ (forall file w,
         applyResource Pkg.applyCases file o w
         = logPrintf (LogErrorApplying file err) w
         /\ deleteResource Pkg.deleteCases file o w
            = logPrintf (LogErrorDeleting file err) w).
Proof.
  intros Hsh Ht Hv label err.
  destruct (apply_case_shape _ sh Hsh) as (message & afterA & HcaseA & _).
  destruct (delete_case_shape _ sh Hsh) as (afterD & HcaseD & _).
  fold label in HcaseA, HcaseD.
  destruct (requestOf_fields sh o) as (_ & Hk & Hver & Hn & _).
  unfold requestOf in Hk, Hver, Hn.
  assert (Hneq : String.eqb (Version o) (versionCase sh) = false)
    by now apply String.eqb_neq.
  assert (HrunA : forall w,
             applyWith (asserted sh) (versionCase sh) (defaults sh)
                       (namespaced sh) (collection sh) message afterA o w
             = Done (Some err) w).
  { intros w. unfold applyWith, bind. rewrite (assertType_ok _ _ _ Ht).
    rewrite Hver, Hk, Hn, Hneq. reflexivity. }
  assert (HrunD : forall w,
             deleteWith (asserted sh) (versionCase sh) (defaults sh)
                        (namespaced sh) (collection sh) afterD o w
             = Done (Some err) w).
  { intros w. unfold deleteWith, bind. rewrite (assertType_ok _ _ _ Ht).
    rewrite Hver, Hk, Hn, Hneq. reflexivity. }
  split; [| split].
  - intros w. eexists. split; [exact HcaseA | apply HrunA].
  - intros w. eexists. split; [exact HcaseD | apply HrunD].
  - intros file w. split.
    + unfold applyResource, bind. fold label. now rewrite HcaseA, HrunA.
    + unfold deleteResource, bind. fold label. now rewrite HcaseD, HrunD.
Qed.

End HandlerInputs.

(** ** What a handler returns, read off the answers of the cluster *)

Section HandlerResults.

Context {C : Type} `{Clientset C} `{ProviderConstants}.

(** The run of the common frame of the delete handlers on an object of
    the right type and version. *)
Lemma deleteWith_run (sh : Shape)
      (after : Object -> Go (World C) (option error)) (o : Object)
      (w : World C) :
  goType o = asserted sh ->
  Version o = versionCase sh ->
  let call := CallDelete (collection sh) (clientNamespace sh o) (Name o)
                         DeletePropagationForeground in
  let answer := apiDelete (collection sh) (clientNamespace sh o) (Name o)
                          DeletePropagationForeground (cluster w) in
  deleteWith (asserted sh) (versionCase sh) (defaults sh) (namespaced sh)
             (collection sh) after o w
  = match fst answer with
    | Some e =>
        Done (Some (Wrapf e (deleteFailed (Kind o) (Name o))))
             (mkWorld (snd answer) (calls w ++ [call]) (logged w))
    | None =>
        after (requestOf sh o)
              (mkWorld (snd answer) (calls w ++ [call]) (logged w))
    end.
Proof.
  intros Ht Hv call answer. unfold deleteWith. unfold bind at 1.
  rewrite (assertType_ok _ _ _ Ht).
  fold (requestOf sh o). fold (clientNamespace sh o).
  destruct (requestOf_fields sh o) as (_ & Hk & Hver & Hn & _).
  rewrite Hver, Hk, Hn, Hv, String.eqb_refl.
  unfold bind, clientDelete. rewrite send_run. fold answer. fold call.
  destruct (fst answer); reflexivity.
Qed.

(** The delete handlers other than that of the namespace.  For an
    object of the type and version its handler expects, the handler
    sends one request and no other: a delete by name with the foreground
    propagation policy, through the client of the collection and (for a
    namespaced kind) of the namespace of the object, [default] when the
    object names none.  When the cluster refuses, the handler returns the
    wrapped refusal and logs nothing; otherwise it logs the deletion and
    returns nil.  It never lists or gets, so whether the object exists
    is learned from the answer alone. *)
Theorem delete_is_one_foreground_delete (sh : Shape) (o : Object)
        (w : World C) :
  shapeOf shapes (GoStrings.ToLower (Kind o)) = Some sh ->
  goType o = asserted sh ->
  Version o = versionCase sh ->
  collection sh <> Namespaces ->
  let call := CallDelete (collection sh) (clientNamespace sh o) (Name o)
                         DeletePropagationForeground in
  let answer := apiDelete (collection sh) (clientNamespace sh o) (Name o)
                          DeletePropagationForeground (cluster w) in
  exists handler,
    lookupCase Pkg.deleteCases (GoStrings.ToLower (Kind o)) = Some handler
    /\ handler o w
       = match fst answer with
         | Some e =>
             Done (Some (Wrapf e (deleteFailed (Kind o) (Name o))))
                  (mkWorld (snd answer) (calls w ++ [call]) (logged w))
         | None =>
             Done None
                  (mkWorld (snd answer) (calls w ++ [call])
                           (logged w ++ [LogResourceDeleted (Kind o) (Name o)]))
         end
    /\ (Namespace o = "" ->
        clientNamespace sh o = if namespaced sh then "default" else "").
Proof.
  intros Hsh Ht Hv Hcoll call answer.
  destruct (delete_case_shape _ sh Hsh) as (after & Hcase & Hafter).
  rewrite (Hafter Hcoll) in Hcase.
  eexists. split; [exact Hcase |]. split.
  - rewrite (deleteWith_run sh logDeleted o w Ht Hv). fold answer. fold call.
    destruct (fst answer) as [e |]; [reflexivity |].
    unfold logDeleted, bind, logPrintf, ret. cbn [cluster calls logged].
    destruct (requestOf_fields sh o) as (_ & Hk & _ & Hn & _).
    now rewrite Hk, Hn.
  - intros Hns. unfold clientNamespace, requestOf.
    destruct (namespaced sh) eqn:Hnsd; [| reflexivity].
    assert (Hdef : defaults sh = true).
    { apply shapeOf_in in Hsh. cbn in Hsh.
      repeat (destruct Hsh as [[= _ <-] | Hsh];
              [first [reflexivity | discriminate Hnsd] |]).
      contradiction. }
    rewrite Hdef. unfold defaultNamespace. now rewrite Hns.
Qed.

(** The list message of each case: the handler of the cluster roles has
    one of its own. *)
Lemma apply_case_message (label : string) (sh : Shape) :
  shapeOf shapes label = Some sh ->
  exists after,
    lookupCase Pkg.applyCases label
    = Some (applyWith (asserted sh) (versionCase sh) (defaults sh)
                      (namespaced sh) (collection sh)
                      (if decide (collection sh = ClusterRoles)
                       then fun kind _ => "listing resource : " +:+ kind
                       else listFailed)
                      after)
    /\ afterCreate (asserted sh) after.
Proof.
  intros Hsh. apply shapeOf_in in Hsh. cbn in Hsh.
  repeat (destruct Hsh as [[= <- <-] | Hsh];
          [eexists; split; [reflexivity |];
           solve [ left; reflexivity
                 | right; left; split; reflexivity
                 | right; right; left; split; reflexivity
                 | right; right; right; split; reflexivity ] |]).
  contradiction.
Qed.

(** An apply that fails before the readiness step.  For an object of
    the type and version its handler expects: when the list is refused
    the handler returns the wrapped refusal after that one request; when
    the list does not show the name and the create is refused, it returns
    the wrapped refusal after the list and the create.  In both cases it
    logs nothing and, for a deployment, a service or a daemon set, sends
    no [Get]: readiness is not asked about. *)
Theorem apply_returns_the_refusal (sh : Shape) (o : Object) (w : World C) :
  shapeOf shapes (GoStrings.ToLower (Kind o)) = Some sh ->
  goType o = asserted sh ->
  Version o = versionCase sh ->
  let coll := collection sh in
  let ns := clientNamespace sh o in
  let req := requestOf sh o in
  let listed := apiList coll ns (cluster w) in
  let made := apiCreate coll ns req (snd listed) in
  exists handler,
    lookupCase Pkg.applyCases (GoStrings.ToLower (Kind o)) = Some handler
    /\ (forall e,
           fst listed = inl e ->
           handler o w
           = Done (Some (Wrapf e (if decide (coll = ClusterRoles)
                                  then "listing resource : " +:+ Kind o
                                  else listFailed (Kind o) (Name o))))
                  (mkWorld (snd listed) (calls w ++ [CallList coll ns])
                           (logged w)))
    /\ (forall items e,
           fst listed = inr items ->
           existsIn items req = false ->
           fst made = Some e ->
           handler o w
           = Done (Some (Wrapf e (creationFailed (Kind o) (Name o))))
                  (mkWorld (snd made)
                           (calls w ++ [CallList coll ns;
                                        CallCreate coll ns req])
                           (logged w))).
Proof.
  intros Hsh Ht Hv coll ns req listed made.
  destruct (apply_case_message _ sh Hsh) as (after & Hcase & _).
  eexists. split; [exact Hcase |].
  destruct (requestOf_fields sh o) as (_ & Hk & _ & Hn & _).
  fold req in Hk, Hn.
  split.
  - intros e He. rewrite (applyWith_run sh _ after o w Ht Hv).
    fold coll ns req. unfold bind at 1. unfold createOrUpdate, bind.
    rewrite clientList_run. fold listed. rewrite He. unfold ret.
    destruct (decide (coll = ClusterRoles)); reflexivity.
  - intros items e Hitems Hnew He. rewrite (applyWith_run sh _ after o w Ht Hv).
    fold coll ns req. unfold bind at 1. unfold createOrUpdate, bind.
    rewrite clientList_run. fold listed. rewrite Hitems, Hnew.
    rewrite clientCreate_run. cbn [cluster calls logged]. fold made.
    rewrite He. unfold ret. rewrite Hk, Hn, <- app_assoc. reflexivity.
Qed.

End HandlerResults.

(** ** The update path of the handlers *)

Section UpdatePath.

Context {C : Type} `{Clientset C} `{ProviderConstants}.

Variable sh : Shape.
Variable o : Object.

Hypothesis Hshape : shapeOf shapes (GoStrings.ToLower (Kind o)) = Some sh.
Hypothesis Htype : goType o = asserted sh.
Hypothesis Hversion : Version o = versionCase sh.

Local Notation coll := (collection sh).
Local Notation ns := (clientNamespace sh o).
Local Notation req := (requestOf sh o).

(** The cluster before the [k]-th update (counted from 0) when the
    updates start on the cluster [c], and its answer. *)
Local Notation clusterAt c k :=
  (Nat.iter k (fun cl => snd (apiUpdate coll ns req cl)) c).
Local Notation answerAt c k := (fst (apiUpdate coll ns req (clusterAt c k))).

(** The update path of the apply handlers.  When the list shows the name
    of the object, its handler sends updates of the one request and
    nothing else, neither a create nor a [Get]: an update that succeeds
    ends them with the outcome logged and nil returned; an update refused
    for another reason than a conflict ends them with the wrapped
    refusal; a conflict is answered with the next update, up to five in
    all, and the fifth conflict is returned wrapped. *)
Theorem update_is_retried_on_conflict_only (w : World C)
        (items : list Object) :
  let listed := apiList coll ns (cluster w) in
  let c0 := snd listed in
  let conflict k := exists e, answerAt c0 k = Some e /\ IsConflict e = true in
  let after k lines :=
    mkWorld (clusterAt c0 k)
            (calls w ++ CallList coll ns :: repeat (CallUpdate coll ns req) k)
            (logged w ++ lines) in
  fst listed = inr items ->
  existsIn items req = true ->
  exists handler,
    lookupCase Pkg.applyCases (GoStrings.ToLower (Kind o)) = Some handler
    /\ (forall k,
           (k < 5)%nat -> (forall j, (j < k)%nat -> conflict j) ->
           answerAt c0 k = None ->
           handler o w
           = Done None (after (Datatypes.S k)
                              [LogResourceUpdated (Kind o) (Name o)]))
    /\ (forall k e,
           (k < 5)%nat -> (forall j, (j < k)%nat -> conflict j) ->
           answerAt c0 k = Some e -> IsConflict e = false ->
           handler o w
           = Done (Some (Wrapf e (updateFailed (Kind o) (Name o))))
                  (after (Datatypes.S k) []))
    /\ ((forall j, (j < 5)%nat -> conflict j) ->
        exists e,
          answerAt c0 4 = Some e
          /\ handler o w
             = Done (Some (Wrapf e (updateFailed (Kind o) (Name o))))
                    (after 5%nat [])).
Proof.
  intros listed c0 conflict after Hitems Hexists.
  destruct (apply_case_shape _ sh Hshape) as (message & afterC & Hcase & _).
  eexists. split; [exact Hcase |].
  destruct (requestOf_fields sh o) as (_ & Hk & _ & Hn & _).
  set (errAt := fun k => match answerAt c0 k with
                         | Some e => e
                         | None => PlainError ""
                         end).
  set (states := fun k =>
                   mkWorld (clusterAt c0 k)
                           (calls w ++ CallList coll ns
                              :: repeat (CallUpdate coll ns req) k)
                           (logged w)).
  assert (Hstep : forall k,
             clientUpdate coll ns req (states k)
             = Done (answerAt c0 k) (states (Datatypes.S k))).
  { intros k. rewrite clientUpdate_run. subst states. cbn beta.
    cbn [cluster calls logged Nat.iter]. do 2 f_equal.
    rewrite <- app_assoc. cbn [app]. do 2 f_equal.
    change (CallUpdate coll ns req :: repeat (CallUpdate coll ns req) k)
      with (repeat (CallUpdate coll ns req) (Datatypes.S k)).
    symmetry. apply repeat_cons. }
  assert (Hconf : forall k, conflict k ->
             clientUpdate coll ns req (states (0 + k)%nat)
             = Done (Some (errAt (0 + k)%nat))
                    (states (Datatypes.S (0 + k)))
             /\ IsConflict (errAt (0 + k)%nat) = true).
  { intros k (e & He & Hc). cbn [Nat.add]. rewrite Hstep. subst errAt.
    cbn beta. rewrite He. split; [reflexivity | exact Hc]. }
  assert (Hhandler :
            forall r k,
              Retry.RetryOnConflict Retry.DefaultRetry
                (clientUpdate coll ns req) (states 0%nat)
              = Done r (states k) ->
              applyWith (asserted sh) (versionCase sh) (defaults sh)
                        (namespaced sh) coll message afterC o w
              = match r with
                | Some e =>
                    Done (Some (Wrapf e (updateFailed (Kind o) (Name o))))
                         (after k [])
                | None =>
                    Done None (after k [LogResourceUpdated (Kind o) (Name o)])
                end).
  { intros r k Hretry.
    rewrite (applyWith_run sh message afterC o w Htype Hversion).
    unfold bind at 1. unfold createOrUpdate. unfold bind at 1.
    rewrite clientList_run. fold listed. rewrite Hitems, Hexists.
    unfold bind at 1.
    change (mkWorld (snd listed) (calls w ++ [CallList coll ns]) (logged w))
      with (mkWorld (clusterAt c0 0) (calls w ++ [CallList coll ns])
                    (logged w)).
    change (mkWorld (clusterAt c0 0) (calls w ++ [CallList coll ns])
                    (logged w))
      with (states 0%nat).
    rewrite Hretry. rewrite Hk, Hn. subst after states. cbn beta.
    destruct r as [e |].
    - unfold ret. now rewrite app_nil_r.
    - unfold bind, logPrintf, ret. cbn [cluster calls logged]. reflexivity. }
  split; [| split].
  - intros k Hlt Hbefore Hans.
    apply (Hhandler None (Datatypes.S k)).
    apply (attempts_settled _ states errAt 5 0 k);
      [exact Hlt | intros j Hj; apply Hconf; now apply Hbefore | | exact I].
    cbn [Nat.add]. now rewrite Hstep, Hans.
  - intros k e Hlt Hbefore Hans Hnot.
    apply (Hhandler (Some e) (Datatypes.S k)).
    apply (attempts_settled _ states errAt 5 0 k);
      [exact Hlt | intros j Hj; apply Hconf; now apply Hbefore | | exact Hnot].
    cbn [Nat.add]. now rewrite Hstep, Hans.
  - intros Hall. destruct (Hall 4%nat ltac:(lia)) as (e & He & Hc).
    exists e. split; [exact He |].
    apply (Hhandler (Some e) 5%nat). unfold Retry.RetryOnConflict.
    cbn [Retry.Steps Retry.DefaultRetry].
    rewrite (attempts_exhausted _ states errAt 5 0 None);
      [| intros j Hj; apply Hconf; now apply Hall].
    cbn [Nat.add]. subst errAt. cbn beta. now rewrite He.
Qed.

End UpdatePath.

(** ** The readiness checks *)

Section ReadinessChecks.

Context {C : Type} `{Clientset C} `{ProviderConstants}.

Lemma range_log {A} (line : A -> LogLine) (xs : list A) (w : World C) :
  range xs (fun x => logPrintf (line x)) w
  = Done tt (mkWorld (cluster w) (calls w) (logged w ++ List.map line xs)).
Proof.
  revert w. induction xs as [| x xs IH]; intros w.
  - cbn. unfold ret. rewrite app_nil_r. now destruct w.
  - cbn [range List.map]. unfold bind. unfold logPrintf at 1.
    rewrite IH. cbn [cluster calls logged]. now rewrite <- app_assoc.
Qed.

(** What [daemonsetReady] returns for a daemon set of version [v1],
    read off the answer of the one [Get] it sends. *)
Lemma daemonsetReady_run (req : Object) (w : World C) :
  goType req = appsV1_DaemonSet ->
  Version req = "v1" ->
  let ns := Namespace (defaultNamespace req) in
  let answer := apiGet DaemonSets ns (Name req) (cluster w) in
  daemonsetReady req w
  = Done (match fst answer with
          | inl err =>
              (false,
               Some (Wrapf err ("Checking DaemonSet resource:'" +:+ Name req
                                  +:+ "' status failed err:" +:+ Error err)))
          | inr res => (NumberUnavailable res =? 0, None)
          end)
         (mkWorld (snd answer)
                  (calls w ++ [CallGet DaemonSets ns (Name req)])
                  (logged w)).
Proof.
  intros Ht Hv ns answer. unfold daemonsetReady, bind.
  rewrite (assertType_ok _ _ _ Ht).
  destruct (defaultNamespace_fields req) as (_ & _ & Hver & Hname & _).
  rewrite Hver, Hname, Hv. cbn [String.eqb Ascii.eqb Bool.eqb].
  rewrite clientGet_run. fold ns. fold answer.
  destruct (fst answer) as [err | res]; [reflexivity |].
  destruct (NumberUnavailable res =? 0); reflexivity.
Qed.

(** The readiness predicate of the daemon sets.  For a daemon set of
    version [v1] it sends one [Get] in the namespace of the object
    ([default] when it names none), logs nothing and returns; it returns
    true exactly when the [Get] succeeded and reported no unavailable
    node, and an error exactly when the [Get] failed, which is then the
    failure wrapped. *)
Theorem daemonsetReady_true_iff_none_unavailable (req : Object)
        (w : World C) :
  goType req = appsV1_DaemonSet ->
  Version req = "v1" ->
  let ns := if (GoStrings.len (Namespace req) =? 0)%nat
            then "default" else Namespace req in
  let answer := apiGet DaemonSets ns (Name req) (cluster w) in
  exists (ready : bool) (err : option error),
    daemonsetReady req w
    = Done (ready, err)
           (mkWorld (snd answer)
                    (calls w ++ [CallGet DaemonSets ns (Name req)])
                    (logged w))
    /\ (ready = true
        <-> exists res, fst answer = inr res /\ NumberUnavailable res = 0)
    /\ (forall e,
           fst answer = inl e ->
           ready = false
           /\ err = Some (Wrapf e ("Checking DaemonSet resource:'"
                                     +:+ Name req +:+ "' status failed err:"
                                     +:+ Error e)))
    /\ (err = None <-> exists res, fst answer = inr res).
Proof.
  intros Ht Hv ns answer.
  pose proof (daemonsetReady_run req w Ht Hv) as Hrun. cbv zeta in Hrun.
  assert (Hns : Namespace (defaultNamespace req) = ns).
  { subst ns. unfold defaultNamespace.
    destruct (GoStrings.len (Namespace req) =? 0)%nat; reflexivity. }
  rewrite Hns in Hrun. fold answer in Hrun.
  destruct (fst answer) as [e | res] eqn:Hans.
  - eexists _, _. split; [exact Hrun |]. split; [| split].
    + split; [discriminate | intros (res & Hres & _); discriminate].
    + intros e' [= <-]. split; reflexivity.
    + split; [discriminate | intros (res & Hres); discriminate].
  - eexists _, _. split; [exact Hrun |]. split; [| split].
    + rewrite Z.eqb_eq. split.
      * intros Hz. exists res. split; [reflexivity | exact Hz].
      * intros (res' & [= <-] & Hz). exact Hz.
    + intros e [=].
    + split; [intros _; now exists res | reflexivity].
Qed.

(** What [serviceExists] does for a service of version [v1], read off
    the answer of the one [Get] it sends. *)
Lemma serviceExists_run (req : Object) (w : World C) :
  goType req = apiCoreV1_Service ->
  Version req = "v1" ->
  let ns := Namespace (defaultNamespace req) in
  let answer := apiGet Services ns (Name req) (cluster w) in
  let asked lines :=
    mkWorld (snd answer) (calls w ++ [CallGet Services ns (Name req)])
            (logged w ++ lines) in
  serviceExists req w
  = match fst answer with
    | inl err =>
        Done (false,
              Some (Wrapf err "Checking Service resource status failed"))
             (asked [])
    | inr res =>
        if String.eqb (ServiceType res) ServiceTypeLoadBalancer then
          match LoadBalancerIngress res with
          | [] => Done (false, None) (asked [])
          | _ :: _ =>
              match Ports res with
              | port :: _ =>
                  Done (true, None)
                       (asked (LogServiceDetails (Name req)
                                 :: List.map
                                      (fun ip => LogServiceAddress ip port)
                                      (LoadBalancerIngress res)))
              | [] =>
                  Aborted (Panic "index out of range")
                          (asked [LogServiceDetails (Name req)])
              end
          end
        else Done (true, None) (asked [])
    end.
Proof.
  intros Ht Hv ns answer asked.
  unfold serviceExists. unfold bind at 1.
  rewrite (assertType_ok _ _ _ Ht).
  destruct (defaultNamespace_fields req) as (_ & _ & Hver & Hname & _).
  rewrite Hver, Hname, Hv. cbn [String.eqb Ascii.eqb Bool.eqb].
  unfold bind at 1. rewrite clientGet_run. fold ns. fold answer.
  subst asked. cbn beta. rewrite app_nil_r.
  destruct (fst answer) as [err | res]; [reflexivity |].
  destruct (String.eqb (ServiceType res) ServiceTypeLoadBalancer);
    [| reflexivity].
  destruct (LoadBalancerIngress res) as [| ip ips] eqn:Hips; [reflexivity |].
  cbn [length Nat.ltb Nat.leb]. unfold bind at 1. unfold logPrintf at 1.
  cbn [cluster calls logged].
  destruct (Ports res) as [| port ports]; [reflexivity |].
  unfold bind. rewrite range_log. cbn [cluster calls logged]. unfold ret.
  now rewrite <- app_assoc.
Qed.

(** The existence predicate of the services.  For a service of version
    [v1] it sends one [Get].  A failed [Get] is returned wrapped.  A
    service that is not of type [LoadBalancer] counts as up at once.  A
    load balancer without an address is not up yet; with addresses it is
    up, and the predicate logs the name of the service and one line per
    address, each with the first port of the service.  Should a load
    balancer that has an address have no port, the predicate panics on
    [Ports[0]], after the line with the name. *)
Theorem serviceExists_by_type_and_address (req : Object) (w : World C) :
  goType req = apiCoreV1_Service ->
  Version req = "v1" ->
  let ns := Namespace (defaultNamespace req) in
  let answer := apiGet Services ns (Name req) (cluster w) in
  let asked lines :=
    mkWorld (snd answer) (calls w ++ [CallGet Services ns (Name req)])
            (logged w ++ lines) in
  (forall e,
      fst answer = inl e ->
      serviceExists req w
      = Done (false, Some (Wrapf e "Checking Service resource status failed"))
             (asked []))
  /\ (forall res,
         fst answer = inr res ->
         ServiceType res <> ServiceTypeLoadBalancer ->
         serviceExists req w = Done (true, None) (asked []))
  /\ (forall res,
         fst answer = inr res ->
         ServiceType res = ServiceTypeLoadBalancer ->
         LoadBalancerIngress res = [] ->
         serviceExists req w = Done (false, None) (asked []))
  /\ (forall res port ports,
         fst answer = inr res ->
         ServiceType res = ServiceTypeLoadBalancer ->
         LoadBalancerIngress res <> [] ->
         Ports res = port :: ports ->
         serviceExists req w
         = Done (true, None)
                (asked (LogServiceDetails (Name req)
                          :: List.map (fun ip => LogServiceAddress ip port)
                                      (LoadBalancerIngress res))))
  /\ (forall res,
         fst answer = inr res ->
         ServiceType res = ServiceTypeLoadBalancer ->
         LoadBalancerIngress res <> [] ->
         Ports res = [] ->
         serviceExists req w
         = Aborted (Panic "index out of range")
                   (asked [LogServiceDetails (Name req)])).
Proof.
  intros Ht Hv ns answer asked.
  pose proof (serviceExists_run req w Ht Hv) as Hrun. cbv zeta in Hrun.
  fold ns in Hrun. fold answer in Hrun. fold asked in Hrun.
  repeat split.
  - intros e He. now rewrite Hrun, He.
  - intros res Hres Hty. rewrite Hrun, Hres.
    apply String.eqb_neq in Hty. now rewrite Hty.
  - intros res Hres Hty Hing. rewrite Hrun, Hres, Hty, String.eqb_refl, Hing.
    reflexivity.
  - intros res port ports Hres Hty Hing Hports.
    rewrite Hrun, Hres, Hty, String.eqb_refl, Hports.
    destruct (LoadBalancerIngress res) as [| ip ips]; [contradiction |].
    reflexivity.
  - intros res Hres Hty Hing Hports.
    rewrite Hrun, Hres, Hty, String.eqb_refl, Hports.
    destruct (LoadBalancerIngress res) as [| ip ips]; [contradiction |].
    reflexivity.
Qed.

End ReadinessChecks.

(** ** The wait of the deployment handler *)

Section DeploymentWait.

Context {C : Type} `{Clientset C} `{ProviderConstants}.

Variable o : Object.
Hypothesis Htype : goType o = appsV1_Deployment.
Hypothesis Hversion : Version o = "v1".

Local Notation req := (defaultNamespace o).
Local Notation ns := (Namespace (defaultNamespace o)).

(** The cluster before the [k]-th [Get] of the poll (counted from 0)
    when the poll starts on the cluster [c], and its answer. *)
Local Notation clusterAt c k :=
  (Nat.iter k (fun cl => snd (apiGet Deployments ns (Name o) cl)) c).
Local Notation answerAt c k :=
  (fst (apiGet Deployments ns (Name o) (clusterAt c k))).

Lemma defaultNamespace_idem (x : Object) :
  defaultNamespace (defaultNamespace x) = defaultNamespace x.
Proof.
  unfold defaultNamespace.
  destruct (GoStrings.len (Namespace x) =? 0)%nat eqn:Hlen; [reflexivity |].
  now rewrite Hlen.
Qed.

Lemma deploymentReady_step (c : C) (sent : list Call) (lines : list LogLine)
      (k : nat) :
  deploymentReady req
    (mkWorld (clusterAt c k)
             (sent ++ repeat (CallGet Deployments ns (Name o)) k) lines)
  = Done (match answerAt c k with
          | inl err =>
              (false,
               Some (Wrapf err ("Checking Deployment resource:'" +:+ Name o
                                  +:+ "' status failed err:" +:+ Error err)))
          | inr res => (AvailableReplicas res =? default 1 (Replicas o), None)
          end)
         (mkWorld (clusterAt c (Datatypes.S k))
                  (sent ++ repeat (CallGet Deployments ns (Name o))
                                  (Datatypes.S k))
                  lines).
Proof.
  destruct (defaultNamespace_fields o) as (Ht & _ & Hv & Hn & _).
  assert (Hrep : Replicas req = Replicas o)
    by (unfold defaultNamespace; destruct (_ =? _)%nat; reflexivity).
  rewrite deploymentReady_run by congruence.
  rewrite defaultNamespace_idem, Hn, Hrep. cbn [cluster calls logged Nat.iter].
  do 2 f_equal. rewrite <- app_assoc. f_equal. symmetry. apply repeat_cons.
Qed.

(** The deployment handler waits for readiness.  When the list does not
    show the deployment and the create is accepted, the handler logs the
    creation and then asks for the deployment again and again, with [Get]s
    only.  The first answer that reports as many available replicas as
    desired ends the wait with nil; the first failed [Get] ends it with
    the wrapped failure; and when [GlobalRetryCount] answers in a row
    report another number of available replicas, the handler gives up
    after exactly that many [Get]s with the timeout error.  With a
    [GlobalRetryCount] of zero it therefore times out without asking. *)
Theorem deploymentApply_waits_for_the_replicas (w : World C)
        (items : list Object) :
  let desired := default 1 (Replicas o) in
  let listed := apiList Deployments ns (cluster w) in
  let made := apiCreate Deployments ns req (snd listed) in
  let c0 := snd made in
  let notReady k :=
    exists res, answerAt c0 k = inr res /\ AvailableReplicas res <> desired in
  let after k :=
    mkWorld (clusterAt c0 k)
            ((calls w ++ [CallList Deployments ns;
                          CallCreate Deployments ns req])
               ++ repeat (CallGet Deployments ns (Name o)) k)
            (logged w ++ [LogResourceCreated (Kind o) (Name o)]) in
  fst listed = inr items ->
  existsIn items req = false ->
  fst made = None ->
  (forall k res,
      (k < GlobalRetryCount)%nat -> (forall j, (j < k)%nat -> notReady j) ->
      answerAt c0 k = inr res -> AvailableReplicas res = desired ->
      deploymentApply o w = Done None (after (Datatypes.S k)))
  /\ (forall k e,
         (k < GlobalRetryCount)%nat -> (forall j, (j < k)%nat -> notReady j) ->
         answerAt c0 k = inl e ->
         deploymentApply o w
         = Done (Some (Wrapf e ("Checking Deployment resource:'" +:+ Name o
                                  +:+ "' status failed err:" +:+ Error e)))
                (after (Datatypes.S k)))
  /\ ((forall j, (j < GlobalRetryCount)%nat -> notReady j) ->
      deploymentApply o w
      = Done (Some (TimeoutError ("applying deployment:" +:+ Name o)
                                 GlobalRetryCount))
             (after GlobalRetryCount)).
Proof.
  intros desired listed made c0 notReady after Hitems Hnew Hmade.
  destruct (defaultNamespace_fields o) as (Ht & Hk & Hv & Hn & _).
  assert (Hrun :
            deploymentApply o w
            = Provider.poll ("applying deployment:" +:+ Name o)
                            GlobalRetryCount GlobalRetryCount
                            (deploymentReady req) (after 0%nat)).
  { unfold deploymentApply, applyWith. unfold bind at 1.
    rewrite (assertType_ok _ _ _ Htype). rewrite Hv, Hversion.
    cbn [String.eqb Ascii.eqb Bool.eqb]. unfold bind at 1.
    unfold createOrUpdate. unfold bind at 1. rewrite clientList_run.
    fold listed. rewrite Hitems, Hnew. unfold bind at 1.
    rewrite clientCreate_run. cbn [cluster calls logged]. fold made.
    rewrite Hmade. unfold bind at 1. unfold logPrintf at 1.
    cbn [cluster calls logged]. unfold ret at 1.
    unfold Provider.RetryUntilTrue. rewrite Hn, Hk.
    subst after. cbn beta. cbn [repeat Nat.iter].
    rewrite app_nil_r, <- app_assoc. reflexivity. }
  assert (Hstill : forall k, notReady k ->
            deploymentReady req (after k)
            = Done (false, None) (after (Datatypes.S k))).
  { intros k (res & Hres & Hne). subst after. cbn beta.
    rewrite deploymentReady_step, Hres.
    apply Z.eqb_neq in Hne. unfold desired in Hne. now rewrite Hne. }
  rewrite Hrun. split; [| split].
  - intros k res Hlt Hbefore Hans Hready.
    apply (poll_settled _ _ _ after GlobalRetryCount 0 k true None);
      [exact Hlt | intros j Hj; apply Hstill; now apply Hbefore | |
       discriminate].
    subst after. cbn beta. cbn [Nat.add].
    rewrite deploymentReady_step, Hans.
    apply Z.eqb_eq in Hready. unfold desired in Hready. now rewrite Hready.
  - intros k e Hlt Hbefore Hans.
    apply (poll_settled _ _ _ after GlobalRetryCount 0 k false
             (Some (Wrapf e ("Checking Deployment resource:'" +:+ Name o
                               +:+ "' status failed err:" +:+ Error e))));
      [exact Hlt | intros j Hj; apply Hstill; now apply Hbefore | |
       discriminate].
    subst after. cbn beta. cbn [Nat.add].
    now rewrite deploymentReady_step, Hans.
  - intros Hnever.
    apply (poll_exhausted _ _ _ after GlobalRetryCount 0).
    intros j Hj. apply Hstill. now apply Hnever.
Qed.

End DeploymentWait.

(** ** Where the errors of the handlers end up *)

Section ErrorsStayInTheLog.

Context {C : Type} `{Clientset C} `{ProviderConstants} `{Decoder}.

Lemma endsIn_ret {A} (P : A -> Prop) (a : A) :
  P a -> endsIn (S := World C) P (ret a).
Proof. intros Ha s. exact Ha. Qed.

Lemma endsIn_panic {A} (P : A -> Prop) (message : string) :
  endsIn (S := World C) P (abort (Panic message)).
Proof. intros s. exact I. Qed.

Lemma endsIn_bind {A B} (Q : A -> Prop) (P : B -> Prop)
      (m : Go (World C) A) (k : A -> Go (World C) B) :
  endsIn Q m -> (forall a, Q a -> endsIn P (k a)) -> endsIn P (bind m k).
Proof.
  intros Hm Hk s. unfold bind. specialize (Hm s).
  destruct (m s) as [a s' | [msg | msg] s']; [| exact I | exact Hm].
  apply (Hk a Hm).
Qed.

Lemma endsIn_weaken {A} (P Q : A -> Prop) (m : Go (World C) A) :
  (forall a, P a -> Q a) -> endsIn P m -> endsIn Q m.
Proof.
  intros Himp Hm s. specialize (Hm s).
  destruct (m s) as [a s' | [msg | msg] s']; auto.
Qed.

Lemma endsIn_log (l : LogLine) : endsIn (fun _ => True) (logPrintf (C := C) l).
Proof. intros s. exact I. Qed.

Lemma endsIn_send {A} (c : Call) (f : C -> A * C) :
  endsIn (fun _ => True) (send c f).
Proof. intros s. rewrite send_run. exact I. Qed.

Lemma endsIn_assert (T : GoType) (o : Object) :
  endsIn (fun _ => True) (assertType (C := C) T o).
Proof.
  intros s. unfold assertType. destruct (decide (goType o = T)); exact I.
Qed.

Lemma endsIn_range {A} (xs : list A) (body : A -> Go (World C) unit) :
  (forall x, endsIn (fun _ => True) (body x)) ->
  endsIn (fun _ => True) (range xs body).
Proof.
  intros Hbody. induction xs as [| x xs IH]; [now apply endsIn_ret |].
  cbn [range]. apply (endsIn_bind (fun _ => True)); [apply Hbody |].
  intros _ _. exact IH.
Qed.

Lemma endsIn_forEach {A} (P : error -> Prop) (xs : list A)
      (body : A -> Go (World C) (option error)) :
  (forall x, endsIn (fun r => match r with Some e => P e | None => True end)
                    (body x)) ->
  endsIn (fun r => match r with Some e => P e | None => True end)
         (forEach xs body).
Proof.
  intros Hbody. induction xs as [| x xs IH]; [now apply endsIn_ret |].
  cbn [forEach].
  apply (endsIn_bind (fun r => match r with Some e => P e | None => True end));
    [apply Hbody |].
  intros [e |] He; [now apply endsIn_ret | exact IH].
Qed.

Lemma endsIn_poll (description : string) (maxAttempts left : nat)
      (predicate : Go (World C) (bool * option error)) :
  endsIn (fun _ => True) predicate ->
  endsIn (fun _ => True)
         (Provider.poll description maxAttempts left predicate).
Proof.
  intros Hp. induction left as [| left IH]; [now apply endsIn_ret |].
  cbn [Provider.poll]. apply (endsIn_bind (fun _ => True)); [exact Hp |].
  intros [[] [e |]] _; first [now apply endsIn_ret | exact IH].
Qed.

Lemma endsIn_attempts (steps : nat) (last : option error)
      (fn : Go (World C) (option error)) :
  endsIn (fun _ => True) fn ->
  endsIn (fun _ => True) (Retry.attempts steps last fn).
Proof.
  intros Hfn. revert last.
  induction steps as [| steps IH]; intros last; [now apply endsIn_ret |].
  cbn [Retry.attempts]. apply (endsIn_bind (fun _ => True)); [exact Hfn |].
  intros [e |] _; [| now apply endsIn_ret].
  destruct (IsConflict e); [apply IH | now apply endsIn_ret].
Qed.

(** The steps that every proof below goes through. *)
Ltac ends :=
  repeat first
    [ apply endsIn_ret; exact I
    | apply endsIn_panic
    | apply endsIn_log
    | apply endsIn_send
    | apply endsIn_assert
    | apply endsIn_poll
    | apply endsIn_attempts
    | apply endsIn_range; intros ?
    | apply (endsIn_bind (fun _ => True)); [| intros ? _]
    | progress cbv zeta
    | match goal with
      | |- endsIn _ (if ?b then _ else _) => destruct b
      | |- endsIn _ (match ?x with _ => _ end) => destruct x
      end ].

Lemma endsIn_deploymentReady (o : Object) :
  endsIn (fun _ => True) (deploymentReady (C := C) o).
Proof. unfold deploymentReady, clientGet. ends. Qed.

Lemma endsIn_daemonsetReady (o : Object) :
  endsIn (fun _ => True) (daemonsetReady (C := C) o).
Proof. unfold daemonsetReady, clientGet. ends. Qed.

Lemma endsIn_serviceExists (o : Object) :
  endsIn (fun _ => True) (serviceExists (C := C) o).
Proof. unfold serviceExists, clientGet. ends. Qed.

Lemma endsIn_namespaceDeleted (o : Object) :
  endsIn (fun _ => True) (namespaceDeleted (C := C) o).
Proof. unfold namespaceDeleted, clientGet. ends. Qed.

Lemma endsIn_applyWith (T : GoType) (version : string)
      (defaulted namespaced : bool) (coll : Collection)
      (message : string -> string -> string)
      (after : Object -> Go (World C) (option error)) (o : Object) :
  (forall req, endsIn (fun _ => True) (after req)) ->
  endsIn (fun _ => True)
         (applyWith T version defaulted namespaced coll message after o).
Proof.
  intros Hafter. unfold applyWith, createOrUpdate, Retry.RetryOnConflict,
    clientList, clientCreate, clientUpdate.
  ends; apply Hafter.
Qed.

Lemma endsIn_deleteWith (T : GoType) (version : string)
      (defaulted namespaced : bool) (coll : Collection)
      (after : Object -> Go (World C) (option error)) (o : Object) :
  (forall req, endsIn (fun _ => True) (after req)) ->
  endsIn (fun _ => True)
         (deleteWith T version defaulted namespaced coll after o).
Proof.
  intros Hafter. unfold deleteWith, clientDelete. ends; apply Hafter.
Qed.

Lemma endsIn_after_create (T : GoType)
      (after : Object -> Go (World C) (option error)) :
  afterCreate T after -> forall req, endsIn (fun _ => True) (after req).
Proof.
  intros [-> | [[_ ->] | [[_ ->] | [_ ->]]]] req.
  - unfold returnNil. ends.
  - apply (endsIn_bind (fun _ => True)); [apply endsIn_daemonsetReady |].
    intros ? _. ends.
  - apply endsIn_poll, endsIn_deploymentReady.
  - apply endsIn_poll, endsIn_serviceExists.
Qed.

Lemma lookupCase_app (cases more : @Cases C) (label : string) :
  lookupCase (cases ++ more) label
  = match lookupCase cases label with
    | Some handler => Some handler
    | None => lookupCase more label
    end.
Proof.
  induction cases as [| [k h] rest IH]; [reflexivity |].
  cbn [app lookupCase]. destruct (String.eqb k label); [reflexivity | exact IH].
Qed.

Lemma endsIn_apply_case (cases : @Cases C) :
  List.Forall (fun c => forall o, endsIn (fun _ => True) (snd c o)) cases ->
  forall file o, endsIn (fun _ => True) (applyResource cases file o).
Proof.
  intros Hcases file o. unfold applyResource.
  apply (endsIn_bind (fun _ => True)).
  - destruct (lookupCase cases _) as [handler |] eqn:Hcase; [| ends].
    induction cases as [| [k h] rest IH]; [discriminate |].
    apply List.Forall_cons_iff in Hcases. destruct Hcases as [Hh Hrest].
    cbn [lookupCase] in Hcase. destruct (String.eqb k _).
    + injection Hcase as <-. apply Hh.
    + now apply IH.
  - intros [e |] _; ends.
Qed.

Lemma endsIn_delete_case (cases : @Cases C) :
  List.Forall (fun c => forall o, endsIn (fun _ => True) (snd c o)) cases ->
  forall file o, endsIn (fun _ => True) (deleteResource cases file o).
Proof.
  intros Hcases file o. unfold deleteResource.
  apply (endsIn_bind (fun _ => True)).
  - destruct (lookupCase cases _) as [handler |] eqn:Hcase; [| ends].
    induction cases as [| [k h] rest IH]; [discriminate |].
    apply List.Forall_cons_iff in Hcases. destruct Hcases as [Hh Hrest].
    cbn [lookupCase] in Hcase. destruct (String.eqb k _).
    + injection Hcase as <-. apply Hh.
    + now apply IH.
  - intros [e |] _; ends.
Qed.

Lemma pkg_apply_cases_end :
  List.Forall (fun c => forall o, endsIn (fun _ => True) (snd c o))
              (@Pkg.applyCases C _ _).
Proof.
  repeat constructor; intros o; cbn [snd]; apply endsIn_applyWith; intros req;
    first [ apply endsIn_poll; first [ apply endsIn_deploymentReady
                                     | apply endsIn_serviceExists ]
          | apply (endsIn_bind (fun _ => True));
            [apply endsIn_daemonsetReady | intros ? _; ends]
          | unfold returnNil; ends ].
Qed.

Lemma pkg_delete_cases_end :
  List.Forall (fun c => forall o, endsIn (fun _ => True) (snd c o))
              (@Pkg.deleteCases C _ _).
Proof.
  repeat constructor; intros o; cbn [snd]; apply endsIn_deleteWith; intros req;
    first [ apply (endsIn_bind (fun _ => True)); [apply endsIn_log |];
            intros ? _; apply endsIn_poll, endsIn_namespaceDeleted
          | unfold logDeleted; ends ].
Qed.

Lemma Forall_app_l {A} (P : A -> Prop) (xs ys : list A) :
  List.Forall P (xs ++ ys) -> List.Forall P xs.
Proof. intros Hall. now apply List.Forall_app in Hall. Qed.

Lemma prefix_append (p rest : string) : String.prefix p (p +:+ rest) = true.
Proof.
  induction p as [| c p IH]; [apply prefix_empty |].
  change (String c p +:+ rest) with (String c (p +:+ rest)).
  cbn [String.prefix]. destruct (ascii_dec c c); [exact IH | contradiction].
Qed.

Lemma endsIn_section (name text : string)
      (handle : Object -> Go (World C) unit) :
  (forall o, endsIn (fun _ => True) (handle o)) ->
  endsIn nilOrDecodeError
    (let text := GoStrings.TrimSpace text in
     if (GoStrings.len text =? 0)%nat then ret None
     else
       match decode text with
       | inl err =>
           match GoStrings.sliceTo text 100 with
           | Some section =>
               ret (Some (Wrapf err ("decoding the resource file:" +:+ name
                                       +:+ ", section:" +:+ section +:+ "...")))
           | None => abort (Panic "slice bounds out of range")
           end
       | inr None => ret None
       | inr (Some resource) => handle resource ;; ret None
       end).
Proof.
  intros Hhandle. cbv zeta.
  destruct (GoStrings.len (GoStrings.TrimSpace text) =? 0)%nat;
    [now apply endsIn_ret |].
  destruct (decode (GoStrings.TrimSpace text)) as [err | [resource |]].
  - destruct (GoStrings.sliceTo _ 100) as [section |]; [| apply endsIn_panic].
    apply endsIn_ret. eexists _, _. split; [reflexivity |].
    apply prefix_append.
  - apply (endsIn_bind (fun _ => True)); [apply Hhandle |].
    intros ? _. now apply endsIn_ret.
  - now apply endsIn_ret.
Qed.

(** *** What the handlers write to the log *)

Lemma appends_ret {A} (P : LogLine -> Prop) (a : A) :
  appends (C := C) P (ret a).
Proof. intros w. exists []. cbn. now rewrite app_nil_r. Qed.

Lemma appends_abort {A} (P : LogLine -> Prop) (why : Abort) :
  appends (C := C) (A := A) P (abort why).
Proof. intros w. exists []. cbn. now rewrite app_nil_r. Qed.

Lemma appends_bind {A B} (P : LogLine -> Prop)
      (m : Go (World C) A) (k : A -> Go (World C) B) :
  appends P m -> (forall a, appends P (k a)) -> appends P (bind m k).
Proof.
  intros Hm Hk w. unfold bind. destruct (Hm w) as (lines & Hlog & Hall).
  destruct (m w) as [a w1 | why w1]; cbn [worldOf] in *.
  - destruct (Hk a w1) as (lines' & Hlog' & Hall').
    exists (lines ++ lines'). rewrite Hlog', Hlog, app_assoc.
    split; [reflexivity | now apply List.Forall_app].
  - eauto.
Qed.

Lemma appends_weaken {A} (P Q : LogLine -> Prop) (m : Go (World C) A) :
  (forall l, P l -> Q l) -> appends P m -> appends Q m.
Proof.
  intros Himp Hm w. destruct (Hm w) as (lines & Hlog & Hall).
  exists lines. split; [exact Hlog |].
  eapply List.Forall_impl; [exact Himp | exact Hall].
Qed.

Lemma appends_log (P : LogLine -> Prop) (l : LogLine) :
  P l -> appends P (logPrintf (C := C) l).
Proof. intros Hl w. exists [l]. cbn. split; [reflexivity | now constructor]. Qed.

Lemma appends_send {A} (P : LogLine -> Prop) (c : Call) (f : C -> A * C) :
  appends P (send c f).
Proof.
  intros w. rewrite send_run. exists []. cbn. now rewrite app_nil_r.
Qed.

Lemma appends_assert (P : LogLine -> Prop) (T : GoType) (o : Object) :
  appends P (assertType (C := C) T o).
Proof.
  unfold assertType. destruct (decide (goType o = T));
    [apply appends_ret | apply appends_abort].
Qed.

Lemma appends_range {A} (P : LogLine -> Prop) (xs : list A)
      (body : A -> Go (World C) unit) :
  (forall x, appends P (body x)) -> appends P (range xs body).
Proof.
  intros Hbody. induction xs as [| x xs IH]; [apply appends_ret |].
  cbn [range]. apply appends_bind; [apply Hbody | intros _; exact IH].
Qed.

Lemma appends_poll (P : LogLine -> Prop) (description : string)
      (maxAttempts left : nat)
      (predicate : Go (World C) (bool * option error)) :
  appends P predicate ->
  appends P (Provider.poll description maxAttempts left predicate).
Proof.
  intros Hp. induction left as [| left IH]; [apply appends_ret |].
  cbn [Provider.poll]. apply appends_bind; [exact Hp |].
  intros [[] [e |]]; first [apply appends_ret | exact IH].
Qed.

Lemma appends_attempts (P : LogLine -> Prop) (steps : nat)
      (last : option error) (fn : Go (World C) (option error)) :
  appends P fn -> appends P (Retry.attempts steps last fn).
Proof.
  intros Hfn. revert last.
  induction steps as [| steps IH]; intros last; [apply appends_ret |].
  cbn [Retry.attempts]. apply appends_bind; [exact Hfn |].
  intros [e |]; [| apply appends_ret].
  destruct (IsConflict e); [apply IH | apply appends_ret].
Qed.

(** The lines of the handlers are no error lines. *)
Local Notation noError := (fun l : LogLine => isErrorLine l = false).

Ltac quietly :=
  repeat first
    [ apply appends_ret
    | apply appends_abort
    | apply appends_log; reflexivity
    | apply appends_send
    | apply appends_assert
    | apply appends_poll
    | apply appends_attempts
    | apply appends_range; intros ?
    | apply appends_bind; [| intros ?]
    | progress cbv zeta
    | match goal with
      | |- appends _ (if ?b then _ else _) => destruct b
      | |- appends _ (match ?x with _ => _ end) => destruct x
      end ].

Lemma appends_deploymentReady (o : Object) :
  appends noError (deploymentReady (C := C) o).
Proof. unfold deploymentReady, clientGet. quietly. Qed.

Lemma appends_daemonsetReady (o : Object) :
  appends noError (daemonsetReady (C := C) o).
Proof. unfold daemonsetReady, clientGet. quietly. Qed.

Lemma appends_serviceExists (o : Object) :
  appends noError (serviceExists (C := C) o).
Proof. unfold serviceExists, clientGet. quietly. Qed.

Lemma appends_namespaceDeleted (o : Object) :
  appends noError (namespaceDeleted (C := C) o).
Proof. unfold namespaceDeleted, clientGet. quietly. Qed.

Lemma appends_applyWith (T : GoType) (version : string)
      (defaulted namespaced : bool) (coll : Collection)
      (message : string -> string -> string)
      (after : Object -> Go (World C) (option error)) (o : Object) :
  (forall req, appends noError (after req)) ->
  appends noError
          (applyWith T version defaulted namespaced coll message after o).
Proof.
  intros Hafter. unfold applyWith, createOrUpdate, Retry.RetryOnConflict,
    clientList, clientCreate, clientUpdate.
  quietly; apply Hafter.
Qed.

Lemma appends_deleteWith (T : GoType) (version : string)
      (defaulted namespaced : bool) (coll : Collection)
      (after : Object -> Go (World C) (option error)) (o : Object) :
  (forall req, appends noError (after req)) ->
  appends noError (deleteWith T version defaulted namespaced coll after o).
Proof.
  intros Hafter. unfold deleteWith, clientDelete. quietly; apply Hafter.
Qed.

Lemma pkg_apply_cases_append :
  List.Forall (fun c => forall o, appends noError (snd c o))
              (@Pkg.applyCases C _ _).
Proof.
  repeat constructor; intros o; cbn [snd]; apply appends_applyWith; intros req;
    first [ apply appends_poll; first [ apply appends_deploymentReady
                                      | apply appends_serviceExists ]
          | apply appends_bind;
            [apply appends_daemonsetReady | intros ?; quietly]
          | unfold returnNil; quietly ].
Qed.

Lemma pkg_delete_cases_append :
  List.Forall (fun c => forall o, appends noError (snd c o))
              (@Pkg.deleteCases C _ _).
Proof.
  repeat constructor; intros o; cbn [snd]; apply appends_deleteWith;
    intros req;
    first [ apply appends_bind; [apply appends_log; reflexivity |];
            intros ?; apply appends_poll, appends_namespaceDeleted
          | unfold logDeleted; quietly ].
Qed.

Lemma case_of_table (P : (Object -> Go (World C) (option error)) -> Prop)
      (cases : @Cases C) (label : string)
      (handler : Object -> Go (World C) (option error)) :
  List.Forall (fun c => P (snd c)) cases ->
  lookupCase cases label = Some handler -> P handler.
Proof.
  intros Hcases Hcase. induction cases as [| [k h] rest IH]; [discriminate |].
  apply List.Forall_cons_iff in Hcases. destruct Hcases as [Hh Hrest].
  cbn [lookupCase] in Hcase. destruct (String.eqb k label).
  - injection Hcase as <-. exact Hh.
  - now apply IH.
Qed.

(** The loops append to the log and change nothing else of it. *)
Lemma appends_apply_case (cases : @Cases C) (file : string) (o : Object) :
  List.Forall (fun c => forall o, appends noError (snd c o)) cases ->
  appends (fun _ => True) (applyResource cases file o).
Proof.
  intros Hcases. unfold applyResource. apply appends_bind.
  - destruct (lookupCase cases _) as [handler |] eqn:Hcase;
      [| apply appends_ret].
    apply (appends_weaken noError); [trivial |].
    apply (case_of_table (fun h => forall o, appends noError (h o))
                         cases _ handler Hcases Hcase).
  - intros [e |]; [now apply appends_log | apply appends_ret].
Qed.

Lemma appends_delete_case (cases : @Cases C) (file : string) (o : Object) :
  List.Forall (fun c => forall o, appends noError (snd c o)) cases ->
  appends (fun _ => True) (deleteResource cases file o).
Proof.
  intros Hcases. unfold deleteResource. apply appends_bind.
  - destruct (lookupCase cases _) as [handler |] eqn:Hcase;
      [| apply appends_ret].
    apply (appends_weaken noError); [trivial |].
    apply (case_of_table (fun h => forall o, appends noError (h o))
                         cases _ handler Hcases Hcase).
  - intros [e |]; [now apply appends_log | apply appends_ret].
Qed.

(** The error that a handler returns is logged at once, under the name
    of the file, and a handler that returns nil adds nothing. *)
Lemma applyResource_logs (cases : @Cases C) (file : string) (o : Object)
      (handler : Object -> Go (World C) (option error)) (w : World C) :
  lookupCase cases (GoStrings.ToLower (Kind o)) = Some handler ->
  applyResource cases file o w
  = match handler o w with
    | Done (Some e) w' => Done tt (withLine w' (LogErrorApplying file e))
    | Done None w' => Done tt w'
    | Aborted why w' => Aborted why w'
    end.
Proof.
  intros Hcase. unfold applyResource, bind. rewrite Hcase.
  destruct (handler o w) as [[e |] w' | why w']; reflexivity.
Qed.

Lemma deleteResource_logs (cases : @Cases C) (file : string) (o : Object)
      (handler : Object -> Go (World C) (option error)) (w : World C) :
  lookupCase cases (GoStrings.ToLower (Kind o)) = Some handler ->
  deleteResource cases file o w
  = match handler o w with
    | Done (Some e) w' => Done tt (withLine w' (LogErrorDeleting file e))
    | Done None w' => Done tt w'
    | Aborted why w' => Aborted why w'
    end.
Proof.
  intros Hcase. unfold deleteResource, bind. rewrite Hcase.
  destruct (handler o w) as [[e |] w' | why w']; reflexivity.
Qed.

(** A run over a batch, at one of its objects: when the run up to the
    object returns and the step for the object leaves the world [w2], the
    log of the whole run, if it returns, is the log of [w2] and what the
    rest of the run appends. *)
Lemma run_through (handle : string -> Object -> Go (World C) unit)
      (before after : list Resource) (file : string)
      (pre post : list Object) (o : Object)
      (w w1 w2 w' : World C) (r : option error) :
  (forall file o, appends (fun _ => True) (handle file o)) ->
  (range (before ++ [mkResource file pre])
         (fun d => range (Objects d) (handle (ResourceFileName d))) ;;
   ret (@None error)) w = Done None w1 ->
  handle file o w1 = Done tt w2 ->
  (range (before ++ mkResource file (pre ++ o :: post) :: after)
         (fun d => range (Objects d) (handle (ResourceFileName d))) ;;
   ret (@None error)) w = Done r w' ->
  exists later, logged w' = logged w2 ++ later.
Proof.
  intros Hgrows Hpre Hstep Hrun.
  rewrite (range_objects_split handle before after file pre post o
             (handle file o) w (fun _ => eq_refl)) in Hrun.
  unfold bind at 1 in Hrun. rewrite Hpre in Hrun.
  unfold bind at 1 in Hrun. rewrite Hstep in Hrun.
  assert (Hrest : appends (fun _ => True)
                    (range (mkResource file post :: after)
                           (fun d => range (Objects d)
                                           (handle (ResourceFileName d))) ;;
                     ret (@None error))).
  { apply appends_bind; [| intros ?; apply appends_ret].
    apply appends_range. intros d. apply appends_range. intros x.
    apply Hgrows. }
  destruct (Hrest w2) as (later & Hlog & _). rewrite Hrun in Hlog.
  exists later. exact Hlog.
Qed.

(** Where the errors of the handlers end up.  [ResourceApply] and
    [ResourceDelete] of the later version return nil whenever they
    return, and in the earlier version the only error they return is
    that of a section that does not decode; none of them ends the
    process, what can cut them short is a panic.  The error of a handler
    goes to the log: the step for one object runs the handler of its
    kind and, when the handler returns an error, appends the line
    [LogErrorApplying] (or [LogErrorDeleting]) with the name of the file
    and that error to the log the handler left, and appends nothing
    when the handler returns nil.  The handlers themselves write no such
    line.  So in a run over a batch that returns, the line for the error
    of a handler stands in the final log right after what the handler
    logged, and the result is nil all the same.  In the earlier version
    the step for a section that decodes to an object does the same and
    returns nil. *)
Theorem handler_errors_reach_the_log_only :
  (forall (deployments : list Resource) (w : World C),
      match Pkg.ResourceApply deployments w with
      | Done err _ => err = None
      | Aborted (Panic _) _ => True
      | Aborted (Fatal _) _ => False
      end
      /\ match Pkg.ResourceDelete deployments w with
         | Done err _ => err = None
         | Aborted (Panic _) _ => True
         | Aborted (Fatal _) _ => False
         end)
  /\ (forall (deployments : list ResourceFile) (w : World C),
         match Legacy.ResourceApply deployments w with
         | Done (Some e) _ => isDecodeError e
         | Done None _ => True
         | Aborted (Panic _) _ => True
         | Aborted (Fatal _) _ => False
         end
         /\ match Legacy.ResourceDelete deployments w with
            | Done (Some e) _ => isDecodeError e
            | Done None _ => True
            | Aborted (Panic _) _ => True
            | Aborted (Fatal _) _ => False
            end)
  /\ (forall (cases : Cases) (file : string) (o : Object)
             (handler : Object -> Go (World C) (option error)) (w : World C),
         lookupCase cases (GoStrings.ToLower (Kind o)) = Some handler ->
         applyResource cases file o w
         = match handler o w with
           | Done (Some e) w' =>
               Done tt (withLine w' (LogErrorApplying file e))
           | Done None w' => Done tt w'
           | Aborted why w' => Aborted why w'
           end
         /\ deleteResource cases file o w
            = match handler o w with
              | Done (Some e) w' =>
                  Done tt (withLine w' (LogErrorDeleting file e))
              | Done None w' => Done tt w'
              | Aborted why w' => Aborted why w'
              end)
  /\ (forall (label : string)
             (handler : Object -> Go (World C) (option error)) (o : Object),
         lookupCase Pkg.applyCases label = Some handler
         \/ lookupCase Pkg.deleteCases label = Some handler ->
         appends (fun l => isErrorLine l = false) (handler o))
  /\ (forall (before after : list Resource) (file : string)
             (pre post : list Object) (o : Object)
             (handler : Object -> Go (World C) (option error)) (e : error)
             (w w1 w2 w' : World C) (r1 r : option error),
         Pkg.ResourceApply (before ++ [mkResource file pre]) w
         = Done r1 w1 ->
         lookupCase Pkg.applyCases (GoStrings.ToLower (Kind o))
         = Some handler ->
         handler o w1 = Done (Some e) w2 ->
         Pkg.ResourceApply
           (before ++ mkResource file (pre ++ o :: post) :: after) w
         = Done r w' ->
         r = None
         /\ exists later,
             logged w' = logged w2 ++ LogErrorApplying file e :: later)
  /\ (forall (before after : list Resource) (file : string)
             (pre post : list Object) (o : Object)
             (handler : Object -> Go (World C) (option error)) (e : error)
             (w w1 w2 w' : World C) (r1 r : option error),
         Pkg.ResourceDelete (before ++ [mkResource file pre]) w
         = Done r1 w1 ->
         lookupCase Pkg.deleteCases (GoStrings.ToLower (Kind o))
         = Some handler ->
         handler o w1 = Done (Some e) w2 ->
         Pkg.ResourceDelete
           (before ++ mkResource file (pre ++ o :: post) :: after) w
         = Done r w' ->
         r = None
         /\ exists later,
             logged w' = logged w2 ++ LogErrorDeleting file e :: later)
  /\ (forall (name text : string) (o : Object) (w : World C),
         GoStrings.len (GoStrings.TrimSpace text) <> 0%nat ->
         decode (GoStrings.TrimSpace text) = inr (Some o) ->
         (forall handler,
             lookupCase applyCases (GoStrings.ToLower (Kind o))
             = Some handler ->
             Legacy.applySection name text w
             = match handler o w with
               | Done (Some e) w' =>
                   Done None (withLine w' (LogErrorApplying name e))
               | Done None w' => Done None w'
               | Aborted why w' => Aborted why w'
               end)
         /\ (forall handler,
                lookupCase deleteCases (GoStrings.ToLower (Kind o))
                = Some handler ->
                Legacy.deleteSection name text w
                = match handler o w with
                  | Done (Some e) w' =>
                      Done None (withLine w' (LogErrorDeleting name e))
                  | Done None w' => Done None w'
                  | Aborted why w' => Aborted why w'
                  end)).
Proof.
  assert (Hpkg : forall (deployments : list Resource) (w : World C),
      match Pkg.ResourceApply deployments w with
      | Done err _ => err = None
      | Aborted (Panic _) _ => True
      | Aborted (Fatal _) _ => False
      end
      /\ match Pkg.ResourceDelete deployments w with
         | Done err _ => err = None
         | Aborted (Panic _) _ => True
         | Aborted (Fatal _) _ => False
         end).
  { intros deployments w. split.
    + assert (Hends : endsIn (fun err => err = None)
                             (Pkg.ResourceApply deployments)).
      { unfold Pkg.ResourceApply. apply (endsIn_bind (fun _ => True)).
        - apply endsIn_range. intros d. apply endsIn_range. intros o.
          apply endsIn_apply_case, pkg_apply_cases_end.
        - intros ? _. now apply endsIn_ret. }
      specialize (Hends w).
      destruct (Pkg.ResourceApply deployments w) as [a s | [m | m] s];
        exact Hends.
    + assert (Hends : endsIn (fun err => err = None)
                             (Pkg.ResourceDelete deployments)).
      { unfold Pkg.ResourceDelete. apply (endsIn_bind (fun _ => True)).
        - apply endsIn_range. intros d. apply endsIn_range. intros o.
          apply endsIn_delete_case, pkg_delete_cases_end.
        - intros ? _. now apply endsIn_ret. }
      specialize (Hends w).
      destruct (Pkg.ResourceDelete deployments w) as [a s | [m | m] s];
        exact Hends. }
  split; [exact Hpkg |]. split; [| split; [| split; [| split; [| split]]]].
  - intros deployments w. split.
    + assert (Hends : endsIn nilOrDecodeError
                             (Legacy.ResourceApply deployments)).
      { unfold Legacy.ResourceApply. apply (endsIn_forEach isDecodeError).
        intros file. unfold Legacy.applyFile.
        apply (endsIn_forEach isDecodeError). intros text.
        apply (endsIn_section (FileName file) text
                 (applyResource applyCases (FileName file))).
        apply endsIn_apply_case.
        apply (Forall_app_l _ _ [("customresourcedefinition",
                                  customResourceApply)]).
        apply pkg_apply_cases_end. }
      specialize (Hends w).
      destruct (Legacy.ResourceApply deployments w)
        as [[e |] s | [m | m] s]; exact Hends.
    + assert (Hends : endsIn nilOrDecodeError
                             (Legacy.ResourceDelete deployments)).
      { unfold Legacy.ResourceDelete. apply (endsIn_forEach isDecodeError).
        intros file. unfold Legacy.deleteFile.
        apply (endsIn_forEach isDecodeError). intros text.
        apply (endsIn_section (FileName file) text
                 (deleteResource deleteCases (FileName file))).
        apply endsIn_delete_case.
        apply (Forall_app_l _ _ [("customresourcedefinition",
                                  customResourceDelete)]).
        apply pkg_delete_cases_end. }
      specialize (Hends w).
      destruct (Legacy.ResourceDelete deployments w)
        as [[e |] s | [m | m] s]; exact Hends.
  - intros cases file o handler w Hcase. split.
    + now apply applyResource_logs.
    + now apply deleteResource_logs.
  - intros label handler o [Hcase | Hcase].
    + apply (case_of_table (fun h => forall o, appends _ (h o))
               Pkg.applyCases label handler pkg_apply_cases_append Hcase).
    + apply (case_of_table (fun h => forall o, appends _ (h o))
               Pkg.deleteCases label handler pkg_delete_cases_append Hcase).
  - intros before after file pre post o handler e w w1 w2 w' r1 r
           Hpre Hcase Hhandler Hrun.
    pose proof (proj1 (Hpkg (before ++ [mkResource file pre]) w)) as Hr1.
    pose proof (proj1 (Hpkg (before ++ mkResource file (pre ++ o :: post)
                                    :: after) w)) as Hr.
    rewrite Hpre in Hr1. rewrite Hrun in Hr. subst r1 r.
    split; [reflexivity |].
    destruct (run_through (applyResource Pkg.applyCases)
                before after file pre post o w w1
                (withLine w2 (LogErrorApplying file e)) w' None)
      as (later & Hlog).
    + intros f x. apply appends_apply_case, pkg_apply_cases_append.
    + exact Hpre.
    + rewrite (applyResource_logs _ _ _ handler _ Hcase), Hhandler.
      reflexivity.
    + exact Hrun.
    + exists later. rewrite Hlog. cbn [withLine logged].
      now rewrite <- app_assoc.
  - intros before after file pre post o handler e w w1 w2 w' r1 r
           Hpre Hcase Hhandler Hrun.
    pose proof (proj2 (Hpkg (before ++ [mkResource file pre]) w)) as Hr1.
    pose proof (proj2 (Hpkg (before ++ mkResource file (pre ++ o :: post)
                                    :: after) w)) as Hr.
    rewrite Hpre in Hr1. rewrite Hrun in Hr. subst r1 r.
    split; [reflexivity |].
    destruct (run_through (deleteResource Pkg.deleteCases)
                before after file pre post o w w1
                (withLine w2 (LogErrorDeleting file e)) w' None)
      as (later & Hlog).
    + intros f x. apply appends_delete_case, pkg_delete_cases_append.
    + exact Hpre.
    + rewrite (deleteResource_logs _ _ _ handler _ Hcase), Hhandler.
      reflexivity.
    + exact Hrun.
    + exists later. rewrite Hlog. cbn [withLine logged].
      now rewrite <- app_assoc.
  - intros name text o w Hlen Hdecode. split; intros handler Hcase.
    + unfold Legacy.applySection. cbv zeta.
      apply Nat.eqb_neq in Hlen. rewrite Hlen, Hdecode.
      unfold bind. rewrite (applyResource_logs _ _ _ handler _ Hcase).
      destruct (handler o w) as [[e |] w' | why w']; reflexivity.
    + unfold Legacy.deleteSection. cbv zeta.
      apply Nat.eqb_neq in Hlen. rewrite Hlen, Hdecode.
      unfold bind. rewrite (deleteResource_logs _ _ _ handler _ Hcase).
      destruct (handler o w) as [[e |] w' | why w']; reflexivity.
Qed.

End ErrorsStayInTheLog.

(** A cluster that refuses every request: the config map and the
    namespace of a file are both refused, the run returns nil, and the
    log holds the two refusals. *)
Lemma handler_errors_reach_the_log_only_witness :
  let refusal :=
    Wrapf Samples.forbidden
          "error listing resource : ConfigMap, name: settings" in
  let w2 := mkWorld tt [CallList ConfigMaps "default"] [] in
  let w' :=
    mkWorld tt [CallList ConfigMaps "default"; CallList Namespaces ""]
            [ LogErrorApplying "1_base.yaml" refusal;
              LogErrorApplying "1_base.yaml"
                (Wrapf Samples.forbidden
                   "error listing resource : Namespace, name: bench-42") ] in
  @Pkg.ResourceApply _ Samples.denying Demo.constants
     ([] ++ [mkResource "1_base.yaml" []]) Samples.nowhere
  = Done None Samples.nowhere
  /\ lookupCase (@Pkg.applyCases _ Samples.denying Demo.constants)
                (GoStrings.ToLower (Kind Demo.settings))
     = Some (@configMapApply _ Samples.denying)
  /\ @configMapApply _ Samples.denying Demo.settings Samples.nowhere
     = Done (Some refusal) w2
  /\ @Pkg.ResourceApply _ Samples.denying Demo.constants
       ([] ++ mkResource "1_base.yaml" ([] ++ Demo.settings :: [Demo.bench])
           :: [])
       Samples.nowhere
     = Done None w'
  /\ @None error = None
  /\ exists later,
      logged w' = logged w2 ++ LogErrorApplying "1_base.yaml" refusal :: later.
Proof.
  cbv zeta.
  split; [vm_compute; reflexivity |].
  split; [vm_compute; reflexivity |].
  split; [vm_compute; reflexivity |].
  split; [vm_compute; reflexivity |].
  apply (proj1 (proj2 (proj2 (proj2 (proj2
           (@handler_errors_reach_the_log_only
              unit Samples.denying Demo.constants Demo.decoder)))))
           [] [] "1_base.yaml" [] [Demo.bench] Demo.settings
           (@configMapApply _ Samples.denying)
           (Wrapf Samples.forbidden
                  "error listing resource : ConfigMap, name: settings")
           Samples.nowhere Samples.nowhere
           (mkWorld tt [CallList ConfigMaps "default"] []) _ None None);
    vm_compute; reflexivity.
Defined.

(* ================================================================= *)
(** * Further properties of the parsing *)

(** ** Rendering the collected files *)

Section RenderingAll.

Context {C : Type} `{Template.Library}.

Lemma applyTemplateVars_some (fs : FS.System) (vars : gmap string string)
      (file text : string) (w : World C) :
  rendered fs vars file = Some text ->
  Legacy.applyTemplateVars fs vars file w = Done (text, None) w.
Proof.
  unfold Legacy.applyTemplateVars, rendered.
  destruct (FS.ReadFile fs file) as [err | content]; [discriminate |].
  destruct (Template.Parse Legacy.funcs content) as [t |]; [| discriminate].
  destruct (Template.Execute Legacy.funcs t vars); [discriminate |].
  now intros [= <-].
Qed.

Lemma applyTemplateVars_none (fs : FS.System) (vars : gmap string string)
      (file : string) (w : World C) :
  rendered fs vars file = None ->
  exists why, Legacy.applyTemplateVars fs vars file w = Aborted why w.
Proof.
  unfold Legacy.applyTemplateVars, rendered.
  destruct (FS.ReadFile fs file) as [err | content]; [eauto |].
  destruct (Template.Parse Legacy.funcs content) as [t |]; [| eauto].
  destruct (Template.Execute Legacy.funcs t vars); [eauto | discriminate].
Qed.

Lemma renderAll_run (fs : FS.System) (vars : gmap string string)
      (names : list string) (acc files : list ResourceFile) (w : World C) :
  renderedFiles fs vars names = Some files ->
  Legacy.renderAll fs vars names acc w = Done (acc ++ files, None) w.
Proof.
  revert acc files. induction names as [| name rest IH]; intros acc files.
  - intros [= <-]. cbn. unfold ret. now rewrite app_nil_r.
  - cbn [renderedFiles Legacy.renderAll]. unfold bind.
    destruct (rendered fs vars name) as [text |] eqn:Hname; [| discriminate].
    destruct (renderedFiles fs vars rest) as [files' |]; [| discriminate].
    intros [= <-]. rewrite (applyTemplateVars_some _ _ _ text w Hname).
    rewrite (IH _ files' eq_refl), <- app_assoc. reflexivity.
Qed.

(** The run up to the first file that does not render. *)
Lemma renderAll_cut (fs : FS.System) (vars : gmap string string)
      (done rest : list string) (name : string)
      (acc files : list ResourceFile) (why : Abort) (w : World C) :
  renderedFiles fs vars done = Some files ->
  Legacy.applyTemplateVars fs vars name w = Aborted why w ->
  Legacy.renderAll fs vars (done ++ name :: rest) acc w = Aborted why w.
Proof.
  revert acc files. induction done as [| d done IH]; intros acc files.
  - intros _ Hnone. cbn [app Legacy.renderAll]. unfold bind.
    now rewrite Hnone.
  - cbn [renderedFiles app Legacy.renderAll]. unfold bind.
    destruct (rendered fs vars d) as [text |] eqn:Hd; [| discriminate].
    destruct (renderedFiles fs vars done) as [files' |]; [| discriminate].
    intros _ Hnone. rewrite (applyTemplateVars_some _ _ _ text w Hd).
    now apply (IH _ files').
Qed.

Lemma renderedFiles_none (fs : FS.System) (vars : gmap string string)
      (names : list string) :
  renderedFiles fs vars names = None ->
  exists done name rest files,
    names = done ++ name :: rest
    /\ renderedFiles fs vars done = Some files
    /\ rendered fs vars name = None.
Proof.
  induction names as [| n names IH]; [discriminate |].
  cbn [renderedFiles].
  destruct (rendered fs vars n) as [text |] eqn:Hn.
  - destruct (renderedFiles fs vars names) as [files |]; [discriminate |].
    intros _. destruct (IH eq_refl) as (done & name & rest & files & -> & Hd & Hnone).
    exists (n :: done), name, rest, (mkResourceFile n text :: files).
    split; [reflexivity |]. split; [| exact Hnone].
    cbn [renderedFiles]. now rewrite Hn, Hd.
  - intros _. exists [], n, names, []. repeat split. exact Hn.
Qed.

Lemma renderedFiles_names (fs : FS.System) (vars : gmap string string)
      (names : list string) (files : list ResourceFile) :
  renderedFiles fs vars names = Some files ->
  List.map FileName files = names
  /\ List.Forall (fun f => rendered fs vars (FileName f) = Some (Content f))
                 files.
Proof.
  revert files. induction names as [| n names IH]; intros files.
  - intros [= <-]. split; [reflexivity | constructor].
  - cbn [renderedFiles]. destruct (rendered fs vars n) as [text |] eqn:Hn;
      [| discriminate].
    destruct (renderedFiles fs vars names) as [files' |]; [| discriminate].
    intros [= <-]. destruct (IH files' eq_refl) as [Hnames Hall].
    cbn [List.map FileName]. rewrite Hnames. split; [reflexivity |].
    constructor; [exact Hn | exact Hall].
Qed.

(** [DeploymentsParse] of the earlier version.  It returns exactly when
    every collected file can be read and its template parses and executes
    against the variables; it then returns nil and has appended to the
    content held by the client one rendered file per collected path, in
    the order of the collection, each under its path.  Otherwise it does
    not return.  It never returns an error (the branch that wraps the
    error of [applyTemplateVars] is never taken), and in no case does it
    send a request or write to the log. *)
Theorem DeploymentsParse_appends_what_it_renders
        (fs : FS.System) (c : Legacy.K8sClient) (w : World C) :
  let vars := Legacy.DeploymentVars c in
  let names := Legacy.fileList fs (Legacy.DeploymentFiles c) in
  worldOf (Legacy.DeploymentsParse fs c w) = w
  /\ match renderedFiles fs vars names with
     | Some files =>
         Legacy.DeploymentsParse fs c w
         = Done (Legacy.mkK8sClient (Legacy.DeploymentFiles c) vars
                   (Legacy.deploymentsContent c ++ files),
                 None) w
         /\ List.map FileName files = names
         /\ List.Forall
              (fun f => rendered fs vars (FileName f) = Some (Content f)) files
     | None => exists why, Legacy.DeploymentsParse fs c w = Aborted why w
     end
  /\ (forall c' err w',
         Legacy.DeploymentsParse fs c w = Done (c', err) w' -> err = None).
Proof.
  intros vars names.
  assert (Hcases :
            match renderedFiles fs vars names with
            | Some files =>
                Legacy.DeploymentsParse fs c w
                = Done (Legacy.mkK8sClient (Legacy.DeploymentFiles c) vars
                          (Legacy.deploymentsContent c ++ files),
                        None) w
            | None => exists why, Legacy.DeploymentsParse fs c w = Aborted why w
            end).
  { destruct (renderedFiles fs vars names) as [files |] eqn:Hfiles.
    - unfold Legacy.DeploymentsParse, bind. fold vars names.
      now rewrite (renderAll_run fs vars names _ files w Hfiles).
    - destruct (renderedFiles_none fs vars names Hfiles)
        as (done & name & rest & files & Hsplit & Hdone & Hnone).
      destruct (applyTemplateVars_none fs vars name w Hnone) as [why Hwhy].
      exists why. unfold Legacy.DeploymentsParse, bind. fold vars names.
      now rewrite Hsplit,
        (renderAll_cut fs vars done rest name _ files why w Hdone Hwhy). }
  split; [| split].
  - destruct (renderedFiles fs vars names) as [files |].
    + now rewrite Hcases.
    + destruct Hcases as [why Hwhy]. now rewrite Hwhy.
  - destruct (renderedFiles fs vars names) as [files |] eqn:Hfiles;
      [| exact Hcases].
    split; [exact Hcases |]. now apply renderedFiles_names.
  - intros c' err w' Hrun.
    destruct (renderedFiles fs vars names) as [files |].
    + rewrite Hcases in Hrun. now injection Hrun as _ <- _.
    + destruct Hcases as [why Hwhy]. congruence.
Qed.

(** The first collected file that does not render decides how the parse
    ends.  A file that cannot be read ends the process ([log.Fatalf]) with
    a message that names the file and carries the error of the read; so
    does, in particular, a path given on the command line that does not
    resolve, which the collection keeps as it is, and a directory whose
    name made the walk collect it.  A file whose template does not parse
    makes [template.Must] panic with the error of the parse, and one
    whose template fails to execute ends the process with the error of
    the execution.  In each case the files after it are not looked at
    and the world is the one the parse started in. *)
Theorem unreadable_file_ends_the_parse
        (fs : FS.System) (c : Legacy.K8sClient) (w : World C) :
  let vars := Legacy.DeploymentVars c in
  (forall done name rest files,
      Legacy.fileList fs (Legacy.DeploymentFiles c) = done ++ name :: rest ->
      renderedFiles fs vars done = Some files ->
      (forall err,
          FS.ReadFile fs name = inl err ->
          Legacy.DeploymentsParse fs c w
          = Aborted (Fatal ("Error reading file " +:+ name +:+ ":"
                              +:+ Error err)) w)
      /\ (forall es,
             FS.Stat fs name = Some (FS.Dir es) ->
             Legacy.DeploymentsParse fs c w
             = Aborted (Fatal ("Error reading file " +:+ name +:+ ":read "
                                 +:+ name +:+ ": is a directory")) w)
      /\ (forall content,
             FS.ReadFile fs name = inr content ->
             Template.Parse Legacy.funcs content = None ->
             Legacy.DeploymentsParse fs c w
             = Aborted (Panic (Error (Template.parseError Legacy.funcs
                                                          content))) w)
      /\ (forall content t err,
             FS.ReadFile fs name = inr content ->
             Template.Parse Legacy.funcs content = Some t ->
             Template.Execute Legacy.funcs t vars = inl err ->
             Legacy.DeploymentsParse fs c w
             = Aborted (Fatal ("Failed to execute parse file:" +:+ name
                                 +:+ " err:" +:+ Error err)) w))
  /\ (forall name others errno,
         Legacy.DeploymentFiles c = name :: others ->
         FS.resolve fs name = inl errno ->
         Legacy.DeploymentsParse fs c w
         = Aborted (Fatal ("Error reading file " +:+ name +:+ ":open "
                             +:+ name +:+ ": " +:+ FS.strerror errno)) w).
Proof.
  intros vars.
  assert (Hcut : forall done name rest files why,
             Legacy.fileList fs (Legacy.DeploymentFiles c)
             = done ++ name :: rest ->
             renderedFiles fs vars done = Some files ->
             Legacy.applyTemplateVars fs vars name w = Aborted why w ->
             Legacy.DeploymentsParse fs c w = Aborted why w).
  { intros done name rest files why Hsplit Hdone Hwhy.
    unfold Legacy.DeploymentsParse, bind. fold vars. rewrite Hsplit.
    now rewrite (renderAll_cut fs vars done rest name _ files why w Hdone Hwhy). }
  split.
  - intros done name rest files Hsplit Hdone. split; [| split; [| split]].
    + intros err Hread. apply (Hcut done name rest files _ Hsplit Hdone).
      unfold Legacy.applyTemplateVars. now rewrite Hread.
    + intros es Hstat. apply (Hcut done name rest files _ Hsplit Hdone).
      unfold Legacy.applyTemplateVars, FS.ReadFile.
      unfold FS.Stat in Hstat.
      destruct (FS.resolve fs name) as [errno | node]; [discriminate |].
      injection Hstat as ->. reflexivity.
    + intros content Hread Hparse.
      apply (Hcut done name rest files _ Hsplit Hdone).
      unfold Legacy.applyTemplateVars. now rewrite Hread, Hparse.
    + intros content t err Hread Hparse Hexec.
      apply (Hcut done name rest files _ Hsplit Hdone).
      unfold Legacy.applyTemplateVars. now rewrite Hread, Hparse, Hexec.
  - intros name others errno Hfiles Hres.
    apply (Hcut [] name (Legacy.fileList fs others) []); [| reflexivity |].
    + rewrite Hfiles. unfold Legacy.fileList, FS.Stat. cbn [flat_map].
      now rewrite Hres.
    + unfold Legacy.applyTemplateVars, FS.ReadFile. now rewrite Hres.
Qed.

End RenderingAll.

(** ** Decoding the rendered files *)

Section Decoding.

Context {C : Type} `{Clientset C} `{ProviderConstants} `{Decoder}.

Lemma kept_cons (text : string) (texts : list string) :
  kept (text :: texts)
  = if (GoStrings.len (GoStrings.TrimSpace text) =? 0)%nat
    then kept texts
    else GoStrings.TrimSpace text :: kept texts.
Proof.
  unfold kept. cbn [List.map List.filter].
  destruct (GoStrings.len (GoStrings.TrimSpace text) =? 0)%nat; reflexivity.
Qed.

(** [decodes], checked by evaluation. *)
Lemma decodes_check (contents : list string) :
  forallb (fun content =>
             forallb (fun text => match decode text with
                                  | inr _ => true
                                  | inl _ => false
                                  end) (sectionsOf content)) contents
  = true ->
  List.Forall decodes contents.
Proof.
  intros Hall. apply List.Forall_forall. intros content Hin.
  rewrite forallb_forall in Hall. specialize (Hall content Hin).
  rewrite forallb_forall in Hall. apply List.Forall_forall. intros text Ht.
  specialize (Hall text Ht). destruct (decode text) as [e | r];
    [discriminate | now exists r].
Qed.

Lemma decodeSections_run (name : string) (texts : list string)
      (objs : list Object) (w : World C) :
  List.Forall (fun text => exists r, decode text = inr r) (kept texts) ->
  Pkg.decodeSections name objs texts w
  = Done (inr (objs ++ decoded (kept texts))) w.
Proof.
  revert objs. induction texts as [| text texts IH]; intros objs Hall.
  - cbn. unfold ret. now rewrite app_nil_r.
  - cbn [Pkg.decodeSections]. unfold bind, Pkg.decodeSection.
    rewrite kept_cons in Hall |- *.
    destruct (GoStrings.len (GoStrings.TrimSpace text) =? 0)%nat.
    + unfold ret. now apply IH.
    + apply List.Forall_cons_iff in Hall. destruct Hall as [[r Hr] Hall].
      cbn [decoded flat_map]. rewrite Hr.
      destruct r as [o |]; unfold ret; rewrite (IH _ Hall).
      * now rewrite <- app_assoc.
      * reflexivity.
Qed.

Lemma decodeFiles_run (files : list ResourceFile) (resources : list Resource)
      (w : World C) :
  List.Forall decodes (List.map Content files) ->
  Pkg.decodeFiles files resources w
  = Done (resources ++ resourcesOf files, None) w.
Proof.
  revert resources. induction files as [| f files IH]; intros resources Hall.
  - cbn. unfold ret. now rewrite app_nil_r.
  - cbn [List.map] in Hall. apply List.Forall_cons_iff in Hall.
    destruct Hall as [Hf Hall].
    cbn [Pkg.decodeFiles]. unfold bind.
    rewrite (decodeSections_run _ _ [] w Hf). cbn [app].
    fold (sectionsOf (Content f)). fold (objectsOf (Content f)).
    rewrite (IH _ Hall). cbn [resourcesOf flat_map].
    fold (resourcesOf files).
    destruct (objectsOf (Content f)) as [| o objs]; cbn [length Nat.ltb Nat.leb].
    + reflexivity.
    + now rewrite <- app_assoc.
Qed.

Lemma decodeSections_world (name : string) (texts : list string)
      (objs : list Object) (w : World C) :
  worldOf (Pkg.decodeSections name objs texts w) = w.
Proof.
  revert objs. induction texts as [| text texts IH]; intros objs;
    [reflexivity |].
  cbn [Pkg.decodeSections]. unfold bind, Pkg.decodeSection.
  destruct (GoStrings.len (GoStrings.TrimSpace text) =? 0)%nat;
    [apply IH |].
  destruct (decode (GoStrings.TrimSpace text)) as [err | [o |]];
    [| apply IH | apply IH].
  destruct (GoStrings.sliceTo _ 100); reflexivity.
Qed.

Lemma decodeFiles_world (files : list ResourceFile)
      (resources : list Resource) (w : World C) :
  worldOf (Pkg.decodeFiles files resources w) = w.
Proof.
  revert resources. induction files as [| f files IH]; intros resources;
    [reflexivity |].
  cbn [Pkg.decodeFiles]. unfold bind.
  pose proof (decodeSections_world (FileName f)
                (GoStrings.Split (Content f) Separator) [] w) as Hw.
  destruct (Pkg.decodeSections (FileName f) [] _ w) as [[err | objs] w1 | why w1];
    cbn [worldOf] in Hw; subst w1; [reflexivity | apply IH | reflexivity].
Qed.

Lemma resourcesOf_nonempty (files : list ResourceFile) :
  List.Forall (fun r => Objects r <> []) (resourcesOf files).
Proof.
  induction files as [| f files IH]; [constructor |].
  cbn [resourcesOf flat_map]. fold (resourcesOf files).
  destruct (objectsOf (Content f)) as [| o objs]; [exact IH |].
  constructor; [discriminate | exact IH].
Qed.

Lemma resourcesOf_names (files : list ResourceFile) :
  List.map ResourceFileName (resourcesOf files)
  = List.map FileName
      (List.filter (fun f => (0 <? length (objectsOf (Content f)))%nat) files).
Proof.
  induction files as [| f files IH]; [reflexivity |].
  cbn [resourcesOf flat_map List.filter]. fold (resourcesOf files).
  destruct (objectsOf (Content f)) as [| o objs]; cbn [length Nat.ltb Nat.leb];
    [exact IH |].
  cbn [app List.map ResourceFileName]. now rewrite IH.
Qed.

(** [DeploymentsParse] of the later version.  When the rendering
    failed it ends the process.  When every section of every rendered
    file decodes it returns nil, and it has appended to the resources of
    the client one resource per file that holds at least one object, in
    the order of the files, each under the name of its file and with the
    objects of the file in the order of its sections; blank sections,
    sections that decode to no object and files without an object leave
    no trace, so no resource is ever empty.  In no case does it send a
    request or write to the log. *)
Theorem DeploymentsParse_keeps_the_files_with_objects
        (resources : list Resource) (w : World C) :
  (forall parsed, worldOf (Pkg.DeploymentsParse parsed resources w) = w)
  /\ (forall err,
         Pkg.DeploymentsParse (inl err) resources w
         = Aborted (Fatal ("Couldn't parse deployment files: " +:+ Error err))
                   w)
  /\ (forall files,
         List.Forall decodes (List.map Content files) ->
         Pkg.DeploymentsParse (inr files) resources w
         = Done (resources ++ resourcesOf files, None) w
         /\ List.Forall (fun r => Objects r <> []) (resourcesOf files)
         /\ List.map ResourceFileName (resourcesOf files)
            = List.map FileName
                (List.filter
                   (fun f => (0 <? length (objectsOf (Content f)))%nat)
                   files)
         /\ allObjects (resourcesOf files)
            = flat_map (fun f => objectsOf (Content f)) files).
Proof.
  split; [| split].
  - intros [err | files]; [reflexivity | apply decodeFiles_world].
  - reflexivity.
  - intros files Hall. split; [now apply decodeFiles_run |].
    split; [apply resourcesOf_nonempty |].
    split; [apply resourcesOf_names |].
    clear Hall. induction files as [| f files IH]; [reflexivity |].
    cbn [resourcesOf flat_map]. fold (resourcesOf files).
    unfold allObjects in *. rewrite flat_map_app, IH.
    destruct (objectsOf (Content f)); cbn [flat_map Objects app];
      [reflexivity | now rewrite app_nil_r].
Qed.

(** *** The two versions apply the same objects *)

Lemma lookupCase_single (label other : string)
      (handler : Object -> Go (World C) (option error)) :
  label <> other -> lookupCase [(other, handler)] label = None.
Proof.
  intros Hne. cbn [lookupCase].
  destruct (String.eqb_spec other label) as [-> | _];
    [contradiction | reflexivity].
Qed.

Lemma applyResource_agrees (file : string) (o : Object) (w : World C) :
  GoStrings.ToLower (Kind o) <> "customresourcedefinition" ->
  applyResource applyCases file o w = applyResource Pkg.applyCases file o w.
Proof.
  intros Hne. unfold applyResource, Pkg.applyCases.
  rewrite lookupCase_app, (lookupCase_single _ _ _ Hne).
  destruct (lookupCase applyCases _); reflexivity.
Qed.

Lemma deleteResource_agrees (file : string) (o : Object) (w : World C) :
  GoStrings.ToLower (Kind o) <> "customresourcedefinition" ->
  deleteResource deleteCases file o w
  = deleteResource Pkg.deleteCases file o w.
Proof.
  intros Hne. unfold deleteResource, Pkg.deleteCases.
  rewrite lookupCase_app, (lookupCase_single _ _ _ Hne).
  destruct (lookupCase deleteCases _); reflexivity.
Qed.

(** The loop over the sections of a file, where each object is handed
    to [legacy] in the earlier version and to [later] in the later. *)
Lemma sections_as_objects (name : string)
      (legacy later : Object -> Go (World C) unit)
      (body : string -> Go (World C) (option error))
      (texts : list string) (w : World C) :
  (forall text w1,
      body text w1
      = (let text := GoStrings.TrimSpace text in
         if (GoStrings.len text =? 0)%nat then ret None
         else
           match decode text with
           | inl err =>
               match GoStrings.sliceTo text 100 with
               | Some section =>
                   ret (Some (Wrapf err ("decoding the resource file:"
                                           +:+ name +:+ ", section:"
                                           +:+ section +:+ "...")))
               | None => abort (Panic "slice bounds out of range")
               end
           | inr None => ret None
           | inr (Some resource) => legacy resource ;; ret None
           end) w1) ->
  List.Forall (fun text => exists r, decode text = inr r) (kept texts) ->
  List.Forall (fun o => forall w1, legacy o w1 = later o w1)
              (decoded (kept texts)) ->
  forEach texts body w
  = (range (decoded (kept texts)) later ;; ret None) w.
Proof.
  intros Hbody. revert w.
  induction texts as [| text texts IH]; intros w Hall Hsame; [reflexivity |].
  cbn [forEach]. unfold bind at 1. rewrite Hbody. cbv zeta.
  rewrite kept_cons in Hall, Hsame |- *.
  destruct (GoStrings.len (GoStrings.TrimSpace text) =? 0)%nat.
  - unfold ret at 1. now apply IH.
  - apply List.Forall_cons_iff in Hall. destruct Hall as [[r Hr] Hall].
    cbn [decoded flat_map] in Hsame |- *. rewrite Hr in Hsame |- *.
    destruct r as [o |].
    + cbn [app] in Hsame |- *. apply List.Forall_cons_iff in Hsame.
      destruct Hsame as [Ho Hsame]. cbn [range]. unfold bind.
      rewrite Ho. destruct (later o w) as [[] w1 | why w1]; [| reflexivity].
      unfold ret at 1. specialize (IH w1 Hall Hsame). unfold bind in IH.
      exact IH.
    + cbn [app] in Hsame |- *. unfold ret at 1. now apply IH.
Qed.

Lemma files_as_resources
      (later : string -> Object -> Go (World C) unit)
      (perFile : ResourceFile -> Go (World C) (option error))
      (files : list ResourceFile) (w : World C) :
  (forall f w1,
      List.In f files ->
      perFile f w1
      = (range (objectsOf (Content f)) (later (FileName f)) ;; ret None) w1) ->
  forEach files perFile w
  = (range (resourcesOf files)
           (fun d => range (Objects d) (later (ResourceFileName d))) ;;
     ret None) w.
Proof.
  revert w. induction files as [| f files IH]; intros w Hfile; [reflexivity |].
  cbn [forEach]. unfold bind at 1. rewrite (Hfile f w) by now left.
  cbn [resourcesOf flat_map]. fold (resourcesOf files).
  assert (IH' : forall w1,
             forEach files perFile w1
             = (range (resourcesOf files)
                      (fun d => range (Objects d) (later (ResourceFileName d))) ;;
                ret None) w1).
  { intros w1. apply IH. intros f' w2 Hin. apply Hfile. now right. }
  destruct (objectsOf (Content f)) as [| o objs] eqn:Hobjs.
  - cbn [range app]. unfold bind at 1. unfold ret at 1 2. apply IH'.
  - cbn [app range Objects ResourceFileName]. unfold bind.
    destruct (later (FileName f) o w) as [[] w1 | why w1]; [| reflexivity].
    destruct (range objs (later (FileName f)) w1) as [[] w2 | why w2];
      [| reflexivity].
    unfold ret at 1. specialize (IH' w2). unfold bind in IH'. exact IH'.
Qed.

(** The two versions agree.  When every section of every rendered file
    decodes and no object is a custom resource definition (the one kind
    that only the later version has a case for), decoding and applying
    section by section, as [ResourceApply] of the earlier version does, is
    the same run as applying the resources that [DeploymentsParse] of the
    later version has collected: the same requests in the same order, the
    same log, the same result.  The same holds for [ResourceDelete]. *)
Theorem both_versions_apply_the_same (files : list ResourceFile)
        (w : World C) :
  List.Forall decodes (List.map Content files) ->
  List.Forall (fun o => GoStrings.ToLower (Kind o)
                        <> "customresourcedefinition")
              (allObjects (resourcesOf files)) ->
  Pkg.DeploymentsParse (inr files) [] w = Done (resourcesOf files, None) w
  /\ Legacy.ResourceApply files w = Pkg.ResourceApply (resourcesOf files) w
  /\ Legacy.ResourceDelete files w = Pkg.ResourceDelete (resourcesOf files) w.
Proof.
  intros Hall Hkinds.
  assert (Hobjs : allObjects (resourcesOf files)
                  = flat_map (fun f => objectsOf (Content f)) files).
  { clear. induction files as [| f files IH]; [reflexivity |].
    cbn [resourcesOf flat_map]. fold (resourcesOf files).
    unfold allObjects in *. rewrite flat_map_app, IH.
    destruct (objectsOf (Content f)); cbn [flat_map Objects app];
      [reflexivity | now rewrite app_nil_r]. }
  rewrite Hobjs in Hkinds.
  assert (Hfile : forall f, List.In f files ->
             decodes (Content f)
             /\ List.Forall (fun o => GoStrings.ToLower (Kind o)
                                      <> "customresourcedefinition")
                            (objectsOf (Content f))).
  { intros f Hin. split.
    - rewrite List.Forall_forall in Hall. apply Hall.
      now apply (List.in_map Content).
    - rewrite List.Forall_forall in Hkinds |- *. intros o Ho.
      apply Hkinds. apply List.in_flat_map. now exists f. }
  split; [| split].
  - unfold Pkg.DeploymentsParse. now rewrite decodeFiles_run.
  - unfold Legacy.ResourceApply, Pkg.ResourceApply.
    apply (files_as_resources (applyResource Pkg.applyCases)).
    intros f w1 Hin. destruct (Hfile f Hin) as [Hdec Hk].
    unfold Legacy.applyFile.
    apply (sections_as_objects (FileName f)
             (applyResource applyCases (FileName f))).
    + intros text w2. reflexivity.
    + exact Hdec.
    + revert Hk. apply List.Forall_impl. intros o Ho w2.
      now apply applyResource_agrees.
  - unfold Legacy.ResourceDelete, Pkg.ResourceDelete.
    apply (files_as_resources (deleteResource Pkg.deleteCases)).
    intros f w1 Hin. destruct (Hfile f Hin) as [Hdec Hk].
    unfold Legacy.deleteFile.
    apply (sections_as_objects (FileName f)
             (deleteResource deleteCases (FileName f))).
    + intros text w2. reflexivity.
    + exact Hdec.
    + revert Hk. apply List.Forall_impl. intros o Ho w2.
      now apply deleteResource_agrees.
Qed.

(** *** What a section that does not decode leaves behind *)

Lemma kept_app (xs ys : list string) : kept (xs ++ ys) = kept xs ++ kept ys.
Proof. unfold kept. now rewrite List.map_app, List.filter_app. Qed.

(** A decode failure in the middle of a batch, in the two versions.  Let
    the files before [f] decode, and let a section of [f], of at least
    100 bytes once trimmed, fail to decode after sections that decode.
    [ResourceApply] of the earlier version has by then applied every
    object of the files before [f] and every object of the sections of
    [f] before the failing one, and returns the decode error with these
    applied: nothing is undone.  [DeploymentsParse] of the later version
    returns the same error having sent nothing; it keeps the resources of
    the files before [f] and drops the objects of [f] it had decoded. *)
Theorem decode_failure_leaves_the_earlier_sections_applied
        (pre post : list ResourceFile) (f : ResourceFile)
        (before after : list string) (bad : string) (err : error)
        (resources : list Resource) (w : World C) :
  List.Forall decodes (List.map Content pre) ->
  GoStrings.Split (Content f) Separator = before ++ bad :: after ->
  List.Forall (fun text => exists r, decode text = inr r) (kept before) ->
  (100 <= GoStrings.len (GoStrings.TrimSpace bad))%nat ->
  decode (GoStrings.TrimSpace bad) = inl err ->
  let failure :=
    Wrapf err ("decoding the resource file:" +:+ FileName f +:+ ", section:"
                 +:+ String.substring 0 100 (GoStrings.TrimSpace bad)
                 +:+ "...") in
  Legacy.ResourceApply (pre ++ f :: post) w
  = (range (resourcesOf pre)
           (fun d => range (Objects d)
                           (applyResource applyCases (ResourceFileName d))) ;;
     range (decoded (kept before)) (applyResource applyCases (FileName f)) ;;
     ret (Some failure)) w
  /\ Pkg.DeploymentsParse (inr (pre ++ f :: post)) resources w
     = Done (resources ++ resourcesOf pre, Some failure) w.
Proof.
  intros Hpre Hsplit Hbefore Hlong Hdec failure.
  assert (Hnonblank : (GoStrings.len (GoStrings.TrimSpace bad) =? 0)%nat
                      = false) by (apply Nat.eqb_neq; lia).
  split.
  - unfold Legacy.ResourceApply. rewrite forEach_app.
    rewrite (files_as_resources (applyResource applyCases)).
    2:{ intros f' w1 Hin. unfold Legacy.applyFile.
        apply (sections_as_objects (FileName f')
                 (applyResource applyCases (FileName f'))).
        - intros text w2. reflexivity.
        - rewrite List.Forall_forall in Hpre. apply Hpre.
          now apply (List.in_map Content).
        - apply List.Forall_forall. intros o _ w2. reflexivity. }
    unfold bind.
    destruct (range (resourcesOf pre) _ w) as [[] w1 | why w1];
      [| reflexivity].
    unfold ret at 1. cbn [forEach]. unfold bind.
    unfold Legacy.applyFile. change "---" with Separator. rewrite Hsplit.
    rewrite forEach_app.
    rewrite (sections_as_objects (FileName f)
               (applyResource applyCases (FileName f))
               (applyResource applyCases (FileName f)));
      [| intros text w2; reflexivity | exact Hbefore |
       apply List.Forall_forall; intros o _ w2; reflexivity].
    unfold bind.
    destruct (range (decoded (kept before)) _ w1) as [[] w2 | why w2];
      [| reflexivity].
    unfold ret at 1. cbn [forEach]. unfold bind.
    rewrite (long_undecodable_section_returns _ _ err w2 Hlong Hdec).
    reflexivity.
  - unfold Pkg.DeploymentsParse. rewrite decodeFiles_app.
    rewrite (decodeFiles_run pre resources w Hpre).
    cbn [Pkg.decodeFiles]. unfold bind at 1. rewrite Hsplit.
    rewrite decodeSections_app.
    rewrite (decodeSections_run _ before [] w Hbefore).
    cbn [Pkg.decodeSections]. unfold bind at 1. unfold Pkg.decodeSection.
    rewrite Hnonblank, Hdec, (sliceTo_long _ _ Hlong). reflexivity.
Qed.

End Decoding.

(* ================================================================= *)
(** * The arguments written by [simpleargs] *)

Section Paths.

Lemma append_inj_l (p a b : string) : p +:+ a = p +:+ b -> a = b.
Proof.
  induction p as [| c p IH]; [trivial |].
  change (String c p +:+ a) with (String c (p +:+ a)).
  change (String c p +:+ b) with (String c (p +:+ b)).
  intros [= Heq]. now apply IH.
Qed.

Lemma append_assoc (a b c : string) : (a +:+ b) +:+ c = a +:+ (b +:+ c).
Proof.
  induction a as [| x a IH]; [reflexivity |].
  change (String x ((a +:+ b) +:+ c) = String x (a +:+ (b +:+ c))).
  now rewrite IH.
Qed.

Lemma prefix_slash (c : ascii) (rest : string) :
  String.prefix "/" (String c rest) = Ascii.eqb c "/".
Proof.
  change (String.prefix "/" (String c rest))
    with (if ascii_dec "/" c then String.prefix "" rest else false).
  destruct (ascii_dec "/" c) as [<- | Hne].
  - now rewrite prefix_empty.
  - symmetry. apply Ascii.eqb_neq. congruence.
Qed.

Lemma Split_slash_cons (c : ascii) (rest : string) :
  GoStrings.Split (String c rest) "/"
  = if Ascii.eqb c "/" then "" :: GoStrings.Split rest "/"
    else match GoStrings.Split rest "/" with
         | piece :: pieces => String c piece :: pieces
         | [] => [String c ""]
         end.
Proof.
  unfold GoStrings.Split. cbn [GoStrings.splitFrom]. rewrite prefix_slash.
  reflexivity.
Qed.

Lemma Split_nonempty (s : string) : GoStrings.Split s "/" <> [].
Proof.
  destruct s as [| c rest]; [discriminate |].
  rewrite Split_slash_cons. destruct (Ascii.eqb c "/"); [discriminate |].
  destruct (GoStrings.Split rest "/"); discriminate.
Qed.

Lemma Split_slashFree (s : string) :
  Filepath.slashFree s = true -> GoStrings.Split s "/" = [s].
Proof.
  unfold Filepath.slashFree. induction s as [| c rest IH]; [reflexivity |].
  cbn [list_ascii_of_string existsb]. rewrite negb_orb, andb_true_iff.
  intros [Hc Hrest]. rewrite Split_slash_cons.
  rewrite Ascii.eqb_sym in Hc. apply negb_true_iff in Hc. rewrite Hc.
  now rewrite (IH Hrest).
Qed.

Lemma Split_snoc (dir name : string) :
  Filepath.slashFree name = true ->
  GoStrings.Split (dir +:+ "/" +:+ name) "/"
  = GoStrings.Split dir "/" ++ [name].
Proof.
  intros Hfree. induction dir as [| c dir IH].
  - change ("" +:+ "/" +:+ name) with (String "/" name).
    rewrite Split_slash_cons. cbn [Ascii.eqb]. 
    now rewrite (Split_slashFree _ Hfree).
  - change (String c dir +:+ "/" +:+ name)
      with (String c (dir +:+ "/" +:+ name)).
    rewrite !Split_slash_cons, IH.
    destruct (Ascii.eqb c "/"); [reflexivity |].
    pose proof (Split_nonempty dir) as Hne.
    destruct (GoStrings.Split dir "/"); [contradiction | reflexivity].
Qed.

Lemma concat_snoc (l : list string) (name : string) :
  String.concat "/" (l ++ [name])
  = match l with
    | [] => name
    | _ => String.concat "/" l +:+ "/" +:+ name
    end.
Proof.
  induction l as [| x l IH]; [reflexivity |].
  destruct l as [| y l]; [reflexivity |].
  change (String.concat "/" ((x :: y :: l) ++ [name]))
    with (x +:+ "/" +:+ String.concat "/" ((y :: l) ++ [name])).
  rewrite IH.
  change (String.concat "/" (x :: y :: l))
    with (x +:+ "/" +:+ String.concat "/" (y :: l)).
  now rewrite !append_assoc.
Qed.

Lemma cleanStep_element (rooted : bool) (kept : list string) (name : string) :
  Filepath.isElement name = true ->
  Filepath.cleanStep rooted kept name = name :: kept.
Proof.
  unfold Filepath.isElement, Filepath.cleanStep.
  rewrite !andb_true_iff, !negb_true_iff. intros [[[-> ->] ->] _].
  reflexivity.
Qed.

Lemma isElement_slashFree (name : string) :
  Filepath.isElement name = true -> Filepath.slashFree name = true.
Proof.
  unfold Filepath.isElement. rewrite !andb_true_iff. tauto.
Qed.

(** Joining a directory with the name of an entry appends the name to a
    prefix that depends on the directory only. *)
Lemma Join_element (dir : string) :
  exists base, forall name,
    Filepath.isElement name = true -> Filepath.Join dir name = base +:+ name.
Proof.
  destruct dir as [| c dir].
  - exists "". intros name Hname. pose proof Hname as Hel.
    unfold Filepath.isElement in Hname.
    rewrite !andb_true_iff, !negb_true_iff in Hname.
    destruct Hname as [[[Hne _] _] _].
    destruct name as [| x name]; [discriminate |].
    unfold Filepath.Join, Filepath.Clean.
    rewrite (Split_slashFree _ (isElement_slashFree _ Hel)).
    cbn [fold_left]. rewrite (cleanStep_element _ _ _ Hel).
    cbn [rev app String.concat].
    assert (Hx : String.prefix "/" (String x name) = false).
    { rewrite prefix_slash. apply isElement_slashFree in Hel.
      unfold Filepath.slashFree in Hel. cbn [list_ascii_of_string existsb] in Hel.
      rewrite negb_orb, andb_true_iff in Hel. destruct Hel as [Hx _].
      rewrite Ascii.eqb_sym in Hx. now apply negb_true_iff in Hx. }
    rewrite Hx. reflexivity.
  - set (rooted := Ascii.eqb c "/").
    set (kept := fold_left (Filepath.cleanStep rooted)
                           (GoStrings.Split (String c dir) "/") []).
    exists ((if rooted then "/" else "")
              +:+ match rev kept with
                  | [] => ""
                  | _ => String.concat "/" (rev kept) +:+ "/"
                  end).
    intros name Hname.
    unfold Filepath.Join, Filepath.Clean. cbv zeta.
    assert (Hp : String.prefix "/" (String c dir +:+ "/" +:+ name) = rooted)
      by apply prefix_slash.
    rewrite !Hp.
    rewrite (Split_snoc _ _ (isElement_slashFree _ Hname)).
    rewrite fold_left_app. fold kept. cbn [fold_left].
    rewrite (cleanStep_element _ _ _ Hname). cbn [rev].
    rewrite concat_snoc.
    assert (Hne : name <> "").
    { intros ->. discriminate. }
    destruct rooted.
    + destruct (rev kept); [reflexivity |].
      now rewrite !append_assoc.
    + destruct (rev kept) as [| x l].
      * destruct name; [contradiction | reflexivity].
      * destruct (String.concat "/" (x :: l) +:+ "/" +:+ name) eqn:Heq.
        -- exfalso. destruct (String.concat "/" (x :: l)); discriminate.
        -- rewrite <- Heq.
           change ("" +:+ String.concat "/" (x :: l) +:+ "/")
             with (String.concat "/" (x :: l) +:+ "/").
           now rewrite append_assoc.
Qed.

End Paths.

Section WriteArgs.

Import SimpleArgs.

Context `{Fmt}.

Variable output : string.

Lemma itoa_inj (i j : nat) : itoa i = itoa j -> i = j.
Proof.
  unfold itoa. intros Heq. apply DecimalNat.Unsigned.to_uint_inj.
  assert (Hsome : Some (Nat.to_uint i) = Some (Nat.to_uint j)).
  { rewrite <- (DecimalString.NilEmpty.usu (Nat.to_uint i)).
    rewrite <- (DecimalString.NilEmpty.usu (Nat.to_uint j)).
    now rewrite Heq. }
  now injection Hsome.
Qed.

(** A number is written with digits only. *)
Lemma itoa_digits (P : ascii -> bool) (i : nat) :
  forallb P (list_ascii_of_string "0123456789") = true ->
  forallb P (list_ascii_of_string (itoa i)) = true.
Proof.
  intros Hdigits. cbn in Hdigits. rewrite !andb_true_iff in Hdigits.
  unfold itoa. induction (Nat.to_uint i) as [| d IH | d IH | d IH | d IH | d IH
                                             | d IH | d IH | d IH | d IH | d IH];
    cbn; rewrite ?IH, ?andb_true_r; tauto.
Qed.

Lemma argName_element (k : nat) :
  Filepath.isElement ("ARG_" +:+ itoa k) = true.
Proof.
  unfold Filepath.isElement, Filepath.slashFree.
  change ("ARG_" +:+ itoa k)
    with (String "A" (String "R" (String "G" (String "_" (itoa k))))).
  cbn [String.eqb Ascii.eqb Bool.eqb negb andb list_ascii_of_string existsb
       orb].
  rewrite negb_true_iff.
  pose proof (itoa_digits (fun c => negb (Ascii.eqb "/" c)) k eq_refl) as Hd.
  induction (list_ascii_of_string (itoa k)) as [| c l IH]; [reflexivity |].
  cbn [forallb existsb] in *. apply andb_true_iff in Hd.
  destruct Hd as [Hc Hl]. apply negb_true_iff in Hc. rewrite Hc.
  now apply IH.
Qed.

Lemma verbFree_app (a b : string) :
  verbFree (a +:+ b) = verbFree a && verbFree b.
Proof.
  induction a as [| c a IH]; [reflexivity |].
  change (String c a +:+ b) with (String c (a +:+ b)).
  cbn [verbFree]. now rewrite IH, andb_assoc.
Qed.

Lemma verbFree_argName (k : nat) : verbFree ("ARG_" +:+ itoa k) = true.
Proof.
  rewrite verbFree_app. change (verbFree "ARG_") with true. cbn [andb].
  pose proof (itoa_digits (fun c => negb (Ascii.eqb c "%")) k eq_refl) as Hd.
  induction (itoa k) as [| c s IH]; [reflexivity |].
  cbn [list_ascii_of_string forallb verbFree] in *.
  apply andb_true_iff in Hd. destruct Hd as [-> Hs]. now apply IH.
Qed.

(** The paths of the arguments differ in their last element only. *)
Lemma argPath_base :
  exists dir,
    (forall name, Filepath.isElement name = true ->
                  Filepath.Join output name = dir +:+ name)
    /\ (forall k, argPath output k = dir +:+ "ARG_" +:+ itoa k).
Proof.
  destruct (Join_element output) as [dir Hdir]. exists dir.
  split; [exact Hdir |]. intros k. apply Hdir, argName_element.
Qed.

Lemma argPath_inj (i j : nat) : argPath output i = argPath output j -> i = j.
Proof.
  destruct argPath_base as (dir & _ & Hpath). rewrite !Hpath.
  intros Heq. apply append_inj_l, (append_inj_l "ARG_") in Heq.
  now apply itoa_inj.
Qed.

(** The loop up to the first refused write, or to its end. *)
Lemma writeFrom_run (args : list string) (i : nat) (d : Disk) :
  (forall k, (k < length args)%nat ->
             refuses d (argPath output (i + k)) = None) ->
  exists d',
    writeFrom output i args d = Done tt d'
    /\ refuses d' = refuses d
    /\ printed d'
       = printed d
           ++ List.map (fun k => formatted (argPath output k))
                       (seq i (length args))
    /\ (forall k arg,
           nth_error args k = Some arg ->
           files d' !! argPath output (i + k) = Some arg)
    /\ (forall p,
           (forall k, (k < length args)%nat -> p <> argPath output (i + k)) ->
           files d' !! p = files d !! p).
Proof.
  revert i d. induction args as [| arg args IH]; intros i d Hok.
  - exists d. cbn [writeFrom length seq List.map]. rewrite app_nil_r.
    split; [reflexivity |]. split; [reflexivity |]. split; [reflexivity |].
    split; [| reflexivity]. intros [| k] arg'; discriminate.
  - cbn [writeFrom]. unfold bind. unfold WriteFile at 1.
    fold (argPath output i).
    pose proof (Hok 0%nat ltac:(cbn; lia)) as H0.
    rewrite Nat.add_0_r in H0. rewrite H0. unfold logPrintf at 1.
    cbn [files refuses printed].
    set (d1 := mkDisk (<[argPath output i := arg]> (files d)) (refuses d)
                      (printed d ++ [formatted (argPath output i)])).
    destruct (IH (Datatypes.S i) d1) as (d' & Hrun & Href & Hpr & Hin & Hout).
    { intros k Hk. subst d1. cbn [refuses].
      replace (Datatypes.S i + k)%nat with (i + Datatypes.S k)%nat by lia.
      apply Hok. cbn. lia. }
    exists d'. split; [exact Hrun |]. split; [exact Href |]. split.
    + rewrite Hpr. subst d1. cbn [printed length seq List.map].
      now rewrite <- app_assoc.
    + split.
      * intros [| k] arg' Hnth.
        -- cbn in Hnth. injection Hnth as <-. rewrite Nat.add_0_r.
           rewrite Hout.
           ++ subst d1. cbn [files]. apply lookup_insert_eq.
           ++ intros k Hk Heq. apply argPath_inj in Heq. lia.
        -- cbn in Hnth.
           replace (i + Datatypes.S k)%nat with (Datatypes.S i + k)%nat by lia.
           now apply Hin.
      * intros p Hp. rewrite Hout.
        -- subst d1. cbn [files]. apply lookup_insert_ne.
           specialize (Hp 0%nat ltac:(cbn; lia)).
           rewrite Nat.add_0_r in Hp. congruence.
        -- intros k Hk.
           replace (Datatypes.S i + k)%nat with (i + Datatypes.S k)%nat by lia.
           apply Hp. cbn. lia.
Qed.

Lemma writeFrom_refused (args : list string) (i k : nat) (e : error)
      (d : Disk) :
  (k < length args)%nat ->
  (forall j, (j < k)%nat -> refuses d (argPath output (i + j)) = None) ->
  refuses d (argPath output (i + k)) = Some e ->
  exists d',
    writeFrom output i args d = Aborted (Fatal (Error e)) d'
    /\ printed d'
       = printed d
           ++ List.map (fun k => formatted (argPath output k))
                       (seq i (Datatypes.S k))
    /\ (forall j arg,
           (j < k)%nat -> nth_error args j = Some arg ->
           files d' !! argPath output (i + j) = Some arg)
    /\ (forall p,
           (forall j, (j < k)%nat -> p <> argPath output (i + j)) ->
           files d' !! p = files d !! p).
Proof.
  revert i k d. induction args as [| arg args IH]; intros i k d Hk Hok Hno;
    [cbn in Hk; lia |].
  cbn [writeFrom]. unfold bind. unfold WriteFile at 1.
  fold (argPath output i). destruct k as [| k].
  - rewrite Nat.add_0_r in Hno. rewrite Hno. unfold logPrintf at 1.
    eexists. split; [reflexivity |]. cbn [printed files seq List.map].
    split; [reflexivity |]. split; [intros j arg' Hj; lia | reflexivity].
  - pose proof (Hok 0%nat ltac:(lia)) as H0.
    rewrite Nat.add_0_r in H0. rewrite H0. unfold logPrintf at 1.
    cbn [files refuses printed].
    set (d1 := mkDisk (<[argPath output i := arg]> (files d)) (refuses d)
                      (printed d ++ [formatted (argPath output i)])).
    destruct (IH (Datatypes.S i) k d1) as (d' & Hrun & Hpr & Hin & Hout).
    { cbn in Hk. lia. }
    { intros j Hj. subst d1. cbn [refuses].
      replace (Datatypes.S i + j)%nat with (i + Datatypes.S j)%nat by lia.
      apply Hok. lia. }
    { subst d1. cbn [refuses].
      replace (Datatypes.S i + k)%nat with (i + Datatypes.S k)%nat by lia.
      exact Hno. }
    exists d'. split; [exact Hrun |]. split.
    + rewrite Hpr. subst d1. cbn [printed seq List.map].
      now rewrite <- app_assoc.
    + split.
      * intros [| j] arg' Hj Hnth.
        -- cbn in Hnth. injection Hnth as <-. rewrite Nat.add_0_r.
           rewrite Hout.
           ++ subst d1. cbn [files]. apply lookup_insert_eq.
           ++ intros j Hj' Heq. apply argPath_inj in Heq. lia.
        -- cbn in Hnth.
           replace (i + Datatypes.S j)%nat with (Datatypes.S i + j)%nat by lia.
           apply Hin; [lia | exact Hnth].
      * intros p Hp. rewrite Hout.
        -- subst d1. cbn [files]. apply lookup_insert_ne.
           specialize (Hp 0%nat ltac:(lia)).
           rewrite Nat.add_0_r in Hp. congruence.
        -- intros j Hj.
           replace (Datatypes.S i + j)%nat with (i + Datatypes.S j)%nat by lia.
           apply Hp. lia.
Qed.

(** Another file of the output directory is none of the files of the
    arguments. *)
Lemma other_element (name : string) (n : nat) :
  Filepath.isElement name = true ->
  (forall k, (k < n)%nat -> name <> "ARG_" +:+ itoa k) ->
  forall k, (k < n)%nat -> Filepath.Join output name <> argPath output k.
Proof.
  intros Hname Hother k Hk Heq.
  destruct argPath_base as (dir & Hdir & Hpath).
  rewrite (Hdir name Hname), Hpath in Heq.
  apply append_inj_l in Heq. now apply (Hother k Hk).
Qed.

(** [writeArgs].  The first element of the list is skipped and every
    other one is written to a file of its own: the element of index
    [k + 1] to the file [ARG_k] of the output directory, whose path is
    joined and cleaned by [filepath.Join] (an output of [./out] gives
    [out/ARG_0]); each path is then handed to [log.Printf] as its format,
    so that it is logged as it is when it holds no [%].  Different
    indices give different paths, so no argument overwrites another, and
    no other file of the output directory is touched.  A refused write
    ends the process after its path has been logged: the arguments before
    it have been written, the refused one and those after it have not.
    On an empty list the function panics. *)
Theorem writeArgs_writes_all_but_the_first (d : Disk) :
  exists dir,
    (forall name, Filepath.isElement name = true ->
                  Filepath.Join output name = dir +:+ name)
    /\ (forall k, argPath output k = dir +:+ "ARG_" +:+ itoa k)
    /\ (forall i j, argPath output i = argPath output j -> i = j)
    /\ (verbFree dir = true ->
        forall k, formatted (argPath output k) = argPath output k)
    /\ writeArgs output [] d = Aborted (Panic "slice bounds out of range") d
    /\ (forall first args,
           (forall k, (k < length args)%nat ->
                      refuses d (argPath output k) = None) ->
           exists d',
             writeArgs output (first :: args) d = Done tt d'
             /\ printed d'
                = printed d
                    ++ List.map (fun k => formatted (argPath output k))
                                (seq 0 (length args))
             /\ (forall k arg,
                    nth_error args k = Some arg ->
                    files d' !! argPath output k = Some arg)
             /\ (forall name,
                    Filepath.isElement name = true ->
                    (forall k, (k < length args)%nat ->
                               name <> "ARG_" +:+ itoa k) ->
                    files d' !! Filepath.Join output name
                    = files d !! Filepath.Join output name))
    /\ (forall first args k e,
           (k < length args)%nat ->
           (forall j, (j < k)%nat -> refuses d (argPath output j) = None) ->
           refuses d (argPath output k) = Some e ->
           exists d',
             writeArgs output (first :: args) d = Aborted (Fatal (Error e)) d'
             /\ printed d'
                = printed d
                    ++ List.map (fun k => formatted (argPath output k))
                                (seq 0 (Datatypes.S k))
             /\ (forall j arg,
                    (j < k)%nat -> nth_error args j = Some arg ->
                    files d' !! argPath output j = Some arg)
             /\ (forall name,
                    Filepath.isElement name = true ->
                    (forall j, (j < k)%nat -> name <> "ARG_" +:+ itoa j) ->
                    files d' !! Filepath.Join output name
                    = files d !! Filepath.Join output name)).
Proof.
  destruct argPath_base as (dir & Hdir & Hpath). exists dir.
  split; [exact Hdir |]. split; [exact Hpath |].
  split; [exact argPath_inj |]. split.
  { intros Hfree k. unfold formatted.
    now rewrite Hpath, verbFree_app, Hfree, verbFree_argName. }
  split; [reflexivity |]. split.
  - intros first args Hok.
    destruct (writeFrom_run args 0 d Hok) as (d' & Hrun & _ & Hpr & Hin & Hout).
    exists d'. split; [exact Hrun |]. split; [exact Hpr |].
    split; [exact Hin |]. intros name Hname Hother.
    apply Hout. cbn [Nat.add]. now apply other_element.
  - intros first args k e Hk Hok Hno.
    destruct (writeFrom_refused args 0 k e d Hk Hok Hno)
      as (d' & Hrun & Hpr & Hin & Hout).
    exists d'. split; [exact Hrun |]. split; [exact Hpr |].
    split; [exact Hin |]. intros name Hname Hother.
    apply Hout. cbn [Nat.add]. now apply other_element.
Qed.

End WriteArgs.

(* ================================================================= *)
(** * Applying and then deleting, on the reference cluster *)

Section RoundTrip.

Variable observe : nat -> Collection -> Object -> Store.Status.
Variable constants : ProviderConstants.

Hypothesis Hbudget : (0 < @GlobalRetryCount constants)%nat.

Local Notation clt := (Store.client observe).
Local Notation applyOne :=
  (@applyResource Store.Cluster (@Pkg.applyCases Store.Cluster clt constants)).
Local Notation deleteOne :=
  (@deleteResource Store.Cluster (@Pkg.deleteCases Store.Cluster clt constants)).

Lemma namespace_label (label : string) (sh : Shape) :
  shapeOf shapes label = Some sh ->
  (collection sh = Namespaces
   -> label = "namespace"
      /\ sh = mkShape apiCoreV1_Namespace "v1" false false Namespaces)
  /\ (collection sh <> Namespaces -> String.eqb label "namespace" = false).
Proof.
  intros Hsh. apply shapeOf_in in Hsh. cbn in Hsh.
  repeat (destruct Hsh as [[= <- <-] | Hsh];
          [split; cbn [collection];
           solve [ intros _; split; reflexivity
                 | intros _; reflexivity
                 | intros Hne; contradiction
                 | intros Heq; discriminate Heq ] |]).
  contradiction.
Qed.

(** One object of a batch under [ResourceDelete], on the reference
    cluster. *)
Lemma store_delete_step (file : string) (sh : Shape) (o : Object)
      (w : World Store.Cluster) :
  accepted sh o ->
  exists w',
    deleteOne file o w = Done tt w'
    /\ if Store.holds (collection sh) (clientNamespace sh o) (Name o)
                      (cluster w)
       then Store.entries (cluster w')
            = List.filter
                (fun e => negb (Store.isAt (collection sh)
                                           (clientNamespace sh o) (Name o) e))
                (Store.entries (cluster w))
            /\ logged w' = logged w ++ [deleted o]
       else Store.entries (cluster w') = Store.entries (cluster w)
            /\ logged w' = logged w ++ [notFoundOnDelete (file, o)].
Proof.
  intros (Hsh & Ht & Hv & _).
  destruct (namespace_label _ sh Hsh) as [Hns Hother].
  assert (Hhandler :
            exists after,
              lookupCase (@Pkg.deleteCases Store.Cluster clt constants)
                         (GoStrings.ToLower (Kind o))
              = Some (@deleteWith Store.Cluster clt (asserted sh)
                        (versionCase sh) (defaults sh) (namespaced sh)
                        (collection sh) after)
              /\ forall w1,
                   Store.holds (collection sh) (clientNamespace sh o) (Name o)
                               (cluster w1) = false ->
                   after (requestOf sh o) w1
                   = Done None
                          (mkWorld (if decide (collection sh = Namespaces)
                                    then Store.tick (cluster w1)
                                    else cluster w1)
                                   (calls w1
                                      ++ if decide (collection sh = Namespaces)
                                         then [CallGet Namespaces "" (Name o)]
                                         else [])
                                   (logged w1 ++ [deleted o]))).
  { destruct (decide (collection sh = Namespaces)) as [Hcoll | Hcoll].
    - destruct (Hns Hcoll) as [Hlabel ->]. rewrite Hlabel.
      eexists. split; [reflexivity |]. intros w1 Hgone.
      cbn [collection asserted versionCase] in *.
      unfold requestOf, clientNamespace in *. cbn [defaults namespaced] in *.
      unfold bind at 1. unfold logPrintf at 1. cbn [cluster calls logged].
      unfold Provider.RetryUntilTrue.
      destruct (2 * GlobalRetryCount)%nat as [| budget] eqn:Hb; [lia |].
      cbn [Provider.poll]. unfold bind at 1.
      rewrite (namespaceDeleted_run o Ht Hv). cbn [cluster calls logged].
      cbn [fst snd apiGet clt Store.client Store.get].
      unfold Store.get. cbn [fst snd].
      assert (Hfind : List.find (Store.isAt Namespaces "" (Name o))
                                (Store.entries (cluster w1)) = None).
      { unfold Store.holds in Hgone.
        induction (Store.entries (cluster w1)) as [| e es IH];
          [reflexivity |].
        cbn [existsb List.find] in *.
        destruct (Store.isAt Namespaces "" (Name o) e); [discriminate |].
        now apply IH. }
      rewrite Hfind. cbn [IsNotFound]. unfold ret.
      unfold deleted. now rewrite Hlabel.
    - destruct (@delete_case_shape Store.Cluster clt constants _ sh Hsh)
        as (after & Hcase & Hafter).
      exists after. split; [exact Hcase |]. intros w1 _.
      rewrite (Hafter Hcoll). unfold logDeleted, bind, logPrintf, ret.
      cbn [cluster calls logged].
      destruct (requestOf_fields sh o) as (_ & Hk & _ & Hn & _).
      unfold deleted. rewrite (Hother Hcoll), Hk, Hn, app_nil_r.
      now destruct w1. }
  destruct Hhandler as (after & Hcase & Hafter).
  unfold deleteResource. rewrite Hcase. unfold bind at 1.
  rewrite (deleteWith_run sh after o w Ht Hv).
  cbn [fst snd apiDelete clt Store.client Store.delete].
  unfold Store.delete.
  destruct (Store.holds (collection sh) (clientNamespace sh o) (Name o)
                        (cluster w)) eqn:Hheld; cbn [fst snd].
  - rewrite Hafter.
    + eexists. split; [reflexivity |]. cbn [cluster logged].
      split; [| reflexivity].
      destruct (decide (collection sh = Namespaces)); reflexivity.
    + cbn [cluster]. unfold Store.holds. cbn [Store.entries].
      induction (Store.entries (cluster w)) as [| e es IH]; [reflexivity |].
      cbn [List.filter].
      destruct (Store.isAt (collection sh) (clientNamespace sh o) (Name o) e)
        eqn:He; cbn [negb]; [exact IH |].
      cbn [existsb]. now rewrite He.
  - unfold logPrintf. eexists. split; [reflexivity |].
    cbn [cluster logged Store.entries Store.tick]. split; reflexivity.
Qed.

Lemma filter_absent (coll : Collection) (ns name : string)
      (es : list Store.Entry) :
  ~ List.In (coll, ns, name) (List.map Store.keyOfEntry es) ->
  List.filter (fun e => negb (Store.isAt coll ns name e)) es = es.
Proof.
  induction es as [| e es IH]; [reflexivity |].
  cbn [List.map List.filter]. intros Hnot.
  destruct (Store.isAt coll ns name e) eqn:He.
  - apply isAt_key in He. exfalso. apply Hnot. now left.
  - cbn [negb]. f_equal. apply IH. intros Hin. apply Hnot. now right.
Qed.

(** Deleting the objects the cluster holds, in the order it holds them. *)
Lemma delete_pass (ps : list (string * Object)) (w : World Store.Cluster) :
  List.Forall applicable (List.map snd ps) ->
  List.NoDup (List.map keyOf (List.map snd ps)) ->
  List.map Some (Store.keys (cluster w)) = List.map keyOf (List.map snd ps) ->
  exists w',
    range ps (fun p => deleteOne (fst p) (snd p)) w = Done tt w'
    /\ Store.entries (cluster w') = []
    /\ logged w' = logged w ++ List.map deleted (List.map snd ps).
Proof.
  revert w. induction ps as [| [file o] ps IH]; intros w Happ Hnodup Hkeys.
  - exists w. cbn [range List.map]. rewrite app_nil_r.
    split; [reflexivity |]. split; [| reflexivity].
    unfold Store.keys in Hkeys. cbn [List.map] in Hkeys.
    destruct (Store.entries (cluster w)); [reflexivity | discriminate].
  - cbn [List.map snd] in *. apply List.Forall_cons_iff in Happ.
    destruct Happ as [[sh Hacc] Happ].
    apply List.NoDup_cons_iff in Hnodup. destruct Hnodup as [Hnew Hnodup].
    pose proof (keyOf_accepted sh o Hacc) as Hkey.
    unfold Store.keys in Hkeys.
    destruct (Store.entries (cluster w)) as [| e es] eqn:Hes;
      [discriminate |].
    cbn [List.map] in Hkeys. injection Hkeys as Hhead Htail.
    rewrite Hkey in Hhead.
    assert (Hat : Store.isAt (collection sh) (clientNamespace sh o) (Name o) e
                  = true) by (apply (proj2 (isAt_key _ _ _ e)); congruence).
    assert (Hheld : Store.holds (collection sh) (clientNamespace sh o)
                                (Name o) (cluster w) = true).
    { unfold Store.holds. rewrite Hes. cbn [existsb]. now rewrite Hat. }
    destruct (store_delete_step file sh o w Hacc) as (w1 & Hrun & Hcase).
    rewrite Hheld in Hcase. destruct Hcase as [Hent Hlog].
    assert (Hent1 : Store.entries (cluster w1) = es).
    { rewrite Hent, Hes. cbn [List.filter]. rewrite Hat. cbn [negb].
      apply filter_absent. intros Hin. apply Hnew. rewrite <- Htail, Hkey.
      now apply (List.in_map Some). }
    destruct (IH w1 Happ Hnodup) as (w2 & Hrest & Hempty & Hlog2).
    { unfold Store.keys. now rewrite Hent1. }
    exists w2. cbn [range fst snd]. unfold bind. rewrite Hrun.
    split; [exact Hrest |]. split; [exact Hempty |].
    rewrite Hlog2, Hlog, <- app_assoc. reflexivity.
Qed.

(** Deleting from a cluster that holds nothing. *)
Lemma missing_pass (ps : list (string * Object)) (w : World Store.Cluster) :
  List.Forall applicable (List.map snd ps) ->
  Store.entries (cluster w) = [] ->
  exists w',
    range ps (fun p => deleteOne (fst p) (snd p)) w = Done tt w'
    /\ Store.entries (cluster w') = []
    /\ logged w' = logged w ++ List.map notFoundOnDelete ps.
Proof.
  revert w. induction ps as [| [file o] ps IH]; intros w Happ Hempty.
  - exists w. cbn [range List.map]. now rewrite app_nil_r.
  - cbn [List.map snd] in *. apply List.Forall_cons_iff in Happ.
    destruct Happ as [[sh Hacc] Happ].
    destruct (store_delete_step file sh o w Hacc) as (w1 & Hrun & Hcase).
    assert (Hheld : Store.holds (collection sh) (clientNamespace sh o)
                                (Name o) (cluster w) = false)
      by (unfold Store.holds; now rewrite Hempty).
    rewrite Hheld in Hcase. destruct Hcase as [Hent Hlog].
    destruct (IH w1 Happ) as (w2 & Hrest & Hempty2 & Hlog2);
      [now rewrite Hent |].
    exists w2. cbn [range fst snd]. unfold bind. rewrite Hrun.
    split; [exact Hrest |]. split; [exact Hempty2 |].
    rewrite Hlog2, Hlog, <- app_assoc. reflexivity.
Qed.

(** Apply, delete, delete again.  On the reference cluster, which
    stores what it is given and deletes at once and one object at a time,
    with a positive [GlobalRetryCount]: a batch of objects that their
    handlers accept, under distinct keys, is applied to the empty
    cluster; [ResourceDelete] of the same batch then returns nil, leaves
    the cluster empty and logs one deletion per object, in order; and a
    second [ResourceDelete] returns nil again, changes nothing and logs
    for every object the refused delete as an error under the name of its
    file.  So every delete handler addresses the very place its apply
    handler created the object in. *)
Theorem apply_then_delete_leaves_nothing (deployments : list Resource) :
  List.Forall applicable (allObjects deployments) ->
  List.NoDup (List.map keyOf (allObjects deployments)) ->
  exists w1 w2 w3,
    @Pkg.ResourceApply Store.Cluster clt constants deployments Store.start
    = Done None w1
    /\ List.map Some (Store.keys (cluster w1))
       = List.map keyOf (allObjects deployments)
    /\ @Pkg.ResourceDelete Store.Cluster clt constants deployments w1
       = Done None w2
    /\ Store.entries (cluster w2) = []
    /\ logged w2 = logged w1 ++ List.map deleted (allObjects deployments)
    /\ @Pkg.ResourceDelete Store.Cluster clt constants deployments w2
       = Done None w3
    /\ Store.entries (cluster w3) = []
    /\ logged w3 = logged w2 ++ List.map notFoundOnDelete (filed deployments).
Proof.
  intros Happ Hnodup.
  rewrite <- objects_of_files in Happ, Hnodup.
  destruct (first_pass observe constants _ Store.start Happ
              ltac:(constructor) Hnodup ltac:(intros o k _ _ []))
    as (w1 & Hrun1 & _ & Hkeys1 & _ & _).
  cbn [Store.start cluster Store.keys Store.empty Store.entries List.map app]
    in Hkeys1.
  destruct (delete_pass _ w1 Happ Hnodup Hkeys1) as (w2 & Hrun2 & Hempty2 & Hlog2).
  destruct (missing_pass _ w2 Happ Hempty2) as (w3 & Hrun3 & Hempty3 & Hlog3).
  exists w1, w2, w3.
  unfold Pkg.ResourceApply, Pkg.ResourceDelete, bind.
  rewrite !range_files, Hrun1, Hrun2, Hrun3.
  rewrite objects_of_files in Hkeys1, Hlog2.
  repeat split; assumption.
Qed.

End RoundTrip.

(* ================================================================= *)
(** * The further theorems at concrete inputs *)

Lemma handler_panics_on_another_type_witness :
  exists handler,
    lookupCase (@Pkg.applyCases _ (Store.client Demo.neverReady)
                                Demo.constants) "deployment"
    = Some handler
    /\ handler Samples.betaDeployment Store.start
       = Aborted (Panic "interface conversion") Store.start.
Proof.
  refine (proj1 (@handler_panics_on_another_type _
                   (Store.client Demo.neverReady) Demo.constants
                   (mkShape appsV1_Deployment "v1" true true Deployments)
                   Samples.betaDeployment eq_refl _) Store.start).
  cbn. discriminate.
Defined.

Lemma handler_refuses_another_version_witness :
  exists handler,
    lookupCase (@Pkg.applyCases _ (Store.client Demo.neverReady)
                                Demo.constants) "deployment"
    = Some handler
    /\ handler Samples.strayVersion Store.start
       = Done (Some (Errorf (unknownVersion "v2" "Deployment" "loadgen")))
              Store.start.
Proof.
  refine (proj1 (@handler_refuses_another_version _
                   (Store.client Demo.neverReady) Demo.constants
                   (mkShape appsV1_Deployment "v1" true true Deployments)
                   Samples.strayVersion eq_refl eq_refl _) Store.start).
  cbn. discriminate.
Defined.

Lemma delete_is_one_foreground_delete_witness :
  exists handler,
    lookupCase (@Pkg.deleteCases _ (Store.client Demo.neverReady)
                                 Demo.constants) "deployment"
    = Some handler
    /\ handler Demo.loadgen Demo.withLoadgen
       = Done None
              (mkWorld (Store.mkCluster [] 2)
                       [CallDelete Deployments "bench-42" "loadgen"
                                   DeletePropagationForeground]
                       [LogResourceDeleted "Deployment" "loadgen"]).
Proof.
  destruct (@delete_is_one_foreground_delete _
              (Store.client Demo.neverReady) Demo.constants
              (mkShape appsV1_Deployment "v1" true true Deployments)
              Demo.loadgen Demo.withLoadgen eq_refl eq_refl eq_refl
              ltac:(discriminate))
    as (handler & Hcase & Hrun & _).
  exists handler. split; [exact Hcase | exact Hrun].
Defined.

Lemma apply_returns_the_refusal_witness :
  exists handler,
    lookupCase (@Pkg.applyCases _ Samples.denying Demo.constants) "configmap"
    = Some handler
    /\ handler Demo.settings Samples.nowhere
       = Done (Some (Wrapf Samples.forbidden
                           (listFailed "ConfigMap" "settings")))
              (mkWorld tt [CallList ConfigMaps "default"] []).
Proof.
  destruct (@apply_returns_the_refusal _ Samples.denying Demo.constants
              (mkShape apiCoreV1_ConfigMap "v1" true true ConfigMaps)
              Demo.settings Samples.nowhere eq_refl eq_refl eq_refl)
    as (handler & Hcase & Hlist & _).
  exists handler. split; [exact Hcase |].
  exact (Hlist Samples.forbidden eq_refl).
Defined.

Lemma update_is_retried_on_conflict_only_witness :
  exists handler,
    lookupCase (@Pkg.applyCases _ Samples.contended Demo.constants)
               "deployment"
    = Some handler
    /\ handler Demo.loadgen Samples.nowhere
       = Done (Some (Wrapf Samples.conflict
                           (updateFailed "Deployment" "loadgen")))
              (mkWorld tt
                       (CallList Deployments "bench-42"
                          :: repeat (CallUpdate Deployments "bench-42"
                                                Demo.loadgen) 5)
                       []).
Proof.
  destruct (@update_is_retried_on_conflict_only _ Samples.contended
              Demo.constants
              (mkShape appsV1_Deployment "v1" true true Deployments)
              Demo.loadgen eq_refl eq_refl eq_refl Samples.nowhere
              [Demo.loadgen] eq_refl eq_refl)
    as (handler & Hcase & _ & _ & Hall).
  destruct Hall as (e & He & Hrun).
  { intros j Hj. exists Samples.conflict. split; reflexivity. }
  exists handler. split; [exact Hcase |].
  injection He as <-. exact Hrun.
Defined.

Lemma daemonsetReady_true_iff_none_unavailable_witness :
  @daemonsetReady _ (Store.client Demo.alwaysReady) Demo.nodeExporter
    (mkWorld (Store.mkCluster
                [Store.mkEntry DaemonSets "bench-42" Demo.nodeExporter] 1)
             [] [])
  = Done (true, None)
         (mkWorld (Store.mkCluster
                     [Store.mkEntry DaemonSets "bench-42" Demo.nodeExporter] 2)
                  [CallGet DaemonSets "bench-42" "node-exporter"] []).
Proof.
  destruct (@daemonsetReady_true_iff_none_unavailable _
              (Store.client Demo.alwaysReady) Demo.nodeExporter
              (mkWorld (Store.mkCluster
                          [Store.mkEntry DaemonSets "bench-42"
                                         Demo.nodeExporter] 1)
                       [] [])
              eq_refl eq_refl)
    as (ready & err & Hrun & Hready & _ & Herr).
  assert (Hr : ready = true)
    by (apply Hready; eexists; split; reflexivity).
  assert (He : err = None) by (apply Herr; eexists; reflexivity).
  rewrite Hr, He in Hrun. exact Hrun.
Defined.

Lemma serviceExists_by_type_and_address_witness :
  @serviceExists _ (Store.client Demo.alwaysReady) Samples.balancer
    Samples.withBalancer
  = Done (true, None)
         (mkWorld (Store.mkCluster
                     [Store.mkEntry Services "bench-42" Samples.balancer] 2)
                  [CallGet Services "bench-42" "grafana"]
                  [LogServiceDetails "grafana";
                   LogServiceAddress "10.0.0.1" 3000]).
Proof.
  refine (proj1 (proj2 (proj2 (proj2
            (@serviceExists_by_type_and_address _
               (Store.client Demo.alwaysReady) Samples.balancer
               Samples.withBalancer eq_refl eq_refl))))
            (Store.withStatus
               (Demo.alwaysReady 1 Services Samples.balancer)
               Samples.balancer)
            3000 [] eq_refl eq_refl _ eq_refl).
  cbn. discriminate.
Defined.

Lemma deploymentApply_waits_for_the_replicas_witness :
  @deploymentApply _ (Store.client Demo.alwaysReady) Demo.constants
    Demo.loadgen Store.start
  = Done None
         (mkWorld (Store.mkCluster
                     [Store.mkEntry Deployments "bench-42" Demo.loadgen] 3)
                  [CallList Deployments "bench-42";
                   CallCreate Deployments "bench-42" Demo.loadgen;
                   CallGet Deployments "bench-42" "loadgen"]
                  [LogResourceCreated "Deployment" "loadgen"]).
Proof.
  refine (proj1 (@deploymentApply_waits_for_the_replicas _
                   (Store.client Demo.alwaysReady) Demo.constants
                   Demo.loadgen eq_refl eq_refl Store.start []
                   eq_refl eq_refl eq_refl)
                0%nat
                (Store.withStatus
                   (Demo.alwaysReady 2 Deployments Demo.loadgen) Demo.loadgen)
                _ _ eq_refl eq_refl).
  - vm_compute. lia.
  - intros j Hj. lia.
Defined.

Lemma DeploymentsParse_appends_what_it_renders_witness :
  @Legacy.DeploymentsParse Store.Cluster Demo.library Demo.manifests
    Samples.client Store.start
  = Done (Legacy.mkK8sClient
            ["./manifests"] (Legacy.DeploymentVars Samples.client)
            [mkResourceFile "manifests/1_namespace.yml" "Namespace bench-42";
             mkResourceFile "manifests/2_deployment.yaml"
                            "Deployment loadgen bench-42";
             mkResourceFile "manifests/monitoring/3_service.yaml"
                            "Service grafana bench-42"],
          None)
         Store.start.
Proof.
  pose proof (@DeploymentsParse_appends_what_it_renders Store.Cluster
                Demo.library Demo.manifests Samples.client Store.start)
    as Hparse.
  cbv zeta in Hparse. destruct Hparse as (_ & Hrun & _).
  assert (Hfiles :
            @renderedFiles Demo.library Demo.manifests
              (Legacy.DeploymentVars Samples.client)
              (Legacy.fileList Demo.manifests
                               (Legacy.DeploymentFiles Samples.client))
            = Some [mkResourceFile "manifests/1_namespace.yml"
                                   "Namespace bench-42";
                    mkResourceFile "manifests/2_deployment.yaml"
                                   "Deployment loadgen bench-42";
                    mkResourceFile "manifests/monitoring/3_service.yaml"
                                   "Service grafana bench-42"])
    by (vm_compute; reflexivity).
  rewrite Hfiles in Hrun. exact (proj1 Hrun).
Defined.

Lemma unreadable_file_ends_the_parse_witness :
  @Legacy.DeploymentsParse Store.Cluster Demo.library Demo.manifests
    (Legacy.mkK8sClient ["absent.yaml"; "manifests"] ∅ []) Store.start
  = Aborted (Fatal ("Error reading file absent.yaml:open absent.yaml: "
                      +:+ "no such file or directory")) Store.start.
Proof.
  exact (proj2 (@unreadable_file_ends_the_parse Store.Cluster Demo.library
                  Demo.manifests
                  (Legacy.mkK8sClient ["absent.yaml"; "manifests"] ∅ [])
                  Store.start)
               "absent.yaml" ["manifests"] FS.ENOENT eq_refl eq_refl).
Defined.

Lemma DeploymentsParse_keeps_the_files_with_objects_witness :
  @Pkg.DeploymentsParse Store.Cluster Demo.decoder
    (inr [Samples.blank; Samples.twoObjects]) [] Store.start
  = Done ([mkResource "1_base.yaml"
             [Demo.bench;
              Demo.object "ConfigMap" "settings" "bench-42"
                          (apiCoreV1_ConfigMap, "v1")]],
          None)
         Store.start.
Proof.
  refine (proj1 (proj2 (proj2
            (@DeploymentsParse_keeps_the_files_with_objects Store.Cluster
               Demo.decoder [] Store.start))
            [Samples.blank; Samples.twoObjects] _)).
  apply (@decodes_check Demo.decoder). vm_compute. reflexivity.
Defined.

Lemma both_versions_apply_the_same_witness :
  @Legacy.ResourceApply _ (Store.client Demo.neverReady) Demo.constants
    Demo.decoder [Samples.blank; Samples.twoObjects] Store.start
  = @Pkg.ResourceApply _ (Store.client Demo.neverReady) Demo.constants
      (@resourcesOf Demo.decoder [Samples.blank; Samples.twoObjects])
      Store.start.
Proof.
  refine (proj1 (proj2
            (@both_versions_apply_the_same _ (Store.client Demo.neverReady)
               Demo.constants Demo.decoder
               [Samples.blank; Samples.twoObjects] Store.start _ _))).
  - apply (@decodes_check Demo.decoder). vm_compute. reflexivity.
  - apply List.Forall_forall. intros o Ho. vm_compute in Ho.
    destruct Ho as [<- | [<- | []]]; vm_compute; discriminate.
Defined.

Lemma writeArgs_writes_all_but_the_first_witness :
  exists d',
    @SimpleArgs.writeArgs Samples.fmt "./out" Samples.groups Samples.disk
    = Done tt d'
    /\ SimpleArgs.printed d' = ["out/ARG_0"; "out/ARG_1"]
    /\ SimpleArgs.files d' !! "out/ARG_0" = Some "v2.12.0"
    /\ SimpleArgs.files d' !! "out/ARG_1" = Some "1234"
    /\ SimpleArgs.files d' !! "out/event.json" = None.
Proof.
  destruct (@writeArgs_writes_all_but_the_first Samples.fmt "./out"
              Samples.disk)
    as (dir & _ & _ & _ & _ & _ & Hwrites & _).
  destruct (Hwrites "/benchmark v2.12.0" ["v2.12.0"; "1234"]
                    ltac:(intros k Hk; reflexivity))
    as (d' & Hrun & Hprinted & Hin & Hout).
  exists d'. split; [exact Hrun |]. split; [exact Hprinted |].
  split; [exact (Hin 0%nat _ eq_refl) |].
  split; [exact (Hin 1%nat _ eq_refl) |].
  apply (Hout "event.json" eq_refl).
  intros [| [| k]] Hk; [discriminate | discriminate | cbn in Hk; lia].
Defined.

Lemma apply_then_delete_leaves_nothing_witness :
  exists w1 w2,
    @Pkg.ResourceApply _ (Store.client Demo.neverReady) Demo.constants
      Demo.batch Store.start
    = Done None w1
    /\ @Pkg.ResourceDelete _ (Store.client Demo.neverReady) Demo.constants
         Demo.batch w1
       = Done None w2
    /\ Store.entries (cluster w2) = []
    /\ logged w2 = logged w1 ++ List.map deleted (allObjects Demo.batch).
Proof.
  destruct (apply_then_delete_leaves_nothing Demo.neverReady Demo.constants
              ltac:(vm_compute; lia) Demo.batch)
    as (w1 & w2 & w3 & Hrun1 & _ & Hrun2 & Hempty & Hlog & _).
  - repeat constructor;
      (eexists; split; [vm_compute; reflexivity |];
       split; [reflexivity |]; split; [reflexivity |];
       cbn; intros ?; first [discriminate | congruence]).
  - vm_compute. repeat constructor; cbn; intuition discriminate.
  - exists w1, w2. auto.
Defined.


(** ** [main]: who may start a benchmark *)

Section MainGate.

Import SimpleArgs.

Context `{Externals} `{Fmt}.

Variable input output regex : string.

Local Notation nilPointer :=
  (Panic "invalid memory address or nil pointer dereference").

(** The machine after a line was logged. *)
Local Notation logged' m lines :=
  (mkMachine (mkDisk (files (disk m)) (refuses (disk m))
                     (printed (disk m) ++ lines))
             (stdout m) (requests m)).

(** [main] up to the test of the author association. *)
Lemma main_cases (m : Machine) :
  main input output regex m
  = match files (disk m) !! input with
    | None =>
        Aborted (Fatal ("open " +:+ input +:+ ": no such file or directory")) m
    | Some data =>
        match ParseWebHook "issue_comment" data with
        | inl err =>
            Aborted (Fatal ("could not parse = %v" +:+ nl +:+ " "
                              +:+ Error err)) m
        | inr OtherEvent =>
            Aborted (Fatal "simpleargs only supports issue_comment event") m
        | inr (IssueCommentEv e) =>
            match Comment e with
            | None => Aborted nilPointer m
            | Some comment =>
                match AuthorAssociation comment with
                | None => Aborted nilPointer m
                | Some association =>
                    if negb (String.eqb association "COLLABORATOR")
                       && negb (String.eqb association "MEMBER")
                    then Done (Some 78)
                              (logged' m ["Author is not a member or collaborator"])
                    else startBenchmark output regex e m
                end
            end
        end
    end.
Proof.
  unfold main, bind, ReadFile.
  destruct (files (disk m) !! input) as [data |]; [| reflexivity].
  destruct (ParseWebHook "issue_comment" data) as [err | [e |]];
    [reflexivity | | reflexivity].
  destruct (Comment e) as [comment |]; [| reflexivity]. cbn [deref ret].
  destruct (AuthorAssociation comment) as [association |]; [| reflexivity].
  cbn [deref ret].
  destruct (negb (String.eqb association "COLLABORATOR")
            && negb (String.eqb association "MEMBER")); reflexivity.
Qed.

(** The branch of a member or collaborator, up to the match. *)
Lemma startBenchmark_cases (e : IssueCommentEvent) (m : Machine) :
  let m1 := logged' m ["Author is member or collaborator"] in
  startBenchmark output regex e m
  = match Repo e with
    | None => Aborted nilPointer m1
    | Some repo =>
    match Owner repo with
    | None => Aborted nilPointer m1
    | Some user =>
    match Login user with
    | None => Aborted nilPointer m1
    | Some owner =>
    match RepoName repo with
    | None => Aborted nilPointer m1
    | Some name =>
    match EventIssue e with
    | None => Aborted nilPointer m1
    | Some issue =>
    match Number issue with
    | None => Aborted nilPointer m1
    | Some prnumber =>
    match Compile regex with
    | None => Aborted (Panic "regexp: Compile: error parsing regexp") m1
    | Some re =>
    match Comment e with
    | None => Aborted nilPointer m1
    | Some comment =>
    match Body comment with
    | None => Aborted nilPointer m1
    | Some body =>
        if MatchString re body then
          let groups := FindStringSubmatch re body ++ [Itoa prnumber] in
          (onDisk (writeArgs output groups) ;;
           match nth_error groups 1 with
           | None => abort (Panic "index out of range")
           | Some releaseVersion =>
               print releaseVersion ;;
               let* err := post (mkRequest owner name prnumber
                                           (welcome prnumber releaseVersion)) in
               match err with
               | Some err => print (Error err +:+ "+") ;; ret None
               | None => ret None
               end
           end) m1
        else Done (Some 78)
                  (logged' m ["Author is member or collaborator";
                              "matching command not found"])
    end end end end end end end end end.
Proof.
  cbv zeta. unfold startBenchmark. unfold bind at 1.
  change (onDisk (logPrintf "Author is member or collaborator") m)
    with (Done tt (logged' m ["Author is member or collaborator"])).
  cbv beta iota.
  set (m1 := logged' m ["Author is member or collaborator"]).
  destruct (Repo e) as [repo |]; [| reflexivity]. cbn [deref].
  unfold bind at 1. unfold ret at 1.
  destruct (Owner repo) as [user |]; [| reflexivity]. cbn [deref].
  unfold bind at 1. unfold ret at 1.
  destruct (Login user) as [owner |]; [| reflexivity]. cbn [deref].
  unfold bind at 1. unfold ret at 1. unfold bind at 1. unfold ret at 1.
  destruct (RepoName repo) as [name |]; [| reflexivity]. cbn [deref].
  unfold bind at 1. unfold ret at 1.
  destruct (EventIssue e) as [issue |]; [| reflexivity]. cbn [deref].
  unfold bind at 1. unfold ret at 1.
  destruct (Number issue) as [prnumber |]; [| reflexivity]. cbn [deref].
  unfold bind at 1. unfold ret at 1.
  destruct (Compile regex) as [re |]; [| reflexivity].
  destruct (Comment e) as [comment |]; [| reflexivity]. cbn [deref].
  unfold bind at 1. unfold ret at 1.
  destruct (Body comment) as [body |] eqn:Hbody; [| reflexivity]. cbn [deref].
  unfold bind at 1. unfold ret at 1.
  destruct (MatchString re body).
  { unfold bind at 1. unfold ret at 1. rewrite Hbody. cbn [deref].
    unfold bind at 1. unfold ret at 1. reflexivity. }
  unfold bind, ret. subst m1.
  change (onDisk (logPrintf "matching command not found") ?x)
    with (Done tt (logged' x ["matching command not found"])).
  cbv beta iota. cbn [disk files refuses printed stdout requests].
  now rewrite <- app_assoc.
Qed.

(** [main] serves members and collaborators only.  Whatever the event,
    the pattern and the answers of the libraries are: when a run of
    [main] has written a file, sent a request or printed a line, however
    it ended, then the input held an issue comment event whose author
    association is [COLLABORATOR] or [MEMBER], the pattern compiled and
    the body of the comment matched it.  A comment of any other author
    ends the run with [os.Exit(78)] after one log line; so does a comment
    of a member or collaborator that does not match. *)
Theorem main_serves_members_and_collaborators_only (m : Machine) :
  (let m' := worldOf (main input output regex m) in
   files (disk m') <> files (disk m)
   \/ requests m' <> requests m
   \/ stdout m' <> stdout m ->
   exists data e comment association body re,
     files (disk m) !! input = Some data
     /\ ParseWebHook "issue_comment" data = inr (IssueCommentEv e)
     /\ Comment e = Some comment
     /\ AuthorAssociation comment = Some association
     /\ (association = "COLLABORATOR" \/ association = "MEMBER")
     /\ Body comment = Some body
     /\ Compile regex = Some re
     /\ MatchString re body = true)
  /\ (forall data e comment association,
         files (disk m) !! input = Some data ->
         ParseWebHook "issue_comment" data = inr (IssueCommentEv e) ->
         Comment e = Some comment ->
         AuthorAssociation comment = Some association ->
         association <> "COLLABORATOR" ->
         association <> "MEMBER" ->
         main input output regex m
         = Done (Some 78)
                (logged' m ["Author is not a member or collaborator"]))
  /\ (forall data e comment association body owner repo user name issue
             prnumber re,
         files (disk m) !! input = Some data ->
         ParseWebHook "issue_comment" data = inr (IssueCommentEv e) ->
         Comment e = Some comment ->
         AuthorAssociation comment = Some association ->
         association = "COLLABORATOR" \/ association = "MEMBER" ->
         Repo e = Some repo -> Owner repo = Some user ->
         Login user = Some owner -> RepoName repo = Some name ->
         EventIssue e = Some issue -> Number issue = Some prnumber ->
         Compile regex = Some re ->
         Body comment = Some body ->
         MatchString re body = false ->
         main input output regex m
         = Done (Some 78)
                (logged' m ["Author is member or collaborator";
                            "matching command not found"])).
Proof.
  split; [| split].
  - cbv zeta. rewrite main_cases.
    destruct (files (disk m) !! input) as [data |] eqn:Hdata;
      [| cbn [worldOf]; intuition congruence].
    destruct (ParseWebHook "issue_comment" data) as [err | [e |]] eqn:Hparse;
      [cbn [worldOf]; intuition congruence | |
       cbn [worldOf]; intuition congruence].
    destruct (Comment e) as [comment |] eqn:Hcomment;
      [| cbn [worldOf]; intuition congruence].
    destruct (AuthorAssociation comment) as [association |] eqn:Hassoc;
      [| cbn [worldOf]; intuition congruence].
    destruct (negb (String.eqb association "COLLABORATOR")
              && negb (String.eqb association "MEMBER")) eqn:Hgate;
      [cbn [worldOf disk files requests stdout]; intuition congruence |].
    assert (Hok : association = "COLLABORATOR" \/ association = "MEMBER").
    { destruct (String.eqb_spec association "COLLABORATOR"); [now left |].
      destruct (String.eqb_spec association "MEMBER"); [now right |].
      discriminate. }
    pose proof (startBenchmark_cases e m) as Hstart. cbv zeta in Hstart.
    rewrite Hstart, Hcomment.
    destruct (Repo e) as [repo |]; [| cbn; intuition congruence].
    destruct (Owner repo) as [user |]; [| cbn; intuition congruence].
    destruct (Login user) as [owner |]; [| cbn; intuition congruence].
    destruct (RepoName repo) as [name |]; [| cbn; intuition congruence].
    destruct (EventIssue e) as [issue |]; [| cbn; intuition congruence].
    destruct (Number issue) as [prnumber |]; [| cbn; intuition congruence].
    destruct (Compile regex) as [re |] eqn:Hre; [| cbn; intuition congruence].
    destruct (Body comment) as [body |] eqn:Hbody;
      [| cbn; intuition congruence].
    destruct (MatchString re body) eqn:Hmatch; [| cbn; intuition congruence].
    intros _. exists data, e, comment, association, body, re. auto 10.
  - intros data e comment association Hdata Hparse Hcomment Hassoc Hc Hm.
    rewrite main_cases, Hdata, Hparse, Hcomment, Hassoc.
    apply String.eqb_neq in Hc, Hm. now rewrite Hc, Hm.
  - intros data e comment association body owner repo user name issue
           prnumber re Hdata Hparse Hcomment Hassoc Hok Hrepo Howner Hlogin
           Hname Hissue Hnumber Hre Hbody Hmatch.
    rewrite main_cases, Hdata, Hparse, Hcomment, Hassoc.
    assert (Hgate : negb (String.eqb association "COLLABORATOR")
                    && negb (String.eqb association "MEMBER") = false).
    { destruct Hok as [-> | ->]; reflexivity. }
    rewrite Hgate.
    pose proof (startBenchmark_cases e m) as Hstart. cbv zeta in Hstart.
    rewrite Hstart, Hrepo, Howner, Hlogin, Hname, Hissue, Hnumber, Hre,
      Hcomment, Hbody, Hmatch.
    reflexivity.
Qed.

(** A comment that starts a benchmark.  For a comment of a member or
    collaborator whose body matches the pattern, on a disk that accepts
    the writes: the submatches after the first (the whole match) and,
    last, the number of the pull request are written to [ARG_0],
    [ARG_1], ... in the output directory, each path being joined by
    [filepath.Join] and handed to [log.Printf] as its format, and no
    other file of that directory is touched; the first of them is printed
    and taken as the release version (with a pattern that has no group it
    is the number of the pull request); one comment is requested on the
    pull request, with the text built from that number and version; and
    [main] ends normally whatever the answer to that request is, an error
    being printed and nothing more.  ([FindStringSubmatch] is taken to
    return at least the whole match, as [regexp] does for a body that
    matches.) *)
Theorem main_writes_the_groups_and_announces
        (m : Machine) (data : string) (e : IssueCommentEvent)
        (comment : IssueComment) (association body owner name : string)
        (repo : Repository) (user : User) (issue : Issue) (prnumber : Z)
        (re : Regexp) (whole : string) (submatches : list string) :
  files (disk m) !! input = Some data ->
  ParseWebHook "issue_comment" data = inr (IssueCommentEv e) ->
  Comment e = Some comment ->
  AuthorAssociation comment = Some association ->
  association = "COLLABORATOR" \/ association = "MEMBER" ->
  Repo e = Some repo -> Owner repo = Some user ->
  Login user = Some owner -> RepoName repo = Some name ->
  EventIssue e = Some issue -> Number issue = Some prnumber ->
  Compile regex = Some re ->
  Body comment = Some body ->
  MatchString re body = true ->
  FindStringSubmatch re body = whole :: submatches ->
  let args := submatches ++ [Itoa prnumber] in
  let releaseVersion := List.hd (Itoa prnumber) submatches in
  let request :=
    mkRequest owner name prnumber (welcome prnumber releaseVersion) in
  (forall k, (k < length args)%nat ->
             refuses (disk m) (argPath output k) = None) ->
  exists m',
    main input output regex m = Done None m'
    /\ requests m' = requests m ++ [request]
    /\ stdout m'
       = stdout m
           ++ releaseVersion
              :: match CreateComment request with
                 | Some err => [Error err +:+ "+"]
                 | None => []
                 end
    /\ printed (disk m')
       = printed (disk m)
           ++ "Author is member or collaborator"
              :: List.map (fun k => formatted (argPath output k))
                          (seq 0 (length args))
    /\ (forall k arg,
           nth_error args k = Some arg ->
           files (disk m') !! argPath output k = Some arg)
    /\ (forall other,
           Filepath.isElement other = true ->
           (forall k, (k < length args)%nat -> other <> "ARG_" +:+ itoa k) ->
           files (disk m') !! Filepath.Join output other
           = files (disk m) !! Filepath.Join output other).
Proof.
  intros Hdata Hparse Hcomment Hassoc Hok Hrepo Howner Hlogin Hname Hissue
         Hnumber Hre Hbody Hmatch Hfound args releaseVersion request Hwrites.
  assert (Hgate : negb (String.eqb association "COLLABORATOR")
                  && negb (String.eqb association "MEMBER") = false).
  { destruct Hok as [-> | ->]; reflexivity. }
  pose proof (startBenchmark_cases e m) as Hstart. cbv zeta in Hstart.
  rewrite main_cases, Hdata, Hparse, Hcomment, Hassoc, Hgate, Hstart, Hrepo,
    Howner, Hlogin, Hname, Hissue, Hnumber, Hre, Hcomment, Hbody, Hmatch,
    Hfound.
  clear Hstart.
  set (m1 := logged' m ["Author is member or collaborator"]).
  change ((whole :: submatches) ++ [Itoa prnumber]) with (whole :: args).
  assert (Hfirst : nth_error (whole :: args) 1 = Some releaseVersion).
  { subst args releaseVersion. now destruct submatches. }
  destruct (writeFrom_run output args 0 (disk m1)) as
    (d' & Hrun & Href & Hprinted & Hin & Hout).
  { intros k Hk. subst m1. cbn [disk refuses Nat.add]. now apply Hwrites. }
  exists (mkMachine d'
            (stdout m ++ releaseVersion
               :: match CreateComment request with
                  | Some err => [Error err +:+ "+"]
                  | None => []
                  end)
            (requests m ++ [request])).
  split.
  { unfold bind at 1. unfold onDisk. cbn [writeArgs]. rewrite Hrun, Hfirst.
    unfold bind at 1. unfold print at 1. unfold bind at 1. unfold post at 1.
    cbn [disk stdout requests]. fold request.
    destruct (CreateComment request) as [err |].
    - unfold bind, print, ret. cbn [disk stdout requests].
      now rewrite <- app_assoc.
    - reflexivity. }
  subst m1. cbn [disk files printed] in Hprinted, Hout.
  cbn [requests stdout disk].
  split; [reflexivity |]. split; [reflexivity |].
  split; [rewrite Hprinted, <- app_assoc; reflexivity |].
  split; [exact Hin |].
  intros other Hother Hnone. apply Hout. cbn [Nat.add].
  now apply other_element.
Qed.

End MainGate.

(** ** The theorems about [main] at concrete inputs *)

Lemma main_serves_members_and_collaborators_only_witness :
  @SimpleArgs.main Samples.externals Samples.fmt "passer-by.json"
    "/github/home" "^/benchmark (.*)$" Samples.machine
  = Done (Some 78)
         (SimpleArgs.mkMachine
            (SimpleArgs.mkDisk
               (SimpleArgs.files (SimpleArgs.disk Samples.machine))
               (SimpleArgs.refuses (SimpleArgs.disk Samples.machine))
               ["Author is not a member or collaborator"])
            [] []).
Proof.
  refine (proj1 (proj2
            (@main_serves_members_and_collaborators_only Samples.externals
               Samples.fmt "passer-by.json" "/github/home"
               "^/benchmark (.*)$" Samples.machine))
            "passer-by" Samples.byPasserBy
            (SimpleArgs.mkIssueComment (Some "NONE")
                                       (Some "/benchmark v2.12.0"))
            "NONE" _ eq_refl eq_refl eq_refl _ _).
  - vm_compute. reflexivity.
  - discriminate.
  - discriminate.
Defined.

Lemma main_writes_the_groups_and_announces_witness :
  exists m',
    @SimpleArgs.main Samples.externals Samples.fmt "member.json" "./out"
      "^/benchmark (.*)$" Samples.machine
    = Done None m'
    /\ SimpleArgs.requests m'
       = [SimpleArgs.mkRequest "prometheus" "prometheus" 1234
            (SimpleArgs.welcome 1234 "v2.12.0")]
    /\ SimpleArgs.stdout m' = ["v2.12.0"]
    /\ SimpleArgs.printed (SimpleArgs.disk m')
       = ["Author is member or collaborator"; "out/ARG_0"; "out/ARG_1"]
    /\ SimpleArgs.files (SimpleArgs.disk m') !! "out/ARG_0" = Some "v2.12.0"
    /\ SimpleArgs.files (SimpleArgs.disk m') !! "out/ARG_1" = Some "1234".
Proof.
  destruct (@main_writes_the_groups_and_announces Samples.externals
              Samples.fmt "member.json" "./out" "^/benchmark (.*)$"
              Samples.machine "member" Samples.byMember
              (SimpleArgs.mkIssueComment (Some "MEMBER")
                                         (Some "/benchmark v2.12.0"))
              "MEMBER" "/benchmark v2.12.0" "prometheus" "prometheus"
              (SimpleArgs.mkRepository
                 (Some (SimpleArgs.mkUser (Some "prometheus")))
                 (Some "prometheus"))
              (SimpleArgs.mkUser (Some "prometheus"))
              (SimpleArgs.mkIssue (Some 1234)) 1234 tt
              "/benchmark v2.12.0" ["v2.12.0"]
              ltac:(vm_compute; reflexivity) eq_refl eq_refl eq_refl
              ltac:(now right) eq_refl eq_refl eq_refl eq_refl eq_refl eq_refl
              eq_refl eq_refl eq_refl eq_refl
              ltac:(intros k Hk; reflexivity))
    as (m' & Hrun & Hreq & Hout & Hprinted & Hin & _).
  exists m'. split; [exact Hrun |]. split; [exact Hreq |].
  split; [exact Hout |]. split; [exact Hprinted |].
  split; [exact (Hin 0%nat _ eq_refl) | exact (Hin 1%nat _ eq_refl)].
Defined.

(** ** The wait of the service handler *)

Section ServiceWait.

Context {C : Type} `{Clientset C} `{ProviderConstants}.

Variable o : Object.
Hypothesis Htype : goType o = apiCoreV1_Service.
Hypothesis Hversion : Version o = "v1".

Local Notation req := (defaultNamespace o).
Local Notation ns := (Namespace (defaultNamespace o)).

(** The cluster before the [k]-th [Get] of the poll (counted from 0)
    when the poll starts on the cluster [c], and its answer. *)
Local Notation clusterAt c k :=
  (Nat.iter k (fun cl => snd (apiGet Services ns (Name o) cl)) c).
Local Notation answerAt c k :=
  (fst (apiGet Services ns (Name o) (clusterAt c k))).

(** The service handler waits for an address.  When the list does not
    show the service and the create is accepted, the handler logs the
    creation and then asks for the service again and again, with [Get]s
    only, as long as the answer is a load balancer without an address.
    An answer of another type ends the wait with nil; so does a load
    balancer with an address and a port, whose addresses are logged; a
    failed [Get] ends it with the wrapped failure; and after
    [GlobalRetryCount] answers without an address the handler gives up
    with the timeout error. *)
Theorem serviceApply_waits_for_an_address (w : World C)
        (items : list Object) :
  let listed := apiList Services ns (cluster w) in
  let made := apiCreate Services ns req (snd listed) in
  let c0 := snd made in
  let pending k :=
    exists res, answerAt c0 k = inr res
                /\ ServiceType res = ServiceTypeLoadBalancer
                /\ LoadBalancerIngress res = [] in
  let after k lines :=
    mkWorld (clusterAt c0 k)
            ((calls w ++ [CallList Services ns; CallCreate Services ns req])
               ++ repeat (CallGet Services ns (Name o)) k)
            ((logged w ++ [LogResourceCreated (Kind o) (Name o)]) ++ lines) in
  fst listed = inr items ->
  existsIn items req = false ->
  fst made = None ->
  (forall k res,
      (k < GlobalRetryCount)%nat -> (forall j, (j < k)%nat -> pending j) ->
      answerAt c0 k = inr res ->
      ServiceType res <> ServiceTypeLoadBalancer ->
      serviceApply o w = Done None (after (Datatypes.S k) []))
  /\ (forall k res port ports,
         (k < GlobalRetryCount)%nat -> (forall j, (j < k)%nat -> pending j) ->
         answerAt c0 k = inr res ->
         ServiceType res = ServiceTypeLoadBalancer ->
         LoadBalancerIngress res <> [] ->
         Ports res = port :: ports ->
         serviceApply o w
         = Done None
                (after (Datatypes.S k)
                       (LogServiceDetails (Name o)
                          :: List.map (fun ip => LogServiceAddress ip port)
                                      (LoadBalancerIngress res))))
  /\ (forall k e,
         (k < GlobalRetryCount)%nat -> (forall j, (j < k)%nat -> pending j) ->
         answerAt c0 k = inl e ->
         serviceApply o w
         = Done (Some (Wrapf e "Checking Service resource status failed"))
                (after (Datatypes.S k) []))
  /\ ((forall j, (j < GlobalRetryCount)%nat -> pending j) ->
      serviceApply o w
      = Done (Some (TimeoutError ("applying service:" +:+ Name o)
                                 GlobalRetryCount))
             (after GlobalRetryCount [])).
Proof.
  intros listed made c0 pending after Hitems Hnew Hmade.
  destruct (defaultNamespace_fields o) as (Ht & Hk & Hv & Hn & _).
  assert (Hrun :
            serviceApply o w
            = Provider.poll ("applying service:" +:+ Name o)
                            GlobalRetryCount GlobalRetryCount
                            (serviceExists req) (after 0%nat [])).
  { unfold serviceApply, applyWith. unfold bind at 1.
    rewrite (assertType_ok _ _ _ Htype). rewrite Hv, Hversion.
    cbn [String.eqb Ascii.eqb Bool.eqb]. unfold bind at 1.
    unfold createOrUpdate. unfold bind at 1. rewrite clientList_run.
    fold listed. rewrite Hitems, Hnew. unfold bind at 1.
    rewrite clientCreate_run. cbn [cluster calls logged]. fold made.
    rewrite Hmade. unfold bind at 1. unfold logPrintf at 1.
    cbn [cluster calls logged]. unfold ret at 1.
    unfold Provider.RetryUntilTrue. rewrite Hn, Hk.
    subst after. cbn beta. cbn [repeat Nat.iter].
    rewrite !app_nil_r, <- app_assoc. reflexivity. }
  assert (Hstep : forall k,
             serviceExists req (after k [])
             = match answerAt c0 k with
               | inl err =>
                   Done (false,
                         Some (Wrapf err
                                 "Checking Service resource status failed"))
                        (after (Datatypes.S k) [])
               | inr res =>
                   if String.eqb (ServiceType res) ServiceTypeLoadBalancer then
                     match LoadBalancerIngress res with
                     | [] => Done (false, None) (after (Datatypes.S k) [])
                     | _ :: _ =>
                         match Ports res with
                         | port :: _ =>
                             Done (true, None)
                                  (after (Datatypes.S k)
                                     (LogServiceDetails (Name o)
                                        :: List.map
                                             (fun ip =>
                                                LogServiceAddress ip port)
                                             (LoadBalancerIngress res)))
                         | [] =>
                             Aborted (Panic "index out of range")
                                     (after (Datatypes.S k)
                                            [LogServiceDetails (Name o)])
                         end
                     end
                   else Done (true, None) (after (Datatypes.S k) [])
               end).
  { intros k. rewrite serviceExists_run by congruence.
    rewrite defaultNamespace_idem, Hn. subst after. cbn beta.
    cbn [cluster calls logged Nat.iter]. rewrite !app_nil_r.
    assert (Hsent : forall sent : list Call,
               (sent ++ repeat (CallGet Services ns (Name o)) k)
                 ++ [CallGet Services ns (Name o)]
               = sent ++ repeat (CallGet Services ns (Name o)) (Datatypes.S k)).
    { intros sent. rewrite <- app_assoc. f_equal. symmetry.
      apply repeat_cons. }
    rewrite Hsent. reflexivity. }
  assert (Hstill : forall k, pending k ->
            serviceExists req (after k [])
            = Done (false, None) (after (Datatypes.S k) [])).
  { intros k (res & Hres & Hty & Hing).
    now rewrite Hstep, Hres, Hty, String.eqb_refl, Hing. }
  rewrite Hrun. split; [| split; [| split]].
  - intros k res Hlt Hbefore Hans Hty.
    apply (poll_settled _ _ _ (fun k => after k []) GlobalRetryCount 0 k
             true None);
      [exact Hlt | intros j Hj; apply Hstill; now apply Hbefore | |
       discriminate].
    cbn beta. cbn [Nat.add]. rewrite Hstep, Hans.
    apply String.eqb_neq in Hty. now rewrite Hty.
  - intros k res port ports Hlt Hbefore Hans Hty Hing Hports.
    apply (poll_settled _ _ _ (fun k => after k []) GlobalRetryCount 0 k
             true None);
      [exact Hlt | intros j Hj; apply Hstill; now apply Hbefore | |
       discriminate].
    cbn beta. cbn [Nat.add]. rewrite Hstep, Hans, Hty, String.eqb_refl, Hports.
    destruct (LoadBalancerIngress res); [contradiction | reflexivity].
  - intros k e Hlt Hbefore Hans.
    apply (poll_settled _ _ _ (fun k => after k []) GlobalRetryCount 0 k false
             (Some (Wrapf e "Checking Service resource status failed")));
      [exact Hlt | intros j Hj; apply Hstill; now apply Hbefore | |
       discriminate].
    cbn beta. cbn [Nat.add]. now rewrite Hstep, Hans.
  - intros Hnever.
    apply (poll_exhausted _ _ _ (fun k => after k []) GlobalRetryCount 0).
    intros j Hj. apply Hstill. now apply Hnever.
Qed.

End ServiceWait.

Lemma serviceApply_waits_for_an_address_witness :
  @serviceApply _ (Store.client Demo.neverReady) Demo.constants
    Samples.balancer Store.start
  = Done (Some (TimeoutError "applying service:grafana" 3))
         (mkWorld (Store.mkCluster
                     [Store.mkEntry Services "bench-42" Samples.balancer] 5)
                  [CallList Services "bench-42";
                   CallCreate Services "bench-42" Samples.balancer;
                   CallGet Services "bench-42" "grafana";
                   CallGet Services "bench-42" "grafana";
                   CallGet Services "bench-42" "grafana"]
                  [LogResourceCreated "Service" "grafana"]).
Proof.
  refine (proj2 (proj2 (proj2
            (@serviceApply_waits_for_an_address _
               (Store.client Demo.neverReady) Demo.constants
               Samples.balancer eq_refl eq_refl Store.start []
               eq_refl eq_refl eq_refl))) _).
  intros j Hj.
  destruct j as [| [| [| j]]];
    [ | | | exfalso; revert Hj; vm_compute; lia ];
    (eexists; split; [reflexivity | split; reflexivity]).
Defined.

Lemma decode_failure_leaves_the_earlier_sections_applied_witness :
  let failure :=
    Wrapf Samples.unregistered
          ("decoding the resource file:" +:+ FileName Samples.halfBad
             +:+ ", section:"
             +:+ String.substring 0 100 (GoStrings.TrimSpace Samples.widget)
             +:+ "...") in
  @Legacy.ResourceApply _ (Store.client Demo.neverReady) Demo.constants
    Demo.decoder ([Samples.twoObjects] ++ Samples.halfBad :: [Samples.blank])
    Store.start
  = (range (@resourcesOf Demo.decoder [Samples.twoObjects])
           (fun d => range (Objects d)
                           (applyResource
                              (@applyCases _ (Store.client Demo.neverReady)
                                 Demo.constants)
                              (ResourceFileName d))) ;;
     range (@decoded Demo.decoder (kept ["ConfigMap settings bench-42"]))
           (applyResource
              (@applyCases _ (Store.client Demo.neverReady) Demo.constants)
              (FileName Samples.halfBad)) ;;
     ret (Some failure)) Store.start
  /\ @Pkg.DeploymentsParse _ Demo.decoder
       (inr ([Samples.twoObjects] ++ Samples.halfBad :: [Samples.blank])) []
       Store.start
     = Done ([] ++ @resourcesOf Demo.decoder [Samples.twoObjects],
             Some failure)
            Store.start.
Proof.
  apply (@decode_failure_leaves_the_earlier_sections_applied
            _ (Store.client Demo.neverReady) Demo.constants Demo.decoder
            [Samples.twoObjects] [Samples.blank] Samples.halfBad
            ["ConfigMap settings bench-42"] [] Samples.widget
            Samples.unregistered [] Store.start).
  - apply (@decodes_check Demo.decoder). vm_compute. reflexivity.
  - vm_compute. reflexivity.
  - constructor; [| constructor].
    exists (Some (Demo.object "ConfigMap" "settings" "bench-42"
                    (apiCoreV1_ConfigMap, "v1"))).
    vm_compute. reflexivity.
  - apply Nat.leb_le. vm_compute. reflexivity.
  - vm_compute. reflexivity.
Defined.
